(* ===== verification/_CoqProject ===== *)
-Q . S2P
Prelude.v
LinkedList.v
Label.v
Memory.v
Client.v
Chunk.v
Heap.v
Consolidate.v
Os.v
Malloc.v
Free.v
Frame.v
Lock.v
Protection.v
UnitLookup.v
Requests.v
AllocSpec.v
Blocks.v
BlocksMalloc.v
BlocksSpec.v
Protocol.v
Arbiter.v
LibClient.v
Scenario.v
Defects.v
Policy.v
HeapBlocks.v
Server.v
Rpc.v
Pte.v
Vma.v
VmaSpec.v
FreeArea.v
Kernel.v
Resources.v
Mprotect.v
FreeAreaSpec.v
Regions.v
Group.v
KernelSpec.v
Fork.v
Unmap.v
Map.v
KernelLaws.v
Fault.v
FaultSpec.v
Channel.v
Mremap.v
Mmap.v
Futex.v
System.v
KernelDefects.v
