(* ===== verification/Prelude.v ===== *)
(** * ArbiterThread: a verification library

    ArbiterThread runs the threads of an application as separate processes
    that share a heap, the channel, and lets a privileged process, the arbiter,
    decide which thread may access which part of it.  Its parts, under
    [src/arbiter]:

    - the client library ([client_module/lib_client.c]) turns API calls
      ([ab_malloc], [create_category], [ab_pthread_create], ...) into request
      datagrams ([common/include/abthread_protocol.h]);
    - the arbiter ([monitor/arbiter.c], [monitor/ipc.c]) receives them, looks
      the sender up in the client table ([monitor/client.c], over
      [common/lib/linked_list.c]), checks labels ([monitor/label.c]), serves
      the request with the channel allocator ([monitor/ablib_*.c]) and replies;
    - the allocator divides the channel into units of ten pages, each with one
      label, and sets the page protections of every thread with the system
      calls of [common/include/ab_os_interface.h];
    - the kernel ([arbiter-kernel/linux-2.6.32]) implements these calls
      ([kernel/absys_mmap.c], [kernel/absys_mprotect.c],
      [kernel/absys_thread_control.c] and additions to [mm/mmap.c],
      [mm/mprotect.c], [kernel/fork.c]) for the threads of the control group of
      the arbiter, and keeps the threads from changing the arbiter's pages.  A
      thread that touches a page of the channel gets the arbiter's frame of that
      page ([arch/x86/mm/fault.c], [mm/memory.c], [abmap_get_page]), the global
      data of a thread is shared with the threads it creates, and futexes there
      have a key for all of them ([kernel/futex.c]).

    The promise of the whole is the label policy: a thread reads a page of the
    channel only if information may flow from the label of its unit to the
    thread, and writes it only if it may flow both ways.  [System.system_policy]
    states it of the arbiter's code on the kernel's code, as far as it holds:
    the thread whose request adds a unit is exempt on that unit, and the runs
    are limited as the sections on bounds and on what is not modelled say.

    ** Files

    Shared: this file (outcomes and state monad of C code, bounded loops,
    32-bit arithmetic, tactics, lemmas on lists and maps); [Memory]
    (byte-addressed store).

    Arbiter and client library:
    - [LinkedList]: [linked_list.c]; [Client]: [client.c]; [Label]: [label.c];
    - [Chunk]: the size, bin and flag macros of [ablib_malloc.h]; [Heap]: the
      structures and chunk macros; [Consolidate], [Malloc], [Free]: the
      allocator's functions;
    - [Os]: the system calls as a class [AbOs], the laws [AbOsLaws] the arbiter
      relies on, and [abkern], the kernel the comments of [ab_os_interface.h]
      describe;
    - [Protocol], [Arbiter], [LibClient]: messages with a class [Wire] for their
      layout, the handlers and server loop, the stubs.

    Theorems about them:
    - [LinkedList], [Client]: the pointer structures refine a sequence, lookups
      by address and by pid agree, removal removes one client;
    - [Label]: [check_label] decides a set-based flow relation; what
      [check_mem_prot] grants; delegation; distinctness, wrap-around and forgery
      of categories;
    - [Chunk], [AllocSpec]: sizes and bins, the fastbin round trip and what a
      link that a client has overwritten does to it, overflow of calloc,
      clearing, scan of the bin map;
    - [Frame], [Lock]: the chunk-level code, as far as it stays inside the
      channel and the bins, keeps everything the protection rests on; depth of
      the recursion and state of the lock;
    - [Protection], [UnitLookup], [Requests]: the allocator sets the protections
      of the policy, exactly, against a specification ([exact_perm]) that is
      stated with the flow relation alone; access to a new unit, also where the
      policy fails; [Policy]: the server, interleaved with clients, keeps the
      policy; [Server]: exact effect of every request on the client table,
      rejected requests without effect, the access a fork sets, requests that
      stop the arbiter; [Rpc]: stub, wire, server and reply composed;
    - [Blocks], [BlocksMalloc], [BlocksSpec], [HeapBlocks]: the heap as its
      users see it.  [Blocks] states what a map of chunks and the lists of the
      fastbins say of memory, [BlocksMalloc] follows the allocator through it
      stage by stage, [BlocksSpec] has the abstract heap, a set of disjoint
      labelled blocks with contents, and the simulation; [HeapBlocks] concludes
      that the channel heap refines it from start-up on, which requests are
      answered, and where the refinement ends;
    - [Scenario], [Defects]: concrete runs, which show the defects that the
      theorems state in general.

    Kernel:
    - [Pte]: page table entries, protections and frames; [Vma]: areas, and the
      searches, merges, splits and links of [mm/mmap.c]; [Kernel]: the arbiter's
      calls and the control groups; [Fork]: the copy of a task, with its page
      table, and its entry into the group; [Fault]: page faults, and loads and
      stores of programs as accesses that fault until they are let through;
      [FreeArea]: the search for a free range; [Mremap], [Mmap]: [munmap],
      [mremap] and [mmap] as a thread calls them; [Futex]: keys, waiting and
      waking;
    - [FreeAreaSpec]: the search finds a free range or there is none, and from
      the bottom up it is first fit;
    - [VmaSpec], [Resources], [Mprotect], [Regions], [Group]: the invariant of
      an address space, its pages as a function [view_at] from addresses to
      (the arbiter's or not, access), and what each operation does to it;
    - [KernelSpec], [Unmap], [Map], [Fork]: the calls on the whole kernel, as
      changes of the function [kview] from tasks and addresses;
    - [FaultSpec]: faults change page tables and frames only, and entries never
      grant more than the flags of their area, nor do the entries that calls and
      forks leave; [Channel]: accesses of programs: what they cannot do, the
      signal they get then, that permitted ones complete, and that a byte stored
      by one thread is the byte another one loads; in [Mremap] and [Mmap], that a
      thread rearranges no address space but its own, what it gets where, and
      that [mmap] never gives it a page of the arbiter; in
      [Futex], that a mutex in global data works between a thread and the
      threads it creates;
    - [KernelLaws]: the kernel, seen through the [syscall] wrappers, satisfies
      [AbOsLaws], so the theorems of [Policy] hold on it; [System]: the composed
      system, down to page table entries; [KernelDefects]: behaviour the
      comments of the code exclude, two cases of it for all kernels and the
      others as examples.

    ** Correspondence of state and operations

    A C function is a computation in the state monad [st] over the component's
    record: [linked_list], [arbiter_thread], [heap], [world], [mst] (an address space and
    the schedule of resources), [kernel] (tasks, and in [k_phys] frames, shared
    memory objects and anonymous lists).  It returns a value or a [fault]: a
    bad access, a failed assertion, [abort], a second acquisition of the lock, a
    kernel access to a task or area that is not there, or [Wild], an access of
    the allocator outside the channel and the bins.  Pointers are addresses
    (the allocator, the lists) or positions in a list (kernel areas); words are
    [Z] with the wrap-around of 32 bits written out.  Definitions have the names
    of the functions they translate; where a C function is long it is cut at its
    labels and loop bodies.

    Values that other code supplies are arguments: datagrams, unset stack bytes,
    results of [sendto], the security module and sysctls of the kernel
    ([kconf]), the open files of a caller of [mmap], the operations of files other than shared memory objects
    ([vm_operations]), and whether allocations of the kernel succeed (the schedule
    [m_res]/[k_res], one answer per request, success after its end).

    The fields of an address space with which the search for a free range
    remembers where it stopped are a record of their own, [area_cache]: a call
    finds any contents in them, and what the search, unmapping, [fork] and
    [exec] make of them is in [FreeArea].

    A page table is a map from page numbers to entries.  The number of entries
    for a frame is counted in the tables where the code asks for it.  In
    [System] the memory that the allocator reads and the frames of the kernel
    are two models of the channel's contents: the policy theorems hold whatever
    the first contains, and [Channel] is about the second.

    ** Bounds

    - [while] and [loopM] run a loop for at most 2^32 iterations and then report
      [Hang]; a theorem that a function returns excludes it.  No loop of the
      code that advances an address can go further.
    - [ablib_malloc] calls itself through [__malloc_alloc]; the model has fuel 2,
      and [Lock.malloc_two_levels] shows that more gives the same result.
    - [munmap_back] retries once after unmapping; [munmap_back_spec] shows that
      the second round finds the range free.
    - an access is retried after each fault; [Channel.touch_spec] shows that a
      permitted access to the channel ends.  [abmap_get_page] enters the fault
      code again for the arbiter's own page; the arbiter's areas are not an
      arbiter's, so it does so once, and [fail KernelOops] stands for the second
      time.
    - the search from the top down is a [while]; [FreeAreaSpec.topdown_loop] shows
      that it ends, and [search_finds_free] that the value that stands for a
      loop without end is never returned.
    - the walk over the ring of tasks is bounded by the number of tasks;
      [list_for_each_ring] shows this is enough for a ring.
    - the policy theorems are about requests of at most [MAX_SMALL] = 40924
      bytes, those that fit into a unit with a remainder, and forks that name a
      new thread of the group; what happens beyond is stated by
      [Protection.alloc_unit_access] and [Server.fork_sets_access].
    - the refinement of [HeapBlocks] is about requests of at most [MAX_SMALL]
      bytes, of less than 256 once chunks of their label were released, and
      releases of chunks of fastbin size (up to 72 bytes) that have the size of
      their request.  A chunk that took the slack at the end of a unit has not,
      and after its release blocks in use can overlap
      ([HeapBlocks.slack_overlap]); so the condition cannot be dropped.
    - [KernelLaws] and [System] assume that the kernel's memory does not run
      out, that [vm.max_map_count] exceeds the number of areas an address space
      can hold and that the security module lets [mprotect] pass: [prot_update]
      ignores a failing [absys_mprotect].

    ** Not modelled

    - The arbiter's own memory as bytes.  The allocator follows links that lie
      in memory clients can write ([AllocSpec.fastbin_link_trusted]); a corrupted
      one can lead to the arbiter's globals, stack or C heap, where the program
      loads and stores.  The model keeps these as records, so such an access ends
      the run with [Wild], and no theorem says anything about what follows: the
      theorems about runs cover those in which no step ends so.
    - Swapping, reclaim and migration of pages, huge pages, non-linear mappings,
      the translation buffer, faults of the kernel itself and work-arounds for
      errata.  Pages of locked areas come in with their first fault.
    - Of futexes: requeueing, priority inheritance, robust lists, timeouts and
      the reference counts of keys.
    - Regular bins: the merging of released chunks and the searches of the bins
      are modelled, but what is proved of them is that they keep everything the
      protection rests on ([Frame]), not that they serve disjoint blocks.
    - Two calls at the same time: every call of the model is atomic.  The
      creation of a thread and its [absys_thread_control] are one step of
      [System].
    - [brk] and the remaining calls of plain Linux, exit of tasks (the code never
      takes a task out of its ring), and the rest of Linux, which the project
      does not change.  The steps of [System] do not include [munmap], [mmap]
      and [mremap] of clients: the code does not guard them.  The policy does not
      survive [mremap] ([KernelDefects.mremap_grants_access]), and a mapping
      of a client behind the break stops the arbiter
      ([KernelDefects.page_stops_arbiter]).
    - The memory that the allocator reads through the page table of the
      arbiter: it is a model of its own (see above).
    - Creation of sockets, the exec of the application, tests, benchmarks, cycle
      counters and debugging output. *)

From stdpp Require Export base tactics numbers list gmap strings pretty.
From Stdlib Require Export ZArith Lia.

#[global] Open Scope Z_scope.

(** Facts the components hand to each other. *)
Create HintDb arb.

(** * Outcomes of C code

    A call returns a value or the process stops: a bad memory access, a
    failed [assert], a call of [abort], a lock taken twice by the only thread,
    a loop that exceeds every bound of the address space, or a system call in
    which the kernel itself makes an invalid access.  [Wild] is not a stop of
    the process but the end of the model: the code follows a pointer it read
    from memory that clients can write to an address outside the memory the
    model keeps.  The program goes on there with whatever it finds, and nothing
    is claimed of it. *)

Inductive fault :=
| Segv
| Wild
| AssertFail
| AbortCall
| Deadlock
| Hang
| KernelOops.

Inductive outcome (A : Type) :=
| Ret (a : A)
| Fault (f : fault).
Arguments Ret {A} a.
Arguments Fault {A} f.

#[export] Instance fault_eq_dec : EqDecision fault.
Proof. solve_decision. Defined.

#[export] Instance outcome_ret : MRet outcome := λ A a, Ret a.
#[export] Instance outcome_bind : MBind outcome := λ A B k m,
  match m with Ret a => k a | Fault f => Fault f end.

(** A computation over a state [S] that may stop. *)
Definition st (S A : Type) : Type := S → outcome (A * S).

#[export] Instance st_ret {S} : MRet (st S) := λ A a s, Ret (a, s).
#[export] Instance st_bind {S} : MBind (st S) := λ A B k m s,
  match m s with Ret (a, s') => k a s' | Fault f => Fault f end.

Lemma bind_ret {S A B} (m : st S A) (k : A → st S B) s a s' : m s = Ret (a, s') → (m ≫= k) s = k a s'.
Proof. intros E. unfold mbind, st_bind. by rewrite E. Qed.

Definition get {S} : st S S := λ s, Ret (s, s).
Definition gets {S A} (f : S → A) : st S A := λ s, Ret (f s, s).
Definition put {S} (s : S) : st S unit := λ _, Ret (tt, s).
Definition modify {S} (f : S → S) : st S unit := λ s, Ret (tt, f s).
Definition fail {S A} (f : fault) : st S A := λ _, Fault f.
Definition lift {S A} (o : outcome A) : st S A := λ s,
  match o with Ret a => Ret (a, s) | Fault f => Fault f end.

(** [assert (b)] of the C code: the builds define no NDEBUG. *)
Definition assertb {S} (b : bool) : st S unit :=
  λ s, if b then Ret (tt, s) else Fault AssertFail.
Definition assert_ (b : bool) : outcome unit :=
  if b then Ret tt else Fault AssertFail.

(** [when b m] is [if (b) m]. *)
Definition when {S} (b : bool) (m : st S unit) : st S unit :=
  if b then m else mret tt.

(** * Loops

    A C loop is iterated by doubling: [loop k] runs its body at most [2^k]
    times and stops at the first [inr].  With [k = 32] the bound exceeds the
    number of objects an address space of 32 bits holds, so a terminating C
    loop never reaches it. *)

Section Loop.
Context {St R : Type}.
Variable body : St → outcome (St + R).

Fixpoint loop (k : nat) (s : St) : outcome (St + R) :=
  match k with
  | O => body s
  | S k' =>
      match loop k' s with
      | Ret (inl s') => loop k' s'
      | r => r
      end
  end.

(** The same loop with an explicit number of iterations. *)
Fixpoint iters (n : nat) (s : St) : outcome (St + R) :=
  match n with
  | O => Ret (inl s)
  | S n' =>
      match body s with
      | Ret (inl s') => iters n' s'
      | r => r
      end
  end.

Lemma iters_add n m s :
  iters (n + m) s =
    match iters n s with Ret (inl s') => iters m s' | r => r end.
Proof.
  revert s; induction n as [|n IH]; intros s; simpl; [done|].
  destruct (body s) as [[s'|r]|f]; auto.
Qed.

Lemma loop_iters k s : loop k s = iters (2 ^ k)%nat s.
Proof.
  revert s; induction k as [|k IH]; intros s; simpl.
  - by destruct (body s) as [[]|].
  - rewrite Nat.add_0_r, iters_add, IH.
    by destruct (iters (2 ^ k)%nat s) as [[s'|]|].
Qed.

Lemma iters_more n m s r :
  (n ≤ m)%nat → iters n s = Ret (inr r) → iters m s = Ret (inr r).
Proof.
  intros Hle Hn. replace m with (n + (m - n))%nat by lia.
  by rewrite iters_add, Hn.
Qed.
End Loop.

(** A whole C loop: the result of the exit, or [Hang]. *)
Definition while {St R} (body : St → outcome (St + R)) (s : St) : outcome R :=
  match loop body 32 s with
  | Ret (inr r) => Ret r
  | Ret (inl _) => Fault Hang
  | Fault f => Fault f
  end.

Lemma while_iters {St R} (body : St → outcome (St + R)) n s r :
  Z.of_nat n ≤ 2 ^ 32 → iters body n s = Ret (inr r) → while body s = Ret r.
Proof.
  intros Hn Hit. unfold while. rewrite loop_iters.
  rewrite (iters_more _ n _ s r); [done| |done].
  apply Nat2Z.inj_le. rewrite Nat2Z.inj_pow. exact Hn.
Qed.

Lemma while_fault {St R} (body : St → outcome (St + R)) n s f :
  Z.of_nat n ≤ 2 ^ 32 → iters body n s = Fault f → while body s = Fault f.
Proof.
  intros Hn Hit. unfold while. rewrite loop_iters.
  assert (n ≤ 2 ^ 32)%nat as Hle
    by (apply Nat2Z.inj_le; rewrite Nat2Z.inj_pow; exact Hn).
  revert Hle. generalize (2 ^ 32)%nat. intros m Hle.
  replace m with (n + (m - n))%nat by lia.
  by rewrite iters_add, Hit.
Qed.

(** Partial correctness of a loop: an invariant of the body that implies the
    postcondition at the exit holds of whatever the loop returns. *)
Lemma while_inv {St R} (body : St → outcome (St + R)) (P : St → Prop) (Q : R → Prop) s :
  P s →
  (∀ s, P s → match body s with
              | Ret (inl s') => P s' | Ret (inr r) => Q r | Fault _ => True end) →
  match while body s with Ret r => Q r | Fault _ => True end.
Proof.
  intros HP Hb. unfold while. rewrite loop_iters. revert s HP.
  induction (2 ^ 32)%nat as [|n IH]; intros s HP; simpl; [done|].
  specialize (Hb s HP). destruct (body s) as [[s'|r]|f]; [by apply IH|done|done].
Qed.

Lemma while_post {St R} (body : St → outcome (St + R)) (P : St → Prop) (Q : R → Prop) s r :
  while body s = Ret r → P s →
  (∀ s, P s → match body s with
              | Ret (inl s') => P s' | Ret (inr r) => Q r | Fault _ => True end) →
  Q r.
Proof. intros E HP Hb. pose proof (while_inv body P Q s HP Hb) as Hw. by rewrite E in Hw. Qed.

(** Total correctness, with a measure *)
Lemma while_total {St R} (body : St → outcome (St + R)) (P : St → Prop) (Q : R → Prop) (μ : St → Z) s :
  P s → μ s < 2 ^ 32 →
  (∀ s, P s → match body s with
              | Ret (inl s') => P s' ∧ 0 ≤ μ s' < μ s | Ret (inr r) => Q r | Fault _ => False end) →
  ∃ r, while body s = Ret r ∧ Q r.
Proof.
  intros HP Hm Hb.
  assert (∀ n s, P s → μ s < Z.of_nat n → ∃ r, iters body (Nat.max 1 n) s = Ret (inr r) ∧ Q r) as H.
  { induction n as [|n IH]; intros t Ht Hn; specialize (Hb t Ht); simpl;
      destruct (body t) as [[s'|r]|f]; try done; try (by exists r); destruct Hb as [Hp Hl]; [lia|].
    destruct n; [lia|]. apply IH; [done|lia]. }
  destruct (H (Z.to_nat (Z.max 0 (μ s + 1))) s HP ltac:(lia)) as (r & E & HQ). exists r. split; [|done].
  apply (while_iters _ (Nat.max 1 (Z.to_nat (Z.max 0 (μ s + 1))))); [lia|done].
Qed.

(** A loop over a state, with the loop variables [v]. *)
Definition loop_body {S V R} (body : V → st S (V + R)) (x : V * S) : outcome (V * S + R * S) :=
  match body x.1 x.2 with
  | Ret (inl v', s') => Ret (inl (v', s'))
  | Ret (inr r, s') => Ret (inr (r, s'))
  | Fault f => Fault f
  end.
Definition loopM {S V R} (body : V → st S (V + R)) (v : V) : st S R := λ s,
  while (loop_body body) (v, s).

(** Conversion unfolds loops last: [while] reduces to [2^32] iterations. *)
#[global] Strategy 1000 [loop while].

Lemma loopM_unfold {S V R} (body : V → st S (V + R)) v s :
  loopM body v s = while (loop_body body) (v, s).
Proof. done. Qed.

(** An invariant of the state holds after the loop; [Q] is what the exit
    establishes on top of it. *)
Lemma loopM_post {S V R} (body : V → st S (V + R)) (P : V → S → Prop) (Q : R → S → Prop) v s r s' :
  loopM body v s = Ret (r, s') → P v s →
  (∀ v s, P v s → match body v s with
                  | Ret (inl v', s') => P v' s' | Ret (inr r, s') => Q r s' | Fault _ => True end) →
  Q r s'.
Proof.
  intros E Hs Hb. rewrite loopM_unfold in E.
  refine (while_post (loop_body body) (λ x, P x.1 x.2) (λ x, Q x.1 x.2) _ _ E Hs _).
  intros [w t] Ht. unfold loop_body. simpl in *. specialize (Hb w t Ht).
  destruct (body w t) as [[[x|x] t']|]; done.
Qed.

(** A loop that never exits *)
Lemma loopM_stuck {S V R} (body : V → st S (V + R)) (P : V → S → Prop) v s :
  P v s → (∀ v s, P v s → ∃ v' s', body v s = Ret (inl v', s') ∧ P v' s') → loopM body v s = Fault Hang.
Proof.
  intros HP Hb. rewrite loopM_unfold. unfold while. rewrite loop_iters.
  assert (∀ n v s, P v s → ∃ v' s', iters (loop_body body) n (v, s) = Ret (inl (v', s'))) as H.
  { induction n as [|n IH]; intros w t Ht; simpl; [by eexists _, _|]. destruct (Hb w t Ht) as (w' & t' & E & Ht').
    unfold loop_body at 1. simpl. rewrite E. by apply IH. }
  destruct (H (2 ^ 32)%nat v s HP) as (v' & s' & E). by rewrite E.
Qed.

(** Loops of one and of two rounds *)
Lemma loopM_one {S V R} (body : V → st S (V + R)) v s r s' : body v s = Ret (inr r, s') → loopM body v s = Ret (r, s').
Proof. intros E. rewrite loopM_unfold. apply (while_iters _ 1); [lia|]. simpl. unfold loop_body. simpl. by rewrite E. Qed.
Lemma loopM_two {S V R} (body : V → st S (V + R)) v s v1 s1 r s' :
  body v s = Ret (inl v1, s1) → body v1 s1 = Ret (inr r, s') → loopM body v s = Ret (r, s').
Proof.
  intros E1 E2. rewrite loopM_unfold. apply (while_iters _ 2); [lia|]. simpl. unfold loop_body. simpl. rewrite E1. simpl. by rewrite E2.
Qed.

(** * Machine integers *)

Definition u8 (z : Z) : Z := z `mod` 2 ^ 8.
Definition u32 (z : Z) : Z := z `mod` 2 ^ 32.
Definition u64 (z : Z) : Z := z `mod` 2 ^ 64.

(** The value of a 32-bit pattern read as a signed [int]. *)
Definition s32 (z : Z) : Z := if u32 z <? 2 ^ 31 then u32 z else u32 z - 2 ^ 32.

(** Bitwise complement of a 32-bit word. *)
Definition not32 (z : Z) : Z := 2 ^ 32 - 1 - u32 z.

Lemma u32_bound z : 0 ≤ u32 z < 2 ^ 32.
Proof. apply Z.mod_pos_bound. lia. Qed.
Lemma u8_bound z : 0 ≤ u8 z < 2 ^ 8.
Proof. apply Z.mod_pos_bound. lia. Qed.
Lemma u32_small z : 0 ≤ z < 2 ^ 32 → u32 z = z.
Proof. apply Z.mod_small. Qed.
Lemma u8_small z : 0 ≤ z < 2 ^ 8 → u8 z = z.
Proof. apply Z.mod_small. Qed.
Lemma u32_u32 z : u32 (u32 z) = u32 z.
Proof. apply u32_small, u32_bound. Qed.

Lemma s32_inj a b : 0 ≤ a < 2 ^ 32 → 0 ≤ b < 2 ^ 32 → s32 a = s32 b → a = b.
Proof.
  intros Ha Hb. unfold s32. rewrite !u32_small by done.
  destruct (Z.ltb_spec a (2 ^ 31)), (Z.ltb_spec b (2 ^ 31)); lia.
Qed.

(** * Little-endian byte sequences

    Structures are laid out as on i386: a multi-byte integer is stored with
    its low byte first.  The same code reads an 8-byte array as a [uint64_t]. *)

Fixpoint le_enc (n : nat) (z : Z) : list Z :=
  match n with
  | O => []
  | S n' => u8 z :: le_enc n' (z / 2 ^ 8)
  end.

Fixpoint le_dec (bs : list Z) : Z :=
  match bs with
  | [] => 0
  | b :: bs' => b + 2 ^ 8 * le_dec bs'
  end.

Definition is_byte (z : Z) : Prop := 0 ≤ z < 2 ^ 8.

Lemma length_le_enc n z : length (le_enc n z) = n.
Proof. revert z; induction n; intros z; simpl; auto. Qed.

Lemma le_enc_bytes n z : Forall is_byte (le_enc n z).
Proof.
  revert z; induction n; intros z; simpl; constructor; auto. apply u8_bound.
Qed.

Lemma le_dec_bound bs :
  Forall is_byte bs → 0 ≤ le_dec bs < 2 ^ (8 * Z.of_nat (length bs)).
Proof.
  induction 1 as [|b bs Hb _ IH]; simpl length; cbn [le_dec]; [lia|].
  rewrite Nat2Z.inj_succ, Z.mul_succ_r, Z.add_comm, Z.pow_add_r by lia.
  unfold is_byte in Hb. nia.
Qed.

Lemma le_dec_enc n z : le_dec (le_enc n z) = z `mod` 2 ^ (8 * Z.of_nat n).
Proof.
  revert z; induction n as [|n IH]; intros z; cbn [le_enc le_dec].
  { by rewrite Z.mod_1_r. }
  rewrite IH. unfold u8.
  replace (8 * Z.of_nat (S n)) with (8 + 8 * Z.of_nat n) by lia.
  rewrite Z.pow_add_r, Z.rem_mul_r by lia. lia.
Qed.

Lemma le_enc_dec bs : Forall is_byte bs → le_enc (length bs) (le_dec bs) = bs.
Proof.
  induction 1 as [|b bs Hb _ IH]; [done|]; cbn [le_enc le_dec length].
  unfold is_byte in Hb. f_equal.
  - unfold u8. rewrite Z.mul_comm, Z.mod_add by lia. by apply Z.mod_small.
  - rewrite Z.mul_comm, Z.div_add by lia.
    rewrite Z.div_small by lia. exact IH.
Qed.

Lemma le_dec_inj bs cs :
  Forall is_byte bs → Forall is_byte cs → length bs = length cs →
  le_dec bs = le_dec cs → bs = cs.
Proof.
  intros Hb Hc Hl He. rewrite <-(le_enc_dec bs), <-(le_enc_dec cs) by done.
  by rewrite Hl, He.
Qed.
