(* ===== verification/LinkedList.v ===== *)
(** The doubly linked list of [common/lib/linked_list.c] and
    [common/include/lib/linked_list.h].

    A list is its [head], [tail] and [num] fields together with the nodes that
    libc's [malloc] returned for it, keyed by their addresses.  [NULL] is
    address 0; reading a node that is not allocated is a bad access.  The
    abstract contents of a list are the pairs (node address, datum) from head
    to tail; [ll_rep] relates the pointer structure to them, and every
    operation is proved to return (never to stop) and to act on the abstract
    contents as a list function. *)

From S2P Require Import Prelude.

Record list_node := Node { data : Z; prev : Z; next : Z }.

Record linked_list := LinkedList {
  head : Z;
  tail : Z;
  num : Z;
  nodes : gmap Z list_node;
}.

#[export] Instance list_node_eq_dec : EqDecision list_node.
Proof. solve_decision. Defined.

(** [init_linked_list] *)
Definition init_linked_list : linked_list := LinkedList 0 0 0 ∅.

(** Reading [*p]. *)
Definition read_node (l : linked_list) (p : Z) : outcome list_node :=
  match nodes l !! p with Some n => Ret n | None => Fault Segv end.

(** [p->prev = q] and [p->next = q]. *)
Definition set_prev (p q : Z) (l : linked_list) : outcome linked_list :=
  n ← read_node l p;
  Ret (LinkedList (head l) (tail l) (num l) (<[p := Node (data n) q (next n)]> (nodes l))).
Definition set_next (p q : Z) (l : linked_list) : outcome linked_list :=
  n ← read_node l p;
  Ret (LinkedList (head l) (tail l) (num l) (<[p := Node (data n) (prev n) q]> (nodes l))).

Definition set_head_ptr (p : Z) (l : linked_list) : linked_list :=
  LinkedList p (tail l) (num l) (nodes l).
Definition set_tail_ptr (p : Z) (l : linked_list) : linked_list :=
  LinkedList (head l) p (num l) (nodes l).
Definition add_num (d : Z) (l : linked_list) : linked_list :=
  LinkedList (head l) (tail l) (s32 (num l + d)) (nodes l).
Definition put_node (p : Z) (n : list_node) (l : linked_list) : linked_list :=
  LinkedList (head l) (tail l) (num l) (<[p := n]> (nodes l)).
Definition free_node (p : Z) (l : linked_list) : linked_list :=
  LinkedList (head l) (tail l) (num l) (delete p (nodes l)).

(** [malloc(sizeof(struct list_node))]: an address no live node has, or
    [NULL] when the address space is used up. *)
Definition malloc_node (l : linked_list) : Z :=
  let p := map_fold (λ k _ r, Z.max k r) 0 (nodes l) + 1 in
  if p <? 2 ^ 32 then p else 0.

(** [list_insert_head]; [new] is the address [malloc] returned. *)
Definition list_insert_head (new : Z) (l : linked_list) (d : Z) : outcome linked_list :=
  assert_ (negb (new =? 0));;
  let l1 := put_node new (Node d 0 (head l)) l in
  l2 ← (if head l =? 0 then Ret (set_tail_ptr new l1) else set_prev (head l) new l1);
  Ret (add_num 1 (set_head_ptr new l2)).

(** [list_insert_tail] *)
Definition list_insert_tail (new : Z) (l : linked_list) (d : Z) : outcome linked_list :=
  assert_ (negb (new =? 0));;
  let l1 := put_node new (Node d (tail l) 0) l in
  l2 ← (if tail l =? 0 then Ret (set_head_ptr new l1) else set_next (tail l) new l1);
  Ret (add_num 1 (set_tail_ptr new l2)).

(** [list_del_entry]: the datum of the node and the list without it. *)
Definition list_del_entry (l : linked_list) (entry : Z) : outcome (Z * linked_list) :=
  l1 ← (if entry =? head l
        then n ← read_node l (head l); Ret (set_head_ptr (next n) l) else Ret l);
  l2 ← (if entry =? tail l1
        then n ← read_node l1 (tail l1); Ret (set_tail_ptr (prev n) l1) else Ret l1);
  e ← read_node l2 entry;
  l3 ← (if prev e =? 0 then Ret l2 else set_next (prev e) (next e) l2);
  e ← read_node l3 entry;
  l4 ← (if next e =? 0 then Ret l3 else set_prev (next e) (prev e) l3);
  e ← read_node l4 entry;
  Ret (data e, add_num (-1) (free_node entry l4)).

(** [list_remove_head] and [list_remove_tail]; [NULL] from an empty list. *)
Definition list_remove_head (l : linked_list) : outcome (Z * linked_list) :=
  if head l =? 0 then Ret (0, l) else list_del_entry l (head l).
Definition list_remove_tail (l : linked_list) : outcome (Z * linked_list) :=
  if tail l =? 0 then Ret (0, l) else list_del_entry l (tail l).

(** The loop [for (ptr = list->head; ptr != NULL; ptr = ptr->next)]: the body
    gets the node's address and datum and may leave the loop with [inr]; [fin]
    is what the code after the loop returns. *)
Definition walk {St R} (l : linked_list) (body : Z → Z → St → outcome (St + R))
    (fin : St → R) (s : St) : outcome R :=
  while (λ '(ptr, s),
    if ptr =? 0 then Ret (inr (fin s)) else
    n ← read_node l ptr;
    r ← body ptr (data n) s;
    match r with inl s' => Ret (inl (next n, s')) | inr x => Ret (inr x) end) (head l, s).

(** [linked_list_locate]: the first node that holds [d], or [NULL]. *)
Definition linked_list_locate (l : linked_list) (d : Z) : outcome Z :=
  walk l (λ ptr x _, Ret (if x =? d then inr ptr else inl tt)) (λ _, 0) tt.

(** [linked_list_lookup]: the first datum [cmpf] accepts, or [NULL].  The
    comparison reads the datum, which may stop the process. *)
Definition linked_list_lookup (l : linked_list) (cmpf : Z → outcome bool) : outcome Z :=
  walk l (λ _ x _, b ← cmpf x; Ret (if (b : bool) then inr x else inl tt)) (λ _, 0) tt.

(** A loop over the whole list whose body never leaves early. *)
Definition for_each {St} (l : linked_list) (f : Z → St → outcome St) (s : St) : outcome St :=
  walk l (λ _ x s, s' ← f x s; Ret (inl s')) id s.

(** * Abstract contents *)

(** First and last node of a segment, with the pointer that stands for an
    empty one. *)
Definition headp (ps : list (Z * Z)) (nx : Z) : Z :=
  match ps with [] => nx | (a, _) :: _ => a end.
Fixpoint lastp (pp : Z) (ps : list (Z * Z)) : Z :=
  match ps with [] => pp | (a, _) :: ps' => lastp a ps' end.

(** A linked segment: its first node points back to [pp], its last one
    forward to [nx]. *)
Fixpoint seg (h : gmap Z list_node) (pp : Z) (ps : list (Z * Z)) (nx : Z) : Prop :=
  match ps with
  | [] => True
  | (a, d) :: ps' => h !! a = Some (Node d pp (headp ps' nx)) ∧ seg h a ps' nx
  end.

(** [ll_rep l ps]: the structure [l] is well formed and holds, from head to
    tail, the data [ps.*2] in the nodes [ps.*1]. *)
Record ll_rep (l : linked_list) (ps : list (Z * Z)) : Prop := {
  rep_seg : seg (nodes l) 0 ps 0;
  rep_dom : ∀ a, is_Some (nodes l !! a) → a ∈ ps.*1;
  rep_nodup : NoDup ps.*1;
  rep_ptr : ∀ a, a ∈ ps.*1 → 0 < a < 2 ^ 32;
  rep_head : head l = headp ps 0;
  rep_tail : tail l = lastp 0 ps;
  rep_num : num l = s32 (Z.of_nat (length ps));
}.

Lemma headp_app ps qs nx : headp (ps ++ qs) nx = headp ps (headp qs nx).
Proof. by destruct ps as [|[]]. Qed.
Lemma lastp_app pp ps qs : lastp pp (ps ++ qs) = lastp (lastp pp ps) qs.
Proof. revert pp; induction ps as [|[a d] ps IH]; intros pp; simpl; auto. Qed.

Lemma headp_elem ps nx : headp ps nx = nx ∨ headp ps nx ∈ ps.*1.
Proof. destruct ps as [|[a d] ps]; [by left|right]. by left. Qed.
Lemma lastp_elem pp ps : lastp pp ps = pp ∨ lastp pp ps ∈ ps.*1.
Proof.
  revert pp; induction ps as [|[a d] ps IH]; intros pp; simpl; [by left|right].
  destruct (IH a) as [->|]; set_solver.
Qed.

Lemma seg_app h pp ps qs nx :
  seg h pp (ps ++ qs) nx ↔ seg h pp ps (headp qs nx) ∧ seg h (lastp pp ps) qs nx.
Proof.
  revert pp; induction ps as [|[a d] ps IH]; intros pp; simpl; [tauto|].
  rewrite IH, headp_app. tauto.
Qed.

Lemma seg_frame h h' pp ps nx :
  (∀ a, a ∈ ps.*1 → h' !! a = h !! a) → seg h pp ps nx → seg h' pp ps nx.
Proof.
  revert pp; induction ps as [|[a d] ps IH]; intros pp Hf; simpl; [done|].
  intros [Ha Hs]. rewrite Hf by by left. split; [done|].
  apply IH; [|done]. intros b Hb. apply Hf. by right.
Qed.

Lemma s32_add_l a b : s32 (s32 a + b) = s32 (a + b).
Proof.
  assert (u32 (s32 a + b) = u32 (a + b)) as He.
  { unfold s32, u32. destruct (Z.ltb_spec (a `mod` 2 ^ 32) (2 ^ 31)).
    - by rewrite Z.add_mod_idemp_l by lia.
    - replace (a `mod` 2 ^ 32 - 2 ^ 32 + b) with (a `mod` 2 ^ 32 + b + -1 * 2 ^ 32) by lia.
      by rewrite Z.mod_add, Z.add_mod_idemp_l by lia. }
  unfold s32 at 1 3. by rewrite He.
Qed.

Lemma ll_rep_length l ps : ll_rep l ps → Z.of_nat (length ps) < 2 ^ 32.
Proof.
  intros R.
  assert (ps.*1 ⊆+ seqZ 1 (2 ^ 32 - 1)) as Hs%submseteq_length.
  { apply NoDup_submseteq; [apply (rep_nodup _ _ R)|].
    intros a Ha%(rep_ptr _ _ R). apply elem_of_seqZ. lia. }
  rewrite length_fmap, length_seqZ in Hs. apply Nat2Z.inj_le in Hs.
  rewrite Z2Nat.id in Hs by lia. lia.
Qed.

Lemma ll_rep_num l ps : ll_rep l ps → num l = 0 ↔ ps = [].
Proof.
  intros R. rewrite (rep_num _ _ R). pose proof (ll_rep_length _ _ R).
  unfold s32. rewrite u32_small by lia. split; [|by intros ->].
  destruct ps; [done|]. simpl length in *.
  destruct (Z.ltb_spec (Z.of_nat (S (length ps))) (2 ^ 31)); lia.
Qed.

Lemma ll_rep_head_null l ps : ll_rep l ps → head l = 0 ↔ ps = [].
Proof.
  intros R. rewrite (rep_head _ _ R). split; [|by intros ->].
  destruct ps as [|[a d] ps]; [done|]; simpl. intros ->.
  assert (0 < 0 < 2 ^ 32); [|lia]. apply (rep_ptr _ _ R). by left.
Qed.

Lemma ll_rep_tail_null l ps : ll_rep l ps → tail l = 0 ↔ ps = [].
Proof.
  intros R. rewrite (rep_tail _ _ R). split; [|by intros ->].
  destruct ps as [|[a d] ps _] using rev_ind; [done|].
  rewrite lastp_app; simpl. intros ->.
  assert (0 < 0 < 2 ^ 32); [|lia]. apply (rep_ptr _ _ R). rewrite fmap_app. set_solver.
Qed.

Lemma rep_node l pre a d post :
  ll_rep l (pre ++ (a, d) :: post) →
  nodes l !! a = Some (Node d (lastp 0 pre) (headp post 0)).
Proof. intros [(_ & Ha & _)%seg_app _ _ _ _ _ _]. exact Ha. Qed.

Lemma ll_rep_read l pre a d post :
  ll_rep l (pre ++ (a, d) :: post) →
  read_node l a = Ret (Node d (lastp 0 pre) (headp post 0)).
Proof. intros R. unfold read_node. by rewrite (rep_node _ _ _ _ _ R). Qed.

Lemma ll_rep_notin l ps a : ll_rep l ps → nodes l !! a = None → a ∉ ps.*1.
Proof.
  intros R Hf ([b e] & -> & Hin)%list_elem_of_fmap. simpl in Hf.
  apply list_elem_of_split in Hin as (pre & post & ->).
  by rewrite (rep_node _ _ _ _ _ R) in Hf.
Qed.

Lemma init_linked_list_rep : ll_rep init_linked_list [].
Proof.
  split; simpl; try done; try apply NoDup_nil_2; try set_solver.
  intros a [x Hx]. by rewrite lookup_empty in Hx.
Qed.

Lemma malloc_node_fresh l : nodes l !! malloc_node l = None ∨ malloc_node l = 0.
Proof.
  unfold malloc_node. case_match; [left|by right].
  destruct (nodes l !! _) as [n|] eqn:He; [exfalso|done].
  assert (∀ k m, nodes l !! k = Some m → k ≤ map_fold (λ k _ r, Z.max k r) 0 (nodes l)) as Hk.
  { apply (map_fold_weak_ind (λ r m, ∀ k x, m !! k = Some x → k ≤ r)); [set_solver|].
    intros i x m r _ IH k y. destruct (decide (i = k)) as [->|].
    - intros; lia.
    - rewrite lookup_insert_ne by done. intros Hy%IH. lia. }
  apply Hk in He. lia.
Qed.

Lemma malloc_node_range l : 0 ≤ malloc_node l < 2 ^ 32.
Proof.
  unfold malloc_node. case_match eqn:He; [|lia]. apply Z.ltb_lt in He. split; [|done].
  assert (0 ≤ map_fold (λ k _ r, Z.max k r) 0 (nodes l)); [|lia].
  apply (map_fold_weak_ind (λ r m, 0 ≤ r)); lia.
Qed.

(** * The operations on the abstract contents *)

(** [if (p) p->next = q] and [if (p) p->prev = q] on the nodes. *)
Definition upd_next (p q : Z) (h : gmap Z list_node) : gmap Z list_node :=
  if p =? 0 then h else alter (λ n, Node (data n) (prev n) q) p h.
Definition upd_prev (p q : Z) (h : gmap Z list_node) : gmap Z list_node :=
  if p =? 0 then h else alter (λ n, Node (data n) q (next n)) p h.

Lemma lookup_upd_next_ne p q h a : a ≠ p → upd_next p q h !! a = h !! a.
Proof. unfold upd_next. case_match; [done|]. intros. by rewrite lookup_alter_ne. Qed.
Lemma lookup_upd_prev_ne p q h a : a ≠ p → upd_prev p q h !! a = h !! a.
Proof. unfold upd_prev. case_match; [done|]. intros. by rewrite lookup_alter_ne. Qed.
Lemma is_Some_upd_next p q h a : is_Some (upd_next p q h !! a) ↔ is_Some (h !! a).
Proof. unfold upd_next. case_match; [done|]. by rewrite lookup_alter_is_Some. Qed.
Lemma is_Some_upd_prev p q h a : is_Some (upd_prev p q h !! a) ↔ is_Some (h !! a).
Proof. unfold upd_prev. case_match; [done|]. by rewrite lookup_alter_is_Some. Qed.

Definition nonnull (ps : list (Z * Z)) : Prop := ∀ a, a ∈ ps.*1 → 0 < a < 2 ^ 32.

(** Relinking the end of a segment changes its last node only. *)
Lemma seg_upd_next h ps nx nx' :
  NoDup ps.*1 → nonnull ps → seg h 0 ps nx → seg (upd_next (lastp 0 ps) nx' h) 0 ps nx'.
Proof.
  destruct ps as [|[a d] ps _] using rev_ind; [done|].
  intros Hnd Hnn [Hs Ha]%seg_app. rewrite lastp_app; simpl.
  assert (0 < a < 2 ^ 32) by (apply Hnn; rewrite fmap_app; set_solver).
  rewrite fmap_app in Hnd. apply NoDup_app in Hnd as (_ & Hd & _).
  apply seg_app. split.
  - eapply seg_frame; [|exact Hs]. intros b Hb. apply lookup_upd_next_ne. intros ->.
    apply (Hd a Hb). by left.
  - simpl. destruct Ha as [Ha _]. split; [|done].
    unfold upd_next. rewrite (proj2 (Z.eqb_neq a 0)) by lia.
    by rewrite lookup_alter_eq, Ha.
Qed.

(** Relinking the front of a segment changes its first node only. *)
Lemma seg_upd_prev h ps pp pp' nx :
  NoDup ps.*1 → nonnull ps → seg h pp ps nx → seg (upd_prev (headp ps 0) pp' h) pp' ps nx.
Proof.
  destruct ps as [|[a d] ps]; [done|]. intros [Hni _]%NoDup_cons Hnn [Ha Hs]; simpl.
  assert (0 < a < 2 ^ 32) by (apply Hnn; by left). split.
  - unfold upd_prev. rewrite (proj2 (Z.eqb_neq a 0)) by lia.
    by rewrite lookup_alter_eq, Ha.
  - eapply seg_frame; [|exact Hs]. intros b Hb. apply lookup_upd_prev_ne. by intros ->.
Qed.

(** A pointer that is null or in one part of a list is not in the other. *)
Lemma lastp_not_in pre post :
  NoDup (pre ++ post).*1 → nonnull (pre ++ post) → lastp 0 pre ∉ post.*1.
Proof.
  intros Hnd Hnn Hin. destruct (lastp_elem 0 pre) as [H0|Hp].
  - rewrite H0 in Hin. assert (0 < 0 < 2 ^ 32); [|lia]. apply Hnn. rewrite fmap_app. set_solver.
  - rewrite fmap_app in Hnd. apply NoDup_app in Hnd as (_ & Hd & _). by apply (Hd _ Hp).
Qed.
Lemma headp_not_in pre post :
  NoDup (pre ++ post).*1 → nonnull (pre ++ post) → headp post 0 ∉ pre.*1.
Proof.
  intros Hnd Hnn Hin. destruct (headp_elem post 0) as [H0|Hp].
  - rewrite H0 in Hin. assert (0 < 0 < 2 ^ 32); [|lia]. apply Hnn. rewrite fmap_app. set_solver.
  - rewrite fmap_app in Hnd. apply NoDup_app in Hnd as (_ & Hd & _). by apply (Hd _ Hin).
Qed.

(** Joining two segments around the middle pointers [m1] and [m2]. *)
Lemma seg_join h pre post nx m1 m2 :
  NoDup (pre ++ post).*1 → nonnull (pre ++ post) →
  seg h 0 pre nx → (∃ pp, seg h pp post 0) →
  let h' := upd_prev (headp post 0) m2 (upd_next (lastp 0 pre) m1 h) in
  seg h' 0 pre m1 ∧ seg h' m2 post 0.
Proof.
  intros Hnd Hnn Hpre [pp Hpost] h'.
  pose proof (lastp_not_in _ _ Hnd Hnn) as Hl. pose proof (headp_not_in _ _ Hnd Hnn) as Hh.
  rewrite fmap_app in Hnd. pose proof Hnd as (Hn1 & _ & Hn2)%NoDup_app. split.
  - eapply seg_frame; [|eapply seg_upd_next; [done| |exact Hpre]].
    + intros a Ha. unfold h'. apply lookup_upd_prev_ne. by intros ->.
    + intros a Ha. apply Hnn. rewrite fmap_app. set_solver.
  - eapply seg_upd_prev; [done| |].
    + intros a Ha. apply Hnn. rewrite fmap_app. set_solver.
    + eapply seg_frame; [|exact Hpost]. intros a Ha. apply lookup_upd_next_ne. by intros ->.
Qed.

(** Linking a new node between two parts of a list. *)
Lemma ll_rep_insert l pre post new d :
  ll_rep l (pre ++ post) → nodes l !! new = None → 0 < new < 2 ^ 32 →
  ll_rep (LinkedList (headp (pre ++ (new, d) :: post) 0) (lastp 0 (pre ++ (new, d) :: post))
            (s32 (num l + 1))
            (upd_prev (headp post 0) new (upd_next (lastp 0 pre) new
               (<[new := Node d (lastp 0 pre) (headp post 0)]> (nodes l)))))
         (pre ++ (new, d) :: post).
Proof.
  intros R Hf Hn. pose proof (ll_rep_notin _ _ _ R Hf) as Hni.
  pose proof (rep_ptr _ _ R) as Hnn. pose proof (rep_nodup _ _ R) as Hnd.
  pose proof (rep_seg _ _ R) as [Hpre Hpost]%seg_app.
  rewrite fmap_app in Hni.
  assert (Hperm : (pre ++ (new, d) :: post).*1 ≡ₚ new :: (pre ++ post).*1)
    by (rewrite !fmap_app; simpl; by rewrite Permutation_middle).
  assert (Hfr : ∀ a, a ∈ pre.*1 ++ post.*1 → a ≠ new) by (intros a Ha ->; done).
  edestruct (seg_join (<[new := Node d (lastp 0 pre) (headp post 0)]> (nodes l))
               pre post (headp post 0) new new) as [S1 S2]; [done|done| | |].
  { eapply seg_frame; [|exact Hpre]. intros a Ha. apply lookup_insert_ne. set_solver. }
  { eexists. eapply seg_frame; [|exact Hpost]. intros a Ha. apply lookup_insert_ne. set_solver. }
  split; simpl.
  - apply seg_app. split; [exact S1|]. simpl. split; [|exact S2].
    rewrite lookup_upd_prev_ne, lookup_upd_next_ne; [by rewrite lookup_insert_eq| |].
    + destruct (lastp_elem 0 pre) as [->|Hp]; [lia|]. intros ->. apply (Hfr (lastp 0 pre)); set_solver.
    + destruct (headp_elem post 0) as [->|Hp]; [lia|]. intros ->. apply (Hfr (headp post 0)); set_solver.
  - intros a. rewrite is_Some_upd_prev, is_Some_upd_next, Hperm, lookup_insert_is_Some.
    intros [Ha|[_ Ha%(rep_dom _ _ R)]]; apply elem_of_cons; auto.
  - rewrite Hperm. apply NoDup_cons. split; [by rewrite fmap_app|done].
  - intros a. rewrite Hperm. intros [->|Ha]%elem_of_cons; [done|]. by apply Hnn.
  - done.
  - done.
  - rewrite (rep_num _ _ R), s32_add_l. f_equal. rewrite !length_app. simpl. lia.
Qed.

(** Unlinking a node. *)
Lemma ll_rep_delete l pre a d post :
  ll_rep l (pre ++ (a, d) :: post) →
  ll_rep (LinkedList (headp (pre ++ post) 0) (lastp 0 (pre ++ post)) (s32 (num l + -1))
            (delete a (upd_prev (headp post 0) (lastp 0 pre)
                         (upd_next (lastp 0 pre) (headp post 0) (nodes l)))))
         (pre ++ post).
Proof.
  intros R.
  assert (Hperm : (pre ++ (a, d) :: post).*1 ≡ₚ a :: (pre ++ post).*1)
    by (rewrite !fmap_app; simpl; by rewrite Permutation_middle).
  pose proof (rep_nodup _ _ R) as Hnd. rewrite Hperm in Hnd.
  apply NoDup_cons in Hnd as [Hni Hnd].
  assert (Hnn : nonnull (pre ++ post)).
  { intros b Hb. apply (rep_ptr _ _ R). rewrite Hperm. by right. }
  pose proof (rep_seg _ _ R) as [Hpre [_ Hpost]]%seg_app.
  edestruct (seg_join (nodes l) pre post a (headp post 0) (lastp 0 pre)) as [S1 S2];
    [done|done|exact Hpre|by eexists|].
  rewrite fmap_app in Hni.
  split; simpl.
  - apply seg_app. split.
    + eapply seg_frame; [|exact S1]. intros b Hb. apply lookup_delete_ne. set_solver.
    + eapply seg_frame; [|exact S2]. intros b Hb. apply lookup_delete_ne. set_solver.
  - intros b. rewrite lookup_delete_is_Some, is_Some_upd_prev, is_Some_upd_next.
    intros [Hb Hs%(rep_dom _ _ R)]. rewrite Hperm in Hs. set_solver.
  - done.
  - done.
  - done.
  - done.
  - rewrite (rep_num _ _ R), s32_add_l. f_equal. rewrite !length_app. simpl. lia.
Qed.

(** Reads and writes through the pointers of a well-formed list. *)
Lemma set_next_some l p q n :
  nodes l !! p = Some n → 0 < p →
  set_next p q l = Ret (LinkedList (head l) (tail l) (num l) (upd_next p q (nodes l))).
Proof.
  intros Hp H0. unfold set_next, read_node, upd_next. rewrite Hp. simpl.
  rewrite (proj2 (Z.eqb_neq p 0)) by lia. do 2 f_equal.
  apply map_eq. intros i. rewrite lookup_insert, lookup_alter.
  case_decide; [|done]. subst. by rewrite Hp.
Qed.
Lemma set_prev_some l p q n :
  nodes l !! p = Some n → 0 < p →
  set_prev p q l = Ret (LinkedList (head l) (tail l) (num l) (upd_prev p q (nodes l))).
Proof.
  intros Hp H0. unfold set_prev, read_node, upd_prev. rewrite Hp. simpl.
  rewrite (proj2 (Z.eqb_neq p 0)) by lia. do 2 f_equal.
  apply map_eq. intros i. rewrite lookup_insert, lookup_alter.
  case_decide; [|done]. subst. by rewrite Hp.
Qed.

Lemma list_insert_head_rep l ps new d :
  ll_rep l ps → nodes l !! new = None → 0 < new < 2 ^ 32 →
  ∃ l', list_insert_head new l d = Ret l' ∧ ll_rep l' ((new, d) :: ps).
Proof.
  intros R Hf Hn. pose proof (ll_rep_insert l [] ps new d R Hf Hn) as R'.
  unfold list_insert_head, assert_. rewrite (proj2 (Z.eqb_neq new 0)) by lia. simpl.
  eexists; split; [|exact R']. destruct ps as [|[a e] ps]; rewrite (rep_head _ _ R); simpl; [done|].
  assert (0 < a < 2 ^ 32) by (apply (rep_ptr _ _ R); by left).
  rewrite (proj2 (Z.eqb_neq a 0)) by lia.
  erewrite set_prev_some; [|simpl; rewrite lookup_insert_ne|lia].
  - simpl. by rewrite (rep_tail _ _ R).
  - apply (rep_node l [] a e ps R).
  - intros ->. by rewrite (rep_node l [] a e ps R) in Hf.
Qed.

Lemma list_insert_tail_rep l ps new d :
  ll_rep l ps → nodes l !! new = None → 0 < new < 2 ^ 32 →
  ∃ l', list_insert_tail new l d = Ret l' ∧ ll_rep l' (ps ++ [(new, d)]).
Proof.
  intros R Hf Hn.
  pose proof (ll_rep_insert l ps [] new d) as R'. rewrite app_nil_r in R'.
  specialize (R' R Hf Hn).
  unfold list_insert_tail, assert_. rewrite (proj2 (Z.eqb_neq new 0)) by lia. simpl.
  eexists; split; [|exact R']. rewrite (rep_tail _ _ R), lastp_app. simpl.
  destruct ps as [|[a e] ps _] using rev_ind; simpl; [by rewrite ?(rep_head _ _ R)|].
  rewrite lastp_app; simpl.
  assert (0 < a < 2 ^ 32) by (apply (rep_ptr _ _ R); rewrite fmap_app; set_solver).
  rewrite (proj2 (Z.eqb_neq a 0)) by lia.
  erewrite set_next_some; [|simpl; rewrite lookup_insert_ne|lia].
  - simpl. rewrite (rep_head _ _ R). by destruct ps as [|[]].
  - apply (rep_node l ps a e [] R).
  - intros ->. by rewrite (rep_node l ps a e [] R) in Hf.
Qed.

(** The allocator's address is usable unless memory is exhausted. *)
Lemma list_insert_tail_alloc l ps d :
  ll_rep l ps → malloc_node l ≠ 0 →
  ∃ l', list_insert_tail (malloc_node l) l d = Ret l' ∧ ll_rep l' (ps ++ [(malloc_node l, d)]).
Proof.
  intros R Hn. apply list_insert_tail_rep; [done| |].
  - destruct (malloc_node_fresh l); [done|lia].
  - pose proof (malloc_node_range l). lia.
Qed.
Lemma list_insert_head_alloc l ps d :
  ll_rep l ps → malloc_node l ≠ 0 →
  ∃ l', list_insert_head (malloc_node l) l d = Ret l' ∧ ll_rep l' ((malloc_node l, d) :: ps).
Proof.
  intros R Hn. apply list_insert_head_rep; [done| |].
  - destruct (malloc_node_fresh l); [done|lia].
  - pose proof (malloc_node_range l). lia.
Qed.

Lemma set_next_opt l p q :
  (p ≠ 0 → is_Some (nodes l !! p)) → 0 ≤ p →
  (if p =? 0 then Ret l else set_next p q l) =
    Ret (LinkedList (head l) (tail l) (num l) (upd_next p q (nodes l))).
Proof.
  intros Hp H0. destruct (Z.eqb_spec p 0) as [->|Hne].
  - unfold upd_next. by destruct l.
  - destruct (Hp Hne) as [n Hn]. by apply (set_next_some _ _ _ n); [|lia].
Qed.
Lemma set_prev_opt l p q :
  (p ≠ 0 → is_Some (nodes l !! p)) → 0 ≤ p →
  (if p =? 0 then Ret l else set_prev p q l) =
    Ret (LinkedList (head l) (tail l) (num l) (upd_prev p q (nodes l))).
Proof.
  intros Hp H0. destruct (Z.eqb_spec p 0) as [->|Hne].
  - unfold upd_prev. by destruct l.
  - destruct (Hp Hne) as [n Hn]. by apply (set_prev_some _ _ _ n); [|lia].
Qed.

Lemma ll_rep_in l ps a : ll_rep l ps → a ∈ ps.*1 → is_Some (nodes l !! a).
Proof.
  intros R ([b e] & -> & (pre & post & ->)%list_elem_of_split)%list_elem_of_fmap.
  simpl. rewrite (rep_node _ _ _ _ _ R). by eexists.
Qed.

(** A node of a list is its head (its tail) iff nothing precedes (follows) it. *)
Lemma headp_eq_iff pre (a d : Z) post :
  NoDup (pre ++ (a, d) :: post).*1 →
  (a =? headp (pre ++ (a, d) :: post) 0) = bool_decide (pre = []).
Proof.
  intros Hnd. rewrite headp_app. destruct pre as [|[b e] pre]; simpl; [by rewrite Z.eqb_refl|].
  apply Z.eqb_neq. intros <-. simpl in Hnd. rewrite fmap_app in Hnd.
  apply NoDup_cons in Hnd as [Hx _]. set_solver.
Qed.
Lemma lastp_eq_iff pre (a d : Z) post :
  NoDup (pre ++ (a, d) :: post).*1 →
  (a =? lastp 0 (pre ++ (a, d) :: post)) = bool_decide (post = []).
Proof.
  intros Hnd. rewrite lastp_app. destruct post as [|[b e] post _] using rev_ind; simpl.
  { by rewrite Z.eqb_refl. }
  rewrite lastp_app. simpl. rewrite bool_decide_eq_false_2 by (by destruct post).
  apply Z.eqb_neq. intros <-. rewrite fmap_app in Hnd. simpl in Hnd.
  apply NoDup_app in Hnd as (_ & _ & [Hx _]%NoDup_cons). rewrite fmap_app in Hx. set_solver.
Qed.

Lemma read_node_some l p n : nodes l !! p = Some n → read_node l p = Ret n.
Proof. unfold read_node. by intros ->. Qed.

Lemma bind_outcome_assoc {A B C} (m : outcome A) (f : A → outcome B) (g : B → outcome C) :
  (m ≫= λ a, f a ≫= g) = (m ≫= f) ≫= g.
Proof. by destruct m. Qed.

(** The first two steps of [list_del_entry] move [head] and [tail]. *)
Lemma list_del_entry_ends l pre a d post :
  ll_rep l (pre ++ (a, d) :: post) →
  ((if a =? head l
    then n ← read_node l (head l); Ret (set_head_ptr (next n) l) else Ret l) ≫= λ l1,
   if a =? tail l1
   then n ← read_node l1 (tail l1); Ret (set_tail_ptr (prev n) l1) else Ret l1) =
  Ret (LinkedList (headp (pre ++ post) 0) (lastp 0 (pre ++ post)) (num l) (nodes l)).
Proof.
  intros R. pose proof (rep_nodup _ _ R) as Hnd. pose proof (rep_node _ _ _ _ _ R) as Ha.
  assert (E1 : (if a =? head l
    then n ← read_node l (head l); Ret (set_head_ptr (next n) l) else Ret l) =
    Ret (LinkedList (headp (pre ++ post) 0) (tail l) (num l) (nodes l))).
  { pose proof (headp_eq_iff _ _ _ _ Hnd) as Hb. rewrite (rep_head _ _ R).
    destruct pre as [|p pre]; rewrite Hb; simpl.
    - unfold read_node. by rewrite Ha.
    - pose proof (rep_head _ _ R) as Hhd. simpl in Hhd. rewrite <-Hhd. by destruct l. }
  rewrite E1. simpl.
  pose proof (lastp_eq_iff _ _ _ _ Hnd) as Hb. rewrite (rep_tail _ _ R), Hb.
  destruct post as [|p post]; simpl.
  - rewrite lastp_app. simpl. unfold read_node. simpl. rewrite Ha. simpl. by rewrite app_nil_r.
  - by rewrite !lastp_app.
Qed.

Lemma list_del_entry_rep l pre a d post :
  ll_rep l (pre ++ (a, d) :: post) →
  ∃ l', list_del_entry l a = Ret (d, l') ∧ ll_rep l' (pre ++ post).
Proof.
  intros R. eexists; split; [|exact (ll_rep_delete _ _ _ _ _ R)].
  pose proof (rep_nodup _ _ R) as Hnd. pose proof (rep_ptr _ _ R) as Hnn.
  pose proof (rep_node _ _ _ _ _ R) as Ha.
  assert (Hl : lastp 0 pre = 0 ∨ lastp 0 pre ∈ (pre ++ (a, d) :: post).*1).
  { destruct (lastp_elem 0 pre); [by left|right]. rewrite fmap_app. set_solver. }
  assert (Hh : headp post 0 = 0 ∨ headp post 0 ∈ (pre ++ (a, d) :: post).*1).
  { destruct (headp_elem post 0); [by left|right]. rewrite fmap_app. simpl. set_solver. }
  assert (a ≠ lastp 0 pre ∧ a ≠ headp post 0) as [Hal Hah].
  { pose proof (lastp_not_in _ _ Hnd Hnn) as H1. rewrite (cons_middle _ pre post), app_assoc in Hnd, Hnn.
    pose proof (headp_not_in _ _ Hnd Hnn) as H2. rewrite fmap_app in H2. set_solver. }
  assert (Hp1 : lastp 0 pre ≠ 0 → is_Some (nodes l !! lastp 0 pre)).
  { intros. apply (ll_rep_in _ _ _ R). naive_solver. }
  assert (Hp2 : headp post 0 ≠ 0 → is_Some (nodes l !! headp post 0)).
  { intros. apply (ll_rep_in _ _ _ R). naive_solver. }
  assert (0 ≤ lastp 0 pre ∧ 0 ≤ headp post 0) as [Hn1 Hn2].
  { split; [destruct Hl as [->|Hl%Hnn]|destruct Hh as [->|Hh%Hnn]]; lia. }
  pose proof (list_del_entry_ends _ _ _ _ _ R) as He. unfold list_del_entry.
  rewrite bind_outcome_assoc, He. cbn [mbind outcome_bind].
  erewrite (read_node_some _ a); [|exact Ha]. cbn [mbind outcome_bind prev next].
  rewrite set_next_opt; [|done|done]. cbn [mbind outcome_bind].
  erewrite (read_node_some _ a); [|simpl; by rewrite lookup_upd_next_ne, Ha by done].
  cbn [mbind outcome_bind prev next].
  rewrite set_prev_opt; [|simpl; by rewrite is_Some_upd_next|done]. cbn [mbind outcome_bind].
  erewrite (read_node_some _ a);
    [|simpl; by rewrite lookup_upd_prev_ne, lookup_upd_next_ne, Ha by done].
  done.
Qed.

(** The loops over a well-formed list are folds over its contents. *)
Fixpoint walk_list {St R} (body : Z → Z → St → outcome (St + R)) (fin : St → R)
    (ps : list (Z * Z)) (s : St) : outcome R :=
  match ps with
  | [] => Ret (fin s)
  | (a, d) :: ps' =>
      r ← body a d s;
      match r with inl s' => walk_list body fin ps' s' | inr x => Ret x end
  end.

Lemma walk_rep {St R} l ps (body : Z → Z → St → outcome (St + R)) fin s :
  ll_rep l ps → walk l body fin s = walk_list body fin ps s.
Proof.
  intros R0. pose proof (ll_rep_length _ _ R0) as Hlen. unfold walk.
  set (b := λ '(ptr, s), _).
  assert (Hw : ∀ pre post s, ps = pre ++ post →
    match walk_list body fin post s with
    | Ret r => iters b (S (length post)) (headp post 0, s) = Ret (inr r)
    | Fault f => iters b (S (length post)) (headp post 0, s) = Fault f end).
  { intros pre post. revert pre. induction post as [|[a d] post IH]; intros pre t ->.
    { done. }
    assert (0 < a < 2 ^ 32) by (apply (rep_ptr _ _ R0); rewrite fmap_app; set_solver).
    cbn [length iters walk_list headp].
    assert (Eb : b (a, t) = (r ← body a d t;
      match r with inl s' => Ret (inl (headp post 0, s')) | inr x => Ret (inr x) end)).
    { unfold b. rewrite (proj2 (Z.eqb_neq a 0)) by lia.
      rewrite (ll_rep_read _ _ _ _ _ R0). done. }
    rewrite Eb. destruct (body a d t) as [[s'|x]|f]; simpl; [|done|done].
    specialize (IH (pre ++ [(a, d)]) s'). rewrite <-app_assoc in IH. by apply IH. }
  specialize (Hw [] ps s eq_refl). rewrite (rep_head _ _ R0).
  destruct (walk_list body fin ps s) as [r|f].
  - apply (while_iters _ (S (length ps))); [lia|done].
  - apply (while_fault _ (S (length ps))); [lia|done].
Qed.

(** First node holding [d]. *)
Fixpoint find_node (d : Z) (ps : list (Z * Z)) : Z :=
  match ps with [] => 0 | (a, x) :: ps' => if x =? d then a else find_node d ps' end.

(** First datum that satisfies [c]. *)
Fixpoint find_data (c : Z → bool) (ds : list Z) : Z :=
  match ds with [] => 0 | x :: ds' => if c x then x else find_data c ds' end.

Lemma linked_list_locate_rep l ps d :
  ll_rep l ps → linked_list_locate l d = Ret (find_node d ps).
Proof.
  intros R. unfold linked_list_locate. rewrite (walk_rep _ _ _ _ _ R). clear R.
  induction ps as [|[a x] ps IH]; simpl; [done|]. by destruct (x =? d).
Qed.

Lemma linked_list_lookup_rep l ps cmpf c :
  ll_rep l ps → (∀ x, x ∈ ps.*2 → cmpf x = Ret (c x)) →
  linked_list_lookup l cmpf = Ret (find_data c ps.*2).
Proof.
  intros R Hc. unfold linked_list_lookup. rewrite (walk_rep _ _ _ _ _ R). clear R.
  induction ps as [|[a x] ps IH]; simpl; [done|].
  rewrite Hc by by left. simpl. destruct (c x); [done|].
  apply IH. intros y Hy. apply Hc. by right.
Qed.

Fixpoint fold_outcome {St} (f : Z → St → outcome St) (ds : list Z) (s : St) : outcome St :=
  match ds with [] => Ret s | x :: ds' => s' ← f x s; fold_outcome f ds' s' end.

Lemma for_each_rep {St} l ps (f : Z → St → outcome St) s :
  ll_rep l ps → for_each l f s = fold_outcome f ps.*2 s.
Proof.
  intros R. unfold for_each. rewrite (walk_rep _ _ _ _ _ R). clear R. revert s.
  induction ps as [|[a x] ps IH]; intros s; simpl; [done|].
  destruct (f x s); simpl; auto.
Qed.

Lemma find_node_split d ps :
  NoDup ps.*1 → nonnull ps → find_node d ps ≠ 0 →
  ∃ pre post, ps = pre ++ (find_node d ps, d) :: post ∧ d ∉ pre.*2.
Proof.
  induction ps as [|[a x] ps IH]; simpl; [done|]. intros [_ Hnd]%NoDup_cons Hnn Hf.
  destruct (Z.eqb_spec x d) as [->|Hne].
  - exists [], ps. split; [done|]. set_solver.
  - destruct IH as (pre & post & Hs & Hni); [done| |done|].
    + intros b Hb. apply Hnn. by right.
    + exists ((a, x) :: pre), post. split; [by rewrite Hs at 1|]. set_solver.
Qed.

Lemma find_node_in d ps : nonnull ps → d ∈ ps.*2 → find_node d ps ≠ 0.
Proof.
  induction ps as [|[a x] ps IH]; simpl; [set_solver|]. intros Hnn Hin.
  assert (0 < a < 2 ^ 32) by (apply Hnn; by left).
  destruct (Z.eqb_spec x d) as [->|Hne]; [lia|]. apply IH; [|set_solver].
  intros b Hb. apply Hnn. by right.
Qed.

(** [NULL] is not a node: handing it to [list_del_entry] is a bad access. *)
Lemma list_del_entry_null l ps : ll_rep l ps → list_del_entry l 0 = Fault Segv.
Proof.
  intros R.
  assert (H0 : nodes l !! 0 = None).
  { destruct (nodes l !! 0) as [n|] eqn:He; [exfalso|done].
    assert (0 < 0 < 2 ^ 32); [|lia]. apply (rep_ptr _ _ R), (rep_dom _ _ R). by eexists. }
  assert (Hr : read_node l 0 = Fault Segv) by (unfold read_node; by rewrite H0).
  unfold list_del_entry.
  destruct (Z.eqb_spec 0 (head l)) as [Hh|Hh]; [by rewrite <-Hh, Hr|]. cbn [mbind outcome_bind].
  destruct (Z.eqb_spec 0 (tail l)) as [Ht|Ht]; [by rewrite <-Ht, Hr|]. cbn [mbind outcome_bind].
  by rewrite Hr.
Qed.

Lemma list_remove_head_rep l ps :
  ll_rep l ps →
  match ps with
  | [] => list_remove_head l = Ret (0, l)
  | (a, d) :: ps' => ∃ l', list_remove_head l = Ret (d, l') ∧ ll_rep l' ps'
  end.
Proof.
  intros R. unfold list_remove_head. pose proof (rep_head _ _ R) as Hh.
  destruct ps as [|[a d] ps]; simpl in Hh; rewrite Hh; [done|].
  assert (0 < a < 2 ^ 32) by (apply (rep_ptr _ _ R); by left).
  rewrite (proj2 (Z.eqb_neq a 0)) by lia. exact (list_del_entry_rep l [] a d ps R).
Qed.

Lemma list_remove_tail_rep l ps a d :
  ll_rep l (ps ++ [(a, d)]) → ∃ l', list_remove_tail l = Ret (d, l') ∧ ll_rep l' ps.
Proof.
  intros R. unfold list_remove_tail. pose proof (rep_tail _ _ R) as Ht.
  rewrite lastp_app in Ht. simpl in Ht. rewrite Ht.
  assert (0 < a < 2 ^ 32) by (apply (rep_ptr _ _ R); rewrite fmap_app; set_solver).
  rewrite (proj2 (Z.eqb_neq a 0)) by lia.
  destruct (list_del_entry_rep l ps a d [] R) as (l' & E & R'). rewrite app_nil_r in R'. eauto.
Qed.

(** The contents of a list are determined. *)
Lemma seg_det h pp ps qs :
  seg h pp ps 0 → seg h pp qs 0 → nonnull ps → nonnull qs → headp ps 0 = headp qs 0 → ps = qs.
Proof.
  revert pp qs. induction ps as [|[a d] ps IH]; intros pp [|[b e] qs]; simpl; intros Hs Hq Np Nq He.
  - done.
  - subst b. assert (0 < 0 < 2 ^ 32); [|lia]. apply Nq. by left.
  - subst a. assert (0 < 0 < 2 ^ 32); [|lia]. apply Np. by left.
  - subst b. destruct Hs as [Ha Hs], Hq as [Hb Hq]. rewrite Ha in Hb. injection Hb as <- Hh.
    f_equal. apply (IH a); try done; intros x Hx; [apply Np|apply Nq]; by right.
Qed.

Lemma ll_rep_det l ps qs : ll_rep l ps → ll_rep l qs → ps = qs.
Proof.
  intros R Q. apply (seg_det (nodes l) 0).
  - apply R.
  - apply Q.
  - exact (rep_ptr _ _ R).
  - exact (rep_ptr _ _ Q).
  - by rewrite <-(rep_head _ _ R), (rep_head _ _ Q).
Qed.

(** * Properties *)

(** C39: On a well-formed list the insertions add a node at the requested end,
    [linked_list_locate] returns the first node that holds the datum and
    [linked_list_lookup] the first datum the callback accepts ([NULL] when
    there is none); no pointer access of these operations fails and the
    result is well formed again. *)
Theorem linked_list_refines l ps d cmpf c :
  ll_rep l ps → malloc_node l ≠ 0 → (∀ x, x ∈ ps.*2 → cmpf x = Ret (c x)) →
  (∃ l', list_insert_head (malloc_node l) l d = Ret l' ∧ ll_rep l' ((malloc_node l, d) :: ps)) ∧
  (∃ l', list_insert_tail (malloc_node l) l d = Ret l' ∧ ll_rep l' (ps ++ [(malloc_node l, d)])) ∧
  linked_list_locate l d = Ret (find_node d ps) ∧
  linked_list_lookup l cmpf = Ret (find_data c ps.*2).
Proof.
  intros R Hm Hc. repeat split.
  - by apply list_insert_head_alloc.
  - by apply list_insert_tail_alloc.
  - by apply linked_list_locate_rep.
  - by apply linked_list_lookup_rep.
Qed.

Lemma linked_list_refines_witness :
  linked_list_locate init_linked_list 7 = Ret 0 ∧
  ∃ l', list_insert_head 1 init_linked_list 7 = Ret l' ∧ ll_rep l' [(1, 7)].
Proof.
  destruct (linked_list_refines init_linked_list [] 7 (λ _, Ret true) (λ _, true)
    init_linked_list_rep ltac:(done) ltac:(done)) as (H1 & _ & H2 & _).
  split; [exact H2|exact H1].
Defined.

(** Deleting any node of a well-formed list returns its datum and leaves
    the other nodes in their order, wherever the node is; removal from the
    head and from the tail are its two ends; deleting [NULL] (a node that was
    not located) is an invalid access. *)
Theorem list_delete_refines l pre a d post :
  ll_rep l (pre ++ (a, d) :: post) →
  (∃ l', list_del_entry l a = Ret (d, l') ∧ ll_rep l' (pre ++ post)) ∧
  (pre = [] → ∃ l', list_remove_head l = Ret (d, l') ∧ ll_rep l' post) ∧
  (post = [] → ∃ l', list_remove_tail l = Ret (d, l') ∧ ll_rep l' pre) ∧
  list_del_entry l 0 = Fault Segv.
Proof.
  intros R. split; [by apply list_del_entry_rep|]. split; [|split].
  - intros ->. exact (list_remove_head_rep _ _ R).
  - intros ->. exact (list_remove_tail_rep _ _ _ _ R).
  - exact (list_del_entry_null _ _ R).
Qed.

(** A list of two data, built by the library's own insertions. *)
Definition demo_list : outcome linked_list :=
  l ← list_insert_tail 1 init_linked_list 7; list_insert_tail 2 l 9.

Lemma demo_list_rep : ∃ l, demo_list = Ret l ∧ ll_rep l [(1, 7); (2, 9)].
Proof.
  destruct (list_insert_tail_alloc init_linked_list [] 7 init_linked_list_rep ltac:(done)) as (l1 & E1 & R1).
  change (malloc_node init_linked_list) with 1 in *.
  unfold demo_list. rewrite E1. cbn [mbind outcome_bind].
  injection E1 as E1. 
  destruct (list_insert_tail_alloc l1 [(1, 7)] 9 R1) as (l2 & E2 & R2); subst l1; [done|].
  exists l2. split; [exact E2|exact R2].
Qed.

Lemma list_delete_refines_witness :
  ∃ l l', demo_list = Ret l ∧ list_del_entry l 1 = Ret (7, l') ∧ ll_rep l' [(2, 9)].
Proof.
  destruct demo_list_rep as (l & E & R).
  destruct (list_delete_refines l [] 1 7 [(2, 9)] R) as [(l' & E' & R') _].
  exists l, l'. split; [exact E|]. split; [exact E'|exact R'].
Defined.
