(* ===== verification/Label.v ===== *)
(** Categories, labels and ownership sets: [monitor/label.c], [monitor/label.h]
    and the types of [common/include/ab_api.h].

    A category is a byte whose top bit says secrecy ([CAT_S]) or integrity
    ([CAT_I]); a label and an ownership set are arrays of eight categories, a
    zero entry being blank.  The reference semantics is set-based
    ([can_flow], [own_le]); the loops of [check_label] are proved to decide
    it, and the order-theoretic facts the arbiter relies on follow. *)

From S2P Require Import Prelude.

Definition CAT_S : Z := 0.
Definition CAT_I : Z := 128.

(** [label_t] and [own_t]: arrays of eight [cat_t]. *)
Definition is_cats (L : list Z) : Prop := length L = 8%nat ∧ Forall is_byte L.

(** [A[i]] for [0 <= i < 8] *)
Definition at_ (A : list Z) (i : nat) : Z := nth i A 0.
Definition idx8 : list nat := seq 0 8.

(** The [uint64_t] view of the array, [*(uint64_t * )L]. *)
Definition pack (L : list Z) : Z := le_dec L.
Definition unpack (w : Z) : list Z := le_enc 8 w.

(** [get_cat_type] *)
Definition get_cat_type (cat : Z) : Z := Z.land cat 128.

(** [create_cat]: the category, or 255 when the counter runs past 127; the
    second component is the static counter [cat_gen], a [uint8_t]. *)
Definition create_cat (t : Z) (cat_gen : Z) : Z * Z :=
  let cat_gen := u8 (cat_gen + 1) in
  if 128 <=? cat_gen then (u8 (-1), cat_gen)
  else (u8 (Z.lor t (Z.land cat_gen 127)), cat_gen).

(** [add_onwership]: the returned category (0: no blank entry) and the array. *)
Fixpoint add_onwership_from (O : list Z) (cat : Z) (ix : list nat) : Z * list Z :=
  match ix with
  | [] => (0, O)
  | i :: ix' =>
      if negb (at_ O i =? 0) then add_onwership_from O cat ix'
      else (cat, <[i := cat]> O)
  end.
Definition add_onwership (O : list Z) (cat : Z) : Z * list Z :=
  add_onwership_from O cat idx8.

(** [for (j = 0; j < 8; j++) if (x == A[j]) { SET_FLAG(flag); break; }] *)
Fixpoint scan_flag (x : Z) (A : list Z) (js : list nat) : bool :=
  match js with
  | [] => false
  | j :: js' => if x =? at_ A j then true else scan_flag x A js'
  end.

(** [for (j = 0; j < 8; j++) if (x == A[j]) break; else if (j == 7) return -1;]
    is [false] when it returns. *)
Fixpoint scan_must (x : Z) (A : list Z) (js : list nat) : bool :=
  match js with
  | [] => true
  | j :: js' => if x =? at_ A j then true else if (j =? 7)%nat then false else scan_must x A js'
  end.

(** The first loop: every secrecy category of 1 is owned by 1 or in 2. *)
Fixpoint check_secrecy (L1 O1 L2 : list Z) (ix : list nat) : bool :=
  match ix with
  | [] => true
  | i :: ix' =>
      if (at_ L1 i =? 0) || (get_cat_type (at_ L1 i) =? CAT_I) then check_secrecy L1 O1 L2 ix'
      else if scan_flag (at_ L1 i) O1 idx8 then check_secrecy L1 O1 L2 ix'
      else if scan_must (at_ L1 i) L2 idx8 then check_secrecy L1 O1 L2 ix'
      else false
  end.

(** The second loop: every integrity category of 2 is owned by 1 or in 1. *)
Fixpoint check_integrity (L1 O1 L2 : list Z) (ix : list nat) : bool :=
  match ix with
  | [] => true
  | i :: ix' =>
      if (at_ L2 i =? 0) || (get_cat_type (at_ L2 i) =? CAT_S) then check_integrity L1 O1 L2 ix'
      else if scan_flag (at_ L2 i) O1 idx8 then check_integrity L1 O1 L2 ix'
      else if scan_must (at_ L2 i) L1 idx8 then check_integrity L1 O1 L2 ix'
      else false
  end.

(** The third loop: the ownership of 2 is part of the ownership of 1. *)
Fixpoint check_own (O1 O2 : list Z) (ix : list nat) : bool :=
  match ix with
  | [] => true
  | i :: ix' =>
      if at_ O2 i =? 0 then check_own O1 O2 ix'
      else if scan_must (at_ O2 i) O1 idx8 then check_own O1 O2 ix'
      else false
  end.

(** [check_label]: 0 for pass, -1 for fail; [O2] may be [NULL]. *)
Definition check_label (L1 O1 L2 : list Z) (O2 : option (list Z)) : Z :=
  if negb (check_secrecy L1 O1 L2 idx8) then -1
  else if negb (check_integrity L1 O1 L2 idx8) then -1
  else match O2 with
       | None => 0
       | Some O2 => if negb (check_own O1 O2 idx8) then -1 else 0
       end.

Inductive mem_prot := PROT_N | PROT_R | PROT_RW.

#[export] Instance mem_prot_eq_dec : EqDecision mem_prot.
Proof. solve_decision. Defined.

(** [check_mem_prot] *)
Definition check_mem_prot (L1 O1 L2 : list Z) : mem_prot :=
  let pw := check_label L1 O1 L2 None in
  let pr := check_label L2 O1 L1 None in
  if (pr =? 0) && (pw =? 0) then PROT_RW
  else if (pr =? 0) && (pw =? -1) then PROT_R
  else PROT_N.

(** * Reference semantics *)

Definition secrecy (c : Z) : Prop := c ≠ 0 ∧ get_cat_type c = CAT_S.
Definition integrity (c : Z) : Prop := c ≠ 0 ∧ get_cat_type c = CAT_I.

(** Information may flow from [L1] to [L2] with the privileges [O1]: secrecy
    categories are kept unless owned, integrity categories are not gained
    unless owned. *)
Definition can_flow (L1 O1 L2 : list Z) : Prop :=
  (∀ c, secrecy c → c ∈ L1 → c ∈ O1 ∨ c ∈ L2) ∧
  (∀ c, integrity c → c ∈ L2 → c ∈ O1 ∨ c ∈ L1).

(** [O2] holds no category that [O1] does not hold. *)
Definition own_le (O2 O1 : list Z) : Prop := ∀ c, c ≠ 0 → c ∈ O2 → c ∈ O1.

Lemma cat_type_cases c : get_cat_type c = CAT_S ∨ get_cat_type c = CAT_I.
Proof.
  unfold get_cat_type, CAT_S, CAT_I. change 128 with (2 ^ 7).
  destruct (Z.testbit c 7) eqn:Hb; [right|left]; apply Z.bits_inj'; intros n Hn;
    rewrite Z.land_spec; [|rewrite Z.bits_0];
    destruct (decide (n = 7)) as [->|]; rewrite ?Hb;
    rewrite ?Z.pow2_bits_true, ?Z.pow2_bits_false, ?andb_false_r by lia; done.
Qed.

Lemma elem_of_at A c : length A = 8%nat → c ∈ A ↔ ∃ i, i ∈ idx8 ∧ c = at_ A i.
Proof.
  intros Hl. unfold at_. split.
  - intros (i & Hi)%list_elem_of_lookup. exists i. split.
    + apply elem_of_seq. apply lookup_lt_Some in Hi. lia.
    + symmetry. by apply nth_lookup_Some.
  - intros (i & Hi%elem_of_seq & ->). rewrite nth_lookup.
    destruct (A !! i) as [x|] eqn:He; simpl.
    + by eapply list_elem_of_lookup_2.
    + apply lookup_ge_None in He. lia.
Qed.

Lemma scan_flag_spec x A js : scan_flag x A js = true ↔ ∃ j, j ∈ js ∧ x = at_ A j.
Proof.
  induction js as [|j js IH]; simpl; [set_solver|].
  destruct (Z.eqb_spec x (at_ A j)); set_solver.
Qed.

(** The scan that may return looks at index 7 last. *)
Lemma scan_must_flag x A n m : (n + m = 8)%nat → (0 < m)%nat →
  scan_must x A (seq n m) = scan_flag x A (seq n m).
Proof.
  revert n; induction m as [|m IH]; intros n Hnm Hm; [lia|]. simpl.
  destruct (x =? at_ A n); [done|]. destruct (Nat.eqb_spec n 7).
  - by replace m with 0%nat by lia.
  - apply IH; lia.
Qed.

Lemma scan_must_spec x A : length A = 8%nat → scan_must x A idx8 = true ↔ x ∈ A.
Proof.
  intros Hl. unfold idx8. rewrite scan_must_flag by lia.
  by rewrite scan_flag_spec, elem_of_at.
Qed.
Lemma scan_flag_in x A : length A = 8%nat → scan_flag x A idx8 = true ↔ x ∈ A.
Proof. intros Hl. by rewrite scan_flag_spec, elem_of_at. Qed.

(** The three loops return early exactly when one index fails. *)
Lemma check_secrecy_forallb L1 O1 L2 ix :
  check_secrecy L1 O1 L2 ix = forallb (λ i, (at_ L1 i =? 0) || (get_cat_type (at_ L1 i) =? CAT_I)
    || scan_flag (at_ L1 i) O1 idx8 || scan_must (at_ L1 i) L2 idx8) ix.
Proof.
  induction ix as [|i ix IH]; [done|]. cbn [check_secrecy check_integrity check_own forallb].
  rewrite IH.
  by destruct (_ =? 0), (_ =? _), (scan_flag _ _ _), (scan_must _ _ _).
Qed.
Lemma check_integrity_forallb L1 O1 L2 ix :
  check_integrity L1 O1 L2 ix = forallb (λ i, (at_ L2 i =? 0) || (get_cat_type (at_ L2 i) =? CAT_S)
    || scan_flag (at_ L2 i) O1 idx8 || scan_must (at_ L2 i) L1 idx8) ix.
Proof.
  induction ix as [|i ix IH]; [done|]. cbn [check_secrecy check_integrity check_own forallb].
  rewrite IH.
  by destruct (_ =? 0), (_ =? _), (scan_flag _ _ _), (scan_must _ _ _).
Qed.
Lemma check_own_forallb O1 O2 ix :
  check_own O1 O2 ix = forallb (λ i, (at_ O2 i =? 0) || scan_must (at_ O2 i) O1 idx8) ix.
Proof.
  induction ix as [|i ix IH]; [done|]. cbn [check_secrecy check_integrity check_own forallb].
  rewrite IH.
  by destruct (_ =? 0), (scan_must _ _ _).
Qed.

Lemma forallb_at (P : Z → bool) A :
  length A = 8%nat → forallb (λ i, P (at_ A i)) idx8 = true ↔ ∀ c, c ∈ A → P c = true.
Proof.
  intros Hl. rewrite forallb_forall. setoid_rewrite <-list_elem_of_In. split.
  - intros H c (i & Hi & ->)%elem_of_at; auto.
  - intros H i Hi. apply H, elem_of_at; eauto.
Qed.

Section Decides.
Context (L1 O1 L2 : list Z).
Hypotheses (HL1 : length L1 = 8%nat) (HO1 : length O1 = 8%nat) (HL2 : length L2 = 8%nat).

Lemma check_secrecy_spec :
  check_secrecy L1 O1 L2 idx8 = true ↔ ∀ c, secrecy c → c ∈ L1 → c ∈ O1 ∨ c ∈ L2.
Proof using HL1 HO1 HL2.
  rewrite check_secrecy_forallb.
  rewrite (forallb_at (λ c, (c =? 0) || (get_cat_type c =? CAT_I)
    || scan_flag c O1 idx8 || scan_must c L2 idx8)) by done.
  unfold secrecy. split; intros H c.
  - intros [H0 Ht] Hc%H. rewrite !orb_true_iff, !Z.eqb_eq, scan_flag_in, scan_must_spec in Hc by done.
    rewrite Ht in Hc. destruct Hc as [[[|]|]|]; auto; done.
  - intros Hc. rewrite !orb_true_iff, !Z.eqb_eq, scan_flag_in, scan_must_spec by done.
    destruct (decide (c = 0)); [tauto|]. destruct (cat_type_cases c); [|tauto].
    destruct (H c); tauto.
Qed.

Lemma check_integrity_spec :
  check_integrity L1 O1 L2 idx8 = true ↔ ∀ c, integrity c → c ∈ L2 → c ∈ O1 ∨ c ∈ L1.
Proof using HL1 HO1 HL2.
  rewrite check_integrity_forallb.
  rewrite (forallb_at (λ c, (c =? 0) || (get_cat_type c =? CAT_S)
    || scan_flag c O1 idx8 || scan_must c L1 idx8)) by done.
  unfold integrity. split; intros H c.
  - intros [H0 Ht] Hc%H. rewrite !orb_true_iff, !Z.eqb_eq, scan_flag_in, scan_must_spec in Hc by done.
    rewrite Ht in Hc. destruct Hc as [[[|]|]|]; auto; done.
  - intros Hc. rewrite !orb_true_iff, !Z.eqb_eq, scan_flag_in, scan_must_spec by done.
    destruct (decide (c = 0)); [tauto|]. destruct (cat_type_cases c); [tauto|].
    destruct (H c); tauto.
Qed.

Lemma check_own_spec O2 :
  length O2 = 8%nat → check_own O1 O2 idx8 = true ↔ own_le O2 O1.
Proof using HO1.
  intros HO2. rewrite check_own_forallb.
  rewrite (forallb_at (λ c, (c =? 0) || scan_must c O1 idx8)) by done.
  unfold own_le. split; intros H c.
  - intros H0 Hc%H. rewrite orb_true_iff, Z.eqb_eq, scan_must_spec in Hc by done. tauto.
  - intros Hc. rewrite orb_true_iff, Z.eqb_eq, scan_must_spec by done.
    destruct (decide (c = 0)); [tauto|]. right. by apply H.
Qed.

(** Without an ownership argument, [check_label] decides [can_flow]. *)
Lemma check_label_None : check_label L1 O1 L2 None = 0 ↔ can_flow L1 O1 L2.
Proof using HL1 HO1 HL2.
  unfold check_label, can_flow. rewrite <-check_secrecy_spec, <-check_integrity_spec.
  destruct (check_secrecy _ _ _ _), (check_integrity _ _ _ _); simpl; naive_solver.
Qed.

Lemma check_label_Some O2 :
  length O2 = 8%nat →
  check_label L1 O1 L2 (Some O2) = 0 ↔ can_flow L1 O1 L2 ∧ own_le O2 O1.
Proof using HL1 HO1 HL2.
  intros HO2. rewrite <-check_own_spec by done. unfold check_label, can_flow.
  rewrite <-check_secrecy_spec, <-check_integrity_spec.
  destruct (check_secrecy _ _ _ _), (check_integrity _ _ _ _), (check_own _ _ _); simpl; naive_solver.
Qed.
End Decides.

Lemma check_label_range L1 O1 L2 O2 :
  check_label L1 O1 L2 O2 = 0 ∨ check_label L1 O1 L2 O2 = -1.
Proof. unfold check_label. repeat case_match; auto. Qed.

#[export] Instance can_flow_dec L1 O1 L2 :
  length L1 = 8%nat → length O1 = 8%nat → length L2 = 8%nat → Decision (can_flow L1 O1 L2).
Proof.
  intros H1 H2 H3. destruct (decide (check_label L1 O1 L2 None = 0)) as [H|H].
  - left. by apply check_label_None.
  - right. by rewrite <-check_label_None.
Defined.

(** ** The order of flows *)

Lemma can_flow_refl L O : can_flow L O L.
Proof. split; auto. Qed.

(** More privileges allow more flows. *)
Lemma can_flow_own_mono L1 L2 O O' :
  own_le O O' → can_flow L1 O L2 → can_flow L1 O' L2.
Proof.
  intros Ho [Hs Hi]. split; intros c Hc Hin.
  - destruct (Hs c Hc Hin); [left; apply Ho; [apply Hc|done]|by right].
  - destruct (Hi c Hc Hin); [left; apply Ho; [apply Hc|done]|by right].
Qed.

Lemma own_le_refl O : own_le O O.
Proof. by intros c. Qed.
Lemma own_le_trans O1 O2 O3 : own_le O1 O2 → own_le O2 O3 → own_le O1 O3.
Proof. intros H12 H23 c Hc H. by apply H23, H12. Qed.

(** A chain of flows in which no step uses a privilege the first principal
    lacks is a flow of the first principal. *)
Lemma can_flow_trans L1 L2 L3 O1 O2 :
  own_le O2 O1 → can_flow L1 O1 L2 → can_flow L2 O2 L3 → can_flow L1 O1 L3.
Proof.
  intros Ho F12 F23. apply (can_flow_own_mono _ _ _ _ Ho) in F23.
  destruct F12 as [S12 I12], F23 as [S23 I23]. split; intros c Hc Hin.
  - destruct (S12 c Hc Hin); [by left|]. by apply S23.
  - destruct (I23 c Hc Hin); [by left|]. by apply I12.
Qed.

(** ** The protection a principal gets on a memory object *)

Lemma check_mem_prot_RW L1 O1 L2 :
  length L1 = 8%nat → length O1 = 8%nat → length L2 = 8%nat →
  check_mem_prot L1 O1 L2 = PROT_RW ↔ can_flow L2 O1 L1 ∧ can_flow L1 O1 L2.
Proof.
  intros. rewrite <-!check_label_None by done. unfold check_mem_prot.
  destruct (check_label_range L1 O1 L2 None) as [->| ->],
    (check_label_range L2 O1 L1 None) as [->| ->]; simpl; naive_solver.
Qed.
Lemma check_mem_prot_R L1 O1 L2 :
  length L1 = 8%nat → length O1 = 8%nat → length L2 = 8%nat →
  check_mem_prot L1 O1 L2 = PROT_R ↔ can_flow L2 O1 L1 ∧ ¬ can_flow L1 O1 L2.
Proof.
  intros. rewrite <-!check_label_None by done. unfold check_mem_prot.
  destruct (check_label_range L1 O1 L2 None) as [->| ->],
    (check_label_range L2 O1 L1 None) as [->| ->]; simpl; naive_solver.
Qed.

(** Protections ordered by what they permit. *)
Definition prot_le (p q : mem_prot) : Prop :=
  match p, q with
  | PROT_N, _ => True
  | PROT_R, (PROT_R | PROT_RW) => True
  | PROT_RW, PROT_RW => True
  | _, _ => False
  end.

Lemma prot_le_refl p : prot_le p p.
Proof. by destruct p. Qed.
Lemma prot_le_trans p q r : prot_le p q → prot_le q r → prot_le p r.
Proof. by destruct p, q, r. Qed.

Lemma check_mem_prot_mono L1 O O' L2 :
  length L1 = 8%nat → length O = 8%nat → length O' = 8%nat → length L2 = 8%nat →
  own_le O O' → prot_le (check_mem_prot L1 O L2) (check_mem_prot L1 O' L2).
Proof.
  intros H1 H2 H3 H4 Ho.
  destruct (check_mem_prot L1 O L2) eqn:Hp; [by destruct (check_mem_prot L1 O' L2)| |].
  - apply check_mem_prot_R in Hp as [Hr _]; [|done..].
    apply (can_flow_own_mono _ _ _ _ Ho) in Hr.
    destruct (check_mem_prot L1 O' L2) eqn:Hq; [|done|done]. exfalso.
    destruct (can_flow_dec L1 O' L2) as [Hw|Hw]; [done|done|done|..].
    + assert (check_mem_prot L1 O' L2 = PROT_RW) by (by apply check_mem_prot_RW). congruence.
    + assert (check_mem_prot L1 O' L2 = PROT_R) by (by apply check_mem_prot_R). congruence.
  - apply check_mem_prot_RW in Hp as [Hr Hw]; [|done..].
    apply (can_flow_own_mono _ _ _ _ Ho) in Hr, Hw.
    by rewrite (proj2 (check_mem_prot_RW L1 O' L2 H1 H3 H4) (conj Hr Hw)).
Qed.

(** ** Ownership updates *)

Lemma add_onwership_from_spec O cat n m :
  length O = 8%nat → (n + m = 8)%nat → (∀ i, (i < n)%nat → at_ O i ≠ 0) →
  (∃ i, (i < 8)%nat ∧ at_ O i = 0 ∧ (∀ j, (j < i)%nat → at_ O j ≠ 0) ∧
        add_onwership_from O cat (seq n m) = (cat, <[i := cat]> O)) ∨
  ((∀ i, (i < 8)%nat → at_ O i ≠ 0) ∧ add_onwership_from O cat (seq n m) = (0, O)).
Proof.
  intros Hl. revert n. induction m as [|m IH]; intros n Hnm Hpre; cbn [seq add_onwership_from].
  - right. split; [|done]. intros i Hi. apply Hpre. lia.
  - destruct (Z.eqb_spec (at_ O n) 0) as [H0|H0]; cbn [negb].
    + left. exists n. repeat split; auto; lia.
    + apply IH; [lia|]. intros i Hi. destruct (decide (i = n)) as [->|]; [done|]. apply Hpre. lia.
Qed.

Lemma add_onwership_cases O cat :
  length O = 8%nat →
  (∃ i, (i < 8)%nat ∧ at_ O i = 0 ∧ (∀ j, (j < i)%nat → at_ O j ≠ 0) ∧
        add_onwership O cat = (cat, <[i := cat]> O)) ∨
  ((∀ i, (i < 8)%nat → at_ O i ≠ 0) ∧ add_onwership O cat = (0, O)).
Proof. intros Hl. apply (add_onwership_from_spec O cat 0 8); [done|lia|lia]. Qed.

Lemma add_onwership_elem O cat c :
  length O = 8%nat → c ≠ 0 → c ∈ (add_onwership O cat).2 → c = cat ∨ c ∈ O.
Proof.
  intros Hl Hc. destruct (add_onwership_cases O cat Hl) as [(i & Hi & _ & _ & ->)|[_ ->]]; simpl.
  - intros (j & Hj)%list_elem_of_lookup. destruct (decide (i = j)) as [->|].
    + rewrite list_lookup_insert_eq in Hj by lia. left. congruence.
    + rewrite list_lookup_insert_ne in Hj by done. right. by eapply list_elem_of_lookup_2.
  - by right.
Qed.

Lemma add_onwership_le O cat : length O = 8%nat → own_le O (add_onwership O cat).2.
Proof.
  intros Hl c Hc Hin. destruct (add_onwership_cases O cat Hl) as [(i & Hi & H0 & _ & ->)|[_ ->]]; simpl; [|done].
  apply list_elem_of_lookup in Hin as (j & Hj). apply list_elem_of_lookup. exists j.
  rewrite list_lookup_insert_ne; [done|]. intros ->. apply nth_lookup_Some with (d := 0) in Hj.
  unfold at_ in H0. congruence.
Qed.

Lemma length_add_onwership O cat : length O = 8%nat → length (add_onwership O cat).2 = 8%nat.
Proof.
  intros Hl. destruct (add_onwership_cases O cat Hl) as [(i & Hi & _ & _ & ->)|[_ ->]]; simpl; [|done].
  by rewrite length_insert.
Qed.

Lemma bytes_add_onwership O cat :
  length O = 8%nat → Forall is_byte O → is_byte cat → Forall is_byte (add_onwership O cat).2.
Proof.
  intros Hl HO Hc. destruct (add_onwership_cases O cat Hl) as [(i & Hi & _ & _ & ->)|[_ ->]]; simpl; [|done].
  by apply Forall_insert.
Qed.

(** ** Category creation *)

(** The categories a sequence of requests yields, and the counter after it. *)
Fixpoint create_cats (ts : list Z) (cat_gen : Z) : list Z * Z :=
  match ts with
  | [] => ([], cat_gen)
  | t :: ts' =>
      let '(c, g) := create_cat t cat_gen in
      let '(cs, g') := create_cats ts' g in
      (c :: cs, g')
  end.

Definition is_type (t : Z) : Prop := t = CAT_S ∨ t = CAT_I.

Lemma create_cat_fresh t g :
  is_type t → 0 ≤ g < 127 → create_cat t g = (t + (g + 1), g + 1).
Proof.
  intros Ht Hg.
  assert (H : forallb (λ g, bool_decide (create_cat CAT_S g = (CAT_S + (g + 1), g + 1)) &&
    bool_decide (create_cat CAT_I g = (CAT_I + (g + 1), g + 1))) (seqZ 0 127) = true)
    by (vm_compute; reflexivity).
  rewrite forallb_forall in H. specialize (H g).
  rewrite andb_true_iff, !bool_decide_eq_true in H.
  destruct H as [HS HI]; [|by destruct Ht as [-> | ->]].
  apply list_elem_of_In, elem_of_seqZ. lia.
Qed.

Lemma get_cat_type_add t g : is_type t → 0 ≤ g < 128 → get_cat_type (t + g) = t.
Proof.
  intros Ht Hg.
  assert (H : forallb (λ g, (get_cat_type (CAT_S + g) =? CAT_S) &&
    (get_cat_type (CAT_I + g) =? CAT_I)) (seqZ 0 128) = true) by (vm_compute; reflexivity).
  rewrite forallb_forall in H. specialize (H g).
  rewrite andb_true_iff, !Z.eqb_eq in H.
  destruct H as [HS HI]; [|by destruct Ht as [-> | ->]].
  apply list_elem_of_In, elem_of_seqZ. lia.
Qed.

(** The counter is a byte that every request increments. *)
Lemma create_cats_gen ts g : 0 ≤ g < 256 → (create_cats ts g).2 = u8 (g + Z.of_nat (length ts)).
Proof.
  revert g; induction ts as [|t ts IH]; intros g Hg; simpl.
  { rewrite Z.add_0_r. symmetry. apply u8_small. lia. }
  assert (Hc : (create_cat t g).2 = u8 (g + 1)) by (unfold create_cat; by case_match).
  destruct (create_cat t g) as [c g'] eqn:He. simpl in Hc.
  assert (0 ≤ g' < 256) by (pose proof (u8_bound (g + 1)); lia).
  specialize (IH g'). destruct (create_cats ts g') as [cs g''] eqn:Hs. simpl in *.
  rewrite IH by done. rewrite Hc. unfold u8. rewrite Z.add_mod_idemp_l by lia.
  f_equal. lia.
Qed.

Lemma create_cats_fresh ts g :
  Forall is_type ts → 0 ≤ g → g + Z.of_nat (length ts) ≤ 127 →
  (create_cats ts g).1 = imap (λ i t, t + (g + 1 + Z.of_nat i)) ts.
Proof.
  revert g; induction ts as [|t ts IH]; intros g Hts Hg Hlen; [done|].
  apply Forall_cons in Hts as [Ht Hts]. simpl length in Hlen. cbn [create_cats].
  rewrite create_cat_fresh by (done || lia).
  specialize (IH (g + 1) Hts). destruct (create_cats ts (g + 1)) as [cs g'] eqn:Hs.
  simpl in *. rewrite IH by lia. f_equal; [f_equal; lia|].
  apply imap_ext. intros i x _. simpl. f_equal. lia.
Qed.

Lemma unpack_pack L : is_cats L → unpack (pack L) = L.
Proof. intros [Hl Hb]. unfold unpack, pack. rewrite <-Hl. by apply le_enc_dec. Qed.
Lemma pack_unpack w : 0 ≤ w < 2 ^ 64 → pack (unpack w) = w.
Proof. intros Hw. unfold pack, unpack. rewrite le_dec_enc. by apply Z.mod_small. Qed.
Lemma unpack_cats w : is_cats (unpack w).
Proof. split; [apply length_le_enc|apply le_enc_bytes]. Qed.
Lemma length_unpack w : length (unpack w) = 8%nat.
Proof. apply length_le_enc. Qed.
Lemma pack_bound L : is_cats L → 0 ≤ pack L < 2 ^ 64.
Proof. intros [Hl Hb]. pose proof (le_dec_bound L Hb). rewrite Hl in H. exact H. Qed.
#[export] Hint Resolve unpack_cats length_unpack : arb.

(** * Properties *)

(** C27: The three nested loops of [check_label] decide the set-based flow
    relation: the call returns 0 exactly when every unowned secrecy category
    of the first label is in the second, every unowned integrity category of
    the second is in the first and, when an ownership set is given, that set
    is part of the first principal's; otherwise it returns -1. *)
Theorem check_label_decides L1 O1 L2 O2 :
  length L1 = 8%nat → length O1 = 8%nat → length L2 = 8%nat →
  (∀ O, O2 = Some O → length O = 8%nat) →
  (check_label L1 O1 L2 O2 = 0 ↔
     can_flow L1 O1 L2 ∧ ∀ O, O2 = Some O → own_le O O1) ∧
  (check_label L1 O1 L2 O2 ≠ 0 → check_label L1 O1 L2 O2 = -1).
Proof.
  intros H1 H2 H3 H4. split.
  - destruct O2 as [O2|].
    + rewrite check_label_Some by auto. naive_solver.
    + rewrite check_label_None by done. naive_solver.
  - destruct (check_label_range L1 O1 L2 O2); naive_solver.
Qed.

(** The categories of the unit test [monitor/test_label.c]. *)
Definition cats8 (l : list Z) : list Z := l ++ replicate (8 - length l) 0.
Definition t_ar : Z := 1.
Definition t_aw : Z := 130.
Definition t_dr : Z := 3.
Definition t_dw : Z := 132.

Lemma check_label_decides_witness :
  check_label (cats8 [t_ar; t_aw]) (cats8 [t_ar; t_aw]) (cats8 [t_ar; t_aw]) (Some (cats8 [])) = 0 ∧
  can_flow (cats8 [t_ar; t_aw]) (cats8 [t_ar; t_aw]) (cats8 [t_ar; t_aw]).
Proof.
  split; [vm_compute; reflexivity|].
  apply (proj1 (check_label_decides (cats8 [t_ar; t_aw]) (cats8 [t_ar; t_aw])
    (cats8 [t_ar; t_aw]) (Some (cats8 [])) eq_refl eq_refl eq_refl
    (λ O H, eq_ind (Some (cats8 [])) (λ o, match o with Some X => length X = 8%nat | None => True end)
       eq_refl (Some O) H))).
  vm_compute; reflexivity.
Defined.

(** Delegation is sound: when a principal may create a second one and the
    second may create a third, the first may create the third directly, so no
    chain of forks moves information or ownership that a single fork could
    not move. *)
Theorem check_label_delegation L1 O1 L2 O2 L3 O3 :
  length L1 = 8%nat → length O1 = 8%nat → length L2 = 8%nat → length O2 = 8%nat →
  length L3 = 8%nat → length O3 = 8%nat →
  check_label L1 O1 L2 (Some O2) = 0 → check_label L2 O2 L3 (Some O3) = 0 →
  check_label L1 O1 L3 (Some O3) = 0.
Proof.
  intros H1 H2 H3 H4 H5 H6. rewrite !check_label_Some by done.
  intros [F12 O12] [F23 O23]. split; [by eapply can_flow_trans|by eapply own_le_trans].
Qed.

Lemma check_label_delegation_witness :
  check_label (cats8 []) (cats8 [t_ar; t_aw]) (cats8 [t_ar]) (Some (cats8 [t_ar])) = 0 ∧
  check_label (cats8 [t_ar]) (cats8 [t_ar]) (cats8 []) (Some (cats8 [])) = 0 ∧
  check_label (cats8 []) (cats8 [t_ar; t_aw]) (cats8 []) (Some (cats8 [])) = 0.
Proof.
  split; [vm_compute; reflexivity|]. split; [vm_compute; reflexivity|].
  apply (check_label_delegation (cats8 []) (cats8 [t_ar; t_aw]) (cats8 [t_ar]) (cats8 [t_ar])
    (cats8 []) (cats8 [])); vm_compute; reflexivity.
Defined.

(** C28: [check_mem_prot] grants read and write exactly when information may
    flow both ways, read only when it may flow from the object to the
    principal but not back, and nothing otherwise (a write-only object is
    mapped without access); a principal that owns more never gets less. *)
Theorem check_mem_prot_policy L1 O O' L2 :
  length L1 = 8%nat → length O = 8%nat → length O' = 8%nat → length L2 = 8%nat →
  (check_mem_prot L1 O L2 = PROT_RW ↔ can_flow L2 O L1 ∧ can_flow L1 O L2) ∧
  (check_mem_prot L1 O L2 = PROT_R ↔ can_flow L2 O L1 ∧ ¬ can_flow L1 O L2) ∧
  (check_mem_prot L1 O L2 = PROT_N ↔ ¬ can_flow L2 O L1) ∧
  (own_le O O' → prot_le (check_mem_prot L1 O L2) (check_mem_prot L1 O' L2)).
Proof.
  intros H1 H2 H3 H4. pose proof (check_mem_prot_RW L1 O L2 H1 H2 H4) as HRW.
  pose proof (check_mem_prot_R L1 O L2 H1 H2 H4) as HR. split; [done|]. split; [done|].
  split; [|by apply check_mem_prot_mono]. split.
  - intros HN HF. destruct (can_flow_dec L1 O L2 H1 H2 H4) as [Hw|Hw].
    + rewrite HN in HRW. discriminate (proj2 HRW (conj HF Hw)).
    + rewrite HN in HR. discriminate (proj2 HR (conj HF Hw)).
  - intros HF. destruct (check_mem_prot L1 O L2); [done| |]; exfalso; apply HF.
    + by apply HR.
    + by apply HRW.
Qed.

Lemma check_mem_prot_policy_witness :
  check_mem_prot (cats8 [t_ar]) (cats8 []) (cats8 [t_ar; t_aw]) = PROT_R ∧
  can_flow (cats8 [t_ar; t_aw]) (cats8 []) (cats8 [t_ar]) ∧
  ¬ can_flow (cats8 [t_ar]) (cats8 []) (cats8 [t_ar; t_aw]).
Proof.
  split; [vm_compute; reflexivity|].
  apply (proj1 (proj1 (proj2 (check_mem_prot_policy (cats8 [t_ar]) (cats8 []) (cats8 [])
    (cats8 [t_ar; t_aw]) eq_refl eq_refl eq_refl eq_refl)))).
  vm_compute; reflexivity.
Defined.

(** C38: Up to the 127th request, requests of the two documented types get
    categories that are non-blank, carry the requested type and differ from
    each other, whatever the counter was. *)
Theorem create_cat_unique ts g :
  Forall is_type ts → 0 ≤ g → g + Z.of_nat (length ts) ≤ 127 →
  NoDup (create_cats ts g).1 ∧
  Forall2 (λ t c, c ≠ 0 ∧ get_cat_type c = t) ts (create_cats ts g).1 ∧
  (create_cats ts g).2 = g + Z.of_nat (length ts).
Proof.
  intros Hts Hg Hlen. rewrite create_cats_fresh, create_cats_gen by (done || lia).
  split; [|split].
  - apply NoDup_alt. intros i j x Hi Hj. rewrite list_lookup_imap in Hi, Hj.
    destruct (ts !! i) as [ti|] eqn:Hti; [|done]. destruct (ts !! j) as [tj|] eqn:Htj; [|done].
    simpl in *. pose proof (lookup_lt_Some _ _ _ Hti). pose proof (lookup_lt_Some _ _ _ Htj).
    rewrite Forall_lookup in Hts. destruct (Hts _ _ Hti) as [-> | ->], (Hts _ _ Htj) as [-> | ->];
      unfold CAT_S, CAT_I in *; naive_solver lia.
  - apply Forall2_lookup. intros i. rewrite list_lookup_imap.
    destruct (ts !! i) as [t|] eqn:Ht; simpl; constructor.
    pose proof (lookup_lt_Some _ _ _ Ht). rewrite Forall_lookup in Hts. specialize (Hts _ _ Ht).
    split; [destruct Hts as [-> | ->]; unfold CAT_S, CAT_I; lia|].
    apply get_cat_type_add; [done|lia].
  - apply u8_small. lia.
Qed.

Lemma create_cat_unique_witness :
  (create_cats [CAT_S; CAT_I; CAT_S; CAT_I] 0).1 = [t_ar; t_aw; t_dr; t_dw] ∧
  NoDup (create_cats [CAT_S; CAT_I; CAT_S; CAT_I] 0).1.
Proof.
  split; [vm_compute; reflexivity|].
  apply (create_cat_unique [CAT_S; CAT_I; CAT_S; CAT_I] 0); [|lia|vm_compute; discriminate].
  repeat (apply Forall_cons; split; [unfold is_type; auto|]). constructor.
Defined.

(** A type byte that has the bits of the next counter value is returned. *)
Lemma create_cat_forges c g :
  is_byte c → 0 ≤ g < 127 → Z.land (g + 1) c = g + 1 → (create_cat c g).1 = c.
Proof.
  intros Hc Hg Hl. unfold create_cat. rewrite (u8_small (g + 1)) by lia.
  rewrite (proj2 (Z.leb_gt 128 (g + 1))) by lia. simpl.
  assert (Hm : Z.land (g + 1) 127 = g + 1).
  { change 127 with (Z.ones 7). rewrite Z.land_ones by lia. apply Z.mod_small. lia. }
  rewrite Hm, <-Hl.
  assert (Z.lor c (Z.land (g + 1) c) = c) as ->; [|by apply u8_small].
  apply Z.bits_inj'. intros n _. rewrite Z.lor_spec, Z.land_spec.
  by destruct (Z.testbit c n), (Z.testbit (g + 1) n).
Qed.

(** C29: the counter of [create_cat] is one byte and the type byte is the
    client's.  From the 128th request on the result is 255; after 256 requests
    the results repeat, so a category is handed out twice; and a client that
    sends a category as the type is given that very category whenever the bits
    of the next counter value are among its bits, so it can come to own a
    category that another principal created. *)
Theorem create_cat_limits t ts g :
  (127 ≤ g < 255 → create_cat t g = (255, g + 1)) ∧
  (0 ≤ g < 256 → length ts = 255%nat →
     create_cat t (create_cats ts (create_cat t g).2).2 = create_cat t g) ∧
  (is_byte t → 0 ≤ g < 127 → Z.land (g + 1) t = g + 1 → (create_cat t g).1 = t).
Proof.
  split; [|split; [|apply create_cat_forges]].
  - intros Hg. unfold create_cat. rewrite u8_small by lia.
    by rewrite (proj2 (Z.leb_le 128 (g + 1))) by lia.
  - intros Hg Hl.
    assert (Hc : (create_cat t g).2 = u8 (g + 1)) by (unfold create_cat; by case_match).
    rewrite create_cats_gen, Hc, Hl by (rewrite Hc; pose proof (u8_bound (g + 1)); lia).
    f_equal. unfold u8. rewrite Z.add_mod_idemp_l by lia.
    replace (g + 1 + Z.of_nat 255) with (g + 1 * 2 ^ 8) by lia.
    rewrite Z.mod_add by lia. by apply Z.mod_small.
Qed.

Lemma create_cat_limits_witness :
  create_cat CAT_S (create_cats (replicate 255 CAT_S) (create_cat CAT_S 0).2).2 = (1, 1) ∧
  (create_cat t_dr 0).1 = t_dr ∧ (create_cat t_dr 1).1 = t_dr.
Proof.
  split; [|split].
  - apply (create_cat_limits CAT_S (replicate 255 CAT_S) 0); [lia|reflexivity].
  - apply (create_cat_limits t_dr [] 0); [unfold is_byte, t_dr; lia|lia|reflexivity].
  - apply (create_cat_limits t_dr [] 1); [unfold is_byte, t_dr; lia|lia|reflexivity].
Defined.

(** [add_onwership] writes the category into the first blank entry and
    returns it, leaving every other entry alone, or returns 0 and changes
    nothing when no entry is blank; the set afterwards holds what it held
    before and at most the new category. *)
Lemma add_onwership_spec O cat :
  length O = 8%nat →
  ((∃ i, (i < 8)%nat ∧ at_ O i = 0 ∧ (∀ j, (j < i)%nat → at_ O j ≠ 0) ∧
         add_onwership O cat = (cat, <[i := cat]> O)) ∨
   ((∀ i, (i < 8)%nat → at_ O i ≠ 0) ∧ add_onwership O cat = (0, O))) ∧
  own_le O (add_onwership O cat).2 ∧
  (∀ c, c ≠ 0 → c ∈ (add_onwership O cat).2 → c = cat ∨ c ∈ O).
Proof.
  intros Hl. split; [by apply add_onwership_cases|]. split; [by apply add_onwership_le|].
  intros c. by apply add_onwership_elem.
Qed.

Lemma add_onwership_spec_witness :
  add_onwership (cats8 [t_ar]) t_aw = (t_aw, cats8 [t_ar; t_aw]) ∧
  own_le (cats8 [t_ar]) (add_onwership (cats8 [t_ar]) t_aw).2.
Proof.
  split; [vm_compute; reflexivity|].
  apply (add_onwership_spec (cats8 [t_ar]) t_aw). vm_compute; reflexivity.
Defined.
