(* ===== verification/Memory.v ===== *)
(** Byte-addressed memory with 32-bit little-endian words.

    The arbiter's channel heap keeps its bookkeeping in the memory it manages
    (boundary tags, list links) and in the [bins] arrays of its
    [malloc_state]s, and reads both through [struct malloc_chunk] views; this
    file gives the store those views read and write.  An address that was
    never written holds 0, as fresh anonymous pages do. *)

From S2P Require Import Prelude.

Abbreviation memory := (gmap Z Z).

Definition load8 (m : memory) (a : Z) : Z := default 0 (m !! a).
Definition load32 (m : memory) (a : Z) : Z :=
  le_dec [load8 m a; load8 m (a + 1); load8 m (a + 2); load8 m (a + 3)].
Definition store32 (m : memory) (a v : Z) : memory :=
  match le_enc 4 v with
  | [b0; b1; b2; b3] => <[a := b0]> (<[a + 1 := b1]> (<[a + 2 := b2]> (<[a + 3 := b3]> m)))
  | _ => m
  end.

(** [memset(a, 0, n)] *)
Definition memset0 (m : memory) (a n : Z) : memory :=
  filter (λ kv, ¬ (a ≤ kv.1 < a + n)) m.

(** [memcpy(d, s, n)] for areas that do not overlap *)
Fixpoint memcpy_bytes (m : memory) (d s : Z) (n : nat) : memory :=
  match n with
  | O => m
  | S n' => <[d := load8 m s]> (memcpy_bytes m (d + 1) (s + 1) n')
  end.
Definition memcpy (m : memory) (d s n : Z) : memory := memcpy_bytes m d s (Z.to_nat n).

(** Every cell holds a byte. *)
Definition mem_ok (m : memory) : Prop := ∀ a, is_byte (load8 m a).

Lemma store32_unfold m a v :
  store32 m a v = <[a := u8 v]> (<[a + 1 := u8 (v / 2 ^ 8)]>
    (<[a + 2 := u8 (v / 2 ^ 8 / 2 ^ 8)]> (<[a + 3 := u8 (v / 2 ^ 8 / 2 ^ 8 / 2 ^ 8)]> m))).
Proof. done. Qed.

Lemma load8_insert m a b v : load8 (<[a := v]> m) b = if decide (a = b) then v else load8 m b.
Proof. unfold load8. rewrite lookup_insert. by case_decide. Qed.

Lemma load8_store32_ne m a v b : b < a ∨ a + 4 ≤ b → load8 (store32 m a v) b = load8 m b.
Proof. intros Hb. rewrite store32_unfold, !load8_insert. repeat case_decide; try lia; done. Qed.

Lemma load32_store32_eq m a v : 0 ≤ v < 2 ^ 32 → load32 (store32 m a v) a = v.
Proof.
  intros Hv. unfold load32. rewrite store32_unfold, !load8_insert.
  repeat first [rewrite decide_False by lia|rewrite decide_True by lia].
  transitivity (le_dec (le_enc 4 v)); [done|]. rewrite le_dec_enc. by apply Z.mod_small.
Qed.

Lemma load32_store32_ne m a v b : b + 4 ≤ a ∨ a + 4 ≤ b → load32 (store32 m a v) b = load32 m b.
Proof. intros Hb. unfold load32. rewrite !load8_store32_ne by lia. done. Qed.

Lemma mem_ok_empty : mem_ok ∅.
Proof. intros a. unfold load8. rewrite lookup_empty. unfold is_byte. simpl. lia. Qed.

Lemma mem_ok_store32 m a v : mem_ok m → mem_ok (store32 m a v).
Proof.
  intros Hm b. rewrite store32_unfold, !load8_insert.
  repeat case_decide; try apply u8_bound. apply Hm.
Qed.

Lemma load32_bound m a : mem_ok m → 0 ≤ load32 m a < 2 ^ 32.
Proof.
  intros Hm. unfold load32.
  pose proof (le_dec_bound [load8 m a; load8 m (a + 1); load8 m (a + 2); load8 m (a + 3)]) as H.
  apply H. repeat (apply Forall_cons; split; [apply Hm|]). apply Forall_nil; done.
Qed.

Lemma load8_memset0 m a n b :
  load8 (memset0 m a n) b = if decide (a ≤ b < a + n) then 0 else load8 m b.
Proof.
  unfold load8, memset0. rewrite map_lookup_filter.
  destruct (m !! b) as [v|]; simpl; [|by case_decide].
  repeat (case_decide || case_guard); simpl in *; try done; lia.
Qed.

Lemma mem_ok_memset0 m a n : mem_ok m → mem_ok (memset0 m a n).
Proof. intros Hm b. rewrite load8_memset0. case_decide; [unfold is_byte; lia|apply Hm]. Qed.

Lemma load32_memset0_ne m a n b : b + 4 ≤ a ∨ a + n ≤ b → load32 (memset0 m a n) b = load32 m b.
Proof.
  intros Hb. unfold load32. rewrite !load8_memset0.
  repeat (rewrite decide_False by lia). done.
Qed.

Lemma load8_memcpy_bytes m d s n b :
  s + Z.of_nat n ≤ d ∨ d + Z.of_nat n ≤ s →
  load8 (memcpy_bytes m d s n) b =
    if decide (d ≤ b < d + Z.of_nat n) then load8 m (s + (b - d)) else load8 m b.
Proof.
  revert d s. induction n as [|n IH]; intros d s Hov; simpl.
  { rewrite decide_False by lia. done. }
  rewrite load8_insert. destruct (decide (d = b)) as [->|Hne].
  { rewrite decide_True by lia. f_equal. lia. }
  rewrite IH by lia.
  destruct (decide (d + 1 ≤ b < d + 1 + Z.of_nat n)).
  - rewrite decide_True by lia. f_equal. lia.
  - rewrite decide_False by lia. done.
Qed.

Lemma load8_memcpy m d s n b :
  0 ≤ n → s + n ≤ d ∨ d + n ≤ s →
  load8 (memcpy m d s n) b = if decide (d ≤ b < d + n) then load8 m (s + (b - d)) else load8 m b.
Proof.
  intros Hn Hov. unfold memcpy. rewrite load8_memcpy_bytes; rewrite Z2Nat.id by lia; [done|lia].
Qed.

Lemma mem_ok_memcpy_bytes m d s n : mem_ok m → mem_ok (memcpy_bytes m d s n).
Proof.
  intros Hm. revert d s. induction n as [|n IH]; intros d s; simpl; [done|].
  intros b. rewrite load8_insert. case_decide; [apply Hm|apply IH].
Qed.
