(* ===== verification/Client.v ===== *)
(** Client descriptors and their lookup: [monitor/client.c], [monitor/client.h]
    and the socket addresses that [monitor/arbiter.c] and
    [client_module/lib_client.c] build with [snprintf].

    A client is identified by the path of its unix domain socket,
    [/tmp/abt_client_<pid>].  The table is the linked list of the arbiter
    together with the [client_desc] structures its data point to.  The
    theorems say that, in a well-formed table, looking up the address a
    process is bound to and looking up its pid find the same client, the
    first one registered with that pid. *)

From S2P Require Import Prelude LinkedList Label.

(** * C strings and [struct sockaddr_un] *)

Definition AF_UNIX : Z := 1.

(** [GET_FAMILY(unix_addr)] and [GET_PATH(unix_addr)] *)
Definition GET_FAMILY (unix_addr : list Z) : Z := le_dec (take 2 unix_addr).
Definition GET_PATH (unix_addr : list Z) : list Z := drop 2 unix_addr.

(** Bytes [bs] written into the array [buf] at offset [off]. *)
Definition write_at (buf : list Z) (off : nat) (bs : list Z) : list Z :=
  take off buf ++ bs ++ drop (off + length bs) buf.

(** [strncmp(p, q, n) != 0] *)
Fixpoint strncmp_ne (p q : list Z) (n : nat) : bool :=
  match n with
  | O => false
  | S n' =>
      let a := nth 0 p 0 in let b := nth 0 q 0 in
      if negb (a =? b) then true
      else if a =? 0 then false
      else strncmp_ne (drop 1 p) (drop 1 q) n'
  end.

(** [strlen] *)
Fixpoint strlen (p : list Z) : Z :=
  match p with [] => 0 | b :: p' => if b =? 0 then 0 else 1 + strlen p' end.

(** [%d] of an [int] *)
Fixpoint dec_digits (fuel : nat) (n : Z) : list Z :=
  match fuel with
  | O => []
  | S f => if n <? 10 then [48 + n] else dec_digits f (n / 10) ++ [48 + n `mod` 10]
  end.
Definition fmt_d (z : Z) : list Z :=
  if z <? 0 then 45 :: dec_digits 10 (- z) else dec_digits 10 z.

(** ["/tmp/abt_client_"] *)
Definition abt_client_prefix : list Z :=
  [47; 116; 109; 112; 47; 97; 98; 116; 95; 99; 108; 105; 101; 110; 116; 95].

(** The text [snprintf(path, 108, "/tmp/abt_client_%d", pid)] produces; it is
    never longer than 27 bytes, so the bound of 108 does not cut it. *)
Definition client_path (pid : Z) : list Z := abt_client_prefix ++ fmt_d (s32 pid).

(** The assignments that build a client's address: [GET_FAMILY(a) = AF_UNIX;
    snprintf(GET_PATH(a), 108, "/tmp/abt_client_%d", pid);] *)
Definition set_client_path (unix_addr : list Z) (pid : Z) : list Z :=
  write_at (write_at unix_addr 0 (le_enc 2 AF_UNIX)) 2 (client_path pid ++ [0]).

(** * Descriptors *)

Record client_key := ClientKey {
  unix_addr : list Z;
  addr_len : Z;
}.

Record client_desc := ClientDesc {
  client_addr : client_key;
  pid : Z;
  label : Z;
  ownership : Z;
}.

Record arbiter_thread := ArbiterThread {
  client_list : linked_list;
  (* the client_desc structures the list's data point to *)
  descs : gmap Z client_desc;
}.

Definition read_desc (abt : arbiter_thread) (c : Z) : outcome client_desc :=
  match descs abt !! c with Some d => Ret d | None => Fault Segv end.

(** [_cmp_client]; the key is the address and its length. *)
Definition _cmp_client (abt : arbiter_thread) (key : option (list Z) * Z) (c : Z) : outcome bool :=
  match key with
  | (None, _) => Ret false
  | (Some a, len) =>
      d ← read_desc abt c;
      if negb (len =? addr_len (client_addr d)) then Ret false
      else if negb (GET_FAMILY a =? GET_FAMILY (unix_addr (client_addr d))) then Ret false
      else if strncmp_ne (GET_PATH a) (GET_PATH (unix_addr (client_addr d))) (Z.to_nat len)
      then Ret false
      else Ret true
  end.

(** [arbiter_lookup_client] *)
Definition arbiter_lookup_client (abt : arbiter_thread) (a : option (list Z)) (len : Z) : outcome Z :=
  linked_list_lookup (client_list abt) (_cmp_client abt (a, len)).

(** [_cmp_client_pid] *)
Definition _cmp_client_pid (abt : arbiter_thread) (key c : Z) : outcome bool :=
  d ← read_desc abt c;
  Ret (pid d =? key).

(** [arbiter_lookup_client_pid] *)
Definition arbiter_lookup_client_pid (abt : arbiter_thread) (p : Z) : outcome Z :=
  linked_list_lookup (client_list abt) (_cmp_client_pid abt p).

(** [arbiter_del_client]: the datum removed and the table without the node. *)
Definition arbiter_del_client (abt : arbiter_thread) (c : Z) : outcome (Z * arbiter_thread) :=
  node ← linked_list_locate (client_list abt) c;
  assert_ (negb (node =? 0));;
  '(d, l) ← list_del_entry (client_list abt) node;
  Ret (d, ArbiterThread l (descs abt)).

(** * Addresses identify processes *)

Lemma dec_digits_value f n :
  0 ≤ n < 10 ^ Z.of_nat f →
  foldl (λ v d, 10 * v + (d - 48)) 0 (dec_digits f n) = n.
Proof.
  revert n; induction f as [|f IH]; intros n Hn; [simpl in *; lia|]. cbn [dec_digits].
  destruct (Z.ltb_spec n 10); [cbn [foldl]; lia|].
  rewrite foldl_app. cbn [foldl]. rewrite IH.
  - pose proof (Z.div_mod n 10). lia.
  - rewrite Nat2Z.inj_succ, Z.pow_succ_r in Hn by lia.
    split; [apply Z.div_pos; lia|]. apply Z.div_lt_upper_bound; lia.
Qed.

Lemma dec_digits_chars f n : 0 ≤ n → Forall (λ d, 48 ≤ d < 58) (dec_digits f n).
Proof.
  revert n; induction f as [|f IH]; intros n Hn; cbn [dec_digits]; [done|].
  destruct (Z.ltb_spec n 10); [repeat constructor; lia|].
  apply Forall_app; split; [apply IH; apply Z.div_pos; lia|].
  pose proof (Z.mod_pos_bound n 10). repeat constructor; lia.
Qed.

Lemma length_dec_digits f n : (length (dec_digits f n) ≤ f)%nat.
Proof.
  revert n; induction f as [|f IH]; intros n; cbn [dec_digits]; [done|].
  case_match; simpl; [lia|]. rewrite length_app. specialize (IH (n / 10)). simpl. lia.
Qed.

Lemma fmt_d_inj a b : - 2 ^ 31 ≤ a < 2 ^ 31 → - 2 ^ 31 ≤ b < 2 ^ 31 → fmt_d a = fmt_d b → a = b.
Proof.
  intros Ha Hb. unfold fmt_d.
  assert (Hv : ∀ n m, 0 ≤ n ≤ 2 ^ 31 → 0 ≤ m ≤ 2 ^ 31 → dec_digits 10 n = dec_digits 10 m → n = m).
  { intros n m Hn Hm He. rewrite <-(dec_digits_value 10 n), <-(dec_digits_value 10 m), He by (simpl; lia). done. }
  assert (Hs : ∀ n l, 0 ≤ n → 45 :: l ≠ dec_digits 10 n).
  { intros n l Hn He. pose proof (dec_digits_chars 10 n Hn) as Hc. rewrite <-He in Hc.
    apply Forall_cons in Hc as [? _]. lia. }
  destruct (Z.ltb_spec a 0), (Z.ltb_spec b 0); intros He.
  - injection He as He. apply Hv in He; lia.
  - by apply Hs in He; [|lia].
  - symmetry in He. by apply Hs in He; [|lia].
  - apply Hv in He; lia.
Qed.

Lemma s32_range z : - 2 ^ 31 ≤ s32 z < 2 ^ 31.
Proof.
  unfold s32. pose proof (u32_bound z). destruct (Z.ltb_spec (u32 z) (2 ^ 31)); lia.
Qed.

Lemma client_path_inj p q :
  0 ≤ p < 2 ^ 32 → 0 ≤ q < 2 ^ 32 → client_path p = client_path q → p = q.
Proof.
  intros Hp Hq He. apply app_inv_head in He.
  apply fmt_d_inj in He; [|apply s32_range..]. by apply s32_inj.
Qed.

Lemma client_path_nonzero p : 0 ∉ client_path p.
Proof.
  assert (Forall (λ d, d ≠ 0) (client_path p)) as H.
  { apply Forall_app. split; [repeat constructor; lia|]. unfold fmt_d. pose proof (s32_range p).
    destruct (Z.ltb_spec (s32 p) 0).
    - constructor; [lia|]. eapply Forall_impl; [apply dec_digits_chars; lia|]. simpl; lia.
    - eapply Forall_impl; [apply dec_digits_chars; lia|]. simpl; lia. }
  rewrite Forall_forall in H. intros H0. by apply H in H0.
Qed.

(** The text fits the 108 bytes of [sun_path]. *)
Lemma client_path_length p : (length (client_path p) ≤ 27)%nat.
Proof.
  unfold client_path, fmt_d. rewrite length_app.
  change (length abt_client_prefix) with 16%nat.
  pose proof (length_dec_digits 10 (- s32 p)). pose proof (length_dec_digits 10 (s32 p)).
  case_match; cbn [length]; lia.
Qed.

Lemma strncmp_cstr x y j1 j2 n :
  0 ∉ x → 0 ∉ y → (length x < n)%nat → (length y < n)%nat →
  strncmp_ne (x ++ 0 :: j1) (y ++ 0 :: j2) n = negb (bool_decide (x = y)).
Proof.
  revert y n; induction x as [|a x IH]; intros [|b y] [|n] Hx Hy Hlx Hly;
    cbn [length] in *; try lia; cbn [strncmp_ne app nth].
  - done.
  - rewrite (proj2 (Z.eqb_neq 0 b)); [done|]. intros <-. set_solver.
  - rewrite (proj2 (Z.eqb_neq a 0)); [done|]. intros ->. set_solver.
  - destruct (Z.eqb_spec a b) as [->|Hne]; cbn [negb].
    + rewrite (proj2 (Z.eqb_neq b 0)) by (intros ->; set_solver).
      change (drop 1 (b :: x ++ 0 :: j1)) with (x ++ 0 :: j1).
      change (drop 1 (b :: y ++ 0 :: j2)) with (y ++ 0 :: j2).
      rewrite IH; [|set_solver|set_solver|lia|lia].
      f_equal. apply bool_decide_ext. naive_solver.
    + rewrite bool_decide_eq_false_2; naive_solver.
Qed.

Lemma strlen_cstr x j : 0 ∉ x → strlen (x ++ 0 :: j) = Z.of_nat (length x).
Proof.
  induction x as [|a x IH]; intros Hx; [done|]. cbn [app strlen].
  rewrite (proj2 (Z.eqb_neq a 0)) by (intros ->; set_solver).
  rewrite IH by set_solver. simpl length. lia.
Qed.

(** The address and length the kernel reports for a socket bound to
    [client_path p]: the family, the path, its terminator and what the buffer
    held behind it. *)
Definition bound_addr (p : Z) (a : list Z) (len : Z) : Prop :=
  ∃ junk, a = le_enc 2 AF_UNIX ++ client_path p ++ 0 :: junk ∧
          len = Z.of_nat (length (client_path p)) + 3.

Record desc_ok (d : client_desc) : Prop := {
  dok_addr : bound_addr (pid d) (unix_addr (client_addr d)) (addr_len (client_addr d));
  dok_pid : 0 ≤ pid d < 2 ^ 32;
  dok_label : 0 ≤ label d < 2 ^ 64;
  dok_own : 0 ≤ ownership d < 2 ^ 64;
}.

(** A well-formed client table with the abstract contents [ps]. *)
Record table_ok (abt : arbiter_thread) (ps : list (Z * Z)) : Prop := {
  tok_rep : ll_rep (client_list abt) ps;
  tok_desc : ∀ c, c ∈ ps.*2 → ∃ d, descs abt !! c = Some d ∧ desc_ok d;
  tok_nonnull : ∀ c, c ∈ ps.*2 → 0 < c < 2 ^ 32;
  tok_nodup : NoDup ps.*2;
}.

Lemma length_write_at buf off bs :
  (off + length bs ≤ length buf)%nat → length (write_at buf off bs) = length buf.
Proof. intros H. unfold write_at. rewrite !length_app, length_take, length_drop. lia. Qed.

Lemma write_at_split buf off bs :
  (off ≤ length buf)%nat → write_at buf off bs = take off buf ++ bs ++ drop (off + length bs) buf.
Proof. done. Qed.

Lemma length_set_client_path a p : length a = 256%nat → length (set_client_path a p) = 256%nat.
Proof.
  intros Hl. unfold set_client_path. pose proof (client_path_length p).
  assert (H1 : length (write_at a 0 (le_enc 2 AF_UNIX)) = 256%nat).
  { rewrite length_write_at; [done|]. rewrite length_le_enc. lia. }
  rewrite length_write_at; [done|]. rewrite H1, length_app. cbn [length]. lia.
Qed.

Lemma set_client_path_bound a p :
  ∃ junk, set_client_path a p = le_enc 2 AF_UNIX ++ client_path p ++ 0 :: junk.
Proof.
  unfold set_client_path. rewrite (write_at_split _ 2).
  2:{ unfold write_at. rewrite !length_app, length_le_enc. lia. }
  unfold write_at at 1. rewrite take_0, app_nil_l, take_app_length' by done.
  rewrite <-(app_assoc (client_path p)). eexists. reflexivity.
Qed.

Lemma cmp_client_bound abt c d p a len :
  descs abt !! c = Some d → desc_ok d → 0 ≤ p < 2 ^ 32 → bound_addr p a len →
  _cmp_client abt (Some a, len) c = Ret (pid d =? p).
Proof.
  intros Hd [[j1 [Ha Hlen]] Hpid _ _] Hp [j2 [-> ->]]. unfold _cmp_client, read_desc.
  rewrite Hd. cbn [mbind outcome_bind]. rewrite Ha, Hlen.
  destruct (Z.eqb_spec (pid d) p) as [He|Hne].
  - rewrite He, !Z.eqb_refl. cbn [negb]. unfold GET_PATH.
    rewrite !drop_app_length' by done.
    rewrite strncmp_cstr by (apply client_path_nonzero || lia).
    by rewrite bool_decide_eq_true_2.
  - assert (client_path p ≠ client_path (pid d)) by (intros He; by apply client_path_inj in He).
    destruct (Z.eqb_spec (Z.of_nat (length (client_path p)) + 3)
      (Z.of_nat (length (client_path (pid d))) + 3)) as [Hl|]; cbn [negb]; [|done].
    unfold GET_FAMILY. rewrite !take_app_length' by done. rewrite Z.eqb_refl. cbn [negb].
    unfold GET_PATH. rewrite !drop_app_length' by done.
    rewrite strncmp_cstr by (apply client_path_nonzero || lia).
    by rewrite bool_decide_eq_false_2.
Qed.

(** * Lookup and removal in a well-formed table *)

Definition has_pid (abt : arbiter_thread) (p c : Z) : bool :=
  match descs abt !! c with Some d => pid d =? p | None => false end.

Lemma find_data_spec (f : Z → bool) ds :
  (∀ c, c ∈ ds → 0 < c) →
  (find_data f ds = 0 ∧ ∀ c, c ∈ ds → f c = false) ∨
  (∃ pre post, ds = pre ++ find_data f ds :: post ∧ f (find_data f ds) = true ∧
     ∀ c, c ∈ pre → f c = false).
Proof.
  induction ds as [|x ds IH]; intros Hp; cbn [find_data].
  { left. split; [done|]. set_solver. }
  destruct (f x) eqn:Hf.
  - right. exists [], ds. split; [done|]. split; [done|]. set_solver.
  - destruct IH as [[H0 Hn]|(pre & post & Hds & Ht & Hn)].
    + intros c Hc. apply Hp. by right.
    + left. split; [done|]. intros c [->|Hc]%elem_of_cons; auto.
    + right. exists (x :: pre), post. split; [by rewrite Hds at 1|]. split; [done|].
      intros c [->|Hc]%elem_of_cons; auto.
Qed.

Lemma lookup_pid_table abt ps p :
  table_ok abt ps → arbiter_lookup_client_pid abt p = Ret (find_data (has_pid abt p) ps.*2).
Proof.
  intros T. apply linked_list_lookup_rep; [apply T|]. intros c Hc.
  destruct (tok_desc _ _ T c Hc) as (d & Hd & _).
  unfold _cmp_client_pid, read_desc, has_pid. by rewrite Hd.
Qed.

Lemma lookup_addr_table abt ps p a len :
  table_ok abt ps → 0 ≤ p < 2 ^ 32 → bound_addr p a len →
  arbiter_lookup_client abt (Some a) len = Ret (find_data (has_pid abt p) ps.*2).
Proof.
  intros T Hp Hb. apply linked_list_lookup_rep; [apply T|]. intros c Hc.
  destruct (tok_desc _ _ T c Hc) as (d & Hd & Hok).
  unfold has_pid. rewrite Hd. by apply cmp_client_bound.
Qed.

Lemma arbiter_del_client_table abt ps c :
  table_ok abt ps → c ∈ ps.*2 →
  ∃ pre a post abt', ps = pre ++ (a, c) :: post ∧
    arbiter_del_client abt c = Ret (c, abt') ∧
    table_ok abt' (pre ++ post) ∧ descs abt' = descs abt.
Proof.
  intros T Hc. pose proof (tok_rep _ _ T) as R.
  pose proof (find_node_in _ _ (rep_ptr _ _ R) Hc) as Hn.
  destruct (find_node_split c ps (rep_nodup _ _ R) (rep_ptr _ _ R) Hn) as (pre & post & Hps & _).
  rewrite Hps in R. destruct (list_del_entry_rep _ _ _ _ _ R) as (l' & Hdel & R').
  exists pre, (find_node c ps), post, (ArbiterThread l' (descs abt)). split; [done|].
  split; [|split; [|done]].
  - unfold arbiter_del_client. rewrite (linked_list_locate_rep _ _ _ (tok_rep _ _ T)).
    cbn [mbind outcome_bind assert_]. rewrite (proj2 (Z.eqb_neq _ 0)) by done.
    cbn [negb mbind outcome_bind assert_]. by rewrite Hdel.
  - assert (Hsub : ∀ x, x ∈ (pre ++ post).*2 → x ∈ ps.*2).
    { intros x. rewrite Hps, !fmap_app. simpl. set_solver. }
    split; simpl; [done| | |].
    + intros x Hx. apply (tok_desc _ _ T), Hsub, Hx.
    + intros x Hx. apply (tok_nonnull _ _ T), Hsub, Hx.
    + pose proof (tok_nodup _ _ T) as Hnd. rewrite Hps, fmap_app in Hnd. simpl in Hnd.
      rewrite fmap_app. rewrite <-Permutation_middle in Hnd.
      by apply NoDup_cons in Hnd as [_ Hnd].
Qed.

(** [list_insert_tail(&arbiter.client_list, c_new)] for a structure [d] at the
    address [c] that no entry has yet. *)
Definition add_client (abt : arbiter_thread) (c : Z) (d : client_desc) : outcome arbiter_thread :=
  l ← list_insert_tail (malloc_node (client_list abt)) (client_list abt) c;
  Ret (ArbiterThread l (<[c := d]> (descs abt))).

Lemma add_client_table abt ps c d :
  table_ok abt ps → malloc_node (client_list abt) ≠ 0 → c ∉ ps.*2 → 0 < c < 2 ^ 32 → desc_ok d →
  ∃ abt', add_client abt c d = Ret abt' ∧
    table_ok abt' (ps ++ [(malloc_node (client_list abt), c)]) ∧
    descs abt' = <[c := d]> (descs abt).
Proof.
  intros T Hm Hc Hcr Hd.
  destruct (list_insert_tail_alloc _ _ c (tok_rep _ _ T) Hm) as (l' & Hi & R').
  exists (ArbiterThread l' (<[c := d]> (descs abt))). unfold add_client. rewrite Hi.
  split; [done|]. split; [|done].
  split; simpl; [done| | |]; rewrite fmap_app; simpl.
  - intros x [Hx|Hx%list_elem_of_singleton]%elem_of_app.
    + destruct (tok_desc _ _ T x Hx) as (e & He & Hok). exists e. split; [|done].
      rewrite lookup_insert_ne; [done|]. by intros <-.
    + subst. exists d. by rewrite lookup_insert_eq.
  - intros x [Hx|Hx%list_elem_of_singleton]%elem_of_app; [by apply (tok_nonnull _ _ T)|by subst].
  - apply NoDup_app. split; [apply T|]. split; [set_solver|apply NoDup_singleton].
Qed.

Lemma table_ok_empty ds : table_ok (ArbiterThread init_linked_list ds) [].
Proof. split; simpl; [apply init_linked_list_rep|set_solver|set_solver|apply NoDup_nil_2]. Qed.

(** A table with the single client 1234, and the address it is bound to. *)
Definition demo_addr : list Z := set_client_path (replicate 256 0) 1234.
Definition demo_desc : client_desc := ClientDesc (ClientKey demo_addr 23) 1234 0 0.
Definition demo_abt : arbiter_thread :=
  match add_client (ArbiterThread init_linked_list ∅) 16 demo_desc with
  | Ret a => a | Fault _ => ArbiterThread init_linked_list ∅ end.

Lemma demo_bound : bound_addr 1234 demo_addr 23.
Proof.
  destruct (set_client_path_bound (replicate 256 0) 1234) as [j Hj].
  exists j. split; [exact Hj|reflexivity].
Qed.
Lemma demo_desc_ok : desc_ok demo_desc.
Proof. split; simpl; [apply demo_bound|lia|lia|lia]. Qed.
Lemma demo_table : table_ok demo_abt [(1, 16)].
Proof.
  destruct (add_client_table (ArbiterThread init_linked_list ∅) [] 16 demo_desc) as (a & Ha & T & _).
  - apply table_ok_empty.
  - vm_compute; discriminate.
  - set_solver.
  - lia.
  - apply demo_desc_ok.
  - unfold demo_abt. rewrite Ha. exact T.
Qed.

(** * Properties *)

(** In a well-formed table, looking up the socket address a process is
    bound to returns, as looking up its pid does, the first client registered
    with that pid, or [NULL] when there is none; the two lookups never stop. *)
Theorem client_lookup_agree abt ps p a len :
  table_ok abt ps → 0 ≤ p < 2 ^ 32 → bound_addr p a len →
  ∃ c, arbiter_lookup_client abt (Some a) len = Ret c ∧
       arbiter_lookup_client_pid abt p = Ret c ∧
       ((c = 0 ∧ ∀ c' d, c' ∈ ps.*2 → descs abt !! c' = Some d → pid d ≠ p) ∨
        (∃ pre post d, ps.*2 = pre ++ c :: post ∧ descs abt !! c = Some d ∧ pid d = p ∧
           ∀ c' d', c' ∈ pre → descs abt !! c' = Some d' → pid d' ≠ p)).
Proof.
  intros T Hp Hb. exists (find_data (has_pid abt p) ps.*2).
  split; [by apply lookup_addr_table|]. split; [by apply lookup_pid_table|].
  assert (Hne : ∀ c d, descs abt !! c = Some d → has_pid abt p c = false → pid d ≠ p).
  { unfold has_pid. intros c d -> H%Z.eqb_neq. done. }
  destruct (find_data_spec (has_pid abt p) ps.*2) as [[H0 Hn]|(pre & post & Hs & Ht & Hn)].
  - intros c Hc. by apply (tok_nonnull _ _ T).
  - left. split; [done|]. intros c d Hc Hd. eauto.
  - right. set (c := find_data _ _) in *. destruct (tok_desc _ _ T c) as (d & Hd & _).
    { rewrite Hs. set_solver. }
    exists pre, post, d. split; [done|]. split; [done|]. split.
    + unfold has_pid in Ht. rewrite Hd in Ht. by apply Z.eqb_eq.
    + intros c' d' Hc' Hd'. eauto.
Qed.

Lemma client_lookup_agree_witness :
  arbiter_lookup_client demo_abt (Some demo_addr) 23 = Ret 16 ∧
  ∃ c, arbiter_lookup_client demo_abt (Some demo_addr) 23 = Ret c ∧
       arbiter_lookup_client_pid demo_abt 1234 = Ret c.
Proof.
  split; [vm_compute; reflexivity|].
  destruct (client_lookup_agree demo_abt [(1, 16)] 1234 demo_addr 23 demo_table
    ltac:(lia) demo_bound) as (c & H1 & H2 & _).
  exists c. split; [exact H1|exact H2].
Defined.

(** Removing a client that is in the table succeeds, returns it, unlinks
    its node and keeps the table well formed with every other client in
    place; a client that is not in the table trips the assertion. *)
Theorem arbiter_del_client_spec abt ps c :
  table_ok abt ps →
  (c ∈ ps.*2 → ∃ pre a post abt', ps = pre ++ (a, c) :: post ∧
     arbiter_del_client abt c = Ret (c, abt') ∧
     table_ok abt' (pre ++ post) ∧ descs abt' = descs abt) ∧
  (c ∉ ps.*2 → arbiter_del_client abt c = Fault AssertFail).
Proof.
  intros T. split; [by apply arbiter_del_client_table|]. intros Hc.
  unfold arbiter_del_client. rewrite (linked_list_locate_rep _ _ _ (tok_rep _ _ T)).
  assert (find_node c ps = 0) as ->; [|done].
  clear T. induction ps as [|[a x] ps IH]; [done|]. cbn [find_node].
  rewrite (proj2 (Z.eqb_neq x c)) by (intros ->; set_solver). apply IH. set_solver.
Qed.

Lemma arbiter_del_client_spec_witness :
  (∃ abt', arbiter_del_client demo_abt 16 = Ret (16, abt') ∧ num (client_list abt') = 0) ∧
  arbiter_del_client demo_abt 24 = Fault AssertFail.
Proof.
  split; [eexists; split; vm_compute; reflexivity|].
  apply (arbiter_del_client_spec demo_abt [(1, 16)] 24 demo_table).
  intros H. apply list_elem_of_singleton in H. discriminate H.
Defined.
