(* ===== verification/Chunk.v ===== *)
(** Sizes, bins and bit maps of the channel heap: the macros of
    [monitor/ablib_malloc.h] and [__malloc_largebin_index] of
    [monitor/ablib_malloc.c].

    The machine is i386: [size_t], [unsigned long] and pointers have 32 bits,
    so [MALLOC_ALIGNMENT] is 8, [MINSIZE] is 16 and a unit (ten pages) has
    40960 bytes.  Arithmetic is modulo 2^32. *)

From S2P Require Import Prelude.

Definition SIZE_SZ : Z := 4.
Definition MALLOC_ALIGNMENT : Z := 8.
Definition MALLOC_ALIGN_MASK : Z := 7.
Definition MIN_CHUNK_SIZE : Z := 16.
Definition MINSIZE : Z := Z.land (MIN_CHUNK_SIZE + MALLOC_ALIGN_MASK) (not32 MALLOC_ALIGN_MASK).
Definition MORECORE_FAILURE : Z := u32 (-1).
Definition PAGESIZE : Z := 4096.
Definition PAGE_PER_UNIT : Z := 10.
Definition UNIT_SIZE : Z := PAGE_PER_UNIT * PAGESIZE.
Definition CHANNEL_SIZE : Z := 512 * 1024 * 1024.
Definition CHANNEL_ADDR : Z := 0x80000000.
Definition DEFAULT_MXFAST : Z := 64.
Definition DEFAULT_TRIM_THRESHOLD : Z := 10 * 1024 * 4.
Definition DEFAULT_TOP_PAD : Z := 0.
Definition DEFAULT_MMAP_THRESHOLD : Z := UNIT_SIZE.
Definition DEFAULT_MMAP_MAX : Z := 65536.

(** [chunk2mem], [mem2chunk], [aligned_OK] *)
Definition chunk2mem (p : Z) : Z := u32 (p + 2 * SIZE_SZ).
Definition mem2chunk (m : Z) : Z := u32 (m - 2 * SIZE_SZ).
Definition aligned_OK (m : Z) : bool := Z.land m MALLOC_ALIGN_MASK =? 0.

(** [REQUEST_OUT_OF_RANGE], [request2size] and [checked_request2size] (whose
    failure is [None]) *)
Definition REQUEST_OUT_OF_RANGE (req : Z) : bool := u32 (-2 * MINSIZE) <=? req.
Definition request2size (req : Z) : Z :=
  if u32 (req + SIZE_SZ + MALLOC_ALIGN_MASK) <? MINSIZE then MINSIZE
  else Z.land (u32 (req + SIZE_SZ + MALLOC_ALIGN_MASK)) (not32 MALLOC_ALIGN_MASK).
Definition checked_request2size (req : Z) : option Z :=
  if REQUEST_OUT_OF_RANGE req then None else Some (request2size req).

(** The flag bits of a size field. *)
Definition PREV_INUSE : Z := 1.
Definition IS_MMAPPED : Z := 2.
Definition SIZE_BITS : Z := Z.lor PREV_INUSE IS_MMAPPED.

(** * Bins *)

Definition NBINS : Z := 96.
Definition NSMALLBINS : Z := 32.
Definition SMALLBIN_WIDTH : Z := 8.
Definition MIN_LARGE_SIZE : Z := 256.
Definition FIRST_SORTED_BIN_SIZE : Z := MIN_LARGE_SIZE.
Definition MAX_FAST_SIZE : Z := 80.

Definition in_smallbin_range (sz : Z) : bool := sz <? MIN_LARGE_SIZE.
Definition smallbin_index (sz : Z) : Z := Z.shiftr sz 3.
Definition fastbin_index (sz : Z) : Z := u32 (Z.shiftr sz 3 - 2).
Definition NFASTBINS : Z := fastbin_index (request2size MAX_FAST_SIZE) + 1.
Definition FASTBIN_CONSOLIDATION_THRESHOLD : Z := Z.shiftr DEFAULT_TRIM_THRESHOLD 1.

(** The branch-free computation of the highest set bit (after "Hacker's
    Delight") that stands in for the [bsrl] instruction; intermediate results
    are [unsigned int]s. *)
Definition nlz_highest_bit (x : Z) : Z :=
  let n := Z.land (Z.shiftr (u32 (x - 0x100)) 16) 8 in
  let x := u32 (Z.shiftl x n) in
  let m := Z.land (Z.shiftr (u32 (x - 0x1000)) 16) 4 in
  let n := n + m in
  let x := u32 (Z.shiftl x m) in
  let m := Z.land (Z.shiftr (u32 (x - 0x4000)) 16) 2 in
  let n := n + m in
  let x := Z.shiftr (u32 (Z.shiftl x m)) 14 in
  u32 (13 - n + Z.land x (not32 (Z.shiftr x 1))).

(** [__malloc_largebin_index] *)
Definition __malloc_largebin_index (sz : Z) : Z :=
  let x := Z.shiftr sz SMALLBIN_WIDTH in
  if 0x10000 <=? x then NBINS - 1
  else
    let m := nlz_highest_bit x in
    u32 (NSMALLBINS + Z.shiftl m 2 + Z.land (Z.shiftr sz (m + 6)) 3).

(** [bin_index] *)
Definition bin_index (sz : Z) : Z :=
  if in_smallbin_range sz then smallbin_index sz else __malloc_largebin_index sz.

(** * The bin map *)

Definition BINMAPSHIFT : Z := 5.
Definition BINMAPSIZE : Z := NBINS / Z.shiftl 1 BINMAPSHIFT.
Definition idx2block (i : Z) : Z := Z.shiftr i BINMAPSHIFT.
Definition idx2bit (i : Z) : Z := u32 (Z.shiftl 1 (Z.land i (Z.shiftl 1 BINMAPSHIFT - 1))).

(** An array of words. *)
Definition aget (l : list Z) (i : Z) : Z := nth (Z.to_nat i) l 0.
Definition aset (l : list Z) (i v : Z) : list Z := <[Z.to_nat i := v]> l.

Definition mark_bin (binmap : list Z) (i : Z) : list Z :=
  aset binmap (idx2block i) (Z.lor (aget binmap (idx2block i)) (idx2bit i)).
Definition unmark_bin (binmap : list Z) (i : Z) : list Z :=
  aset binmap (idx2block i) (Z.land (aget binmap (idx2block i)) (not32 (idx2bit i))).
Definition get_binmap (binmap : list Z) (i : Z) : Z :=
  Z.land (aget binmap (idx2block i)) (idx2bit i).

(** * The flags kept in [max_fast] *)

Definition ANYCHUNKS_BIT : Z := 1.
Definition FASTCHUNKS_BIT : Z := 2.
Definition have_anychunks (mf : Z) : bool := negb (Z.land mf ANYCHUNKS_BIT =? 0).
Definition set_anychunks (mf : Z) : Z := Z.lor mf ANYCHUNKS_BIT.
Definition have_fastchunks (mf : Z) : bool := negb (Z.land mf FASTCHUNKS_BIT =? 0).
Definition set_fastchunks (mf : Z) : Z := Z.lor mf (Z.lor FASTCHUNKS_BIT ANYCHUNKS_BIT).
Definition clear_fastchunks (mf : Z) : Z := Z.land mf (not32 FASTCHUNKS_BIT).
Definition set_max_fast (mf s : Z) : Z :=
  Z.lor (if s =? 0 then SMALLBIN_WIDTH else request2size s)
        (Z.land mf (Z.lor FASTCHUNKS_BIT ANYCHUNKS_BIT)).

Example largebin_256 : __malloc_largebin_index 256 = 32.
Proof. reflexivity. Qed.
Example request2size_80 : request2size 80 = 88 ∧ NFASTBINS = 10 ∧ MINSIZE = 16 ∧ BINMAPSIZE = 3.
Proof. vm_compute. auto. Qed.

(** * Facts about sizes *)

Lemma land_not32 x m : 0 ≤ x < 2 ^ 32 → 0 ≤ m < 2 ^ 32 → Z.land x (not32 m) = Z.ldiff x m.
Proof.
  intros Hx Hm. unfold not32. rewrite u32_small by done.
  assert (Hlow : ∀ y, 0 ≤ y < 2 ^ 32 → Z.land y (Z.ones 32) = y).
  { intros y Hy. rewrite Z.land_ones by lia. by apply Z.mod_small. }
  change (2 ^ 32 - 1) with (Z.ones 32). rewrite Z.sub_nocarry_ldiff.
  - rewrite <-(Hlow x Hx) at 2. apply Z.bits_inj'. intros n _.
    rewrite !Z.land_spec, !Z.ldiff_spec, Z.land_spec.
    by destruct (Z.testbit x n), (Z.testbit (Z.ones 32) n), (Z.testbit m n).
  - rewrite <-(Hlow m Hm). apply Z.bits_inj'. intros n _.
    rewrite Z.ldiff_spec, Z.land_spec, Z.bits_0.
    by destruct (Z.testbit m n), (Z.testbit (Z.ones 32) n).
Qed.

Lemma land_not32_pow2 x n :
  0 ≤ x < 2 ^ 32 → 0 ≤ n ≤ 32 → Z.land x (not32 (2 ^ n - 1)) = 2 ^ n * (x / 2 ^ n).
Proof.
  intros Hx Hn. assert (0 < 2 ^ n ≤ 2 ^ 32).
  { split; [apply Z.pow_pos_nonneg; lia|]. apply Z.pow_le_mono_r; lia. }
  rewrite land_not32 by lia. replace (2 ^ n - 1) with (Z.ones n) by (rewrite Z.ones_equiv; lia).
  rewrite Z.ldiff_ones_r, Z.shiftl_mul_pow2, Z.shiftr_div_pow2 by lia. lia.
Qed.

Lemma land_align x : 0 ≤ x < 2 ^ 32 → Z.land x (not32 MALLOC_ALIGN_MASK) = 8 * (x / 8).
Proof. intros Hx. apply (land_not32_pow2 x 3); lia. Qed.

Lemma MINSIZE_16 : MINSIZE = 16.
Proof. reflexivity. Qed.

(** The two branches of [request2size] without wrap-around. *)
Lemma request2size_cases req :
  0 ≤ req < 2 ^ 32 - 32 →
  (req ≤ 4 ∧ request2size req = 16) ∨ (4 < req ∧ request2size req = 8 * ((req + 11) / 8)).
Proof.
  intros Hr. unfold request2size. rewrite MINSIZE_16.
  assert (u32 (req + SIZE_SZ + MALLOC_ALIGN_MASK) = req + 11) as ->.
  { unfold SIZE_SZ, MALLOC_ALIGN_MASK. rewrite u32_small; lia. }
  destruct (Z.ltb_spec (req + 11) 16); [left|right]; (split; [lia|]); [done|].
  by rewrite land_align by lia.
Qed.

Lemma request2size_retry nb : 16 ≤ nb → nb `mod` 8 = 0 → nb < 2 ^ 32 - 32 → request2size (nb - 7) = nb.
Proof.
  intros H1 H2 H3. destruct (request2size_cases (nb - 7)) as [[? ->]|[? ->]]; [lia|lia|].
  replace (nb - 7 + 11) with (nb + 4) by lia.
  pose proof (Z.div_mod nb 8). pose proof (Z.div_mod (nb + 4) 8).
  pose proof (Z.mod_pos_bound (nb + 4) 8).
  assert ((nb + 4) `mod` 8 = 4); [|lia].
  rewrite Z.add_mod, H2 by lia. reflexivity.
Qed.

(** * Facts about bins *)

(** One step of the search: the borrow of [x - c] selects the shift [k]. *)
Lemma nlz_step x c k :
  0 ≤ x < 0x10000 → 0 < c ≤ 0x10000 → Z.land 0xffff k = k →
  Z.land (Z.shiftr (u32 (x - c)) 16) k = if x <? c then k else 0.
Proof.
  intros Hx Hc Hk. rewrite Z.shiftr_div_pow2 by lia. destruct (Z.ltb_spec x c).
  - replace (u32 (x - c)) with (2 ^ 32 + (x - c)).
    2:{ unfold u32. apply (Z.mod_unique _ _ (-1)); lia. }
    replace ((2 ^ 32 + (x - c)) / 2 ^ 16) with 0xffff; [done|].
    apply (Z.div_unique _ _ _ (0x10000 + (x - c))); lia.
  - rewrite u32_small by lia. rewrite Z.div_small by lia. apply Z.land_0_l.
Qed.

Lemma log2_shiftl_bits x n l :
  1 ≤ x → 0 ≤ n → 2 ^ l ≤ x * 2 ^ n < 2 ^ (l + 1) → 0 ≤ l → Z.log2 x = l - n.
Proof.
  intros Hx Hn Hb Hl. pose proof (Z.log2_unique (x * 2 ^ n) l Hl) as H1.
  pose proof (Z.log2_mul_pow2 x n) as H2. rewrite H2 in H1 by lia.
  specialize (H1 ltac:(rewrite <-Z.add_1_r; lia)). lia.
Qed.

(** The last step distinguishes the three leading patterns that remain. *)
Lemma nlz_last x n :
  0x4000 ≤ x * 2 ^ n < 0x10000 → 1 ≤ x → 0 ≤ n ≤ 14 →
  (let y := Z.shiftr (x * 2 ^ n) 14 in u32 (13 - n + Z.land y (not32 (Z.shiftr y 1)))) = Z.log2 x.
Proof.
  intros Hb Hx Hn. cbv zeta. rewrite (Z.shiftr_div_pow2 _ 14) by lia.
  set (z := x * 2 ^ n) in *.
  assert (z / 2 ^ 14 = 1 ∧ z < 2 ^ 15 ∨ (z / 2 ^ 14 = 2 ∨ z / 2 ^ 14 = 3) ∧ 2 ^ 15 ≤ z) as Hq.
  { pose proof (Z.div_mod z (2 ^ 14) ltac:(lia)). pose proof (Z.mod_pos_bound z (2 ^ 14) ltac:(lia)). lia. }
  destruct Hq as [[-> Hz]|[[-> | ->] Hz]].
  - rewrite (log2_shiftl_bits x n 14) by (fold z; lia).
    change (Z.land 1 (not32 (Z.shiftr 1 1))) with 1. rewrite u32_small; lia.
  - rewrite (log2_shiftl_bits x n 15) by (fold z; lia).
    change (Z.land 2 (not32 (Z.shiftr 2 1))) with 2. rewrite u32_small; lia.
  - rewrite (log2_shiftl_bits x n 15) by (fold z; lia).
    change (Z.land 3 (not32 (Z.shiftr 3 1))) with 2. rewrite u32_small; lia.
Qed.

Lemma nlz_log2 x : 1 ≤ x < 0x10000 → nlz_highest_bit x = Z.log2 x.
Proof.
  intros Hx. unfold nlz_highest_bit. rewrite (nlz_step x 0x100 8) by (done || lia).
  assert (Hs : ∀ y n, 0 ≤ n → 0 ≤ y * 2 ^ n < 2 ^ 32 → u32 (Z.shiftl y n) = y * 2 ^ n).
  { intros y n Hn Hy. rewrite Z.shiftl_mul_pow2 by lia. by apply u32_small. }
  destruct (Z.ltb_spec x 0x100); cbv zeta; rewrite (Hs x _) by lia.
  all: rewrite (nlz_step _ 0x1000 4) by (done || lia).
  all: match goal with |- context [?a <? 0x1000] => destruct (Z.ltb_spec a 0x1000) end.
  all: rewrite (Hs (x * _) _) by lia.
  all: rewrite (nlz_step _ 0x4000 2) by (done || lia).
  all: match goal with |- context [?a <? 0x4000] => destruct (Z.ltb_spec a 0x4000) end.
  all: rewrite (Hs (x * _ * _) _) by lia.
  all: first
    [ rewrite <-(nlz_last x (8 + 4 + 2)) by lia | rewrite <-(nlz_last x (8 + 4 + 0)) by lia
    | rewrite <-(nlz_last x (8 + 0 + 2)) by lia | rewrite <-(nlz_last x (8 + 0 + 0)) by lia
    | rewrite <-(nlz_last x (0 + 4 + 2)) by lia | rewrite <-(nlz_last x (0 + 4 + 0)) by lia
    | rewrite <-(nlz_last x (0 + 0 + 2)) by lia | rewrite <-(nlz_last x (0 + 0 + 0)) by lia].
  all: cbv zeta; rewrite <-!Z.mul_assoc, <-!Z.pow_add_r by lia; reflexivity.
Qed.

Lemma log2_shiftr_8 sz : 256 ≤ sz → Z.log2 (Z.shiftr sz 8) = Z.log2 sz - 8.
Proof.
  intros Hs. rewrite Z.log2_shiftr by lia. apply Z.max_r.
  assert (8 ≤ Z.log2 sz); [|lia]. apply Z.log2_le_pow2; lia.
Qed.

(** The highest bit and the next two of a large size. *)
Lemma largebin_quot sz : 256 ≤ sz → 4 ≤ sz / 2 ^ (Z.log2 sz - 2) < 8.
Proof.
  intros Hs. pose proof (Z.log2_spec sz ltac:(lia)) as Hl. set (e := Z.log2 sz) in *.
  assert (8 ≤ e) by (apply Z.log2_le_pow2; lia).
  assert (H4 : 2 ^ e = 2 ^ (e - 2) * 2 ^ 2) by (rewrite <-Z.pow_add_r by lia; f_equal; lia).
  assert (H8 : 2 ^ Z.succ e = 2 ^ (e - 2) * 2 ^ 3) by (rewrite <-Z.pow_add_r by lia; f_equal; lia).
  assert (0 < 2 ^ (e - 2)) by (apply Z.pow_pos_nonneg; lia).
  split; [apply Z.div_le_lower_bound; lia|apply Z.div_lt_upper_bound; lia].
Qed.

(** The index of a large size in terms of its highest bit and the next two. *)
Lemma largebin_index_eq sz :
  256 ≤ sz < 2 ^ 24 →
  __malloc_largebin_index sz = 4 * Z.log2 sz - 4 + sz / 2 ^ (Z.log2 sz - 2).
Proof.
  intros Hs. unfold __malloc_largebin_index. change SMALLBIN_WIDTH with 8.
  assert (Hd : 1 ≤ Z.shiftr sz 8 < 0x10000).
  { rewrite Z.shiftr_div_pow2 by lia. split; [apply Z.div_le_lower_bound; lia|].
    apply Z.div_lt_upper_bound; lia. }
  rewrite (proj2 (Z.leb_gt _ _)) by lia. rewrite nlz_log2, log2_shiftr_8 by lia.
  set (e := Z.log2 sz).
  assert (8 ≤ e < 24).
  { split; [apply Z.log2_le_pow2; lia|]. apply Z.log2_lt_pow2; lia. }
  pose proof (Z.log2_spec sz ltac:(lia)) as Hl. fold e in Hl.
  replace (e - 8 + 6) with (e - 2) by lia.
  rewrite (Z.shiftr_div_pow2 sz), (Z.shiftl_mul_pow2 (e - 8) 2) by lia.
  pose proof (largebin_quot sz) as Hq. fold e in Hq.
  assert (Z.land (sz / 2 ^ (e - 2)) 3 = sz / 2 ^ (e - 2) - 4) as ->.
  { change 3 with (Z.ones 2). rewrite Z.land_ones by lia.
    symmetry. apply (Z.mod_unique _ _ 1); lia. }
  unfold NSMALLBINS. rewrite u32_small by lia. lia.
Qed.

Lemma largebin_index_range sz : 256 ≤ sz < 2 ^ 32 → 32 ≤ __malloc_largebin_index sz ≤ 95.
Proof.
  intros Hs. destruct (decide (sz < 2 ^ 24)) as [Hlt|Hge].
  - rewrite largebin_index_eq by lia. pose proof (largebin_quot sz).
    assert (8 ≤ Z.log2 sz < 24); [|lia].
    split; [apply Z.log2_le_pow2; lia|]. apply Z.log2_lt_pow2; lia.
  - unfold __malloc_largebin_index. change SMALLBIN_WIDTH with 8.
    rewrite (proj2 (Z.leb_le _ _)); [unfold NBINS; lia|].
    rewrite Z.shiftr_div_pow2 by lia. apply Z.div_le_lower_bound; lia.
Qed.

Lemma largebin_index_mono a b :
  256 ≤ a → a ≤ b → b < 2 ^ 32 → __malloc_largebin_index a ≤ __malloc_largebin_index b.
Proof.
  intros Ha Hab Hb. destruct (decide (b < 2 ^ 24)) as [Hlt|Hge].
  - rewrite !largebin_index_eq by lia.
    pose proof (largebin_quot a). pose proof (largebin_quot b).
    pose proof (Z.log2_le_mono a b Hab).
    destruct (decide (Z.log2 a = Z.log2 b)) as [He|]; [|lia].
    rewrite He in *. assert (a / 2 ^ (Z.log2 b - 2) ≤ b / 2 ^ (Z.log2 b - 2)); [|lia].
    apply Z.div_le_mono; [|done]. apply Z.pow_pos_nonneg; [lia|].
    assert (8 ≤ Z.log2 b); [|lia]. apply Z.log2_le_pow2; lia.
  - pose proof (largebin_index_range a).
    assert (__malloc_largebin_index b = 95) as ->; [|lia].
    unfold __malloc_largebin_index. change SMALLBIN_WIDTH with 8.
    rewrite (proj2 (Z.leb_le _ _)); [done|].
    rewrite Z.shiftr_div_pow2 by lia. apply Z.div_le_lower_bound; lia.
Qed.

Lemma smallbin_index_eq sz : smallbin_index sz = sz / 8.
Proof. unfold smallbin_index. by rewrite Z.shiftr_div_pow2. Qed.

Lemma bin_index_range sz : 16 ≤ sz < 2 ^ 32 → 2 ≤ bin_index sz ≤ 95.
Proof.
  intros Hs. unfold bin_index, in_smallbin_range, MIN_LARGE_SIZE.
  destruct (Z.ltb_spec sz 256).
  - rewrite smallbin_index_eq. split; [apply Z.div_le_lower_bound; lia|].
    assert (sz / 8 < 32); [|lia]. apply Z.div_lt_upper_bound; lia.
  - pose proof (largebin_index_range sz). lia.
Qed.

Lemma bin_index_mono a b : 0 ≤ a → a ≤ b → b < 2 ^ 32 → bin_index a ≤ bin_index b.
Proof.
  intros Ha Hab Hb. unfold bin_index, in_smallbin_range, MIN_LARGE_SIZE.
  destruct (Z.ltb_spec a 256), (Z.ltb_spec b 256); rewrite ?smallbin_index_eq.
  - apply Z.div_le_mono; lia.
  - pose proof (largebin_index_range b). assert (a / 8 < 32); [|lia].
    apply Z.div_lt_upper_bound; lia.
  - lia.
  - by apply largebin_index_mono.
Qed.

(** ** Bit map entries *)

Lemma idx2bit_pow2 i : 0 ≤ i → idx2bit i = 2 ^ (i `mod` 32).
Proof.
  intros Hi. unfold idx2bit, BINMAPSHIFT. change (Z.shiftl 1 5 - 1) with (Z.ones 5).
  rewrite Z.land_ones, Z.shiftl_1_l by lia. change (2 ^ 5) with 32.
  pose proof (Z.mod_pos_bound i 32 ltac:(lia)). apply u32_small.
  split; [apply Z.pow_nonneg; lia|]. apply Z.pow_lt_mono_r; lia.
Qed.

Lemma idx2block_div i : idx2block i = i / 32.
Proof. unfold idx2block, BINMAPSHIFT. by rewrite Z.shiftr_div_pow2. Qed.

Lemma aget_aset l i j v :
  0 ≤ i < Z.of_nat (length l) → 0 ≤ j →
  aget (aset l i v) j = if decide (i = j) then v else aget l j.
Proof.
  intros Hi Hj. unfold aget, aset. rewrite !nth_lookup.
  case_decide as He.
  - subst. rewrite list_lookup_insert_eq by lia. done.
  - rewrite list_lookup_insert_ne by lia. done.
Qed.

Lemma land_pow2_nonzero w n : 0 ≤ n → Z.land w (2 ^ n) ≠ 0 ↔ Z.testbit w n = true.
Proof.
  intros Hn. split.
  - intros H. destruct (Z.testbit w n) eqn:Hb; [done|]. exfalso. apply H.
    apply Z.bits_inj'. intros k Hk. rewrite Z.land_spec, Z.bits_0.
    destruct (decide (k = n)) as [->|]; [by rewrite Hb|].
    by rewrite Z.pow2_bits_false, andb_false_r by lia.
  - intros Hb H0. apply (f_equal (λ z, Z.testbit z n)) in H0.
    rewrite Z.land_spec, Z.pow2_bits_true, Hb, Z.bits_0 in H0 by lia. done.
Qed.

(** Bit [i] of the map: the test [get_binmap] makes. *)
Definition bin_marked (binmap : list Z) (i : Z) : Prop := get_binmap binmap i ≠ 0.

Lemma bin_marked_testbit bm i :
  0 ≤ i → bin_marked bm i ↔ Z.testbit (aget bm (i / 32)) (i `mod` 32) = true.
Proof.
  intros Hi. unfold bin_marked, get_binmap. rewrite idx2block_div, idx2bit_pow2 by lia.
  apply land_pow2_nonzero. pose proof (Z.mod_pos_bound i 32). lia.
Qed.

Lemma div_range i : 0 ≤ i < 96 → 0 ≤ i / 32 < 3.
Proof. intros. split; [apply Z.div_pos; lia|apply Z.div_lt_upper_bound; lia]. Qed.

Lemma div_mod_inj i j : i / 32 = j / 32 → i `mod` 32 = j `mod` 32 → i = j.
Proof. intros H1 H2. rewrite (Z.div_mod i 32), (Z.div_mod j 32) by lia. congruence. Qed.

Lemma mark_bin_marked bm i j :
  length bm = 4%nat → 0 ≤ i < 96 → 0 ≤ j < 96 →
  bin_marked (mark_bin bm i) j ↔ i = j ∨ bin_marked bm j.
Proof.
  intros Hl Hi Hj. rewrite !bin_marked_testbit by lia. unfold mark_bin.
  rewrite idx2block_div, idx2bit_pow2 by lia. pose proof (div_range i Hi). pose proof (div_range j Hj).
  pose proof (Z.mod_pos_bound i 32 ltac:(lia)). pose proof (Z.mod_pos_bound j 32 ltac:(lia)).
  rewrite aget_aset by lia. case_decide as He.
  - rewrite Z.lor_spec. destruct (decide (i `mod` 32 = j `mod` 32)) as [Hm|Hm].
    + rewrite Hm, Z.pow2_bits_true, orb_true_r by lia. split; [|done].
      intros _. left. by apply div_mod_inj.
    + rewrite Z.pow2_bits_false, orb_false_r, He by lia. split; [by right|].
      intros [->|]; [lia|done].
  - split; [by right|]. intros [->|]; [done|done].
Qed.

Lemma unmark_bin_marked bm i j :
  length bm = 4%nat → Forall (λ w, 0 ≤ w < 2 ^ 32) bm → 0 ≤ i < 96 → 0 ≤ j < 96 →
  bin_marked (unmark_bin bm i) j ↔ i ≠ j ∧ bin_marked bm j.
Proof.
  intros Hl Hw Hi Hj. rewrite !bin_marked_testbit by lia. unfold unmark_bin.
  rewrite idx2block_div, idx2bit_pow2 by lia. pose proof (div_range i Hi). pose proof (div_range j Hj).
  pose proof (Z.mod_pos_bound i 32 ltac:(lia)). pose proof (Z.mod_pos_bound j 32 ltac:(lia)).
  assert (0 < 2 ^ (i `mod` 32) < 2 ^ 32).
  { split; [apply Z.pow_pos_nonneg; lia|]. apply Z.pow_lt_mono_r; lia. }
  rewrite aget_aset by lia. case_decide as He.
  - rewrite land_not32, Z.ldiff_spec; [| |lia].
    + destruct (decide (i `mod` 32 = j `mod` 32)) as [Hm|Hm].
      * rewrite Hm, Z.pow2_bits_true, andb_false_r by lia. split; [done|].
        intros [Hne _]. exfalso. apply Hne. by apply div_mod_inj.
      * rewrite Z.pow2_bits_false, andb_true_r, He by lia. split; [|tauto].
        intros Hx. split; [|done]. by intros ->.
    + unfold aget. rewrite nth_lookup. destruct (bm !! Z.to_nat (i / 32)) as [w|] eqn:Hb; simpl; [|lia].
      rewrite Forall_lookup in Hw. eauto.
  - split; [|tauto]. intros Hx. split; [|done]. by intros ->.
Qed.

(** * Properties *)

(** C40: For every request below the range check, the normalised size is a
    multiple of the alignment, at least [MINSIZE], leaves room for the request
    and its size word, wastes less than [MINSIZE] bytes, and can be padded by
    [MINSIZE] without wrapping around; requests in the range check are
    refused, and the padded size used to retry an allocation is normalised to
    itself. *)
Theorem request2size_spec req :
  0 ≤ req < 2 ^ 32 →
  match checked_request2size req with
  | Some nb =>
      nb `mod` MALLOC_ALIGNMENT = 0 ∧ MINSIZE ≤ nb ∧ req + SIZE_SZ ≤ nb ∧
      nb < req + SIZE_SZ + MINSIZE ∧ nb + MINSIZE < 2 ^ 32 ∧
      (nb < 2 ^ 32 - 32 → request2size (nb - MALLOC_ALIGN_MASK) = nb)
  | None => 2 ^ 32 - 32 ≤ req
  end.
Proof.
  intros Hr. unfold checked_request2size, REQUEST_OUT_OF_RANGE. rewrite MINSIZE_16.
  change (u32 (-2 * 16)) with (2 ^ 32 - 32).
  destruct (Z.leb_spec (2 ^ 32 - 32) req); [done|].
  unfold MALLOC_ALIGNMENT, SIZE_SZ, MALLOC_ALIGN_MASK.
  assert (Hm : request2size req `mod` 8 = 0).
  { destruct (request2size_cases req) as [[? ->]|[? ->]]; [lia|done|].
    by rewrite Z.mul_comm, Z.mod_mul. }
  pose proof (Z.div_mod (req + 11) 8 ltac:(lia)). pose proof (Z.mod_pos_bound (req + 11) 8 ltac:(lia)).
  repeat split; [done| | | | |].
  5:{ intros Hlt. apply request2size_retry; [|done|done].
      destruct (request2size_cases req) as [[? ->]|[? ->]]; lia. }
  all: destruct (request2size_cases req) as [[? ->]|[? ->]]; lia.
Qed.

Lemma request2size_spec_witness :
  checked_request2size 37 = Some 48 ∧ 48 `mod` MALLOC_ALIGNMENT = 0.
Proof. split; [reflexivity|]. apply (request2size_spec 37). lia. Defined.

(** The branch-free bit search that replaces the [bsrl] instruction
    computes the position of the highest set bit for every argument
    [__malloc_largebin_index] passes to it, so both builds of that function
    agree with the index formula. *)
Theorem largebin_index_correct sz :
  256 ≤ sz < 2 ^ 24 →
  nlz_highest_bit (Z.shiftr sz SMALLBIN_WIDTH) = Z.log2 (Z.shiftr sz SMALLBIN_WIDTH) ∧
  __malloc_largebin_index sz = 4 * Z.log2 sz - 4 + sz / 2 ^ (Z.log2 sz - 2).
Proof.
  intros Hs. split; [|by apply largebin_index_eq]. apply nlz_log2.
  change SMALLBIN_WIDTH with 8. rewrite Z.shiftr_div_pow2 by lia.
  split; [apply Z.div_le_lower_bound; lia|apply Z.div_lt_upper_bound; lia].
Qed.

Lemma largebin_index_correct_witness :
  __malloc_largebin_index 5000 = 48 ∧
  __malloc_largebin_index 5000 = 4 * Z.log2 5000 - 4 + 5000 / 2 ^ (Z.log2 5000 - 2).
Proof. split; [reflexivity|]. apply (largebin_index_correct 5000). lia. Defined.

(** Bins are ordered by size: every chunk size has a bin between 2 and
    [NBINS] - 1, the index is monotone in the size, and so a chunk found in a
    bin above the bin of a request is larger than the request, which is what
    the assertion in the bin search of [ablib_malloc] checks. *)
Theorem bin_index_ordered nb size :
  16 ≤ nb < 2 ^ 32 → 16 ≤ size < 2 ^ 32 →
  2 ≤ bin_index nb ≤ NBINS - 1 ∧
  (nb ≤ size → bin_index nb ≤ bin_index size) ∧
  (bin_index nb < bin_index size → nb < size).
Proof.
  intros Hn Hs. split; [apply bin_index_range in Hn; unfold NBINS; lia|]. split.
  - intros Hle. apply bin_index_mono; lia.
  - intros Hlt. destruct (decide (nb < size)); [done|].
    pose proof (bin_index_mono size nb). lia.
Qed.

Lemma bin_index_ordered_witness : bin_index 48 = 6 ∧ bin_index 264 = 32 ∧ 48 < 264.
Proof.
  split; [reflexivity|]. split; [reflexivity|].
  apply (bin_index_ordered 48 264); [lia|lia|reflexivity].
Defined.

(** The bin map is an exact set of indices under its two updates:
    [mark_bin] adds one index and [unmark_bin] removes one, and neither
    changes the membership of another bin. *)
Lemma binmap_updates bm i j :
  length bm = 4%nat → Forall (λ w, 0 ≤ w < 2 ^ 32) bm → 0 ≤ i < NBINS → 0 ≤ j < NBINS →
  (get_binmap (mark_bin bm i) j ≠ 0 ↔ i = j ∨ get_binmap bm j ≠ 0) ∧
  (get_binmap (unmark_bin bm i) j ≠ 0 ↔ i ≠ j ∧ get_binmap bm j ≠ 0).
Proof.
  intros Hl Hw Hi Hj. split; [by apply mark_bin_marked|by apply unmark_bin_marked].
Qed.

Lemma binmap_updates_witness :
  mark_bin [0; 0; 0; 0] 37 = [0; 32; 0; 0] ∧ get_binmap (mark_bin [0; 0; 0; 0] 37) 37 ≠ 0.
Proof.
  split; [reflexivity|].
  apply (binmap_updates [0; 0; 0; 0] 37 37); [reflexivity| |unfold NBINS; lia|unfold NBINS; lia|by left].
  repeat (apply Forall_cons; split; [lia|]). constructor.
Defined.
