(* ===== verification/Heap.v ===== *)
(** The channel heap: data structures and the macros that act on chunks.

    [malloc_state], [unit_state] and [abheap_state] are the structures of
    [monitor/ablib_malloc.h]; [heap] is the part of the arbiter process the
    allocator works on.  Chunks are byte-level: boundary tags and list links
    are 32-bit words of [hmem], which holds the channel and, inside each live
    [malloc_state], its [bins] array, because the code reads the latter through
    [struct malloc_chunk] pointers too.  An access through a chunk pointer is
    modelled inside the mapped channel and inside a [bins] array.  Chunk
    pointers come from memory that clients can write, so a client can send the
    allocator elsewhere, into the arbiter's own data: that is the outcome
    [Wild], at which the model ends.  Unit records, state records and list nodes are kept in
    finite maps keyed by their address in the C heap, which a bump allocator
    hands out. *)

From S2P Require Import Prelude LinkedList Memory Chunk.

(** * Data *)

Record malloc_state := MallocState {
  ms_label : list Z;
  ms_ustate_list : linked_list;
  ms_max_fast : Z;
  ms_fastbins : list Z;
  ms_last_remainder : Z;
  ms_binmap : list Z;
  ms_trim_threshold : Z;
  ms_top_pad : Z;
  ms_mmap_threshold : Z;
  ms_n_mmaps : Z;
  ms_n_mmaps_max : Z;
  ms_max_n_mmaps : Z;
  ms_pagesize : Z;
  ms_morecore_properties : Z;
  ms_mmapped_mem : Z;
  ms_sbrked_mem : Z;
  ms_max_sbrked_mem : Z;
  ms_max_mmapped_mem : Z;
  ms_max_total_mem : Z;
}.

Record unit_state := UnitState {
  unit_top : Z;
  addr : Z;
  length_ : Z;
  unit_av : Z;
}.

(** The allocator state of the arbiter process. *)
Record heap := Heap {
  h_mem : memory; (* the channel and the bins arrays *)
  h_mstates : gmap Z malloc_state; (* live malloc_state structures *)
  h_ustates : gmap Z unit_state; (* live unit_state structures *)
  h_ab_top : Z; (* __abheap_state *)
  h_mstate_list : linked_list; 
  h_ustate_list : linked_list; 
  h_mmapped_ustate_list : linked_list; 
  h_malloc_lock : bool; (* __malloc_lock is held *)
  h_ab_curbrk : Z; (* __ab_curbrk of ablib_brk.c *)
  h_libc_next : Z; (* next free address of the C heap *)
  h_channel_mapped : bool; (* the channel has been mapped *)
}.

(** Field updates *)
Definition set_ms_label (v : list Z) (s : malloc_state) : malloc_state :=
  MallocState v (ms_ustate_list s) (ms_max_fast s) (ms_fastbins s) (ms_last_remainder s) (ms_binmap s) (ms_trim_threshold s) (ms_top_pad s) (ms_mmap_threshold s) (ms_n_mmaps s) (ms_n_mmaps_max s) (ms_max_n_mmaps s) (ms_pagesize s) (ms_morecore_properties s) (ms_mmapped_mem s) (ms_sbrked_mem s) (ms_max_sbrked_mem s) (ms_max_mmapped_mem s) (ms_max_total_mem s).
Definition set_ms_ustate_list (v : linked_list) (s : malloc_state) : malloc_state :=
  MallocState (ms_label s) v (ms_max_fast s) (ms_fastbins s) (ms_last_remainder s) (ms_binmap s) (ms_trim_threshold s) (ms_top_pad s) (ms_mmap_threshold s) (ms_n_mmaps s) (ms_n_mmaps_max s) (ms_max_n_mmaps s) (ms_pagesize s) (ms_morecore_properties s) (ms_mmapped_mem s) (ms_sbrked_mem s) (ms_max_sbrked_mem s) (ms_max_mmapped_mem s) (ms_max_total_mem s).
Definition set_ms_max_fast (v : Z) (s : malloc_state) : malloc_state :=
  MallocState (ms_label s) (ms_ustate_list s) v (ms_fastbins s) (ms_last_remainder s) (ms_binmap s) (ms_trim_threshold s) (ms_top_pad s) (ms_mmap_threshold s) (ms_n_mmaps s) (ms_n_mmaps_max s) (ms_max_n_mmaps s) (ms_pagesize s) (ms_morecore_properties s) (ms_mmapped_mem s) (ms_sbrked_mem s) (ms_max_sbrked_mem s) (ms_max_mmapped_mem s) (ms_max_total_mem s).
Definition set_ms_fastbins (v : list Z) (s : malloc_state) : malloc_state :=
  MallocState (ms_label s) (ms_ustate_list s) (ms_max_fast s) v (ms_last_remainder s) (ms_binmap s) (ms_trim_threshold s) (ms_top_pad s) (ms_mmap_threshold s) (ms_n_mmaps s) (ms_n_mmaps_max s) (ms_max_n_mmaps s) (ms_pagesize s) (ms_morecore_properties s) (ms_mmapped_mem s) (ms_sbrked_mem s) (ms_max_sbrked_mem s) (ms_max_mmapped_mem s) (ms_max_total_mem s).
Definition set_ms_last_remainder (v : Z) (s : malloc_state) : malloc_state :=
  MallocState (ms_label s) (ms_ustate_list s) (ms_max_fast s) (ms_fastbins s) v (ms_binmap s) (ms_trim_threshold s) (ms_top_pad s) (ms_mmap_threshold s) (ms_n_mmaps s) (ms_n_mmaps_max s) (ms_max_n_mmaps s) (ms_pagesize s) (ms_morecore_properties s) (ms_mmapped_mem s) (ms_sbrked_mem s) (ms_max_sbrked_mem s) (ms_max_mmapped_mem s) (ms_max_total_mem s).
Definition set_ms_binmap (v : list Z) (s : malloc_state) : malloc_state :=
  MallocState (ms_label s) (ms_ustate_list s) (ms_max_fast s) (ms_fastbins s) (ms_last_remainder s) v (ms_trim_threshold s) (ms_top_pad s) (ms_mmap_threshold s) (ms_n_mmaps s) (ms_n_mmaps_max s) (ms_max_n_mmaps s) (ms_pagesize s) (ms_morecore_properties s) (ms_mmapped_mem s) (ms_sbrked_mem s) (ms_max_sbrked_mem s) (ms_max_mmapped_mem s) (ms_max_total_mem s).
Definition set_ms_n_mmaps (v : Z) (s : malloc_state) : malloc_state :=
  MallocState (ms_label s) (ms_ustate_list s) (ms_max_fast s) (ms_fastbins s) (ms_last_remainder s) (ms_binmap s) (ms_trim_threshold s) (ms_top_pad s) (ms_mmap_threshold s) v (ms_n_mmaps_max s) (ms_max_n_mmaps s) (ms_pagesize s) (ms_morecore_properties s) (ms_mmapped_mem s) (ms_sbrked_mem s) (ms_max_sbrked_mem s) (ms_max_mmapped_mem s) (ms_max_total_mem s).
Definition set_ms_max_n_mmaps (v : Z) (s : malloc_state) : malloc_state :=
  MallocState (ms_label s) (ms_ustate_list s) (ms_max_fast s) (ms_fastbins s) (ms_last_remainder s) (ms_binmap s) (ms_trim_threshold s) (ms_top_pad s) (ms_mmap_threshold s) (ms_n_mmaps s) (ms_n_mmaps_max s) v (ms_pagesize s) (ms_morecore_properties s) (ms_mmapped_mem s) (ms_sbrked_mem s) (ms_max_sbrked_mem s) (ms_max_mmapped_mem s) (ms_max_total_mem s).
Definition set_ms_mmapped_mem (v : Z) (s : malloc_state) : malloc_state :=
  MallocState (ms_label s) (ms_ustate_list s) (ms_max_fast s) (ms_fastbins s) (ms_last_remainder s) (ms_binmap s) (ms_trim_threshold s) (ms_top_pad s) (ms_mmap_threshold s) (ms_n_mmaps s) (ms_n_mmaps_max s) (ms_max_n_mmaps s) (ms_pagesize s) (ms_morecore_properties s) v (ms_sbrked_mem s) (ms_max_sbrked_mem s) (ms_max_mmapped_mem s) (ms_max_total_mem s).
Definition set_ms_sbrked_mem (v : Z) (s : malloc_state) : malloc_state :=
  MallocState (ms_label s) (ms_ustate_list s) (ms_max_fast s) (ms_fastbins s) (ms_last_remainder s) (ms_binmap s) (ms_trim_threshold s) (ms_top_pad s) (ms_mmap_threshold s) (ms_n_mmaps s) (ms_n_mmaps_max s) (ms_max_n_mmaps s) (ms_pagesize s) (ms_morecore_properties s) (ms_mmapped_mem s) v (ms_max_sbrked_mem s) (ms_max_mmapped_mem s) (ms_max_total_mem s).
Definition set_ms_max_sbrked_mem (v : Z) (s : malloc_state) : malloc_state :=
  MallocState (ms_label s) (ms_ustate_list s) (ms_max_fast s) (ms_fastbins s) (ms_last_remainder s) (ms_binmap s) (ms_trim_threshold s) (ms_top_pad s) (ms_mmap_threshold s) (ms_n_mmaps s) (ms_n_mmaps_max s) (ms_max_n_mmaps s) (ms_pagesize s) (ms_morecore_properties s) (ms_mmapped_mem s) (ms_sbrked_mem s) v (ms_max_mmapped_mem s) (ms_max_total_mem s).
Definition set_ms_max_mmapped_mem (v : Z) (s : malloc_state) : malloc_state :=
  MallocState (ms_label s) (ms_ustate_list s) (ms_max_fast s) (ms_fastbins s) (ms_last_remainder s) (ms_binmap s) (ms_trim_threshold s) (ms_top_pad s) (ms_mmap_threshold s) (ms_n_mmaps s) (ms_n_mmaps_max s) (ms_max_n_mmaps s) (ms_pagesize s) (ms_morecore_properties s) (ms_mmapped_mem s) (ms_sbrked_mem s) (ms_max_sbrked_mem s) v (ms_max_total_mem s).
Definition set_ms_max_total_mem (v : Z) (s : malloc_state) : malloc_state :=
  MallocState (ms_label s) (ms_ustate_list s) (ms_max_fast s) (ms_fastbins s) (ms_last_remainder s) (ms_binmap s) (ms_trim_threshold s) (ms_top_pad s) (ms_mmap_threshold s) (ms_n_mmaps s) (ms_n_mmaps_max s) (ms_max_n_mmaps s) (ms_pagesize s) (ms_morecore_properties s) (ms_mmapped_mem s) (ms_sbrked_mem s) (ms_max_sbrked_mem s) (ms_max_mmapped_mem s) v.
Definition set_h_mem (v : memory) (s : heap) : heap :=
  Heap v (h_mstates s) (h_ustates s) (h_ab_top s) (h_mstate_list s) (h_ustate_list s) (h_mmapped_ustate_list s) (h_malloc_lock s) (h_ab_curbrk s) (h_libc_next s) (h_channel_mapped s).
Definition set_h_mstates (v : gmap Z malloc_state) (s : heap) : heap :=
  Heap (h_mem s) v (h_ustates s) (h_ab_top s) (h_mstate_list s) (h_ustate_list s) (h_mmapped_ustate_list s) (h_malloc_lock s) (h_ab_curbrk s) (h_libc_next s) (h_channel_mapped s).
Definition set_h_ustates (v : gmap Z unit_state) (s : heap) : heap :=
  Heap (h_mem s) (h_mstates s) v (h_ab_top s) (h_mstate_list s) (h_ustate_list s) (h_mmapped_ustate_list s) (h_malloc_lock s) (h_ab_curbrk s) (h_libc_next s) (h_channel_mapped s).
Definition set_h_ab_top (v : Z) (s : heap) : heap :=
  Heap (h_mem s) (h_mstates s) (h_ustates s) v (h_mstate_list s) (h_ustate_list s) (h_mmapped_ustate_list s) (h_malloc_lock s) (h_ab_curbrk s) (h_libc_next s) (h_channel_mapped s).
Definition set_h_mstate_list (v : linked_list) (s : heap) : heap :=
  Heap (h_mem s) (h_mstates s) (h_ustates s) (h_ab_top s) v (h_ustate_list s) (h_mmapped_ustate_list s) (h_malloc_lock s) (h_ab_curbrk s) (h_libc_next s) (h_channel_mapped s).
Definition set_h_ustate_list (v : linked_list) (s : heap) : heap :=
  Heap (h_mem s) (h_mstates s) (h_ustates s) (h_ab_top s) (h_mstate_list s) v (h_mmapped_ustate_list s) (h_malloc_lock s) (h_ab_curbrk s) (h_libc_next s) (h_channel_mapped s).
Definition set_h_mmapped_ustate_list (v : linked_list) (s : heap) : heap :=
  Heap (h_mem s) (h_mstates s) (h_ustates s) (h_ab_top s) (h_mstate_list s) (h_ustate_list s) v (h_malloc_lock s) (h_ab_curbrk s) (h_libc_next s) (h_channel_mapped s).
Definition set_h_malloc_lock (v : bool) (s : heap) : heap :=
  Heap (h_mem s) (h_mstates s) (h_ustates s) (h_ab_top s) (h_mstate_list s) (h_ustate_list s) (h_mmapped_ustate_list s) v (h_ab_curbrk s) (h_libc_next s) (h_channel_mapped s).
Definition set_h_ab_curbrk (v : Z) (s : heap) : heap :=
  Heap (h_mem s) (h_mstates s) (h_ustates s) (h_ab_top s) (h_mstate_list s) (h_ustate_list s) (h_mmapped_ustate_list s) (h_malloc_lock s) v (h_libc_next s) (h_channel_mapped s).
Definition set_h_libc_next (v : Z) (s : heap) : heap :=
  Heap (h_mem s) (h_mstates s) (h_ustates s) (h_ab_top s) (h_mstate_list s) (h_ustate_list s) (h_mmapped_ustate_list s) (h_malloc_lock s) (h_ab_curbrk s) v (h_channel_mapped s).
Definition set_h_channel_mapped (v : bool) (s : heap) : heap :=
  Heap (h_mem s) (h_mstates s) (h_ustates s) (h_ab_top s) (h_mstate_list s) (h_ustate_list s) (h_mmapped_ustate_list s) (h_malloc_lock s) (h_ab_curbrk s) (h_libc_next s) v.
Definition set_unit_top (v : Z) (u : unit_state) : unit_state :=
  UnitState v (addr u) (length_ u) (unit_av u).

(** * Access to the structures *)

Abbreviation hm := (st heap).

(** Offsets of [struct malloc_state]: [fastbins] at 24, [bins] at 68. *)
Definition SIZEOF_MALLOC_STATE : Z := 904.
Definition SIZEOF_UNIT_STATE : Z := 16.
Definition BINS_OFFSET : Z := 68.
Definition BINS_BYTES : Z := NBINS * 2 * 4.

(** First address of the C heap. *)
Definition LIBC_BASE : Z := 0x08100000.

(** [malloc] of the C library; [NULL] when the C heap meets the channel. *)
Definition libc_malloc (n : Z) : hm Z := λ h,
  let p := h_libc_next h in
  if p + n <? CHANNEL_ADDR then Ret (p, set_h_libc_next (p + n + 8) h) else Ret (0, h).

Definition in_channel (h : heap) (a : Z) : bool :=
  h_channel_mapped h && (CHANNEL_ADDR <=? a) && (a + 4 <=? CHANNEL_ADDR + CHANNEL_SIZE).
Definition in_bins (h : heap) (a : Z) : bool :=
  existsb (λ av, (av + BINS_OFFSET <=? a) && (a + 4 <=? av + BINS_OFFSET + BINS_BYTES))
    (map_to_list (h_mstates h)).*1.
Definition valid_word (h : heap) (a : Z) : bool := in_channel h a || in_bins h a.

Definition ld (a : Z) : hm Z := λ h,
  if valid_word h a then Ret (load32 (h_mem h) a, h) else Fault Wild.
Definition sd (a v : Z) : hm unit := λ h,
  if valid_word h a then Ret (tt, set_h_mem (store32 (h_mem h) a v) h) else Fault Wild.

(** [av->field] and [unit->field] *)
Definition get_av (av : Z) : hm malloc_state := λ h,
  match h_mstates h !! av with Some s => Ret (s, h) | None => Fault Segv end.
Definition upd_av (av : Z) (f : malloc_state → malloc_state) : hm unit := λ h,
  match h_mstates h !! av with
  | Some s => Ret (tt, set_h_mstates (<[av := f s]> (h_mstates h)) h)
  | None => Fault Segv
  end.
Definition get_unit (u : Z) : hm unit_state := λ h,
  match h_ustates h !! u with Some x => Ret (x, h) | None => Fault Segv end.
Definition upd_unit (u : Z) (f : unit_state → unit_state) : hm unit := λ h,
  match h_ustates h !! u with
  | Some x => Ret (tt, set_h_ustates (<[u := f x]> (h_ustates h)) h)
  | None => Fault Segv
  end.

(** * Chunk macros *)

Definition rd_prev_size (p : Z) : hm Z := ld p.
Definition rd_size (p : Z) : hm Z := ld (u32 (p + 4)).
Definition rd_fd (p : Z) : hm Z := ld (u32 (p + 8)).
Definition rd_bk (p : Z) : hm Z := ld (u32 (p + 12)).
Definition wr_prev_size (p v : Z) : hm unit := sd p v.
Definition wr_fd (p v : Z) : hm unit := sd (u32 (p + 8)) v.
Definition wr_bk (p v : Z) : hm unit := sd (u32 (p + 12)) v.

Definition chunk_at_offset (p s : Z) : Z := u32 (p + s).
Definition set_head (p s : Z) : hm unit := sd (u32 (p + 4)) s.
Definition set_foot (p s : Z) : hm unit := wr_prev_size (chunk_at_offset p s) s.
Definition set_head_size (p s : Z) : hm unit :=
  z ← rd_size p; set_head p (Z.lor (Z.land z PREV_INUSE) s).
Definition chunksize (p : Z) : hm Z := z ← rd_size p; mret (Z.land z (not32 SIZE_BITS)).
Definition prev_inuse (p : Z) : hm bool := z ← rd_size p; mret (negb (Z.land z PREV_INUSE =? 0)).
Definition chunk_is_mmapped (p : Z) : hm bool := z ← rd_size p; mret (negb (Z.land z IS_MMAPPED =? 0)).
Definition inuse_bit_at_offset (p s : Z) : hm bool := prev_inuse (chunk_at_offset p s).
Definition inuse (p : Z) : hm bool :=
  z ← rd_size p; inuse_bit_at_offset p (Z.land z (not32 PREV_INUSE)).
Definition set_inuse_bit_at_offset (p s : Z) : hm unit :=
  z ← rd_size (chunk_at_offset p s); set_head (chunk_at_offset p s) (Z.lor z PREV_INUSE).

(** * Bins *)

Definition bin_at (av i : Z) : Z := u32 (av + BINS_OFFSET + 4 * Z.shiftl i 1 - 8).
Definition next_bin (b : Z) : Z := u32 (b + 8).
Definition unsorted_chunks (av : Z) : Z := bin_at av 1.
Definition first (b : Z) : hm Z := rd_fd b.
Definition last (b : Z) : hm Z := rd_bk b.

(** [unlink(P, BK, FD)] *)
Definition unlink (p : Z) : hm unit :=
  fd ← rd_fd p;
  bk ← rd_bk p;
  fdbk ← rd_bk fd;
  ok ← (if negb (fdbk =? p) then mret false else bkfd ← rd_fd bk; mret (bkfd =? p));
  if negb ok then fail AbortCall else
  wr_bk fd bk;;
  wr_fd bk fd.

(** [av->fastbins[i]].  An index that wrapped below zero names the words in
    front of the array, [max_fast] and [ustate_list.num]. *)
Definition fb_load (av i : Z) : hm Z :=
  s ← get_av av;
  if i <? NFASTBINS then mret (aget (ms_fastbins s) i)
  else if i =? u32 (-1) then mret (ms_max_fast s)
  else if i =? u32 (-2) then mret (u32 (num (ms_ustate_list s)))
  else fail Wild.
Definition set_num (v : Z) (l : linked_list) : linked_list :=
  LinkedList (head l) (tail l) v (nodes l).
Definition fb_store (av i v : Z) : hm unit :=
  if i <? NFASTBINS then upd_av av (λ s, set_ms_fastbins (aset (ms_fastbins s) i v) s)
  else if i =? u32 (-1) then upd_av av (set_ms_max_fast v)
  else if i =? u32 (-2) then upd_av av (λ s, set_ms_ustate_list (set_num (s32 v) (ms_ustate_list s)) s)
  else fail Wild.

(** * Locks *)

(** [__MALLOC_LOCK] and [__MALLOC_UNLOCK]: a default mutex, and the arbiter
    has one thread, so locking a held lock never returns. *)
Definition lock : hm unit := λ h,
  if h_malloc_lock h then Fault Deadlock else Ret (tt, set_h_malloc_lock true h).
Definition unlock : hm unit := modify (set_h_malloc_lock false).

(** * Units *)

(** [unit_init_state] *)
Definition unit_init_state (top a len av : Z) : hm Z :=
  u ← libc_malloc SIZEOF_UNIT_STATE;
  if u =? 0 then fail Segv else
  modify (λ h, set_h_ustates (<[u := UnitState top a len av]> (h_ustates h)) h);;
  mret u.

(** A node of a list; the list is fixed while it is traversed. *)
Definition node (l : linked_list) (p : Z) : hm list_node := lift (read_node l p).

(** [_cmp_mstate] and [lookup_mstate_by_label] *)
Definition _cmp_mstate (h : heap) (L : list Z) (av : Z) : outcome bool :=
  match h_mstates h !! av with
  | Some s => Ret (bool_decide (L = ms_label s))
  | None => Fault Segv
  end.
Definition lookup_mstate_by_label (L : list Z) : hm Z := λ h,
  r ← linked_list_lookup (h_mstate_list h) (_cmp_mstate h L); Ret (r, h).

(** [lookup_ustate_by_mem]: the loop ends only at a unit that contains the
    address, because no node's [prev] is the address of the list itself. *)
Definition lookup_ustate_by_mem (ptr : Z) : hm Z :=
  l ← gets h_ustate_list;
  loopM (λ victim_unit,
    n ← node l victim_unit;
    u ← get_unit (data n);
    mret (if (addr u <=? ptr) && (ptr <? u32 (addr u + length_ u))
          then inr (data n) else inl (prev n))) (tail l).

(** [lookup_label_by_mem] *)
Definition lookup_label_by_mem (ptr : Z) : hm (list Z) :=
  unit ← lookup_ustate_by_mem ptr;
  u ← get_unit unit;
  s ← get_av (unit_av u);
  mret (ms_label s).

(** Insertion of a unit record into one of the three lists. *)
Definition insert_head_in (get : heap → linked_list) (set : linked_list → heap → heap) (d : Z) : hm unit :=
  l ← gets get;
  l' ← lift (list_insert_head (malloc_node l) l d);
  modify (set l').
