(* ===== verification/Consolidate.v ===== *)
(** Initialisation and fastbin consolidation: [malloc_init_state] and
    [__malloc_consolidate] of [monitor/ablib_free.c]. *)

From S2P Require Import Prelude LinkedList Memory Chunk Heap.

(** [for (i = ...; ...; ++i)] over a fixed range of indices *)
Fixpoint for_ {S} (ixs : list Z) (f : Z → st S unit) : st S unit :=
  match ixs with
  | [] => mret tt
  | i :: ixs' => f i;; for_ ixs' f
  end.

Definition init_bin (av i : Z) : hm unit :=
  let bin := bin_at av i in
  wr_bk bin bin;; wr_fd bin bin.

Definition MORECORE_CONTIGUOUS_BIT : Z := 1.
Definition set_contiguous (mp : Z) : Z := Z.lor mp MORECORE_CONTIGUOUS_BIT.

(** [malloc_init_state] *)
Definition init_tunables (s : malloc_state) : malloc_state :=
  MallocState (ms_label s)
    init_linked_list
    (set_max_fast (ms_max_fast s) DEFAULT_MXFAST)
    (ms_fastbins s) (ms_last_remainder s) (ms_binmap s)
    DEFAULT_TRIM_THRESHOLD DEFAULT_TOP_PAD DEFAULT_MMAP_THRESHOLD
    (ms_n_mmaps s) DEFAULT_MMAP_MAX (ms_max_n_mmaps s) PAGESIZE
    (set_contiguous (ms_morecore_properties s))
    (ms_mmapped_mem s) (ms_sbrked_mem s) (ms_max_sbrked_mem s)
    (ms_max_mmapped_mem s) (ms_max_total_mem s).

Definition malloc_init_state (av : Z) : hm unit :=
  for_ (seqZ 1 (NBINS - 1)) (init_bin av);;
  upd_av av init_tunables;;
  l ← gets h_mstate_list;
  l' ← lift (list_insert_tail (malloc_node l) l av);
  modify (set_h_mstate_list l').

(** One chunk of a fastbin; the next chunk of the bin is returned. *)
Definition consolidate_chunk (unsorted_bin p : Z) : hm Z :=
  nextp ← rd_fd p;
  z ← rd_size p;
  let size := Z.land z (not32 PREV_INUSE) in
  let nextchunk := chunk_at_offset p size in
  nextsize ← chunksize nextchunk;
  pi ← prev_inuse p;
  '(p, size) ← (if negb pi then
      prevsize ← rd_prev_size p;
      let p' := chunk_at_offset p (- prevsize) in
      unlink p';;
      mret (p', u32 (size + prevsize))
    else mret (p, size));
  unit ← lookup_ustate_by_mem p;
  u ← get_unit unit;
  (if negb (nextchunk =? unit_top u) then
     nextinuse ← inuse_bit_at_offset nextchunk nextsize;
     set_head nextchunk nextsize;;
     size ← (if negb nextinuse
             then unlink nextchunk;; mret (u32 (size + nextsize)) else mret size);
     first_unsorted ← rd_fd unsorted_bin;
     wr_fd unsorted_bin p;;
     wr_bk first_unsorted p;;
     set_head p (Z.lor size PREV_INUSE);;
     wr_bk p unsorted_bin;;
     wr_fd p first_unsorted;;
     set_foot p size
   else
     let size := u32 (size + nextsize) in
     set_head p (Z.lor size PREV_INUSE);;
     upd_unit unit (set_unit_top p));;
  mret nextp.

(** One fastbin: the inner [do ... while ((p = nextp) != 0)]. *)
Definition consolidate_bin (av unsorted_bin fb : Z) : hm unit :=
  p ← fb_load av fb;
  when (negb (p =? 0))
    (fb_store av fb 0;;
     loopM (λ p, nextp ← consolidate_chunk unsorted_bin p;
                 mret (if nextp =? 0 then inr tt else inl nextp)) p).

(** [mmap] of the channel at its fixed address and [touch_mem]. *)
Definition map_channel : hm unit :=
  modify (λ h, set_h_channel_mapped true (set_h_mem (memset0 (h_mem h) CHANNEL_ADDR CHANNEL_SIZE) h)).

(** [__malloc_consolidate] *)
Definition __malloc_consolidate (av : Z) : hm unit :=
  s ← get_av av;
  if negb (ms_max_fast s =? 0) then
    upd_av av (λ s, set_ms_max_fast (clear_fastchunks (ms_max_fast s)) s);;
    let unsorted_bin := unsorted_chunks av in
    s ← get_av av;
    let maxfb := fastbin_index (ms_max_fast s) in
    loopM (λ fb,
      consolidate_bin av unsorted_bin fb;;
      mret (if fb =? maxfb then inr tt else inl (u32 (fb + 1)))) 0
  else
    l ← gets h_mstate_list;
    when (num l =? 0)
      (modify (set_h_mstate_list init_linked_list);;
       modify (set_h_ustate_list init_linked_list);;
       modify (set_h_mmapped_ustate_list init_linked_list);;
       modify (set_h_ab_top CHANNEL_ADDR);;
       map_channel);;
    malloc_init_state av.
