(* ===== verification/Os.v ===== *)
(** The system calls of [common/include/ab_os_interface.h] that the arbiter
    issues, as an interface between the arbiter and the kernel.

    [AbOs] has one operation per call; the value is what the [syscall] wrapper
    hands back (all ones for an error).  A call may end in a kernel fault:
    the kernel code dereferences the task it looks up by pid.  [AbOsLaws]
    states what the arbiter relies on, in terms of the protection each member
    of the control group has on a page; [absys_mmap] is not subject to them, the
    allocator uses it for requests above the small ones only.  [abkern] is the
    abstract kernel the comments of the header describe, and satisfies the
    laws. *)

From S2P Require Import Prelude Chunk.

(** Protection bits of [sys/mman.h] *)
Definition PROT_NONE : Z := 0.
Definition PROT_READ : Z := 1.
Definition PROT_WRITE : Z := 2.

Definition PAGE_ALIGN (x : Z) : Z := Z.land (u32 (x + PAGESIZE - 1)) (not32 (PAGESIZE - 1)).

(** Page [g] is the range of addresses [g * PAGESIZE ... g * PAGESIZE + PAGESIZE - 1]. *)
Definition in_pages (a len g : Z) : Prop := a ≤ g * PAGESIZE < a + len.
#[export] Instance in_pages_dec a len g : Decision (in_pages a len g).
Proof. unfold in_pages. apply _. Defined.

Class AbOs (K : Type) := {
  absys_mmap : K → Z → Z → Z → Z → outcome (Z * K);
  absys_brk : K → Z → Z → outcome (Z * K);
  absys_munmap : K → Z → Z → Z → outcome (Z * K);
  absys_mprotect : K → Z → Z → Z → Z → outcome (Z * K);
}.

(** * The abstract kernel of the header's comments *)

Definition TASK_SIZE : Z := 0xC0000000.
Definition AB_HEAP_START : Z := 0x80000000.
Definition ERR : Z := u32 (-1).

Record abkern := AbKern {
  k_group : list Z;              (* the children of the arbiter's control group *)
  k_tasks : list Z;              (* other tasks of the system *)
  k_ab_brk : Z;
  k_prot : gmap (Z * Z) Z;       (* protection of the mapped pages of a child *)
}.

Definition set_k_prot (m : gmap (Z * Z) Z) (k : abkern) : abkern :=
  AbKern (k_group k) (k_tasks k) (k_ab_brk k) m.
Definition set_k_ab_brk (b : Z) (k : abkern) : abkern :=
  AbKern (k_group k) (k_tasks k) b (k_prot k).

(** The check at the entry of every call: the task is looked up by pid and its
    control group searched for the arbiter. *)
Definition with_child (k : abkern) (pid : Z) (m : outcome (Z * abkern)) : outcome (Z * abkern) :=
  if decide (pid ∈ k_group k) then m
  else if decide (pid ∈ k_tasks k) then Ret (ERR, k)
  else Fault KernelOops.

Definition pages (a len : Z) : list Z := seqZ (a / PAGESIZE) (len / PAGESIZE).

Definition map_page (b : Z) (q g : Z) (m : gmap (Z * Z) Z) : gmap (Z * Z) Z := <[(q, g) := b]> m.
Definition reserve_page (q g : Z) (m : gmap (Z * Z) Z) : gmap (Z * Z) Z :=
  match m !! (q, g) with Some _ => m | None => <[(q, g) := PROT_NONE]> m end.
Definition unmap_page (q g : Z) (m : gmap (Z * Z) Z) : gmap (Z * Z) Z := delete (q, g) m.

Definition on_pages (f : Z → gmap (Z * Z) Z → gmap (Z * Z) Z) (gs : list Z) (m : gmap (Z * Z) Z) :=
  foldr f m gs.
Definition on_children (f : Z → gmap (Z * Z) Z → gmap (Z * Z) Z) (qs : list Z) (m : gmap (Z * Z) Z) :=
  foldr f m qs.

Definition page_aligned (a : Z) : bool := Z.land a (PAGESIZE - 1) =? 0.

Definition k_mmap (k : abkern) (pid a len prot : Z) : outcome (Z * abkern) :=
  with_child k pid
    (let len := PAGE_ALIGN len in
     if page_aligned a && negb (len =? 0) && (a + len <=? TASK_SIZE) then
       let m := on_pages (map_page prot pid) (pages a len) (k_prot k) in
       let m := on_children (λ q, if q =? pid then id else on_pages (reserve_page q) (pages a len)) (k_group k) m in
       Ret (a, set_k_prot m k)
     else Ret (ERR, k)).

Definition any_mapped (k : abkern) (a len : Z) : bool :=
  existsb (λ q, existsb (λ g, bool_decide (is_Some (k_prot k !! (q, g)))) (pages a len)) (k_group k).

Definition k_brk (k : abkern) (pid a : Z) : outcome (Z * abkern) :=
  with_child k pid
    (if a <? AB_HEAP_START then Ret (k_ab_brk k, k) else
     let newbrk := PAGE_ALIGN a in
     let oldbrk := PAGE_ALIGN (k_ab_brk k) in
     if newbrk =? oldbrk then Ret (a, set_k_ab_brk a k)
     else if (newbrk <? oldbrk) || (TASK_SIZE <? newbrk) ||
             any_mapped k oldbrk (newbrk + PAGESIZE - oldbrk)
     then Ret (k_ab_brk k, k)
     else
       let m := on_children (λ q, on_pages (map_page (Z.lor PROT_READ PROT_WRITE) q)
                                    (pages oldbrk (newbrk - oldbrk))) (k_group k) (k_prot k) in
       Ret (a, set_k_ab_brk a (set_k_prot m k))).

Definition k_munmap (k : abkern) (pid a len : Z) : outcome (Z * abkern) :=
  with_child k pid
    (let len := PAGE_ALIGN len in
     if page_aligned a && negb (len =? 0) && (a + len <=? TASK_SIZE) then
       Ret (0, set_k_prot (on_children (λ q, on_pages (unmap_page q) (pages a len)) (k_group k) (k_prot k)) k)
     else Ret (ERR, k)).

(** The pages are changed in order; the first hole ends the call. *)
Fixpoint protect_pages (q b : Z) (gs : list Z) (m : gmap (Z * Z) Z) : bool * gmap (Z * Z) Z :=
  match gs with
  | [] => (true, m)
  | g :: gs' =>
      match m !! (q, g) with
      | Some _ => protect_pages q b gs' (<[(q, g) := b]> m)
      | None => (false, m)
      end
  end.

Definition k_mprotect (k : abkern) (pid a len prot : Z) : outcome (Z * abkern) :=
  with_child k pid
    (if negb (page_aligned a) then Ret (ERR, k) else
     if len =? 0 then Ret (0, k) else
     let len := PAGE_ALIGN len in
     if u32 (a + len) <=? a then Ret (ERR, k) else
     let r := protect_pages pid prot (pages a len) (k_prot k) in
     Ret (if r.1 then 0 else ERR, set_k_prot r.2 k)).

#[export] Instance abkern_os : AbOs abkern := {
  absys_mmap := k_mmap;
  absys_brk := k_brk;
  absys_munmap := k_munmap;
  absys_mprotect := k_mprotect;
}.

(** * What the arbiter relies on *)

Class AbOsLaws (K : Type) `{AbOs K} := {
  os_member : K → Z → Prop;          (* the control group *)
  os_prot : K → Z → Z → option Z;    (* protection of a page in a child, if mapped *)
  os_brk : K → Z;                    (* the end of the channel's break area *)

  (* mprotect changes only the range of the one child, and only to the
     requested protection *)
  mprotect_frame k p a len b rc k' :
    absys_mprotect k p a len b = Ret (rc, k') → os_member k p → 0 ≤ a → 0 ≤ len → 0 ≤ b < 4 →
    (∀ q, os_member k' q ↔ os_member k q) ∧ os_brk k' = os_brk k ∧
    ∀ q g, os_prot k' q g = os_prot k q g ∨
           (q = p ∧ in_pages a (PAGE_ALIGN len) g ∧ os_prot k' q g = Some b);
  (* it returns for a member of the group *)
  mprotect_total k p a len b : os_member k p → 0 ≤ a → ∃ rc k', absys_mprotect k p a len b = Ret (rc, k');
  (* it takes effect on a range that is mapped *)
  mprotect_ok k p a len b rc k' :
    absys_mprotect k p a len b = Ret (rc, k') → os_member k p →
    0 ≤ a → page_aligned a = true → 0 < len → a + len ≤ TASK_SIZE → 0 ≤ b < 4 →
    (∀ g, in_pages a (PAGE_ALIGN len) g → is_Some (os_prot k p g)) →
    ∀ g, in_pages a (PAGE_ALIGN len) g → os_prot k' p g = Some b;
  (* brk moves the break to the requested end or leaves it, and on success
     maps the pages in between for every child, readable and writable *)
  brk_spec k p a r k' :
    absys_brk k p a = Ret (r, k') → os_member k p → 0 ≤ a < 2 ^ 32 - PAGESIZE →
    page_aligned a = true → page_aligned (os_brk k) = true → AB_HEAP_START ≤ os_brk k ≤ TASK_SIZE →
    (∀ q, os_member k' q ↔ os_member k q) ∧ r = os_brk k' ∧ (r = a ∨ r = os_brk k) ∧
    (∀ q g, os_prot k' q g = os_prot k q g ∨ in_pages (os_brk k) (a - os_brk k) g) ∧
    (os_brk k < a → r = a → a ≤ TASK_SIZE ∧
     ∀ q g, os_member k q → in_pages (os_brk k) (a - os_brk k) g → os_prot k' q g = Some (Z.lor PROT_READ PROT_WRITE));
  (* munmap only takes mappings away *)
  munmap_spec k p a len r k' :
    absys_munmap k p a len = Ret (r, k') → os_member k p → 0 ≤ a → 0 ≤ len →
    (∀ q, os_member k' q ↔ os_member k q) ∧ os_brk k' = os_brk k ∧
    ∀ q g, os_prot k' q g = os_prot k q g ∨ os_prot k' q g = None;
}.

(** * The abstract kernel satisfies the laws *)

Lemma page_align_eq x : 0 ≤ x < 2 ^ 32 - PAGESIZE → PAGE_ALIGN x = PAGESIZE * ((x + PAGESIZE - 1) / PAGESIZE).
Proof.
  unfold PAGESIZE. intros Hx. unfold PAGE_ALIGN, PAGESIZE. rewrite u32_small by lia.
  change (4096 - 1) with (2 ^ 12 - 1). rewrite land_not32_pow2 by lia. done.
Qed.

Lemma page_aligned_mul a : page_aligned a = true ↔ a = PAGESIZE * (a / PAGESIZE).
Proof.
  unfold page_aligned, PAGESIZE. change (4096 - 1) with (Z.ones 12). rewrite Z.eqb_eq, Z.land_ones by lia.
  change (2 ^ 12) with 4096. pose proof (Z.div_mod a 4096). lia.
Qed.

Lemma page_align_aligned a : 0 ≤ a < 2 ^ 32 - PAGESIZE → page_aligned a = true → PAGE_ALIGN a = a.
Proof.
  intros Ha Hp. rewrite page_align_eq by done. apply page_aligned_mul in Hp. revert Ha Hp. unfold PAGESIZE.
  intros. rewrite Hp at 1. replace (4096 * (a / 4096) + 4096 - 1) with (4095 + (a / 4096) * 4096) by lia.
  rewrite Z.div_add by lia. rewrite (Z.div_small 4095) by lia. lia.
Qed.

Lemma elem_of_pages a len g :
  page_aligned a = true → len = PAGESIZE * (len / PAGESIZE) → g ∈ pages a len ↔ in_pages a len g.
Proof.
  intros Ha Hl. apply page_aligned_mul in Ha. unfold pages, in_pages. rewrite elem_of_seqZ.
  revert Ha Hl. unfold PAGESIZE. lia.
Qed.

Lemma lookup_on_pages f (P : Z → option Z → option Z) q gs m q' g :
  (∀ m g g', f g m !! (q', g') = if decide (q = q' ∧ g = g') then P g' (m !! (q', g')) else m !! (q', g')) →
  (∀ g x, P g (P g x) = P g x) →
  on_pages f gs m !! (q', g) = if decide (q = q' ∧ g ∈ gs) then P g (m !! (q', g)) else m !! (q', g).
Proof.
  intros Hf Hi. induction gs as [|g0 gs IH]; simpl; [by rewrite decide_False by set_solver|].
  rewrite Hf, IH. destruct (decide (q = q')) as [->|]; [|by rewrite !decide_False by tauto].
  destruct (decide (g ∈ gs)) as [Hg|Hg].
  - rewrite (decide_True (P := q' = q' ∧ g ∈ gs)) by done.
    rewrite (decide_True (P := q' = q' ∧ g ∈ g0 :: gs)) by (split; [done|set_solver]).
    destruct (decide (q' = q' ∧ g0 = g)); [apply Hi|done].
  - rewrite (decide_False (P := q' = q' ∧ g ∈ gs)) by tauto.
    destruct (decide (g0 = g)) as [->|].
    + by rewrite !decide_True by set_solver.
    + rewrite !decide_False by set_solver. done.
Qed.

Lemma lookup_map_pages b q gs m q' g :
  on_pages (map_page b q) gs m !! (q', g) = if decide (q = q' ∧ g ∈ gs) then Some b else m !! (q', g).
Proof.
  apply (lookup_on_pages _ (λ _ _, Some b)); [|done]. intros m0 g0 g'. unfold map_page.
  rewrite lookup_insert. repeat case_decide; naive_solver.
Qed.
Lemma lookup_unmap_pages q gs m q' g :
  on_pages (unmap_page q) gs m !! (q', g) = if decide (q = q' ∧ g ∈ gs) then None else m !! (q', g).
Proof.
  apply (lookup_on_pages _ (λ _ _, None)); [|done]. intros m0 g0 g'. unfold unmap_page.
  rewrite lookup_delete. repeat case_decide; naive_solver.
Qed.
Lemma lookup_reserve_pages q gs m q' g :
  on_pages (reserve_page q) gs m !! (q', g) =
    if decide (q = q' ∧ g ∈ gs) then Some (default PROT_NONE (m !! (q', g))) else m !! (q', g).
Proof.
  apply (lookup_on_pages _ (λ _ x, Some (default PROT_NONE x))); [|done]. intros m0 g0 g'. unfold reserve_page.
  destruct (decide (q = q' ∧ g0 = g')) as [[-> ->]|Hne].
  - destruct (m0 !! (q', g')) eqn:E; simpl; [done|by rewrite lookup_insert_eq].
  - destruct (m0 !! (q, g0)); [done|]. rewrite lookup_insert_ne; [done|]. naive_solver.
Qed.

(** The same for a fold over the children. *)
Lemma lookup_on_children (f : Z → gmap (Z * Z) Z → gmap (Z * Z) Z) (P : Z → Z → option Z → option Z) qs m q g :
  (∀ q0 m, f q0 m !! (q, g) = if decide (q0 = q) then P q g (m !! (q, g)) else m !! (q, g)) →
  (∀ x, P q g (P q g x) = P q g x) →
  on_children f qs m !! (q, g) = if decide (q ∈ qs) then P q g (m !! (q, g)) else m !! (q, g).
Proof.
  intros Hf Hi. unfold on_children. induction qs as [|q0 qs IH]; cbn [foldr]; [done|].
  rewrite Hf, IH. destruct (decide (q0 = q)) as [->|Hne].
  - rewrite (decide_True (P := q ∈ q :: qs)) by set_solver. destruct (decide (q ∈ qs)); [apply Hi|done].
  - destruct (decide (q ∈ qs)), (decide (q ∈ q0 :: qs)); set_solver.
Qed.

Lemma lookup_protect_pages q b gs m q' g :
  (protect_pages q b gs m).2 !! (q', g) = m !! (q', g) ∨
  (q' = q ∧ g ∈ gs ∧ (protect_pages q b gs m).2 !! (q', g) = Some b).
Proof.
  revert m. induction gs as [|g0 gs IH]; intros m; simpl; [by left|].
  destruct (m !! (q, g0)) as [x|] eqn:E; simpl; [|by left].
  destruct (IH (<[(q, g0) := b]> m)) as [IH'|(-> & Hin & IH')].
  - rewrite IH', lookup_insert. case_decide as Hd; [|by left].
    injection Hd as <- <-. right. split; [done|]. split; [by left|done].
  - right. split; [done|]. split; [by right|done].
Qed.

Lemma protect_pages_mapped q b gs m :
  (∀ g, g ∈ gs → is_Some (m !! (q, g))) →
  ∀ g, g ∈ gs → (protect_pages q b gs m).2 !! (q, g) = Some b.
Proof.
  revert m. induction gs as [|g0 gs IH]; intros m Hm g Hg; simpl; [set_solver|].
  destruct (Hm g0) as [x E]; [by left|]. rewrite E.
  destruct (decide (g ∈ gs)) as [Hin|Hni].
  - apply IH; [|done]. intros g' Hg'. rewrite lookup_insert. case_decide; [by eexists|]. apply Hm. by right.
  - assert (g = g0) as -> by set_solver.
    destruct (lookup_protect_pages q b gs (<[(q, g0) := b]> m) q g0) as [->|(_ & ? & _)]; [|done].
    by rewrite lookup_insert_eq.
Qed.

Lemma with_child_ret k p m r k' :
  with_child k p m = Ret (r, k') → m = Ret (r, k') ∧ p ∈ k_group k ∨ (r = ERR ∧ k' = k ∧ p ∉ k_group k).
Proof.
  unfold with_child. repeat case_decide; [by left| |done]. intros [= <- <-]. by right.
Qed.

Lemma page_align_mult x : 0 ≤ x < 2 ^ 32 - PAGESIZE → PAGE_ALIGN x = PAGESIZE * (PAGE_ALIGN x / PAGESIZE).
Proof.
  intros Hx. rewrite page_align_eq by done. unfold PAGESIZE.
  rewrite (Z.mul_comm 4096 (_ / 4096)), Z.div_mul by lia. lia.
Qed.

(** [PAGE_ALIGN] of any word is a multiple of the page size. *)
Lemma page_align_mult' x : PAGE_ALIGN x = PAGESIZE * (PAGE_ALIGN x / PAGESIZE).
Proof.
  unfold PAGE_ALIGN. pose proof (u32_bound (x + PAGESIZE - 1)) as Hb. revert Hb.
  generalize (u32 (x + PAGESIZE - 1)). unfold PAGESIZE. intros y Hy.
  change (4096 - 1) with (2 ^ 12 - 1). rewrite land_not32_pow2 by lia. change (2 ^ 12) with 4096.
  rewrite (Z.mul_comm 4096 (y / 4096)), Z.div_mul by lia. lia.
Qed.

Lemma k_mprotect_inv k p a len b rc k' :
  k_mprotect k p a len b = Ret (rc, k') →
  k' = k ∨ (p ∈ k_group k ∧ page_aligned a = true ∧
            k' = set_k_prot (protect_pages p b (pages a (PAGE_ALIGN len)) (k_prot k)).2 k).
Proof.
  unfold k_mprotect. intros [[E Hp]|(_ & -> & _)]%with_child_ret; [|by left].
  destruct (page_aligned a) eqn:Ha; cbn [negb] in E; [|injection E as _ <-; by left].
  destruct (len =? 0); [injection E as _ <-; by left|].
  destruct (u32 (a + PAGE_ALIGN len) <=? a); injection E as _ <-; [by left|by right].
Qed.

Lemma abkern_mprotect_frame k p a len b rc k' :
  k_mprotect k p a len b = Ret (rc, k') → p ∈ k_group k → 0 ≤ a → 0 ≤ len → 0 ≤ b < 4 →
  (∀ q, q ∈ k_group k' ↔ q ∈ k_group k) ∧ k_ab_brk k' = k_ab_brk k ∧
  ∀ q g, k_prot k' !! (q, g) = k_prot k !! (q, g) ∨
         (q = p ∧ in_pages a (PAGE_ALIGN len) g ∧ k_prot k' !! (q, g) = Some b).
Proof.
  intros [->|(_ & Ha & ->)]%k_mprotect_inv _ _ _ _; [naive_solver|]. split; [done|]. split; [done|].
  intros q g. simpl. rewrite <-elem_of_pages by auto using page_align_mult'.
  apply lookup_protect_pages.
Qed.

Lemma page_align_bound x : 0 < x < 2 ^ 32 - PAGESIZE → x ≤ PAGE_ALIGN x < x + PAGESIZE.
Proof.
  intros Hx. rewrite page_align_eq by lia. revert Hx. unfold PAGESIZE. intros.
  pose proof (Z.div_mod (x + 4096 - 1) 4096 ltac:(lia)).
  pose proof (Z.mod_pos_bound (x + 4096 - 1) 4096 ltac:(lia)). lia.
Qed.

Lemma abkern_mprotect_ok k p a len b rc k' :
  k_mprotect k p a len b = Ret (rc, k') → p ∈ k_group k →
  0 ≤ a → page_aligned a = true → 0 < len → a + len ≤ TASK_SIZE → 0 ≤ b < 4 →
  (∀ g, in_pages a (PAGE_ALIGN len) g → is_Some (k_prot k !! (p, g))) →
  ∀ g, in_pages a (PAGE_ALIGN len) g → k_prot k' !! (p, g) = Some b.
Proof.
  intros E Hp Ha0 Ha Hl Hb _ Hm g Hg. unfold k_mprotect, with_child in E.
  rewrite decide_True in E by done. rewrite Ha in E. cbn [negb] in E.
  rewrite (proj2 (Z.eqb_neq len 0)) in E by lia.
  assert (Hr : len ≤ PAGE_ALIGN len < len + PAGESIZE)
    by (apply page_align_bound; unfold TASK_SIZE, PAGESIZE in *; lia).
  rewrite u32_small in E by (unfold TASK_SIZE, PAGESIZE in *; lia).
  rewrite (proj2 (Z.leb_gt _ _)) in E by lia. injection E as _ <-. simpl.
  apply protect_pages_mapped; [intros g' Hg'; apply Hm|];
    by apply elem_of_pages; auto using page_align_mult'.
Qed.

Lemma page_align_mono x y : 0 ≤ x ≤ y → y < 2 ^ 32 - PAGESIZE → PAGE_ALIGN x ≤ PAGE_ALIGN y.
Proof.
  intros Hx Hy. rewrite !page_align_eq by lia. revert Hx Hy. unfold PAGESIZE. intros.
  apply Z.mul_le_mono_nonneg_l; [lia|]. apply Z.div_le_mono; lia.
Qed.

Lemma abkern_brk_spec k p a r k' :
  k_brk k p a = Ret (r, k') → p ∈ k_group k → 0 ≤ a < 2 ^ 32 - PAGESIZE →
  page_aligned a = true → page_aligned (k_ab_brk k) = true → AB_HEAP_START ≤ k_ab_brk k ≤ TASK_SIZE →
  (∀ q, q ∈ k_group k' ↔ q ∈ k_group k) ∧ r = k_ab_brk k' ∧ (r = a ∨ r = k_ab_brk k) ∧
  (∀ q g, k_prot k' !! (q, g) = k_prot k !! (q, g) ∨ in_pages (k_ab_brk k) (a - k_ab_brk k) g) ∧
  (k_ab_brk k < a → r = a → a ≤ TASK_SIZE ∧
   ∀ q g, q ∈ k_group k → in_pages (k_ab_brk k) (a - k_ab_brk k) g → k_prot k' !! (q, g) = Some (Z.lor PROT_READ PROT_WRITE)).
Proof.
  intros E Hp Ha Haa Hba Hb0.
  assert (Hb : 0 ≤ k_ab_brk k < 2 ^ 32 - PAGESIZE) by (unfold AB_HEAP_START, TASK_SIZE, PAGESIZE in *; lia).
  unfold k_brk, with_child in E. rewrite decide_True in E by done.
  rewrite !page_align_aligned in E by done.
  destruct (a <? AB_HEAP_START); [injection E as <- <-; naive_solver lia|].
  destruct (Z.eqb_spec a (k_ab_brk k)) as [->|Hne]; [injection E as <- <-; naive_solver lia|].
  destruct (_ || _) eqn:Hc; [injection E as <- <-; naive_solver lia|].
  apply orb_false_iff in Hc as [[H1%Z.ltb_ge H2%Z.ltb_ge]%orb_false_iff _].
  injection E as <- <-. split; [done|]. split; [done|]. split; [by left|].
  assert (Hpg : ∀ g, g ∈ pages (k_ab_brk k) (a - k_ab_brk k) ↔ in_pages (k_ab_brk k) (a - k_ab_brk k) g).
  { intros g. apply elem_of_pages; [done|]. apply page_aligned_mul in Haa, Hba. revert Haa Hba.
    unfold PAGESIZE. intros. rewrite Haa at 1. rewrite Hba at 1.
    rewrite Haa at 2. rewrite Hba at 2. rewrite <-Z.mul_sub_distr_l, (Z.mul_comm 4096 (_ - _)), Z.div_mul by lia. lia. }
  cbn [k_prot set_k_prot set_k_ab_brk]. set (gs := pages (k_ab_brk k) (a - k_ab_brk k)) in *.
  set (rw := Z.lor PROT_READ PROT_WRITE).
  assert (Hlk : ∀ q g, on_children (λ q, on_pages (map_page rw q) gs) (k_group k) (k_prot k) !! (q, g) =
    if decide (q ∈ k_group k) then (if decide (g ∈ gs) then Some rw else k_prot k !! (q, g)) else k_prot k !! (q, g)).
  { intros q g. set (P := λ (_ g : Z) (x : option Z), if decide (g ∈ gs) then Some rw else x).
    apply (lookup_on_children _ P); unfold P.
    - intros q0 m. rewrite lookup_map_pages. repeat case_decide; naive_solver.
    - intros x. by case_decide. }
  split.
  - intros q g. rewrite Hlk. destruct (decide (in_pages (k_ab_brk k) (a - k_ab_brk k) g)); [by right|].
    left. case_decide; [|done]. rewrite decide_False; [done|]. by rewrite Hpg.
  - intros _ _. split; [lia|]. intros q g Hq Hg. rewrite Hlk, decide_True by done.
    by rewrite decide_True by (by apply Hpg).
Qed.

(** [mmap] at a fixed address maps the range for every child. *)
Lemma abkern_mmap_spec k p a len b k' :
  k_mmap k p a len b = Ret (a, k') → p ∈ k_group k → a ≠ ERR → 0 ≤ a → 0 ≤ len < 2 ^ 32 - PAGESIZE →
  (∀ q, q ∈ k_group k' ↔ q ∈ k_group k) ∧ k_ab_brk k' = k_ab_brk k ∧
  page_aligned a = true ∧ a + PAGE_ALIGN len ≤ TASK_SIZE ∧
  ∀ q g, (¬ in_pages a (PAGE_ALIGN len) g → k_prot k' !! (q, g) = k_prot k !! (q, g)) ∧
         (in_pages a (PAGE_ALIGN len) g → q ∈ k_group k → is_Some (k_prot k' !! (q, g))).
Proof.
  intros E Hp He Ha Hl. unfold k_mmap, with_child in E. rewrite decide_True in E by done.
  destruct (_ && _) eqn:Hc; [|injection E as E _; by rewrite E in He].
  apply andb_true_iff in Hc as [[Hpa _]%andb_true_iff Hle%Z.leb_le].
  injection E as <-. split; [done|]. split; [done|]. split; [done|]. split; [done|].
  set (gs := pages a (PAGE_ALIGN len)).
  assert (Hpg : ∀ g, g ∈ gs ↔ in_pages a (PAGE_ALIGN len) g).
  { intros g. apply elem_of_pages; auto using page_align_mult'. }
  intros q g. cbn [k_prot set_k_prot].
  assert (Hlk : on_children (λ q, if q =? p then id else on_pages (reserve_page q) gs) (k_group k)
      (on_pages (map_page b p) gs (k_prot k)) !! (q, g) =
    if decide (q ∈ k_group k)
    then (if q =? p then on_pages (map_page b p) gs (k_prot k) !! (q, g)
          else if decide (g ∈ gs) then Some (default PROT_NONE (on_pages (map_page b p) gs (k_prot k) !! (q, g)))
          else on_pages (map_page b p) gs (k_prot k) !! (q, g))
    else on_pages (map_page b p) gs (k_prot k) !! (q, g)).
  { set (P := λ (q g : Z) (x : option Z), if q =? p then x else if decide (g ∈ gs) then Some (default PROT_NONE x) else x).
    apply (lookup_on_children _ P); unfold P.
    - intros q0 m. destruct (Z.eqb_spec q0 p) as [->|]; [|rewrite lookup_reserve_pages];
        repeat case_decide; destruct (Z.eqb_spec q p); naive_solver.
    - intros x. destruct (q =? p); [done|]. by case_decide. }
  rewrite Hlk, lookup_map_pages. split.
  - intros Hn. rewrite <-Hpg in Hn. destruct (decide (q ∈ k_group k)), (q =? p);
      rewrite ?(decide_False (P := p = q ∧ g ∈ gs)), ?(decide_False (P := g ∈ gs)) by tauto; done.
  - intros Hg%Hpg Hq. rewrite (decide_True (P := q ∈ k_group k)) by done.
    destruct (Z.eqb_spec q p) as [->|]; [by rewrite decide_True|].
    rewrite (decide_True (P := g ∈ gs)) by done. by eexists.
Qed.

Lemma abkern_munmap_spec k p a len r k' :
  k_munmap k p a len = Ret (r, k') → p ∈ k_group k → 0 ≤ a → 0 ≤ len →
  (∀ q, q ∈ k_group k' ↔ q ∈ k_group k) ∧ k_ab_brk k' = k_ab_brk k ∧
  ∀ q g, k_prot k' !! (q, g) = k_prot k !! (q, g) ∨ k_prot k' !! (q, g) = None.
Proof.
  unfold k_munmap. intros [[E Hp]|(_ & -> & _)]%with_child_ret _ _ _; [|naive_solver].
  destruct (_ && _); injection E as _ <-; [|naive_solver]. split; [done|]. split; [done|].
  intros q g. simpl. set (P := λ (_ g : Z) (x : option Z), if decide (g ∈ pages a (PAGE_ALIGN len)) then None else x).
  rewrite (lookup_on_children _ P); unfold P.
  - repeat case_decide; auto.
  - intros q0 m. rewrite lookup_unmap_pages. repeat case_decide; naive_solver.
  - intros x. by case_decide.
Qed.

Lemma abkern_mprotect_total k p a len b :
  p ∈ k_group k → 0 ≤ a → ∃ rc k', k_mprotect k p a len b = Ret (rc, k').
Proof.
  intros Hp _. unfold k_mprotect, with_child. rewrite decide_True by done. repeat case_match; eauto.
Qed.

#[export] Instance abkern_laws : AbOsLaws abkern := {
  os_member k q := q ∈ k_group k;
  os_prot k q g := k_prot k !! (q, g);
  os_brk := k_ab_brk;
  mprotect_frame := abkern_mprotect_frame;
  mprotect_total := abkern_mprotect_total;
  mprotect_ok := abkern_mprotect_ok;
  brk_spec := abkern_brk_spec;
  munmap_spec := abkern_munmap_spec;
}.
