(* ===== verification/Malloc.v ===== *)
(** [ablib_malloc] and what it calls: [monitor/ablib_malloc.c],
    [monitor/ablib_sbrk.c] and [monitor/ablib_brk.c].

    The body of [ablib_malloc] is cut at its labels and comments: each stage
    either returns the chunk ([goto DONE]) or falls through to the next. *)

From S2P Require Import Prelude LinkedList Label Memory Client Chunk Heap Consolidate Os.

(** * Stages that only touch the heap *)

(** Take an exact fit off its fastbin. *)
Definition malloc_fastbin (av nb : Z) : hm (option Z) :=
  s ← get_av av;
  if nb <=? ms_max_fast s then
    let fb := fastbin_index nb in
    victim ← fb_load av fb;
    if negb (victim =? 0) then
      fd ← rd_fd victim;
      fb_store av fb fd;;
      mret (Some (chunk2mem victim))
    else mret None
  else mret None.

(** Take the last chunk of the small bin of the size. *)
Definition malloc_smallbin (av nb : Z) : hm (option Z) :=
  let bin := bin_at av (smallbin_index nb) in
  victim ← last bin;
  if negb (victim =? bin) then
    bck ← rd_bk victim;
    set_inuse_bit_at_offset victim nb;;
    wr_bk bin bck;;
    wr_fd bck bin;;
    mret (Some (chunk2mem victim))
  else mret None.

(** The neighbours between which a chunk of a given size goes in its bin. *)
Definition bin_place (av size : Z) : hm (Z * Z * Z) :=
  if in_smallbin_range size then
    let victim_index := smallbin_index size in
    let bck := bin_at av victim_index in
    fwd ← rd_fd bck;
    mret (victim_index, bck, fwd)
  else
    let victim_index := __malloc_largebin_index size in
    let bck := bin_at av victim_index in
    fwd ← rd_fd bck;
    if negb (fwd =? bck) then
      smallest ← rd_bk bck;
      smallest_size ← rd_size smallest;
      if size <? smallest_size then mret (victim_index, smallest, bck)
      else if FIRST_SORTED_BIN_SIZE <=? size then
        let size := Z.lor size PREV_INUSE in
        fwd ← loopM (λ fwd, z ← rd_size fwd;
                       if size <? z then fwd' ← rd_fd fwd; mret (inl fwd')
                       else mret (inr fwd)) fwd;
        bck ← rd_bk fwd;
        mret (victim_index, bck, fwd)
      else mret (victim_index, bck, fwd)
    else mret (victim_index, bck, fwd).

(** One iteration of the loop over the unsorted bin. *)
Definition unsorted_step (av nb : Z) : hm (unit + option Z) :=
  let ub := unsorted_chunks av in
  victim ← rd_bk ub;
  if victim =? ub then mret (inr None) else
  bck ← rd_bk victim;
  size ← chunksize victim;
  s ← get_av av;
  if in_smallbin_range nb && (bck =? ub) && (victim =? ms_last_remainder s) &&
     (u32 (nb + MINSIZE) <? size)
  then
    let remainder_size := u32 (size - nb) in
    let remainder := chunk_at_offset victim nb in
    wr_fd ub remainder;; wr_bk ub remainder;;
    upd_av av (set_ms_last_remainder remainder);;
    wr_fd remainder ub;; wr_bk remainder ub;;
    set_head victim (Z.lor nb PREV_INUSE);;
    set_head remainder (Z.lor remainder_size PREV_INUSE);;
    set_foot remainder remainder_size;;
    mret (inr (Some (chunk2mem victim)))
  else
  wr_bk ub bck;;
  wr_fd bck ub;;
  if size =? nb then
    set_inuse_bit_at_offset victim size;;
    mret (inr (Some (chunk2mem victim)))
  else
  '(victim_index, bck, fwd) ← bin_place av size;
  upd_av av (λ s, set_ms_binmap (mark_bin (ms_binmap s) victim_index) s);;
  wr_bk victim bck;;
  wr_fd victim fwd;;
  wr_bk fwd victim;;
  wr_fd bck victim;;
  mret (inl tt).

Definition malloc_unsorted (av nb : Z) : hm (option Z) :=
  loopM (λ _ : unit, unsorted_step av nb) tt.

(** What both bin searches do with the chunk they have unlinked: use it
    whole, or split it and make the rest the only unsorted chunk. *)
Definition exhaust (victim size : Z) : hm (option Z) :=
  set_inuse_bit_at_offset victim size;;
  mret (Some (chunk2mem victim)).
Definition split_to_unsorted (av victim nb remainder_size : Z) (advertise : bool) : hm (option Z) :=
  let ub := unsorted_chunks av in
  let remainder := chunk_at_offset victim nb in
  wr_fd ub remainder;; wr_bk ub remainder;;
  wr_fd remainder ub;; wr_bk remainder ub;;
  when advertise (upd_av av (set_ms_last_remainder remainder));;
  set_head victim (Z.lor nb PREV_INUSE);;
  set_head remainder (Z.lor remainder_size PREV_INUSE);;
  set_foot remainder remainder_size;;
  mret (Some (chunk2mem victim)).

(** Scan the bin of a large request, smallest chunk first. *)
Definition malloc_large_scan (av nb idx : Z) : hm (option Z) :=
  let bin := bin_at av idx in
  start ← last bin;
  loopM (λ victim,
    if victim =? bin then mret (inr None) else
    size ← chunksize victim;
    if nb <=? size then
      let remainder_size := u32 (size - nb) in
      unlink victim;;
      r ← (if remainder_size <? MINSIZE then exhaust victim size
           else split_to_unsorted av victim nb remainder_size false);
      mret (inr r)
    else bk ← rd_bk victim; mret (inl bk)) start.

(** Advance [block] to the next one with a nonempty map word; [None] when
    there is none. *)
Definition skip_blocks (av block : Z) : hm (option (Z * Z)) :=
  s ← get_av av;
  loopM (λ block,
    let block := block + 1 in
    if BINMAPSIZE <=? block then mret (inr None) else
    let map := aget (ms_binmap s) block in
    mret (if map =? 0 then inl block else inr (Some (block, map)))) block.

(** Advance [bin] and [bit] to the first set bit of [map]. *)
Definition advance_bit (map bin bit : Z) : hm (Z * Z) :=
  loopM (λ '(bin, bit),
    if Z.land bit map =? 0 then
      let bit := u32 (Z.shiftl bit 1) in
      assertb (negb (bit =? 0));;
      mret (inl (next_bin bin, bit))
    else mret (inr (bin, bit))) (bin, bit).

(** Best fit by the bin map, from bin [idx] on. *)
Definition bin_search_step (av nb : Z) : Z * Z * Z * Z → hm ((Z * Z * Z * Z) + option Z) :=
  λ '(bin, block, map, bit),
  cur ← (if (map <? bit) || (bit =? 0) then
           r ← skip_blocks av block;
           mret (match r with
                 | None => None
                 | Some (block, map) => Some (bin_at av (Z.shiftl block BINMAPSHIFT), block, map, 1)
                 end)
         else mret (Some (bin, block, map, bit)));
  match cur with
  | None => mret (inr None)
  | Some (bin, block, map, bit) =>
      '(bin, bit) ← advance_bit map bin bit;
      victim ← last bin;
      if victim =? bin then
        let map := Z.land map (not32 bit) in
        upd_av av (λ s, set_ms_binmap (aset (ms_binmap s) block map) s);;
        mret (inl (next_bin bin, block, map, u32 (Z.shiftl bit 1)))
      else
        size ← chunksize victim;
        assertb (nb <=? size);;
        let remainder_size := u32 (size - nb) in
        bck ← rd_bk victim;
        wr_bk bin bck;;
        wr_fd bck bin;;
        r ← (if remainder_size <? MINSIZE then exhaust victim size
             else split_to_unsorted av victim nb remainder_size (in_smallbin_range nb));
        mret (inr r)
  end.

Definition malloc_bin_search (av nb idx : Z) : hm (option Z) :=
  s ← get_av av;
  let block := idx2block idx in
  loopM (bin_search_step av nb) (bin_at av idx, block, aget (ms_binmap s) block, idx2bit idx).

(** [use_unit_top]: split the request off the top of one of the label's units,
    the oldest unit first. *)
Definition malloc_unit_top (av nb : Z) : hm (option Z) :=
  s ← get_av av;
  let l := ms_ustate_list s in
  if negb (num l =? 0) then
    loopM (λ victim_unit,
      n ← node l victim_unit;
      u ← get_unit (data n);
      let victim := unit_top u in
      size ← chunksize victim;
      if nb <=? size then
        let remainder_size := u32 (size - nb) in
        let remainder := chunk_at_offset victim nb in
        upd_unit (data n) (set_unit_top remainder);;
        (if remainder_size <? MINSIZE then set_inuse_bit_at_offset victim size
         else
           set_head victim (Z.lor nb PREV_INUSE);;
           set_head remainder (Z.lor remainder_size PREV_INUSE);;
           set_foot remainder remainder_size);;
        mret (inr (Some (chunk2mem victim)))
      else mret (if prev n =? 0 then inr None else inl (prev n))) (tail l)
  else mret None.

(** The searches of [ablib_malloc] before [use_unit_top], for a state that may
    hold free chunks. *)
Definition orelse (m k : hm (option Z)) : hm (option Z) :=
  r ← m; match r with Some x => mret (Some x) | None => k end.

Definition malloc_search (av nb : Z) : hm (option Z) :=
  orelse (malloc_fastbin av nb)
  (if in_smallbin_range nb then
     orelse (malloc_smallbin av nb)
     (orelse (malloc_unsorted av nb) (malloc_bin_search av nb (smallbin_index nb + 1)))
   else
     let idx := __malloc_largebin_index nb in
     s ← get_av av;
     when (have_fastchunks (ms_max_fast s)) (__malloc_consolidate av);;
     orelse (malloc_unsorted av nb)
     (orelse (malloc_large_scan av nb idx) (malloc_bin_search av nb (idx + 1)))).

(** * Units from the top of the channel *)

(** [get_unmapped_area]; [ab_top + size] is pointer arithmetic on
    [struct malloc_chunk *], so the size is scaled by the 16 bytes of it. *)
Definition get_unmapped_area (size : Z) : hm Z :=
  l ← gets h_mmapped_ustate_list;
  let top_hole := u32 (CHANNEL_ADDR + CHANNEL_SIZE - size) in
  if num l =? 0 then mret top_hole else
  n ← node l (tail l);
  l_unit ← get_unit (data n);
  if u32 (addr l_unit + length_ l_unit + size) <=? CHANNEL_ADDR + CHANNEL_SIZE then mret top_hole
  else
    hole ← loopM (λ ptr,
      if ptr =? 0 then mret (inr None) else
      n ← node l ptr;
      l_unit ← get_unit (data n);
      nh ← node l (next n);
      h_unit ← get_unit (data nh);
      mret (if u32 (addr l_unit + length_ l_unit + size) <? addr h_unit
            then inr (Some (u32 (addr h_unit - size))) else inl (prev n))) (prev n);
    match hole with
    | Some a => mret a
    | None =>
        nh ← node l (head l);
        h_unit ← get_unit (data nh);
        ab_top ← gets h_ab_top;
        if u32 (ab_top + MIN_CHUNK_SIZE * size) <=? addr h_unit
        then mret (u32 (addr h_unit - size)) else mret 0
    end.

(** [insert_mmapped_unit] *)
Definition insert_mmapped_unit (u_new : Z) : hm unit :=
  l ← gets h_mmapped_ustate_list;
  let set := set_h_mmapped_ustate_list in
  if num l =? 0 then insert_head_in h_mmapped_ustate_list set u_new else
  u ← get_unit u_new;
  n ← node l (head l);
  lowest ← get_unit (data n);
  if addr u <? addr lowest then insert_head_in h_mmapped_ustate_list set u_new else
  loopM (λ ptr,
    if ptr =? 0 then mret (inr tt) else
    n ← node l ptr;
    mu ← get_unit (data n);
    if u32 (addr mu + length_ mu) <? addr u then
      let new := malloc_node l in
      assertb (negb (new =? 0));;
      let l1 := put_node new (Node u_new ptr (next n)) l in
      l2 ← lift (set_prev (next n) new l1);
      l3 ← lift (set_next ptr new l2);
      modify (set (add_num 1 l3));;
      mret (inr tt)
    else mret (inl (prev n))) (tail l).

(** * The allocator and the kernel *)

Section Kernel.
Context {K : Type} `{AbOs K}.

(** What a request can change: the allocator's data and the kernel. *)
Record abst := AbSt { ab_heap : heap; ab_os : K }.
Abbreviation am := (st abst).

Definition lh {A} (m : hm A) : am A := λ s,
  match m (ab_heap s) with
  | Ret (a, h) => Ret (a, AbSt h (ab_os s))
  | Fault f => Fault f
  end.
Definition sys {A} (f : K → outcome (A * K)) : am A := λ s,
  match f (ab_os s) with
  | Ret (a, k) => Ret (a, AbSt (ab_heap s) k)
  | Fault e => Fault e
  end.

(** [__ablib_brk] *)
Definition ENOMEM : Z := 12.
Definition __ablib_brk (pid a : Z) : am Z :=
  newbrk ← sys (λ k, absys_brk k pid a);
  lh (modify (set_h_ab_curbrk newbrk));;
  mret (if newbrk <? a then - ENOMEM else 0).

(** [__ablib_sbrk] *)
Definition __ablib_sbrk (pid increment : Z) : am Z :=
  curbrk ← lh (gets h_ab_curbrk);
  ok ← (if curbrk =? 0 then
          rc ← __ablib_brk pid 0;
          if rc <? 0 then mret false else
          cb ← lh (gets h_ab_curbrk);
          assertb (cb =? 0x80000000);;
          mret true
        else mret true);
  if negb ok then mret (u32 (-1)) else
  oldbrk ← lh (gets h_ab_curbrk);
  if increment =? 0 then mret oldbrk else
  assertb (increment =? UNIT_SIZE);;
  bad ← (if (if 0 <? increment then u32 (oldbrk + increment) <? oldbrk else oldbrk <? u32 (- increment))
         then mret true
         else rc ← __ablib_brk pid (u32 (oldbrk + increment)); mret (rc <? 0));
  if bad : bool then mret (u32 (-1)) else mret oldbrk.

(** The switch of [prot_update] and [malloc_update] *)
Definition prot_bits (pv : mem_prot) : Z :=
  match pv with
  | PROT_N => PROT_NONE
  | PROT_R => PROT_READ
  | PROT_RW => Z.lor PROT_READ PROT_WRITE
  end.

(** [prot_update]: the body of the loop over the clients, and the loop. *)
Definition prot_update_client (abt : arbiter_thread) (p a size : Z) (L : list Z) (c : Z) (s : abst) : outcome abst :=
  d ← read_desc abt c;
  if pid d =? u32 p then Ret s else
  let pv := check_mem_prot (unpack (label d)) (unpack (ownership d)) L in
  '(_, k) ← absys_mprotect (ab_os s) (pid d) a size (prot_bits pv);
  Ret (AbSt (ab_heap s) k).
Definition prot_update (abt : arbiter_thread) (p a size : Z) (L : list Z) : am unit := λ s,
  s' ← for_each (client_list abt) (prot_update_client abt p a size L) s;
  Ret (tt, s').

(** [malloc_update]: the body of the loop over the units, and the loop. *)
Definition malloc_update_unit (c_new : client_desc) (u : Z) (s : abst) : outcome abst :=
  '(x, _) ← get_unit u (ab_heap s);
  '(m, _) ← get_av (unit_av x) (ab_heap s);
  let pv := check_mem_prot (unpack (label c_new)) (unpack (ownership c_new)) (ms_label m) in
  '(_, k) ← absys_mprotect (ab_os s) (pid c_new) (addr x) (length_ x) (prot_bits pv);
  Ret (AbSt (ab_heap s) k).
Definition malloc_update (c_new : client_desc) : am unit := λ s,
  s' ← for_each (h_ustate_list (ab_heap s)) (malloc_update_unit c_new) s;
  Ret (tt, s').

(** * [__malloc_alloc] *)

(** Statistics after a unit of [size] bytes was mapped. *)
Definition stats_mmap (size : Z) (s : malloc_state) : malloc_state :=
  let n := s32 (ms_n_mmaps s + 1) in
  let s := set_ms_n_mmaps n s in
  let s := if ms_max_n_mmaps s <? n then set_ms_max_n_mmaps n s else s in
  let sum := u32 (ms_mmapped_mem s + size) in
  let s := set_ms_mmapped_mem sum s in
  let s := if ms_max_mmapped_mem s <? sum then set_ms_max_mmapped_mem sum s else s in
  let sum := u32 (sum + ms_sbrked_mem s) in
  if ms_max_total_mem s <? sum then set_ms_max_total_mem sum s else s.

(** Statistics after [sbrked_mem] grew. *)
Definition stats_sbrk (s : malloc_state) : malloc_state :=
  let sum := ms_sbrked_mem s in
  let s := if ms_max_sbrked_mem s <? sum then set_ms_max_sbrked_mem sum s else s in
  let sum := u32 (sum + ms_mmapped_mem s) in
  if ms_max_total_mem s <? sum then set_ms_max_total_mem sum s else s.

(** The header of a chunk that is a mapped unit of its own. *)
Definition mmap_header (mm size : Z) : hm Z :=
  let front_misalign := Z.land (chunk2mem mm) MALLOC_ALIGN_MASK in
  if 0 <? front_misalign then
    let correction := MALLOC_ALIGNMENT - front_misalign in
    let p := u32 (mm + correction) in
    wr_prev_size p correction;;
    set_head p (Z.lor (u32 (size - correction)) IS_MMAPPED);;
    mret p
  else
    wr_prev_size mm 0;;
    set_head mm (Z.lor size IS_MMAPPED);;
    mret mm.

(** A large request gets a unit of its own; [None] falls through to the
    allocation of an ordinary unit. *)
Definition alloc_mmap (abt : arbiter_thread) (pid nb av : Z) (L : list Z) : am (option Z) :=
  s ← lh (get_av av);
  if (ms_mmap_threshold s <=? nb) && (ms_n_mmaps s <? ms_n_mmaps_max s) then
    let pagemask := u32 (ms_pagesize s - 1) in
    let size := Z.land (u32 (nb + SIZE_SZ + MALLOC_ALIGN_MASK + pagemask)) (not32 pagemask) in
    if nb <? size then
      mm ← lh (get_unmapped_area size);
      if negb (mm =? MORECORE_FAILURE) then
        p ← lh (mmap_header mm size);
        ab_mm ← sys (λ k, absys_mmap k pid mm size (Z.lor PROT_READ PROT_WRITE));
        assertb (ab_mm =? mm);;
        if negb (ab_mm =? MORECORE_FAILURE) then
          u ← lh (unit_init_state mm mm size av);
          lh (insert_head_in h_ustate_list set_h_ustate_list u);;
          lh (insert_mmapped_unit u);;
          lh (upd_av av (stats_mmap size));;
          prot_update abt pid mm size L;;
          mret (Some (chunk2mem p))
        else mret None
      else mret None
    else mret None
  else mret None.

(** The unit's top with its two fenceposts. *)
Definition init_unit_top (top size : Z) : hm Z :=
  let unit_top_size := Z.land (u32 (size - 3 * SIZE_SZ)) (not32 MALLOC_ALIGN_MASK) in
  set_head top (Z.lor unit_top_size PREV_INUSE);;
  set_head (chunk_at_offset top unit_top_size) (Z.lor SIZE_SZ PREV_INUSE);;
  set_head (chunk_at_offset top (unit_top_size + SIZE_SZ)) (Z.lor SIZE_SZ PREV_INUSE);;
  mret unit_top_size.

(** The record of a new unit, entered into the state's list and the list of
    all units. *)
Definition add_unit (av a : Z) : hm Z :=
  u ← unit_init_state a a UNIT_SIZE av;
  s ← get_av av;
  l' ← lift (list_insert_head (malloc_node (ms_ustate_list s)) (ms_ustate_list s) u);
  upd_av av (set_ms_ustate_list l');;
  insert_head_in h_ustate_list set_h_ustate_list u;;
  mret u.

(** The request is split off the top of its new unit. *)
Definition carve (u p nb size : Z) : hm unit :=
  let remainder_size := u32 (size - nb) in
  let remainder := chunk_at_offset p nb in
  upd_unit u (set_unit_top remainder);;
  set_head p (Z.lor nb PREV_INUSE);;
  set_head remainder (Z.lor remainder_size PREV_INUSE);;
  set_foot remainder remainder_size.

(** An ordinary unit.  The code's fallback for a failed [AB_MORECORE] follows
    an assertion that excludes the failure, so it cannot run. *)
Definition alloc_unit (abt : arbiter_thread) (pid nb av : Z) (L : list Z) : am Z :=
  fst_brk ← __ablib_sbrk pid UNIT_SIZE;
  assertb (negb (fst_brk =? MORECORE_FAILURE));;
  lh (upd_av av (λ s, set_ms_sbrked_mem (u32 (ms_sbrked_mem s + UNIT_SIZE)) s));;
  assertb (aligned_OK (chunk2mem fst_brk));;
  u ← lh (add_unit av fst_brk);
  _ ← lh (init_unit_top fst_brk UNIT_SIZE);
  lh (upd_av av stats_sbrk);;
  let p := fst_brk in
  size ← lh (chunksize p);
  if u32 (nb + MINSIZE) <=? size then
    lh (carve u p nb size);;
    prot_update abt pid p size L;;
    mret (chunk2mem p)
  else mret 0.

(** [__malloc_alloc]; [rec] is the call of [ablib_malloc] it makes. *)
Definition __malloc_alloc (rec : Z → Z → list Z → am Z) (abt : arbiter_thread)
    (pid nb av : Z) (L : list Z) : am Z :=
  s ← lh (get_av av);
  if have_fastchunks (ms_max_fast s) then
    assertb (in_smallbin_range nb);;
    lh (__malloc_consolidate av);;
    rec pid (u32 (nb - MALLOC_ALIGN_MASK)) L
  else
    r ← alloc_mmap abt pid nb av L;
    match r with
    | Some x => mret x
    | None => alloc_unit abt pid nb av L
    end.

(** * [ablib_malloc] *)

(** A zero-filled [malloc_state] for a label that has none. *)
Definition zero_mstate : malloc_state :=
  MallocState (replicate 8 0) init_linked_list 0 (replicate (Z.to_nat NFASTBINS) 0) 0
    (replicate 4 0) 0 0 0 0 0 0 0 0 0 0 0 0 0.
Definition new_mstate : hm Z :=
  av ← libc_malloc SIZEOF_MALLOC_STATE;
  if av =? 0 then fail Segv else
  modify (λ h, set_h_mstates (<[av := zero_mstate]> (h_mstates h))
                 (set_h_mem (memset0 (h_mem h) (av + BINS_OFFSET) BINS_BYTES) h));;
  mret av.

(** The first use of a state initialises it and records its label. *)
Definition init_on_first_use (av : Z) (L : list Z) : hm unit :=
  s ← get_av av;
  when (ms_max_fast s =? 0)
    (__malloc_consolidate av;; upd_av av (set_ms_label L)).

Definition malloc_body (rec : Z → Z → list Z → am Z) (abt : arbiter_thread)
    (pid bytes : Z) (L : list Z) : am Z :=
  av ← lh (lookup_mstate_by_label L);
  if bytes =? 0 then mret 0 else
  lh lock;;
  av ← (if av =? 0 then lh new_mstate else mret av);
  match checked_request2size bytes with
  | None => mret 0 (* the macro returns with the lock held *)
  | Some nb =>
      s ← lh (get_av av);
      r ← lh (if negb (have_anychunks (ms_max_fast s))
              then init_on_first_use av L;; mret None
              else malloc_search av nb);
      r ← (match r with Some x => mret (Some x) | None => lh (malloc_unit_top av nb) end);
      retval ← (match r with
                | Some x => mret x
                | None => __malloc_alloc rec abt pid nb av L
                end);
      lh unlock;;
      mret retval
  end.

(** [ablib_malloc] calls itself through [__malloc_alloc] with the lock held;
    two levels are therefore all that can be entered ([malloc_two_levels]). *)
Fixpoint ablib_malloc_rec (n : nat) (abt : arbiter_thread) (pid bytes : Z) (L : list Z) : am Z :=
  match n with
  | O => fail Hang
  | S n' => malloc_body (ablib_malloc_rec n' abt) abt pid bytes L
  end.
Definition ablib_malloc : arbiter_thread → Z → Z → list Z → am Z := ablib_malloc_rec 2.
End Kernel.

Arguments abst K : clear implicits.
Abbreviation am K := (st (abst K)).
