(* ===== verification/Free.v ===== *)
(** [ablib_free] of [monitor/ablib_free.c], [ablib_calloc] of
    [monitor/ablib_calloc.c] and [ablib_realloc] of [monitor/ablib_realloc.c]. *)

From S2P Require Import Prelude LinkedList Label Memory Client Chunk Heap Consolidate Os Malloc.

(** * Free *)

(** The chunk goes to its fastbin. *)
Definition free_fast (av p size : Z) : hm unit :=
  upd_av av (λ s, set_ms_max_fast (set_fastchunks (ms_max_fast s)) s);;
  let fb := fastbin_index size in
  old ← fb_load av fb;
  wr_fd p old;;
  fb_store av fb p.

(** The chunk is merged with its free neighbours and goes to the unsorted bin
    or into the top of its unit. *)
Definition free_consolidate (av unit p size : Z) : hm () :=
  upd_av av (λ s, set_ms_max_fast (set_anychunks (ms_max_fast s)) s);;
  let nextchunk := chunk_at_offset p size in
  nextsize ← chunksize nextchunk;
  pi ← prev_inuse p;
  '(p, size) ← (if negb pi then
      prevsize ← rd_prev_size p;
      let p' := chunk_at_offset p (- prevsize) in
      unlink p';;
      mret (p', u32 (size + prevsize))
    else mret (p, size));
  u ← get_unit unit;
  size ← (if negb (nextchunk =? unit_top u) then
      nextinuse ← inuse_bit_at_offset nextchunk nextsize;
      set_head nextchunk nextsize;;
      size ← (if negb nextinuse
              then unlink nextchunk;; mret (u32 (size + nextsize)) else mret size);
      let bck := unsorted_chunks av in
      fwd ← rd_fd bck;
      wr_bk p bck;;
      wr_fd p fwd;;
      wr_fd bck p;;
      wr_bk fwd p;;
      set_head p (Z.lor size PREV_INUSE);;
      set_foot p size;;
      mret size
    else
      let size := u32 (size + nextsize) in
      set_head p (Z.lor size PREV_INUSE);;
      upd_unit unit (set_unit_top p);;
      mret size);
  when (FASTBIN_CONSOLIDATION_THRESHOLD <=? size)
    (s ← get_av av;
     when (have_fastchunks (ms_max_fast s)) (__malloc_consolidate av)).

(** Remove a unit record from one of the lists of units. *)
Definition remove_unit (get : heap → linked_list) (set : linked_list → heap → heap) (unit : Z) : hm () :=
  l ← gets get;
  node ← lift (linked_list_locate l unit);
  '(d, l') ← lift (list_del_entry l node);
  modify (set l');;
  assertb (d =? unit).

Section Kernel.
Context {K : Type} `{AbOs K}.

(** A chunk that is a mapped unit of its own is unmapped. *)
Definition free_mmapped (pid av unit p size : Z) : am K () :=
  offset ← lh (rd_prev_size p);
  lh (upd_av av (λ s, set_ms_mmapped_mem (u32 (ms_mmapped_mem s - u32 (size + offset)))
                        (set_ms_n_mmaps (s32 (ms_n_mmaps s - 1)) s)));;
  _ ← sys (λ k, absys_munmap k pid (u32 (p - offset)) (u32 (size + offset)));
  lh (remove_unit h_mmapped_ustate_list set_h_mmapped_ustate_list unit);;
  lh (remove_unit h_ustate_list set_h_ustate_list unit);;
  lh (modify (λ h, set_h_ustates (delete unit (h_ustates h)) h)).

(** [ablib_free] *)
Definition ablib_free (pid mem : Z) : am K () :=
  if mem =? 0 then mret tt else
  lh lock;;
  unit ← lh (lookup_ustate_by_mem mem);
  u ← lh (get_unit unit);
  let av := unit_av u in
  let p := mem2chunk mem in
  size ← lh (chunksize p);
  s ← lh (get_av av);
  mm ← lh (if size <=? ms_max_fast s then mret false else chunk_is_mmapped p);
  (if size <=? ms_max_fast s then lh (free_fast av p size)
   else if negb mm then lh (free_consolidate av unit p size)
   else free_mmapped pid av unit p size);;
  lh unlock.

(** * Calloc *)

(** [*(d+i)] of an array of [size_t] *)
Definition word_at (d i : Z) : Z := u32 (d + 4 * i).

(** The unrolled loops clear (or copy) words 0 to 2, then two more as long as
    the count exceeds 4, 6 and 8. *)
Definition unrolled (n : Z) : list Z :=
  [0; 1; 2] ++ (if 4 <? n then [3; 4] ++ (if 6 <? n then [5; 6] ++ (if 8 <? n then [7; 8] else []) else []) else []).

(** [memset] and [memcpy] on the channel; a range that leaves it is [Wild]. *)
Definition range_in_channel (h : heap) (a n : Z) : bool :=
  h_channel_mapped h && (CHANNEL_ADDR <=? a) && (a + n <=? CHANNEL_ADDR + CHANNEL_SIZE).
Definition memset_ (a n : Z) : hm () := λ h,
  if range_in_channel h a n then Ret (tt, set_h_mem (memset0 (h_mem h) a n) h) else Fault Wild.
Definition memcpy_ (d s n : Z) : hm () := λ h,
  if range_in_channel h d n && range_in_channel h s n
  then Ret (tt, set_h_mem (memcpy (h_mem h) d s n) h) else Fault Wild.

Definition clear_chunk (mem : Z) : hm () :=
  let p := mem2chunk mem in
  mm ← chunk_is_mmapped p;
  if mm : bool then mret tt else
  csz ← chunksize p;
  let clearsize := u32 (csz - SIZE_SZ) in
  let nclears := clearsize / SIZE_SZ in
  assertb (3 <=? nclears);;
  if 9 <? nclears then memset_ mem clearsize
  else for_ (unrolled nclears) (λ i, sd (word_at mem i) 0).

(** [ablib_calloc] *)
Definition ablib_calloc (abt : arbiter_thread) (pid n_elements elem_size : Z) (L : list Z) : am K Z :=
  let size := u32 (n_elements * elem_size) in
  if negb (n_elements =? 0) && negb (elem_size =? size / n_elements) then mret 0 else
  mem ← ablib_malloc abt pid size L;
  (if negb (mem =? 0) then lh (clear_chunk mem) else mret tt);;
  mret mem.

(** * Realloc *)

Definition copy_words (oldmem newmem oldsize : Z) : hm () :=
  let copysize := u32 (oldsize - SIZE_SZ) in
  let ncopies := copysize / SIZE_SZ in
  assertb (3 <=? ncopies);;
  if 9 <? ncopies then memcpy_ newmem oldmem copysize
  else for_ (unrolled ncopies) (λ i, w ← ld (word_at oldmem i); sd (word_at newmem i) w).

(** The end of the path that keeps the chunk in place: give back what exceeds
    the request. *)
Definition realloc_trim (pid newp newsize nb : Z) : am K Z :=
  assertb (nb <=? newsize);;
  let remainder_size := u32 (newsize - nb) in
  (if remainder_size <? MINSIZE then
     lh (set_head_size newp newsize);;
     lh (set_inuse_bit_at_offset newp newsize);;
     lh unlock
   else
     let remainder := chunk_at_offset newp nb in
     lh (set_head_size newp nb);;
     lh (set_head remainder (Z.lor remainder_size PREV_INUSE));;
     lh (set_inuse_bit_at_offset remainder remainder_size);;
     lh unlock;;
     ablib_free pid (chunk2mem remainder));;
  mret (chunk2mem newp).

(** The path that allocates, copies and frees. *)
Definition realloc_move (abt : arbiter_thread) (pid oldmem oldp oldsize next nb : Z) (L : list Z) : am K Z :=
  lh unlock;;
  newmem ← ablib_malloc abt pid (u32 (nb - MALLOC_ALIGN_MASK)) L;
  if newmem =? 0 then mret 0 else
  lh lock;;
  let newp := mem2chunk newmem in
  newsize ← lh (chunksize newp);
  if newp =? next then realloc_trim pid oldp (u32 (newsize + oldsize)) nb
  else
    lh (copy_words oldmem newmem oldsize);;
    lh unlock;;
    ablib_free pid oldmem;;
    mret (chunk2mem newp).

Definition realloc_chunk (abt : arbiter_thread) (pid unit oldmem oldp oldsize nb : Z) (L : list Z) : am K Z :=
  if nb <=? oldsize then realloc_trim pid oldp oldsize nb else
  let next := chunk_at_offset oldp oldsize in
  u ← lh (get_unit unit);
  grown ← lh (if next =? unit_top u
              then nsz ← chunksize next; mret (u32 (oldsize + nsz)) else mret 0);
  if (next =? unit_top u) && (u32 (nb + MINSIZE) <=? grown) then
    lh (set_head_size oldp nb);;
    let top := chunk_at_offset oldp nb in
    lh (upd_unit unit (set_unit_top top));;
    lh (set_head top (Z.lor (u32 (grown - nb)) PREV_INUSE));;
    lh unlock;;
    mret (chunk2mem oldp)
  else
  merged ← lh (if negb (next =? unit_top u) then
                 b ← inuse next;
                 if b : bool then mret None else
                 nsz ← chunksize next;
                 mret (let newsize := u32 (oldsize + nsz) in
                       if nb <=? newsize then Some newsize else None)
               else mret None);
  match merged with
  | Some newsize => lh (unlink next);; realloc_trim pid oldp newsize nb
  | None => realloc_move abt pid oldmem oldp oldsize next nb L
  end.

Definition realloc_mmapped (abt : arbiter_thread) (pid av oldmem oldp oldsize nb : Z) (L : list Z) : am K Z :=
  offset ← lh (rd_prev_size oldp);
  s ← lh (get_av av);
  let pagemask := u32 (ms_pagesize s - 1) in
  let newsize := Z.land (u32 (nb + offset + SIZE_SZ + pagemask)) (not32 pagemask) in
  if oldsize =? u32 (newsize - offset) then lh unlock;; mret oldmem
  else if u32 (nb + SIZE_SZ) <=? oldsize then lh unlock;; mret oldmem
  else
    lh unlock;;
    newmem ← ablib_malloc abt pid (u32 (nb - MALLOC_ALIGN_MASK)) L;
    (if negb (newmem =? 0) then
       lh (memcpy_ newmem oldmem (u32 (oldsize - 2 * SIZE_SZ)));;
       ablib_free pid oldmem
     else mret tt);;
    mret newmem.

(** [ablib_realloc] *)
Definition ablib_realloc (abt : arbiter_thread) (pid oldmem bytes : Z) (L : list Z) : am K Z :=
  if oldmem =? 0 then ablib_malloc abt pid bytes L else
  if bytes =? 0 then ablib_free pid oldmem;; mret 0 else
  lh lock;;
  unit ← lh (lookup_ustate_by_mem oldmem);
  u ← lh (get_unit unit);
  match checked_request2size bytes with
  | None => mret 0 (* the macro returns with the lock held *)
  | Some nb =>
      let oldp := mem2chunk oldmem in
      oldsize ← lh (chunksize oldp);
      mm ← lh (chunk_is_mmapped oldp);
      if negb mm then realloc_chunk abt pid unit oldmem oldp oldsize nb L
      else realloc_mmapped abt pid (unit_av u) oldmem oldp oldsize nb L
  end.
End Kernel.
