(* ===== verification/Frame.v ===== *)
(** What the chunk-level code leaves alone.

    Clients can write the chunk headers and links inside the units they may
    access, so nothing about chunks can be relied on.  What the protection of
    the channel rests on is kept outside: the list of units with their address
    ranges, the label of each state, the list of states and the break.  This
    file shows that every stage of allocation and release that works on chunks
    keeps that part whatever the memory of the channel holds, as far as its
    accesses stay inside the channel and the bins (else it is [Wild], and the
    file says nothing). *)

From S2P Require Import Prelude LinkedList Memory Chunk Heap Consolidate Os Malloc Free.

(** * Relations a computation respects *)

Definition preserves {S A} (R : S → S → Prop) (m : st S A) : Prop :=
  ∀ s a s', m s = Ret (a, s') → R s s'.

(** Inversion of a sequence that returned. *)
Lemma bind_ret_inv {S A B} (m : st S A) (k : A → st S B) s b s' :
  (m ≫= k) s = Ret (b, s') → ∃ a s1, m s = Ret (a, s1) ∧ k a s1 = Ret (b, s').
Proof.
  unfold mbind, st_bind. destruct (m s) as [[a s1]|] eqn:E; [|done]. eauto.
Qed.
Lemma assertb_inv {S} b (s : S) u s' : assertb b s = Ret (u, s') → b = true ∧ s' = s.
Proof. unfold assertb. destruct b; [|done]. by intros [= _ <-]. Qed.
Lemma gets_inv {S A} (f : S → A) s a s' : gets f s = Ret (a, s') → a = f s ∧ s' = s.
Proof. by intros [= <- <-]. Qed.
Lemma lift_inv {S A} (o : outcome A) (s : S) a s' : lift o s = Ret (a, s') → o = Ret a ∧ s' = s.
Proof. unfold lift. destruct o; [|done]. by intros [= <- <-]. Qed.
Lemma modify_inv {S} (f : S → S) s u s' : modify f s = Ret (u, s') → s' = f s.
Proof. by intros [= _ <-]. Qed.
Lemma get_av_inv av h t h' : get_av av h = Ret (t, h') → h_mstates h !! av = Some t ∧ h' = h.
Proof. unfold get_av. destruct (h_mstates h !! av); [|done]. by intros [= <- <-]. Qed.
Lemma get_unit_inv u h x h' : get_unit u h = Ret (x, h') → h_ustates h !! u = Some x ∧ h' = h.
Proof. unfold get_unit. destruct (h_ustates h !! u); [|done]. by intros [= <- <-]. Qed.
Lemma upd_av_inv av f h u h' :
  upd_av av f h = Ret (u, h') →
  ∃ t, h_mstates h !! av = Some t ∧ h' = set_h_mstates (<[av := f t]> (h_mstates h)) h.
Proof. unfold upd_av. destruct (h_mstates h !! av); [|done]. intros [= _ <-]. eauto. Qed.
Lemma upd_unit_inv i f h u h' :
  upd_unit i f h = Ret (u, h') →
  ∃ x, h_ustates h !! i = Some x ∧ h' = set_h_ustates (<[i := f x]> (h_ustates h)) h.
Proof. unfold upd_unit. destruct (h_ustates h !! i); [|done]. intros [= _ <-]. eauto. Qed.

(** Break the first step off a sequence that returned. *)
Ltac binv E :=
  let a := fresh "r" in let s1 := fresh "s" in let E1 := fresh "E" in
  apply bind_ret_inv in E as (a & s1 & E1 & E).
(** The same, with names for the value and state in between and the equation. *)
Tactic Notation "bstep" ident(E) "as" ident(a) ident(s1) ident(E1) :=
  apply bind_ret_inv in E as (a & s1 & E1 & E).

Section Preserves.
Context {S : Type} (R : S → S → Prop) `{!PreOrder R}.

Lemma preserves_ret {A} (a : A) : preserves R (mret a).
Proof. intros s b s' [= <- <-]. reflexivity. Qed.

Lemma preserves_bind {A B} (m : st S A) (k : A → st S B) :
  preserves R m → (∀ a, preserves R (k a)) → preserves R (m ≫= k).
Proof.
  intros Hm Hk s b s' Hb. unfold mbind, st_bind in Hb.
  destruct (m s) as [[a s1]|] eqn:E; [|done]. etrans; [by eapply Hm|by eapply Hk].
Qed.

Lemma preserves_fail {A} f : preserves R (fail (A := A) f).
Proof. by intros ???. Qed.
Lemma preserves_get : preserves R get.
Proof. intros s a s' [= <- <-]. reflexivity. Qed.
Lemma preserves_gets {A} (f : S → A) : preserves R (gets f).
Proof. intros s a s' [= <- <-]. reflexivity. Qed.
Lemma preserves_lift {A} (o : outcome A) : preserves R (lift o).
Proof. intros s a s' E. unfold lift in E. destruct o; [|done]. injection E as _ <-. reflexivity. Qed.
Lemma preserves_assertb b : preserves R (assertb b).
Proof. intros s a s' E. unfold assertb in E. destruct b; [|done]. injection E as _ <-. reflexivity. Qed.
Lemma preserves_when b m : preserves R m → preserves R (when b m).
Proof. intros Hm. destruct b; [done|apply preserves_ret]. Qed.

Lemma preserves_for (ixs : list Z) f : (∀ i, preserves R (f i)) → preserves R (for_ ixs f).
Proof.
  intros Hf. induction ixs as [|i ixs IH]; simpl; [apply preserves_ret|].
  by apply preserves_bind.
Qed.

Lemma preserves_loopM {V B} (body : V → st S (V + B)) v :
  (∀ v, preserves R (body v)) → preserves R (loopM body v).
Proof.
  intros Hb s a s' E.
  refine (loopM_post body (λ _, R s) (λ _, R s) v s a s' E _ _); [reflexivity|].
  intros w t Ht. destruct (body w t) as [[[x|x] t']|] eqn:Eb; [|..|done]; (etrans; [exact Ht|by eapply Hb]).
Qed.
End Preserves.

(** * The part of the heap that chunks cannot reach *)

Definition unit_meta (u : unit_state) : Z * Z * Z := (addr u, length_ u, unit_av u).
Definition state_meta (s : malloc_state) : list Z * Z * Z * Z * Z :=
  (ms_label s, ms_mmap_threshold s, ms_n_mmaps s, ms_n_mmaps_max s, ms_pagesize s).

(** With [lk] the lock counts as well. *)
Record meta_upto (lk : bool) (h h' : heap) : Prop := MetaEq {
  me_lock : lk = true → h_malloc_lock h' = h_malloc_lock h;
  me_ulist : h_ustate_list h' = h_ustate_list h;
  me_mlist : h_mstate_list h' = h_mstate_list h;
  me_mmlist : h_mmapped_ustate_list h' = h_mmapped_ustate_list h;
  me_next : h_libc_next h' = h_libc_next h;
  me_curbrk : h_ab_curbrk h' = h_ab_curbrk h;
  me_units u : unit_meta <$> h_ustates h' !! u = unit_meta <$> h_ustates h !! u;
  me_states av : state_meta <$> h_mstates h' !! av = state_meta <$> h_mstates h !! av;
}.

Abbreviation meta_eq := (meta_upto false).

#[export] Instance meta_upto_preorder lk : PreOrder (meta_upto lk).
Proof.
  split; [done|]. intros h1 h2 h3 [] []. split; intros; etrans; eauto.
Qed.

Abbreviation keeps lk := (preserves (meta_upto lk)).

Lemma keeps_ld {lk} a : keeps lk (ld a).
Proof. intros s v s' E. unfold ld in E. destruct (valid_word s a); [|done]. injection E as _ <-; reflexivity. Qed.
Lemma keeps_sd {lk} a v : keeps lk (sd a v).
Proof. intros s x s' E. unfold sd in E. destruct (valid_word s a); [|done]. injection E as _ <-; by split. Qed.
Lemma keeps_get_av {lk} av : keeps lk (get_av av).
Proof. intros s x s' E. unfold get_av in E. destruct (h_mstates s !! av); [|done]. injection E as _ <-; reflexivity. Qed.
Lemma keeps_get_unit {lk} u : keeps lk (get_unit u).
Proof. intros s x s' E. unfold get_unit in E. destruct (h_ustates s !! u); [|done]. injection E as _ <-; reflexivity. Qed.

Lemma keeps_upd_av {lk} av f : (∀ s, state_meta (f s) = state_meta s) → keeps lk (upd_av av f).
Proof.
  intros Hf s x s' E. unfold upd_av in E. destruct (h_mstates s !! av) as [m|] eqn:Em; [|done].
  injection E as _ <-. split; try done. intros bv. simpl.
  destruct (decide (av = bv)) as [<-|]; [|by rewrite lookup_insert_ne].
  rewrite lookup_insert_eq, Em. simpl. by rewrite Hf.
Qed.
Lemma keeps_upd_unit {lk} u f : (∀ x, unit_meta (f x) = unit_meta x) → keeps lk (upd_unit u f).
Proof.
  intros Hf s y s' E. unfold upd_unit in E. destruct (h_ustates s !! u) as [m|] eqn:Em; [|done].
  injection E as _ <-. split; try done. intros v. simpl.
  destruct (decide (u = v)) as [<-|]; [|by rewrite lookup_insert_ne].
  rewrite lookup_insert_eq, Em. simpl. by rewrite Hf.
Qed.
Lemma keeps_modify {lk} f : (∀ h, meta_upto lk h (f h)) → keeps lk (modify f).
Proof. intros Hf h a h' [= <- <-]. apply Hf. Qed.

#[export] Hint Resolve preserves_ret preserves_fail preserves_get preserves_gets preserves_lift
  preserves_assertb keeps_ld keeps_sd keeps_get_av keeps_get_unit : frame.

(** Structural search: unfold binds, case on the conditions, close the leaves
    with the hints. *)
Ltac keeps_step :=
  match goal with
  | |- preserves _ (mbind _ _) => apply preserves_bind; [apply _| |intros ?]
  | |- preserves _ (when _ _) => apply preserves_when; [apply _|]
  | |- preserves _ (loopM _ _) => apply preserves_loopM; [apply _|intros ?]
  | |- preserves _ (for_ _ _) => apply preserves_for; [apply _|intros ?]
  | |- preserves _ (upd_av _ _) => apply keeps_upd_av; intros []; reflexivity
  | |- preserves _ (upd_unit _ _) => apply keeps_upd_unit; intros []; reflexivity
  | |- preserves _ (modify _) => apply keeps_modify; intros []; done
  | |- preserves _ (let '_ := ?x in _) => destruct x
  | |- preserves _ (match ?x with _ => _ end) => destruct x
  end.
Ltac keeps := repeat (first [solve [eauto with frame typeclass_instances] | keeps_step]).

Lemma keeps_lock : keeps false lock.
Proof. intros s x s' E. unfold lock in E. destruct (h_malloc_lock s); [done|]. injection E as _ <-; by split. Qed.
Lemma keeps_unlock : keeps false unlock.
Proof. unfold unlock. keeps. Qed.
#[export] Hint Resolve keeps_lock keeps_unlock : frame.

(** The macros on chunks *)
Ltac unfold_chunk := unfold set_head, rd_size, rd_fd, rd_bk, rd_prev_size, wr_fd, wr_bk, wr_prev_size.
Lemma keeps_rd_size {lk} p : keeps lk (rd_size p). Proof. unfold rd_size. keeps. Qed.
Lemma keeps_rd_fd {lk} p : keeps lk (rd_fd p). Proof. unfold rd_fd. keeps. Qed.
Lemma keeps_rd_bk {lk} p : keeps lk (rd_bk p). Proof. unfold rd_bk. keeps. Qed.
Lemma keeps_rd_prev_size {lk} p : keeps lk (rd_prev_size p). Proof. unfold rd_prev_size. keeps. Qed.
Lemma keeps_wr_fd {lk} p v : keeps lk (wr_fd p v). Proof. unfold wr_fd. keeps. Qed.
Lemma keeps_wr_bk {lk} p v : keeps lk (wr_bk p v). Proof. unfold wr_bk. keeps. Qed.
Lemma keeps_wr_prev_size {lk} p v : keeps lk (wr_prev_size p v). Proof. unfold wr_prev_size. keeps. Qed.
Lemma keeps_set_head {lk} p v : keeps lk (set_head p v). Proof. unfold set_head. keeps. Qed.
Lemma keeps_set_foot {lk} p v : keeps lk (set_foot p v). Proof. unfold set_foot, wr_prev_size. keeps. Qed.
#[export] Hint Resolve keeps_rd_size keeps_rd_fd keeps_rd_bk keeps_rd_prev_size keeps_wr_fd
  keeps_wr_bk keeps_wr_prev_size keeps_set_head keeps_set_foot : frame.
Lemma keeps_set_head_size {lk} p s : keeps lk (set_head_size p s). Proof. unfold set_head_size. keeps. Qed.
Lemma keeps_chunksize {lk} p : keeps lk (chunksize p). Proof. unfold chunksize. keeps. Qed.
Lemma keeps_prev_inuse {lk} p : keeps lk (prev_inuse p). Proof. unfold prev_inuse. keeps. Qed.
Lemma keeps_chunk_is_mmapped {lk} p : keeps lk (chunk_is_mmapped p). Proof. unfold chunk_is_mmapped. keeps. Qed.
Lemma keeps_inuse_bit {lk} p s : keeps lk (inuse_bit_at_offset p s).
Proof. unfold inuse_bit_at_offset. apply keeps_prev_inuse. Qed.
Lemma keeps_set_inuse_bit {lk} p s : keeps lk (set_inuse_bit_at_offset p s).
Proof. unfold set_inuse_bit_at_offset. keeps. Qed.
#[export] Hint Resolve keeps_set_head_size keeps_chunksize keeps_prev_inuse keeps_chunk_is_mmapped
  keeps_inuse_bit keeps_set_inuse_bit : frame.
Lemma keeps_inuse {lk} p : keeps lk (inuse p). Proof. unfold inuse. keeps. Qed.
Lemma keeps_unlink {lk} p : keeps lk (unlink p). Proof. unfold unlink. keeps. Qed.
Lemma keeps_fb_load {lk} av i : keeps lk (fb_load av i). Proof. unfold fb_load. keeps. Qed.
Lemma keeps_fb_store {lk} av i v : keeps lk (fb_store av i v). Proof. unfold fb_store. keeps. Qed.
Lemma keeps_node {lk} l p : keeps lk (node l p). Proof. unfold node. keeps. Qed.
Lemma keeps_last {lk} b : keeps lk (last b). Proof. unfold last. keeps. Qed.
#[export] Hint Resolve keeps_inuse keeps_unlink keeps_fb_load keeps_fb_store keeps_node keeps_last : frame.
Lemma keeps_lookup_ustate {lk} p : keeps lk (lookup_ustate_by_mem p).
Proof. unfold lookup_ustate_by_mem. keeps. Qed.
#[export] Hint Resolve keeps_lookup_ustate : frame.

(** * The stages of allocation *)

Lemma keeps_consolidate_chunk {lk} ub p : keeps lk (consolidate_chunk ub p).
Proof. unfold consolidate_chunk. keeps. Qed.
#[export] Hint Resolve keeps_consolidate_chunk : frame.
Lemma keeps_consolidate_bin {lk} av ub fb : keeps lk (consolidate_bin av ub fb).
Proof. unfold consolidate_bin. keeps. Qed.
#[export] Hint Resolve keeps_consolidate_bin : frame.

(** Consolidation of a state that has been initialised. *)
Lemma consolidate_meta {lk} av h s u h' :
  h_mstates h !! av = Some s → ms_max_fast s ≠ 0 →
  __malloc_consolidate av h = Ret (u, h') → meta_upto lk h h'.
Proof.
  intros Hs Hf. unfold __malloc_consolidate, mbind, st_bind at 1, get_av at 1. rewrite Hs.
  rewrite (proj2 (Z.eqb_neq _ _) Hf). cbn [negb].
  enough (Hk : keeps lk (upd_av av (λ s, set_ms_max_fast (clear_fastchunks (ms_max_fast s)) s);;
    s ← get_av av;
    loopM (λ fb, consolidate_bin av (unsorted_chunks av) fb;;
      mret (if fb =? fastbin_index (ms_max_fast s) then inr tt else inl (u32 (fb + 1)))) 0))
    by (intros E; exact (Hk _ _ _ E)).
  keeps.
Qed.

Lemma have_fastchunks_nonzero mf : have_fastchunks mf = true → mf ≠ 0.
Proof. intros Hb ->. done. Qed.

(** The guarded consolidation of [malloc_search] and [ablib_free]. *)
Lemma keeps_consolidate_if {lk} av :
  keeps lk (s ← get_av av; when (have_fastchunks (ms_max_fast s)) (__malloc_consolidate av)).
Proof.
  intros h u h' E. unfold mbind, st_bind, get_av in E.
  destruct (h_mstates h !! av) as [s|] eqn:Hs; [|done].
  destruct (have_fastchunks (ms_max_fast s)) eqn:Hf; cbn [when] in E.
  - eapply consolidate_meta; eauto using have_fastchunks_nonzero.
  - injection E as _ <-. reflexivity.
Qed.
#[export] Hint Resolve keeps_consolidate_if : frame.

Lemma keeps_malloc_fastbin {lk} av nb : keeps lk (malloc_fastbin av nb).
Proof. unfold malloc_fastbin. keeps. Qed.
Lemma keeps_malloc_smallbin {lk} av nb : keeps lk (malloc_smallbin av nb).
Proof. unfold malloc_smallbin. keeps. Qed.
Lemma keeps_bin_place {lk} av size : keeps lk (bin_place av size).
Proof. unfold bin_place. keeps. Qed.
#[export] Hint Resolve keeps_malloc_fastbin keeps_malloc_smallbin keeps_bin_place : frame.
Lemma keeps_unsorted_step {lk} av nb : keeps lk (unsorted_step av nb).
Proof. unfold unsorted_step. keeps. Qed.
#[export] Hint Resolve keeps_unsorted_step : frame.
Lemma keeps_malloc_unsorted {lk} av nb : keeps lk (malloc_unsorted av nb).
Proof. unfold malloc_unsorted. keeps. Qed.
Lemma keeps_exhaust {lk} v s : keeps lk (exhaust v s).
Proof. unfold exhaust. keeps. Qed.
Lemma keeps_split {lk} av v nb r b : keeps lk (split_to_unsorted av v nb r b).
Proof. unfold split_to_unsorted. keeps. Qed.
#[export] Hint Resolve keeps_malloc_unsorted keeps_exhaust keeps_split : frame.
Lemma keeps_malloc_large_scan {lk} av nb i : keeps lk (malloc_large_scan av nb i).
Proof. unfold malloc_large_scan. keeps. Qed.
Lemma keeps_skip_blocks {lk} av b : keeps lk (skip_blocks av b).
Proof. unfold skip_blocks. keeps. Qed.
Lemma keeps_advance_bit {lk} m b t : keeps lk (advance_bit m b t).
Proof. unfold advance_bit. keeps. Qed.
#[export] Hint Resolve keeps_malloc_large_scan keeps_skip_blocks keeps_advance_bit : frame.
Lemma keeps_bin_search_step {lk} av nb x : keeps lk (bin_search_step av nb x).
Proof. unfold bin_search_step. keeps. Qed.
#[export] Hint Resolve keeps_bin_search_step : frame.
Lemma keeps_malloc_bin_search {lk} av nb i : keeps lk (malloc_bin_search av nb i).
Proof. unfold malloc_bin_search. keeps. Qed.
Lemma keeps_malloc_unit_top {lk} av nb : keeps lk (malloc_unit_top av nb).
Proof. unfold malloc_unit_top. keeps. Qed.
#[export] Hint Resolve keeps_malloc_bin_search keeps_malloc_unit_top : frame.

Lemma keeps_orelse {lk} m k : keeps lk m → keeps lk k → keeps lk (orelse m k).
Proof. intros Hm Hk. unfold orelse. keeps. Qed.

Lemma keeps_malloc_search {lk} av nb : keeps lk (malloc_search av nb).
Proof.
  unfold malloc_search. apply keeps_orelse; [eauto with frame|].
  destruct (in_smallbin_range nb); [repeat apply keeps_orelse; eauto with frame|].
  intros h a h' E.
  set (rest := orelse _ _) in E. assert (Hr : keeps lk rest) by (repeat apply keeps_orelse; eauto with frame).
  assert (Hk : keeps lk ((s ← get_av av; when (have_fastchunks (ms_max_fast s)) (__malloc_consolidate av));; rest)).
  { apply preserves_bind; [apply _|apply keeps_consolidate_if|done]. }
  apply (Hk h a h'). rewrite <-E. unfold mbind, st_bind. by destruct (get_av av h) as [[]|].
Qed.

Lemma keeps_get_unmapped_area {lk} size : keeps lk (get_unmapped_area size).
Proof. unfold get_unmapped_area. keeps. Qed.
Lemma keeps_mmap_header {lk} m s : keeps lk (mmap_header m s).
Proof. unfold mmap_header. keeps. Qed.
Lemma keeps_init_unit_top {lk} t s : keeps lk (init_unit_top t s).
Proof. unfold init_unit_top. keeps. Qed.
Lemma keeps_carve {lk} u p nb size : keeps lk (carve u p nb size).
Proof. unfold carve. keeps. Qed.
Lemma keeps_stats_sbrk {lk} av : keeps lk (upd_av av stats_sbrk).
Proof. apply keeps_upd_av. intros []. unfold stats_sbrk. simpl. by repeat case_match. Qed.
#[export] Hint Resolve keeps_carve keeps_stats_sbrk keeps_malloc_search keeps_get_unmapped_area
  keeps_mmap_header keeps_init_unit_top : frame.

(** * Release, clearing and copying *)

Lemma keeps_free_fast {lk} av p size : keeps lk (free_fast av p size).
Proof. unfold free_fast. keeps. Qed.
Lemma keeps_free_consolidate {lk} av u p size : keeps lk (free_consolidate av u p size).
Proof. unfold free_consolidate. keeps. Qed.
Lemma keeps_memset {lk} a n : keeps lk (memset_ a n).
Proof.
  intros s x s' E. unfold memset_ in E. destruct (range_in_channel s a n); [|done].
  injection E as _ <-. by split.
Qed.
Lemma keeps_memcpy {lk} d s n : keeps lk (memcpy_ d s n).
Proof.
  intros h x h' E. unfold memcpy_ in E. destruct (_ && _); [|done].
  injection E as _ <-. by split.
Qed.
#[export] Hint Resolve keeps_free_fast keeps_free_consolidate keeps_memset keeps_memcpy : frame.
Lemma keeps_clear_chunk {lk} m : keeps lk (clear_chunk m).
Proof. unfold clear_chunk. keeps. Qed.
Lemma keeps_copy_words {lk} o n s : keeps lk (copy_words o n s).
Proof. unfold copy_words. keeps. Qed.
#[export] Hint Resolve keeps_clear_chunk keeps_copy_words : frame.

(** The chunk-level code of the allocator works on memory that clients can
    write, so it may be led to any word.  Whatever the memory holds, as long as
    the code follows no pointer out of the channel and the bins (it would end
    in [Wild], about which nothing is said), it does not change the lists of
    units and states, the address ranges of units, the state a unit belongs to,
    the label and thresholds of a state, the break or the lock.  This covers the
    searches of [ablib_malloc] over fastbins, small bins, the unsorted list and
    large bins, the split of a unit's top, both paths of [ablib_free] that keep
    the chunk, consolidation, and the clearing and copying of [ablib_calloc] and
    [ablib_realloc]. *)
Lemma chunk_code_frame av nb u p size oldmem newmem :
  keeps true (malloc_search av nb) ∧ keeps true (malloc_unit_top av nb) ∧ keeps true (carve u p nb size) ∧
  keeps true (free_fast av p size) ∧ keeps true (free_consolidate av u p size) ∧
  keeps true (s ← get_av av; when (have_fastchunks (ms_max_fast s)) (__malloc_consolidate av)) ∧
  keeps true (clear_chunk newmem) ∧ keeps true (copy_words oldmem newmem size).
Proof.
  split_and!; auto using keeps_malloc_search, keeps_malloc_unit_top, keeps_carve, keeps_free_fast,
    keeps_free_consolidate, keeps_consolidate_if, keeps_clear_chunk, keeps_copy_words.
Qed.
