(* ===== verification/Lock.v ===== *)
(** The allocator's lock: it stays held from its acquisition on, so the
    recursion of [ablib_malloc] is at most two levels deep. *)

From S2P Require Import Prelude LinkedList Label Memory Client Chunk Heap Consolidate Os Malloc Free Frame.

(** * Computations that leave the lock alone *)

Definition lock_eq (h h' : heap) : Prop := h_malloc_lock h' = h_malloc_lock h.
#[export] Instance lock_eq_preorder : PreOrder lock_eq.
Proof. split; [done|]. intros h1 h2 h3 H1 H2. by unfold lock_eq in *; rewrite H2. Qed.

Lemma lock_eq_keeps {A} (m : hm A) : keeps true m → preserves lock_eq m.
Proof. intros Hk h a h' E. by apply (me_lock _ _ _ (Hk _ _ _ E)). Qed.
Lemma lock_eq_upd_av av f : preserves lock_eq (upd_av av f).
Proof. intros h u h' E. by apply upd_av_inv in E as (t & _ & ->). Qed.
Lemma lock_eq_modify f : (∀ h, h_malloc_lock (f h) = h_malloc_lock h) → preserves lock_eq (modify f).
Proof. intros Hf h u h' E. apply modify_inv in E as ->. apply Hf. Qed.

Create HintDb locks.
#[export] Hint Resolve preserves_ret preserves_fail preserves_get preserves_gets preserves_lift
  lock_eq_upd_av : locks.

Ltac locks_step :=
  match goal with
  | |- preserves _ (mbind _ _) => apply preserves_bind; [apply _| |intros ?]
  | |- preserves _ (when _ _) => apply preserves_when; [apply _|]
  | |- preserves _ (for_ _ _) => apply preserves_for; [apply _|intros ?]
  | |- preserves _ (modify _) => apply lock_eq_modify; by intros []
  | |- preserves _ (if ?x then _ else _) => destruct x
  | |- preserves _ _ => apply lock_eq_keeps; solve [keeps]
  end.
Ltac locks := repeat (first [solve [eauto with locks typeclass_instances] | locks_step]).

Lemma lock_eq_init_state av : preserves lock_eq (malloc_init_state av).
Proof. unfold malloc_init_state, init_bin. locks. Qed.
#[export] Hint Resolve lock_eq_init_state : locks.
Lemma lock_eq_consolidate av : preserves lock_eq (__malloc_consolidate av).
Proof. unfold __malloc_consolidate, map_channel. locks. Qed.
#[export] Hint Resolve lock_eq_consolidate : locks.
Lemma lock_eq_first_use av L : preserves lock_eq (init_on_first_use av L).
Proof. unfold init_on_first_use. locks. Qed.
Lemma lock_eq_libc_malloc n : preserves lock_eq (libc_malloc n).
Proof. intros h a h' E. unfold libc_malloc in E. repeat case_match; simplify_eq; done. Qed.
#[export] Hint Resolve lock_eq_first_use lock_eq_libc_malloc : locks.
Lemma lock_eq_new_mstate : preserves lock_eq new_mstate.
Proof. unfold new_mstate. locks. Qed.
#[export] Hint Resolve lock_eq_new_mstate : locks.

(** * Equality of computations from locked states on *)

Section Depth.
Context {K : Type} `{AbOs K}.

Definition locked (s : abst K) : Prop := h_malloc_lock (ab_heap s) = true.
Definition agree {A} (m m' : am K A) : Prop := ∀ s, locked s → m s = m' s.

Lemma bind_ext {A B} (m : am K A) (k k' : A → am K B) s :
  (∀ a s', m s = Ret (a, s') → k a s' = k' a s') → (m ≫= k) s = (m ≫= k') s.
Proof. intros Hk. unfold mbind, st_bind. destruct (m s) as [[a s1]|] eqn:E; [by apply Hk|done]. Qed.
Lemma agree_bind {A B} (m : am K A) (k k' : A → am K B) :
  (∀ s a s', locked s → m s = Ret (a, s') → locked s') → (∀ a, agree (k a) (k' a)) →
  agree (m ≫= k) (m ≫= k').
Proof.
  intros Hm Hk s Hs. apply bind_ext. intros a s1 E. apply Hk. by eapply Hm.
Qed.
Lemma locked_lh {A} (m : hm A) s a s' : preserves lock_eq m → locked s → lh m s = Ret (a, s') → locked s'.
Proof.
  intros Hm Hs E. unfold lh in E. destruct (m (ab_heap s)) as [[x h]|] eqn:Em; [|done].
  injection E as _ <-. unfold locked. simpl. by rewrite (Hm _ _ _ Em).
Qed.
Lemma agree_lh {A B} (m : hm A) (k k' : A → am K B) :
  preserves lock_eq m → (∀ a, agree (k a) (k' a)) → agree (lh m ≫= k) (lh m ≫= k').
Proof. intros Hm. apply agree_bind. intros s a s' Hs. by apply locked_lh. Qed.
Lemma agree_refl {A} (m : am K A) : agree m m.
Proof. done. Qed.

Lemma lh_lookup_lock L (s s' : abst K) av :
  lh (lookup_mstate_by_label L) s = Ret (av, s') → h_malloc_lock (ab_heap s') = h_malloc_lock (ab_heap s).
Proof.
  unfold lh, lookup_mstate_by_label.
  destruct (linked_list_lookup (h_mstate_list (ab_heap s)) (_cmp_mstate (ab_heap s) L)); [|done].
  by intros [= _ <-].
Qed.

(** A call with the lock held does not depend on how deep it may recurse. *)
Lemma locked_call f g abt p bytes L : agree (malloc_body f abt p bytes L) (malloc_body g abt p bytes L).
Proof.
  intros s Hs. unfold malloc_body, mbind, st_bind.
  destruct (lh (lookup_mstate_by_label L) s) as [[av s0]|] eqn:E0; [|done].
  apply lh_lookup_lock in E0. rewrite Hs in E0. destruct (bytes =? 0); [done|].
  unfold lh, lock. by rewrite E0.
Qed.

Lemma malloc_alloc_ext f g abt p nb av L :
  (∀ b, agree (f p b L) (g p b L)) → agree (__malloc_alloc f abt p nb av L) (__malloc_alloc g abt p nb av L).
Proof.
  intros Hfg. apply agree_lh; [apply lock_eq_keeps; keeps|]. intros t.
  destruct (have_fastchunks (ms_max_fast t)); [|apply agree_refl].
  apply agree_bind; [|intros _].
  { intros s u s' Hs E. by apply assertb_inv in E as [_ ->]. }
  apply agree_lh; [apply lock_eq_consolidate|done].
Qed.

(** The whole body: what follows the acquisition of the lock runs with the
    lock held, up to its release. *)
Lemma malloc_body_ext f g abt p bytes L s :
  (∀ b, agree (f p b L) (g p b L)) → malloc_body f abt p bytes L s = malloc_body g abt p bytes L s.
Proof.
  intros Hfg. unfold malloc_body. apply bind_ext. intros av s0 _.
  destruct (bytes =? 0); [done|]. apply bind_ext. intros [] s1 E.
  assert (Hs : locked s1).
  { unfold lh, lock in E. destruct (h_malloc_lock (ab_heap s0)); [done|]. by injection E as <-. }
  clear E; revert s1 Hs.
  match goal with |- ∀ s1, locked s1 → ?x s1 = ?y s1 => change (agree x y) end.
  apply agree_bind; [|intros bv].
  { intros t a t' Ht. destruct (av =? 0); [by apply locked_lh; locks|]. by intros [= <- <-]. }
  destruct (checked_request2size bytes) as [nb|]; [|apply agree_refl].
  apply agree_lh; [apply lock_eq_keeps; keeps|intros m].
  apply agree_lh; [|intros r].
  { destruct (negb _); [locks|]. apply lock_eq_keeps, keeps_malloc_search. }
  apply agree_bind; [|intros r'].
  { intros t a t' Ht. destruct r; [by intros [= <- <-]|].
    apply locked_lh; [apply lock_eq_keeps, keeps_malloc_unit_top|done]. }
  intros t Ht. unfold mbind, st_bind.
  destruct r' as [x|]; [done|]. by rewrite (malloc_alloc_ext f g).
Qed.

(** C31: The recursion of [ablib_malloc] through [__malloc_alloc] is bounded: the
    call is made with the lock held, and a call that finds the lock held
    stops.  So the result, whatever it is, does not depend on the bound of the
    recursion once that is two, and the model's exhausted bound is never
    reached. *)
Theorem malloc_two_levels n abt p bytes L (s : abst K) :
  ablib_malloc_rec (2 + n) abt p bytes L s = ablib_malloc abt p bytes L s.
Proof.
  unfold ablib_malloc. cbn [ablib_malloc_rec Nat.add]. apply malloc_body_ext. intros b. apply locked_call.
Qed.


(** Whether [ablib_malloc] gives the lock back.  A call that returns found
    the lock free, unless it asked for no bytes at all, and leaves it free
    exactly when the size can be normalised: the check of an oversized request
    returns from within the critical section. *)
Theorem malloc_lock_released abt p bytes L (s : abst K) :
  match ablib_malloc abt p bytes L s with
  | Ret (_, s') =>
      if bytes =? 0 then h_malloc_lock (ab_heap s') = h_malloc_lock (ab_heap s)
      else h_malloc_lock (ab_heap s) = false ∧
           h_malloc_lock (ab_heap s') = bool_decide (checked_request2size bytes = None)
  | Fault _ => True
  end.
Proof.
  destruct (ablib_malloc abt p bytes L s) as [[r s']|] eqn:E; [|done].
  unfold ablib_malloc in E. cbn [ablib_malloc_rec] in E. unfold malloc_body at 1 in E.
  bstep E as av0 s0 E0. apply lh_lookup_lock in E0.
  destruct (bytes =? 0); [by injection E as _ <-|]. rewrite <-E0.
  bstep E as u s1 E1. unfold lh, lock in E1. destruct (h_malloc_lock (ab_heap s0)); [done|].
  split; [done|]. injection E1 as _ E1. assert (Hs : locked s1) by (by subst s1). clear E1.
  bstep E as av s2 E2. assert (Hs2 : locked s2).
  { destruct (av0 =? 0); [by eapply locked_lh in E2; [..|locks|]|]. by injection E2 as _ <-. }
  destruct (checked_request2size bytes) as [nb|]; [|injection E as _ <-; exact Hs2].
  do 4 binv E. bstep E as v s7 E7. by injection E7 as _ <-; injection E as _ <-.
Qed.
End Depth.
