(* ===== verification/Protection.v ===== *)
(** Page protections follow the labels.

    [safe] relates the arbiter's bookkeeping to the kernel: every client of
    the table has, on the pages of every unit, at most the access its label
    and ownership justify.  This file shows that the allocator keeps it for
    requests that fit into a unit, whatever clients have written into the
    memory of the channel, as long as the request returns.  [exact_perm] is the
    access the policy gives, stated with the flow relation alone.  The kernel is
    any implementation of the laws of the system call interface. *)

From S2P Require Import Prelude LinkedList Label Memory Client Chunk Heap Consolidate Os Malloc Free Frame.

(** * The invariant *)

(** What the policy allows: reading where information may flow from, writing
    where it may also flow to. *)
Definition perm_ok (d : client_desc) (L : list Z) (b : Z) : Prop :=
  let L1 := unpack (label d) in
  let O1 := unpack (ownership d) in
  (Z.land b PROT_WRITE ≠ 0 → can_flow L1 O1 L ∧ can_flow L O1 L1) ∧
  (Z.land b PROT_READ ≠ 0 → can_flow L O1 L1).

(** The access of a client to a unit of label [L]: that of the policy, or any
    access for the thread [o] on whose behalf the unit was added, which may
    write to it. *)
Definition access_ok (o : Z) (d : client_desc) (L : list Z) (b : Z) : Prop :=
  perm_ok d L b ∨ (o = pid d ∧ can_flow (unpack (label d)) (unpack (ownership d)) L).

(** The parameters [malloc_init_state] sets, and a label of eight categories. *)
Definition tuned (s : malloc_state) : Prop :=
  length (ms_label s) = 8%nat ∧ ms_mmap_threshold s = UNIT_SIZE.

Record unit_ok (lim : Z) (x : unit_state) : Prop := {
  uo_aligned : page_aligned (addr x) = true;
  uo_low : AB_HEAP_START ≤ addr x;
  uo_len : length_ x = UNIT_SIZE;
  uo_high : addr x + length_ x ≤ lim;
}.

(** The units [us] and states [avs] of a heap whose break is [lim]. *)
Record heap_ok (lim : Z) (h : heap) (us avs : list Z) : Prop := {
  ho_ulist : ∃ ps, ll_rep (h_ustate_list h) ps ∧ ps.*2 = us;
  ho_mlist : ∃ ps, ll_rep (h_mstate_list h) ps ∧ ps.*2 = avs;
  ho_mmlist : h_mmapped_ustate_list h = init_linked_list;
  ho_unit u : u ∈ us → ∃ x, h_ustates h !! u = Some x ∧ unit_ok lim x ∧ unit_av x ∈ avs;
  ho_state av : av ∈ avs → ∃ s, h_mstates h !! av = Some s ∧ tuned s;
  ho_disj u v x y : u ∈ us → v ∈ us → u ≠ v → h_ustates h !! u = Some x → h_ustates h !! v = Some y →
    addr x + UNIT_SIZE ≤ addr y ∨ addr y + UNIT_SIZE ≤ addr x;
  ho_nodup : NoDup us;
  ho_next : 0 < h_libc_next h;
  ho_fresh_u u : is_Some (h_ustates h !! u) → 0 < u < h_libc_next h;
  ho_fresh_s av : is_Some (h_mstates h !! av) → 0 < av < h_libc_next h;
}.

Definition tsize : Z := Z.land (UNIT_SIZE - 3 * SIZE_SZ) (not32 MALLOC_ALIGN_MASK).

Section Protection.
Context {K : Type} `{HK : AbOsLaws K}.
Variable abt : arbiter_thread.

Definition is_client (c : Z) (d : client_desc) : Prop :=
  (∃ ps, ll_rep (client_list abt) ps ∧ c ∈ ps.*2) ∧ descs abt !! c = Some d.

Record clients_ok (k : K) : Prop := {
  co_table : ∃ ps, table_ok abt ps;
  co_pids c1 d1 c2 d2 : is_client c1 d1 → is_client c2 d2 → pid d1 = pid d2 → c1 = c2;
  co_member c d : is_client c d → os_member k (pid d);
}.

(** The label of a unit. *)
Definition unit_label (h : heap) (x : unit_state) (L : list Z) : Prop :=
  ∃ s, h_mstates h !! unit_av x = Some s ∧ ms_label s = L.

Record safe (s : abst K) (us avs : list Z) : Prop := {
  sf_heap : heap_ok (os_brk (ab_os s)) (ab_heap s) us avs;
  sf_clients : clients_ok (ab_os s);
  sf_curbrk : h_ab_curbrk (ab_heap s) = 0 ∨ h_ab_curbrk (ab_heap s) = os_brk (ab_os s);
  sf_brk : page_aligned (os_brk (ab_os s)) = true ∧ AB_HEAP_START ≤ os_brk (ab_os s) ≤ TASK_SIZE;
  sf_perm : ∃ ow : Z → Z, ∀ c d u x L g,
    is_client c d → u ∈ us → h_ustates (ab_heap s) !! u = Some x → unit_label (ab_heap s) x L →
    in_pages (addr x) (length_ x) g → ∃ b, os_prot (ab_os s) (pid d) g = Some b ∧ access_ok (ow u) d L b;
  sf_mapped q u x g :
    os_member (ab_os s) q → u ∈ us → h_ustates (ab_heap s) !! u = Some x →
    in_pages (addr x) (length_ x) g → is_Some (os_prot (ab_os s) q g);
  sf_fresh c d : is_client c d → c < h_libc_next (ab_heap s);
}.

(** * Chunk-level code *)

Lemma meta_unit h h' u x' :
  meta_eq h h' → h_ustates h' !! u = Some x' →
  ∃ x, h_ustates h !! u = Some x ∧ unit_meta x = unit_meta x'.
Proof.
  intros M Hx. pose proof (me_units _ _ _ M u) as E. rewrite Hx in E.
  destruct (h_ustates h !! u) as [x|]; [|done]. injection E as E1 E2 E3. exists x. split; [done|].
  unfold unit_meta. congruence.
Qed.
Lemma meta_unit' h h' u x :
  meta_eq h h' → h_ustates h !! u = Some x →
  ∃ x', h_ustates h' !! u = Some x' ∧ unit_meta x' = unit_meta x.
Proof.
  intros M Hx. pose proof (me_units _ _ _ M u) as E. rewrite Hx in E.
  destruct (h_ustates h' !! u) as [x'|]; [|done]. injection E as E1 E2 E3. exists x'. split; [done|].
  unfold unit_meta. congruence.
Qed.
Lemma meta_state h h' av s :
  meta_eq h h' → h_mstates h !! av = Some s →
  ∃ s', h_mstates h' !! av = Some s' ∧ state_meta s' = state_meta s.
Proof.
  intros M Hs. pose proof (me_states _ _ _ M av) as E. rewrite Hs in E.
  destruct (h_mstates h' !! av) as [s'|]; [|done]. injection E as E1 E2 E3 E4 E5. exists s'. split; [done|].
  unfold state_meta. congruence.
Qed.
Lemma meta_state' h h' av s' :
  meta_eq h h' → h_mstates h' !! av = Some s' →
  ∃ s, h_mstates h !! av = Some s ∧ state_meta s = state_meta s'.
Proof.
  intros M Hs. pose proof (me_states _ _ _ M av) as E. rewrite Hs in E.
  destruct (h_mstates h !! av) as [s|]; [|done]. injection E as E1 E2 E3 E4 E5. exists s. split; [done|].
  unfold state_meta. congruence.
Qed.

Lemma tuned_meta s s' : state_meta s' = state_meta s → tuned s → tuned s'.
Proof. intros [= H1 H2 H3 H4 H5] [? ?]. split; congruence. Qed.

Lemma unit_label_meta h h' x x' L :
  meta_eq h h' → unit_meta x = unit_meta x' → unit_label h' x' L → unit_label h x L.
Proof.
  intros M [= H1 H2 H3] (s' & Hs & HL). destruct (meta_state' _ _ _ _ M Hs) as (s & E & [= E1 _ _ _ _]).
  exists s. split; congruence.
Qed.

Lemma heap_ok_meta lim h h' us avs : meta_eq h h' → heap_ok lim h us avs → heap_ok lim h' us avs.
Proof.
  intros M O. split.
  - rewrite (me_ulist _ _ _ M). apply O.
  - rewrite (me_mlist _ _ _ M). apply O.
  - rewrite (me_mmlist _ _ _ M). apply O.
  - intros u Hu. destruct (ho_unit _ _ _ _ O u Hu) as (x & Hx & [] & Hav).
    destruct (meta_unit' _ _ _ _ M Hx) as (x' & Hx' & [= E1 E2 E3]).
    exists x'. split; [done|]. split; [split|]; congruence || lia.
  - intros av Hav. destruct (ho_state _ _ _ _ O av Hav) as (s & Hs & Ht).
    destruct (meta_state _ _ _ _ M Hs) as (s' & Hs' & E). eauto using tuned_meta.
  - intros u v x y Hu Hv Hne Hx Hy.
    destruct (meta_unit _ _ _ _ M Hx) as (x' & Hx' & [= E1 _ _]).
    destruct (meta_unit _ _ _ _ M Hy) as (y' & Hy' & [= E2 _ _]).
    rewrite <-E1, <-E2. by apply (ho_disj _ _ _ _ O u v).
  - apply O.
  - rewrite (me_next _ _ _ M). apply O.
  - intros u [x Hx]. destruct (meta_unit _ _ _ _ M Hx) as (y & Hy & _).
    rewrite (me_next _ _ _ M). apply (ho_fresh_u _ _ _ _ O). by eexists.
  - intros av [x Hx]. destruct (meta_state' _ _ _ _ M Hx) as (y & Hy & _).
    rewrite (me_next _ _ _ M). apply (ho_fresh_s _ _ _ _ O). by eexists.
Qed.

Lemma safe_meta h h' k us avs : meta_eq h h' → safe (AbSt h k) us avs → safe (AbSt h' k) us avs.
Proof.
  intros M S. split; simpl.
  - eapply heap_ok_meta; [done|apply S].
  - apply S.
  - rewrite (me_curbrk _ _ _ M). apply S.
  - apply S.
  - destruct (sf_perm _ _ _ S) as [ow Hp]. exists ow. intros c d u x' L g Hc Hu Hx HL Hg.
    destruct (meta_unit _ _ _ _ M Hx) as (x & Hx' & E). pose proof E as [= E1 E2 E3].
    eapply (Hp c d u x); simpl; eauto using unit_label_meta. congruence.
  - intros q u x' g Hq Hu Hx Hg. destruct (meta_unit _ _ _ _ M Hx) as (x & Hx' & [= E1 E2 E3]).
    apply (sf_mapped _ _ _ S q u x g Hq Hu Hx'). congruence.
  - intros c d Hc. rewrite (me_next _ _ _ M). by apply (sf_fresh _ _ _ S c d).
Qed.

(** A computation on the heap that keeps the bookkeeping. *)
Lemma safe_keeps {A} (m : hm A) s us avs a s' :
  keeps false m → safe s us avs → lh m s = Ret (a, s') →
  safe s' us avs ∧ ab_os s' = ab_os s ∧ m (ab_heap s) = Ret (a, ab_heap s').
Proof.
  intros Hk S E. unfold lh in E. destruct (m (ab_heap s)) as [[x h]|] eqn:Em; [|done].
  injection E as -> <-. split; [|done]. destruct s as [h0 k]. eapply safe_meta; [|done]. by eapply Hk.
Qed.

(** * New states *)

Lemma libc_malloc_inv n h p h' :
  libc_malloc n h = Ret (p, h') → 0 < n →
  (p = 0 ∧ h' = h) ∨ (p = h_libc_next h ∧ h' = set_h_libc_next (p + n + 8) h).
Proof.
  intros E Hn. unfold libc_malloc in E. destruct (_ <? _); injection E as <- <-; [by right|by left].
Qed.

(** Adding a state that no unit and no list refers to. *)
Lemma safe_new_mstate s us avs av s' :
  safe s us avs → lh new_mstate s = Ret (av, s') →
  safe s' us avs ∧ ab_os s' = ab_os s ∧ av ≠ 0 ∧ av ∉ avs ∧
  h_mstates (ab_heap s') !! av = Some zero_mstate ∧
  (∀ u x, u ∈ us → h_ustates (ab_heap s') !! u = Some x → unit_av x ≠ av).
Proof.
  intros S E. unfold lh, new_mstate, mbind, st_bind in E.
  destruct (libc_malloc SIZEOF_MALLOC_STATE (ab_heap s)) as [[p h1]|] eqn:Em; [|done].
  pose proof (sf_heap _ _ _ S) as O. pose proof (ho_next _ _ _ _ O) as Hn.
  apply libc_malloc_inv in Em as [[-> ->]|[-> ->]]; [done| |done].
  set (p := h_libc_next (ab_heap s)) in *. rewrite (proj2 (Z.eqb_neq p 0)) in E by lia.
  injection E as <- <-.
  assert (Hf : h_mstates (ab_heap s) !! p = None).
  { destruct (h_mstates (ab_heap s) !! p) eqn:Hp; [|done].
    pose proof (ho_fresh_s _ _ _ _ O p (ex_intro _ _ Hp)). lia. }
  assert (Hne : ∀ av, is_Some (h_mstates (ab_heap s) !! av) → av ≠ p).
  { intros av [x Hx] ->. congruence. }
  assert (Hav : ∀ av, av ∈ avs → av ≠ p).
  { intros av Hav. destruct (ho_state _ _ _ _ O av Hav) as (x & Hx & _). apply Hne. by eexists. }
  assert (Hu : ∀ u x, u ∈ us → h_ustates (ab_heap s) !! u = Some x → unit_av x ≠ p).
  { intros u x Hu Hx. destruct (ho_unit _ _ _ _ O u Hu) as (y & Hy & _ & Hin).
    assert (x = y) as -> by congruence. by apply Hav. }
  split; [|split; [done|split; [lia|split; [intros Hin; by apply (Hav p)|split; [simpl; by rewrite lookup_insert_eq|exact Hu]]]]].
  split; simpl; try solve [apply S].
  - split; simpl; try solve [apply O].
    + intros av Hin. rewrite lookup_insert_ne by (symmetry; by apply Hav). by apply (ho_state _ _ _ _ O).
    + unfold SIZEOF_MALLOC_STATE. lia.
    + intros u Hx. pose proof (ho_fresh_u _ _ _ _ O u Hx). unfold SIZEOF_MALLOC_STATE. lia.
    + intros av. unfold SIZEOF_MALLOC_STATE. destruct (decide (p = av)) as [<-|]; [lia|].
      rewrite lookup_insert_ne by done. intros Hx. pose proof (ho_fresh_s _ _ _ _ O av Hx). lia.
  - destruct (sf_perm _ _ _ S) as [ow Hp]. exists ow. intros c d u x L g Hc Hin Hx (t & Ht & HL). simpl in Ht. rewrite lookup_insert_ne in Ht by (symmetry; by eapply Hu).
    apply (Hp c d u x L g Hc Hin Hx). by exists t.
  - intros c d Hc. pose proof (sf_fresh _ _ _ S c d Hc). unfold SIZEOF_MALLOC_STATE. lia.
Qed.

(** * First use of a state *)

Lemma ll_rep_nil l : ll_rep l [] → l = init_linked_list.
Proof.
  intros R. destruct l as [hd tl n ns]. pose proof (rep_head _ _ R) as H1.
  pose proof (rep_tail _ _ R) as H2. pose proof (rep_num _ _ R) as H3. simpl in *. subst.
  unfold init_linked_list. f_equal. apply map_empty. intros i.
  destruct (ns !! i) eqn:E; [|done]. pose proof (rep_dom _ _ R i (ex_intro _ _ E)). set_solver.
Qed.

(** An empty list of states means no units; resetting the lists is then the
    identity on the bookkeeping. *)
Lemma reset_meta lim h us avs u h' :
  heap_ok lim h us avs →
  when (num (h_mstate_list h) =? 0)
    (modify (set_h_mstate_list init_linked_list);;
     modify (set_h_ustate_list init_linked_list);;
     modify (set_h_mmapped_ustate_list init_linked_list);;
     modify (set_h_ab_top CHANNEL_ADDR);;
     map_channel) h = Ret (u, h') → meta_eq h h'.
Proof.
  intros O E. destruct (Z.eqb_spec (num (h_mstate_list h)) 0) as [Hn|]; cbn [when] in E.
  - injection E as _ <-. destruct (ho_mlist _ _ _ _ O) as (ps & R & Hav).
    apply (ll_rep_num _ _ R) in Hn as ->. destruct (ho_ulist _ _ _ _ O) as (qs & R' & Hus).
    assert (us = []) as ->.
    { destruct us as [|v us]; [done|]. destruct (ho_unit _ _ _ _ O v) as (x & _ & _ & Hin); [by left|].
      simpl in Hav. subst avs. set_solver. }
    destruct qs; [|done]. apply ll_rep_nil in R, R'. pose proof (ho_mmlist _ _ _ _ O). split; simpl; congruence || done.
  - injection E as _ <-. reflexivity.
Qed.

(** Changing the fields of a state that no unit's label depends on. *)
Lemma safe_upd_state h k us avs av t t' :
  safe (AbSt h k) us avs → h_mstates h !! av = Some t →
  (av ∈ avs → tuned t') →
  (∀ u x, u ∈ us → h_ustates h !! u = Some x → unit_av x = av → ms_label t' = ms_label t) →
  safe (AbSt (set_h_mstates (<[av := t']> (h_mstates h)) h) k) us avs.
Proof.
  intros S Ht Hin Hlab. pose proof (sf_heap _ _ _ S) as O. simpl in O. split; simpl; try solve [apply S].
  - split; simpl; try solve [apply O].
    + intros bv Hbv. destruct (decide (av = bv)) as [<-|].
      * exists t'. rewrite lookup_insert_eq. split; [done|]. by apply Hin.
      * rewrite lookup_insert_ne by done. by apply (ho_state _ _ _ _ O).
    + intros bv. destruct (decide (av = bv)) as [<-|].
      * intros _. apply (ho_fresh_s _ _ _ _ O). by eexists.
      * rewrite lookup_insert_ne by done. apply (ho_fresh_s _ _ _ _ O).
  - destruct (sf_perm _ _ _ S) as [ow Hp]. exists ow. intros c d u x L g Hc Hu Hx (w & Hw & HL). simpl in Hw.
    apply (Hp c d u x L g Hc Hu Hx). destruct (decide (av = unit_av x)) as [He|].
    + rewrite <-He, lookup_insert_eq in Hw. exists t. simpl. rewrite <-He.
      split; [done|]. rewrite <-(Hlab u x) by done. congruence.
    + rewrite lookup_insert_ne in Hw by done. by exists w.
Qed.

(** Entering a state into the list of states. *)
Lemma safe_insert_state h k us avs av t l' :
  safe (AbSt h k) us avs → h_mstates h !! av = Some t → tuned t →
  list_insert_tail (malloc_node (h_mstate_list h)) (h_mstate_list h) av = Ret l' →
  safe (AbSt (set_h_mstate_list l' h) k) us (avs ++ [av]).
Proof.
  intros S Ht Hd Hi. pose proof (sf_heap _ _ _ S) as O. simpl in O.
  destruct (ho_mlist _ _ _ _ O) as (ps & R & Hps).
  assert (Hm : malloc_node (h_mstate_list h) ≠ 0).
  { intros E. rewrite E in Hi. done. }
  destruct (list_insert_tail_alloc _ _ av R Hm) as (l2 & E2 & R2).
  assert (l2 = l') as -> by congruence. split; simpl; try solve [apply S].
  split; simpl; try solve [apply O].
  - eexists. split; [exact R2|]. by rewrite fmap_app, Hps.
  - intros u Hu. destruct (ho_unit _ _ _ _ O u Hu) as (x & Hx & Ho & Hav). exists x. set_solver.
  - intros bv [Hb|Hb%list_elem_of_singleton]%elem_of_app; [by apply (ho_state _ _ _ _ O)|]. subst. eauto.
Qed.

Lemma safe_first_use s us avs av t L u s' :
  safe s us avs → h_mstates (ab_heap s) !! av = Some t → length L = 8%nat →
  (av ∈ avs ∧ ms_label t = L) ∨ (av ∉ avs ∧ ms_max_fast t = 0 ∧ length (ms_label t) = 8%nat) →
  lh (init_on_first_use av L) s = Ret (u, s') →
  ∃ avs' t', safe s' us avs' ∧ ab_os s' = ab_os s ∧ av ∈ avs' ∧
    h_mstates (ab_heap s') !! av = Some t' ∧ ms_label t' = L ∧ (av ∉ avs → avs' = avs ++ [av]).
Proof.
  destruct s as [h k]. simpl. intros S Ht HL Hor E. unfold lh in E. simpl in E.
  destruct (init_on_first_use av L h) as [[u' h']|] eqn:Ei; [|done]. injection E as _ <-.
  unfold init_on_first_use in Ei. binv Ei. apply get_av_inv in E as [Et ->]. rewrite Ht in Et. injection Et as <-.
  destruct (Z.eqb_spec (ms_max_fast t) 0) as [H0|H0]; cbn [when] in Ei.
  2:{ injection Ei as _ <-. destruct Hor as [[Hin Hl]|(_ & ? & _)]; [|done]. by exists avs, t. }
  binv Ei. unfold __malloc_consolidate in E. binv E. apply get_av_inv in E0 as [Et ->].
  rewrite Ht in Et. injection Et as <-. rewrite H0 in E. cbn [Z.eqb negb] in E.
  binv E. apply gets_inv in E0 as [-> ->]. binv E. apply (reset_meta (os_brk k) _ us avs) in E0 as M1; [|apply S].
  unfold malloc_init_state in E. binv E.
  assert (M2 : meta_eq s0 s1). { revert E1. apply preserves_for; [apply _|]. intros i. unfold init_bin. keeps. }
  pose proof (safe_meta _ _ k us avs (transitivity M1 M2) S) as S2.
  binv E. apply upd_av_inv in E2 as (t2 & Ht2 & ->).
  destruct (meta_state _ _ _ _ (transitivity M1 M2) Ht) as (t2' & Ht2' & El). assert (t2' = t2) as -> by congruence.
  injection El as El _ _ _ _.
  assert (Hl8 : length (ms_label t2) = 8%nat).
  { rewrite El. destruct Hor as [[Hin ->]|(_ & _ & ?)]; done. }
  set (t3 := init_tunables t2) in *.
  assert (Htun : tuned t3) by done.
  apply (safe_upd_state _ _ _ _ av t2 t3) in S2; [|done|done|done].
  binv E. apply gets_inv in E2 as [-> ->]. binv E. apply lift_inv in E2 as [Hl ->].
  apply modify_inv in E as ->.
  apply (safe_insert_state _ _ _ _ av t3 _ S2) in Hl; [|simpl; by rewrite lookup_insert_eq|done].
  apply upd_av_inv in Ei as (t4 & Ht4 & ->). simpl in Ht4. rewrite lookup_insert_eq in Ht4. injection Ht4 as <-.
  exists (avs ++ [av]), (set_ms_label L t3). split.
  - apply (safe_upd_state _ _ _ _ av t3); [exact Hl|simpl; by rewrite lookup_insert_eq|done|].
    intros v x Hv Hx Hxa. simpl. rewrite El. destruct Hor as [[_ ->]|(Hni & _)]; [done|].
    destruct (ho_unit _ _ _ _ (sf_heap _ _ _ S2) v Hv) as (y & Hy & _ & Hya). simpl in *. congruence.
  - split; [done|]. split; [apply elem_of_app; right; by apply list_elem_of_singleton|].
    simpl. by rewrite lookup_insert_eq.
Qed.

(** * Protection updates *)

Lemma policy_perm_ok d L :
  length L = 8%nat →
  perm_ok d L (prot_bits (check_mem_prot (unpack (label d)) (unpack (ownership d)) L)).
Proof.
  intros HL. set (L1 := unpack (label d)). set (O1 := unpack (ownership d)).
  assert (H1 : length L1 = 8%nat) by apply length_unpack.
  assert (H2 : length O1 = 8%nat) by apply length_unpack.
  unfold perm_ok. fold L1 O1. destruct (check_mem_prot L1 O1 L) eqn:E.
  - split; done.
  - apply check_mem_prot_R in E as [Hr _]; [|done..]. by split.
  - apply check_mem_prot_RW in E as [Hr Hw]; [|done..]. by split.
Qed.

Definition policy (d : client_desc) (L : list Z) : Z :=
  prot_bits (check_mem_prot (unpack (label d)) (unpack (ownership d)) L).

Lemma policy_range d L : 0 ≤ policy d L < 4.
Proof. unfold policy. destruct (check_mem_prot _ _ _); by vm_compute. Qed.

(** The access the policy gives the client [d] to memory of label [L], stated
    by the flow relation alone: it may read exactly when information may flow
    from the memory to it, and write exactly when information may flow both
    ways. *)
Definition exact_perm (d : client_desc) (L : list Z) (b : Z) : Prop :=
  let L1 := unpack (label d) in let O1 := unpack (ownership d) in
  0 ≤ b < 4 ∧
  (Z.land b PROT_READ ≠ 0 ↔ can_flow L O1 L1) ∧
  (Z.land b PROT_WRITE ≠ 0 ↔ can_flow L O1 L1 ∧ can_flow L1 O1 L).

Lemma policy_exact d L : length L = 8%nat → exact_perm d L (policy d L).
Proof.
  intros HL. split; [apply policy_range|]. unfold policy.
  set (L1 := unpack (label d)). set (O1 := unpack (ownership d)).
  assert (H1 : length L1 = 8%nat) by apply length_unpack.
  assert (H2 : length O1 = 8%nat) by apply length_unpack.
  pose proof (check_mem_prot_R L1 O1 L H1 H2 HL) as HR.
  pose proof (check_mem_prot_RW L1 O1 L H1 H2 HL) as HW.
  destruct (decide (check_label L O1 L1 None = 0)) as [Hr|Hr], (decide (check_label L1 O1 L None = 0)) as [Hw|Hw];
    rewrite check_label_None in Hr, Hw by done.
  - rewrite (proj2 HW (conj Hr Hw)). split; split; done.
  - rewrite (proj2 HR (conj Hr Hw)). split; split; try done; by intros [].
  - destruct (check_mem_prot L1 O1 L); [|by destruct (proj1 HR eq_refl)|by destruct (proj1 HW eq_refl)].
    split; split; try done; by intros [].
  - destruct (check_mem_prot L1 O1 L); [|by destruct (proj1 HR eq_refl)|by destruct (proj1 HW eq_refl)].
    split; split; try done; by intros [].
Qed.

(** The bits are determined. *)
Lemma exact_perm_unique d L b c : exact_perm d L b → exact_perm d L c → b = c.
Proof.
  intros (Hb & Rb & Wb) (Hc & Rc & Wc). rewrite <-Rc in Rb. rewrite <-Wc in Wb. revert Rb Wb. clear Rc Wc.
  assert (b = 0 ∨ b = 1 ∨ b = 2 ∨ b = 3) as [->|[->|[->| ->]]] by lia;
  assert (c = 0 ∨ c = 1 ∨ c = 2 ∨ c = 3) as [->|[->|[->| ->]]] by lia; try done;
  unfold PROT_READ, PROT_WRITE; cbn; intros [? ?] [? ?]; exfalso; naive_solver.
Qed.

(** The effect of the loop over the clients [cs] on the kernel. *)
Record updated (p a n : Z) (L : list Z) (cs : list Z) (k k' : K) : Prop := {
  up_member q : os_member k' q ↔ os_member k q;
  up_brk : os_brk k' = os_brk k;
  up_out q g : ¬ in_pages a n g → os_prot k' q g = os_prot k q g;
  up_other q g : (∀ c d, c ∈ cs → descs abt !! c = Some d → pid d = q → pid d = u32 p) →
    os_prot k' q g = os_prot k q g;
  up_set c d g : c ∈ cs → descs abt !! c = Some d → pid d ≠ u32 p → in_pages a n g →
    os_prot k' (pid d) g = Some (policy d L);
}.

Lemma prot_update_fold p a size L cs s s' :
  fold_outcome (prot_update_client abt p a size L) cs s = Ret s' →
  NoDup cs →
  (∀ c1 d1 c2 d2, c1 ∈ cs → c2 ∈ cs → descs abt !! c1 = Some d1 → descs abt !! c2 = Some d2 →
     pid d1 = pid d2 → c1 = c2) →
  (∀ c d, c ∈ cs → descs abt !! c = Some d → os_member (ab_os s) (pid d)) →
  (∀ c d g, c ∈ cs → descs abt !! c = Some d → in_pages a (PAGE_ALIGN size) g →
     is_Some (os_prot (ab_os s) (pid d) g)) →
  0 ≤ a → page_aligned a = true → 0 < size → a + size ≤ TASK_SIZE →
  ab_heap s' = ab_heap s ∧ updated p a (PAGE_ALIGN size) L cs (ab_os s) (ab_os s').
Proof.
  intros E Hnd Hinj Hmem Hmap Ha Hal Hsz Hhi. revert s E Hmem Hmap.
  induction cs as [|c cs IH]; intros s E Hmem Hmap.
  { injection E as <-. split; [done|]. split; set_solver. }
  apply NoDup_cons in Hnd as [Hni Hnd].
  assert (Hinj' : ∀ c1 d1 c2 d2, c1 ∈ cs → c2 ∈ cs → descs abt !! c1 = Some d1 → descs abt !! c2 = Some d2 →
     pid d1 = pid d2 → c1 = c2).
  { intros c1 d1 c2 d2 H1 H2. apply Hinj; by right. }
  cbn [fold_outcome] in E.
  destruct (prot_update_client abt p a size L c s) as [s1|] eqn:Ec; [|done].
  change (fold_outcome (prot_update_client abt p a size L) cs s1 = Ret s') in E.
  unfold prot_update_client, read_desc in Ec.
  destruct (descs abt !! c) as [d|] eqn:Hd; [|done]. cbn [mbind outcome_bind] in Ec.
  destruct (Z.eqb_spec (pid d) (u32 p)) as [Hp|Hp]; [injection Ec as <-|].
  - destruct (IH Hnd Hinj' s E) as [Hh U];
      [intros; eapply Hmem; [by right|done]|intros; eapply Hmap; [by right|done|done]|].
    split; [done|]. split; [apply U|apply U|apply U| |].
    + intros q g Hq. apply (up_other _ _ _ _ _ _ _ U). intros c' d' Hc'. apply Hq. by right.
    + intros c' d' g [->|Hc']%elem_of_cons Hd' Hne; [congruence|]. by apply (up_set _ _ _ _ _ _ _ U c').
  - fold (policy d L) in Ec.
    destruct (absys_mprotect (ab_os s) (pid d) a size (policy d L)) as [[rc k1]|] eqn:Em; [|done].
    injection Ec as <-. pose proof (Hmem c d ltac:(by left) Hd) as Hmd.
    destruct (mprotect_frame _ _ _ _ _ _ _ Em Hmd Ha ltac:(lia) (policy_range d L)) as (Fm & Fb & Fp).
    assert (Hset : ∀ g, in_pages a (PAGE_ALIGN size) g → os_prot k1 (pid d) g = Some (policy d L)).
    { apply (mprotect_ok _ _ _ _ _ _ _ Em); try done; [apply policy_range|].
      intros g Hg. eapply Hmap; [by left|done|done]. }
    destruct (IH Hnd Hinj' (AbSt (ab_heap s) k1) E) as [Hh U].
    { intros c' d' Hc' Hd'. apply Fm. eapply Hmem; [by right|done]. }
    { intros c' d' g Hc' Hd' Hg. simpl. destruct (Fp (pid d') g) as [->|(_ & _ & ->)]; [|by eexists].
      eapply Hmap; [by right|done|done]. }
    simpl in *. split; [done|]. split.
    + intros q. by rewrite (up_member _ _ _ _ _ _ _ U), Fm.
    + by rewrite (up_brk _ _ _ _ _ _ _ U), Fb.
    + intros q g Hg. rewrite (up_out _ _ _ _ _ _ _ U) by done. destruct (Fp q g) as [|(_ & ? & _)]; done.
    + intros q g Hq. rewrite (up_other _ _ _ _ _ _ _ U) by (intros; eapply Hq; [by right|done|done]).
      destruct (Fp q g) as [|(-> & _ & _)]; [done|]. exfalso. apply Hp. eapply Hq; [by left|done|done].
    + intros c' d' g [->|Hc']%elem_of_cons Hd' Hne Hg; [|by apply (up_set _ _ _ _ _ _ _ U c')].
      assert (d' = d) as -> by congruence. rewrite (up_other _ _ _ _ _ _ _ U); [by apply Hset|].
      intros c2 d2 Hc2 Hd2 Hpe. assert (c2 = c); [|by subst].
      eapply Hinj; [by right|by left|done|done|done].
Qed.

Lemma prot_update_total p a size L cs s :
  0 ≤ a → 0 ≤ size →
  (∀ c, c ∈ cs → ∃ d, descs abt !! c = Some d ∧ os_member (ab_os s) (pid d)) →
  ∃ s', fold_outcome (prot_update_client abt p a size L) cs s = Ret s'.
Proof.
  intros Ha Hsz. revert s. induction cs as [|c cs IH]; intros s Hm; [by exists s|]. cbn [fold_outcome].
  destruct (Hm c ltac:(by left)) as (d & Hd & Hmd).
  assert (∃ s1, prot_update_client abt p a size L c s = Ret s1 ∧
            ∀ q, os_member (ab_os s) q → os_member (ab_os s1) q) as (s1 & -> & Hq).
  { unfold prot_update_client, read_desc. rewrite Hd. cbn [mbind outcome_bind].
    destruct (pid d =? u32 p); [by exists s|]. fold (policy d L).
    destruct (mprotect_total (ab_os s) (pid d) a size (policy d L) Hmd Ha) as (rc & k & Ek). rewrite Ek.
    eexists. split; [done|]. intros q. simpl. by apply (mprotect_frame _ _ _ _ _ _ _ Ek Hmd Ha Hsz (policy_range d L)). }
  apply IH. intros c' Hc'. destruct (Hm c' ltac:(by right)) as (d' & Hd' & Hm'). eauto.
Qed.

(** * The break *)

Lemma ablib_brk_inv p a s rc s' :
  __ablib_brk p a s = Ret (rc, s') →
  ∃ r k', absys_brk (ab_os s) p a = Ret (r, k') ∧
    s' = AbSt (set_h_ab_curbrk r (ab_heap s)) k' ∧ rc = (if r <? a then - ENOMEM else 0).
Proof.
  unfold __ablib_brk. intros E. binv E. unfold sys in E0.
  destruct (absys_brk (ab_os s) p a) as [[r1 k1]|] eqn:Eb; [|done]. injection E0 as <- <-.
  injection E as <- <-. eauto.
Qed.

(** The kernel after the break was read or grown. *)
Record grown (k k' : K) (a n : Z) : Prop := {
  gr_member q : os_member k' q ↔ os_member k q;
  gr_out q g : ¬ in_pages a n g → os_prot k' q g = os_prot k q g;
  gr_in q g : os_member k q → in_pages a n g → os_prot k' q g = Some (Z.lor PROT_READ PROT_WRITE);
}.

Lemma in_pages_empty a n g : n ≤ 0 → ¬ in_pages a n g.
Proof. unfold in_pages. lia. Qed.

Lemma sbrk_init_spec p s b s' :
  (h_ab_curbrk (ab_heap s) = 0 ∨ h_ab_curbrk (ab_heap s) = os_brk (ab_os s)) →
  page_aligned (os_brk (ab_os s)) = true → AB_HEAP_START ≤ os_brk (ab_os s) ≤ TASK_SIZE →
  os_member (ab_os s) p →
  (curbrk ← lh (gets h_ab_curbrk);
   if curbrk =? 0 then
     rc ← __ablib_brk p 0;
     if rc <? 0 then mret false else
     cb ← lh (gets h_ab_curbrk);
     assertb (cb =? 0x80000000);; mret true
   else mret true) s = Ret (b, s') →
  b = true ∧ h_ab_curbrk (ab_heap s') = os_brk (ab_os s') ∧ os_brk (ab_os s') = os_brk (ab_os s) ∧
  (∃ cb, ab_heap s' = set_h_ab_curbrk cb (ab_heap s)) ∧ grown (ab_os s) (ab_os s') 0 0.
Proof.
  intros Hcb Hal Hr Hm E. binv E. injection E0 as <- <-. unfold AB_HEAP_START in Hr.
  set (h := ab_heap s) in *. simpl in E.
  destruct (Z.eqb_spec (h_ab_curbrk h) 0) as [H0|H0].
  - binv E. apply ablib_brk_inv in E0 as (r1 & k' & Eb & -> & ->).
    destruct (brk_spec _ _ _ _ _ Eb Hm) as (Gm & Gb & Gr & Gp & _);
      [unfold PAGESIZE; lia|done|done|done|].
    simpl in *. destruct (Z.ltb_spec r1 0); cbn [Z.ltb] in E.
    { exfalso. destruct Gr as [->| ->]; lia. }
    binv E. injection E0 as <- <-. binv E. apply assertb_inv in E0 as [Ha%Z.eqb_eq ->]. simpl in Ha.
    injection E as <- <-. simpl. assert (Eo : os_brk k' = os_brk (ab_os s)) by (destruct Gr; congruence || lia).
    split; [done|]. split; [done|]. split; [done|]. split; [by eexists|]. split.
    + apply Gm.
    + intros q g _. destruct (Gp q g) as [|Hx]; [done|]. exfalso. revert Hx. apply in_pages_empty. lia.
    + intros q g _ Hx. exfalso. revert Hx. by apply in_pages_empty.
  - injection E as <- <-. destruct Hcb as [|Hcb]; [done|]. simpl.
    split; [done|]. split; [done|]. split; [done|]. split; [exists (h_ab_curbrk h); by destruct h|].
    split; [done|done|]. intros q g _ Hx. exfalso. revert Hx. by apply in_pages_empty.
Qed.

Lemma sbrk_spec s us avs c d r s' :
  safe s us avs → is_client c d → __ablib_sbrk (pid d) UNIT_SIZE s = Ret (r, s') → r ≠ MORECORE_FAILURE →
  r = os_brk (ab_os s) ∧ os_brk (ab_os s') = r + UNIT_SIZE ∧ r + UNIT_SIZE ≤ TASK_SIZE ∧
  (∃ cb, ab_heap s' = set_h_ab_curbrk cb (ab_heap s)) ∧
  h_ab_curbrk (ab_heap s') = os_brk (ab_os s') ∧ grown (ab_os s) (ab_os s') r UNIT_SIZE.
Proof.
  intros S Hc E Hne. pose proof (co_member _ (sf_clients _ _ _ S) _ _ Hc) as Hm.
  destruct (sf_brk _ _ _ S) as [Hal Hr]. unfold __ablib_sbrk in E.
  match type of E with ((?m1 ≫= ?k1) s = _) =>
    assert (E' : ((m1 ≫= λ curbrk, if curbrk =? 0 then
     rc ← __ablib_brk (pid d) 0;
     if rc <? 0 then mret false else
     cb ← lh (gets h_ab_curbrk);
     assertb (cb =? 0x80000000);; mret true
   else mret true) ≫= λ ok : bool, if negb ok then mret (u32 (-1)) else
    oldbrk ← lh (gets h_ab_curbrk);
    bad ← (if u32 (oldbrk + UNIT_SIZE) <? oldbrk then mret true
           else rc ← __ablib_brk (pid d) (u32 (oldbrk + UNIT_SIZE)); mret (rc <? 0));
    if bad : bool then mret (u32 (-1)) else mret oldbrk) s = Ret (r, s'))
  end.
  { rewrite <-E. unfold mbind, st_bind. by destruct (lh (gets h_ab_curbrk) s) as [[]|]. }
  clear E. binv E'. apply sbrk_init_spec in E as (-> & Hc1 & Hb1 & (cb & Hh1) & G1); [|apply S|done|done|done].
  cbn [negb] in E'. binv E'. injection E as <- <-.
  assert (Hs1 : AbSt (ab_heap s0) (ab_os s0) = s0) by (by destruct s0). rewrite Hs1 in E'.
  rewrite Hc1, Hb1 in E'. set (B := os_brk (ab_os s)) in *.
  assert (HB : 0 ≤ B + UNIT_SIZE < 2 ^ 32) by (unfold AB_HEAP_START, TASK_SIZE, UNIT_SIZE, PAGE_PER_UNIT, PAGESIZE in *; lia).
  rewrite (u32_small (B + UNIT_SIZE)) in E' by done.
  rewrite (proj2 (Z.ltb_ge _ _)) in E' by (unfold UNIT_SIZE, PAGE_PER_UNIT, PAGESIZE; lia).
  binv E'. binv E. apply ablib_brk_inv in E0 as (rb & k' & Eb & -> & ->). injection E as <- <-.
  destruct (brk_spec _ _ _ _ _ Eb) as (Gm & Gb & Gr & Gp & Gs).
  { by apply (gr_member _ _ _ _ G1). }
  { unfold AB_HEAP_START, TASK_SIZE, UNIT_SIZE, PAGE_PER_UNIT, PAGESIZE in *; lia. }
  { apply page_aligned_mul in Hal. apply page_aligned_mul. revert Hal. unfold UNIT_SIZE, PAGE_PER_UNIT, PAGESIZE.
    intros. rewrite Hal at 2. replace (4096 * (B / 4096) + 10 * 4096) with ((B / 4096 + 10) * 4096) by lia.
    rewrite Z.div_mul by lia. lia. }
  { by rewrite Hb1. }
  { by rewrite Hb1. }
  rewrite Hb1 in *. fold B in Gr, Gp, Gs.
  destruct (Z.ltb_spec rb (B + UNIT_SIZE)) as [Hlt|Hge]; cbn in E'; injection E' as <- <-; [done|].
  assert (rb = B + UNIT_SIZE) as ->.
  { destruct Gr as [|Gr]; [done|]. exfalso. rewrite Gr in Hge. unfold UNIT_SIZE, PAGE_PER_UNIT, PAGESIZE in Hge. lia. }
  destruct Gs as [Ght Gs]; [unfold UNIT_SIZE, PAGE_PER_UNIT, PAGESIZE; lia|done|].
  replace (B + UNIT_SIZE - B) with UNIT_SIZE in * by lia. simpl.
  split; [done|]. split; [done|]. split; [done|]. split; [rewrite Hh1; by eexists|]. split; [done|]. split.
  - intros q. by rewrite Gm, (gr_member _ _ _ _ G1).
  - intros q g Hg. destruct (Gp q g) as [->|]; [|done]. apply (gr_out _ _ _ _ G1). by apply in_pages_empty.
  - intros q g Hq Hg. apply Gs; [by apply (gr_member _ _ _ _ G1)|done].
Qed.

(** * New units *)

Lemma lh_inv {A} (m : hm A) (s : abst K) a s' :
  lh m s = Ret (a, s') → m (ab_heap s) = Ret (a, ab_heap s') ∧ ab_os s' = ab_os s.
Proof.
  unfold lh. destruct (m (ab_heap s)) as [[x h]|]; [|done]. by intros [= <- <-].
Qed.

(** The units [us] and states [avs] are as they were. *)
Record ext (h h' : heap) (us avs : list Z) : Prop := {
  ex_unit u : u ∈ us → unit_meta <$> h_ustates h' !! u = unit_meta <$> h_ustates h !! u;
  ex_state av : av ∈ avs → ms_label <$> h_mstates h' !! av = ms_label <$> h_mstates h !! av;
  ex_next : h_libc_next h ≤ h_libc_next h';
}.

Lemma ext_meta h h' us avs : meta_eq h h' → ext h h' us avs.
Proof.
  intros M. split; [intros; apply (me_units _ _ _ M)| |by rewrite (me_next _ _ _ M)]. intros av _.
  pose proof (me_states _ _ _ M av) as E.
  destruct (h_mstates h' !! av), (h_mstates h !! av); try done. simpl in *. by injection E as -> _ _ _ _.
Qed.
Lemma ext_trans h1 h2 h3 us avs : ext h1 h2 us avs → ext h2 h3 us avs → ext h1 h3 us avs.
Proof.
  intros [A1 B1 C1] [A2 B2 C2]. split; intros; [..|lia].
  - rewrite A2 by done. by apply A1.
  - rewrite B2 by done. by apply B1.
Qed.

Lemma heap_ok_curbrk lim h us avs cb : heap_ok lim h us avs → heap_ok lim (set_h_ab_curbrk cb h) us avs.
Proof. intros O. split; simpl; try solve [apply O]. Qed.

Lemma unit_init_ok lim h us avs top a n av u h' :
  heap_ok lim h us avs → unit_init_state top a n av h = Ret (u, h') →
  heap_ok lim h' us avs ∧ h_ustates h' !! u = Some (UnitState top a n av) ∧ u ∉ us ∧ ext h h' us avs ∧
  h_mstates h' = h_mstates h ∧ h_ab_curbrk h' = h_ab_curbrk h.
Proof.
  intros O E. unfold unit_init_state in E. binv E. pose proof (ho_next _ _ _ _ O) as Hn.
  apply libc_malloc_inv in E0 as [[-> ->]|[-> ->]]; [done| |done].
  set (p := h_libc_next h) in *. rewrite (proj2 (Z.eqb_neq p 0)) in E by lia. injection E as <- <-.
  assert (Hf : h_ustates h !! p = None).
  { destruct (h_ustates h !! p) eqn:Hp; [|done].
    pose proof (ho_fresh_u _ _ _ _ O p (ex_intro _ _ Hp)). lia. }
  assert (Hni : ∀ v, v ∈ us → p ≠ v).
  { intros v Hv ->. destruct (ho_unit _ _ _ _ O _ Hv) as (x & Hx & _). congruence. }
  split; [|split; [simpl; by rewrite lookup_insert_eq|split; [intros Hin; by apply (Hni p)|]]].
  - split; simpl; try solve [apply O].
    + intros v Hv. rewrite lookup_insert_ne by auto. by apply (ho_unit _ _ _ _ O).
    + intros v w x y Hv Hw Hne. rewrite !lookup_insert_ne by auto. by apply (ho_disj _ _ _ _ O).
    + unfold SIZEOF_UNIT_STATE. lia.
    + intros v. unfold SIZEOF_UNIT_STATE. destruct (decide (p = v)) as [<-|]; [lia|].
      rewrite lookup_insert_ne by done. intros Hx. pose proof (ho_fresh_u _ _ _ _ O v Hx). lia.
    + intros v Hx. pose proof (ho_fresh_s _ _ _ _ O v Hx). unfold SIZEOF_UNIT_STATE. lia.
  - split; [|done]. split; [|done|simpl; unfold SIZEOF_UNIT_STATE; lia]. intros v Hv. simpl. by rewrite lookup_insert_ne by auto.
Qed.

Lemma insert_unit_ok lim lim' h us avs u x l' :
  heap_ok lim h us avs → h_ustates h !! u = Some x → u ∉ us → unit_av x ∈ avs →
  lim ≤ lim' → lim ≤ addr x → unit_ok lim' x →
  list_insert_head (malloc_node (h_ustate_list h)) (h_ustate_list h) u = Ret l' →
  heap_ok lim' (set_h_ustate_list l' h) (u :: us) avs.
Proof.
  intros O Hx Hni Hav Hlim Hlow Hok Hi. destruct (ho_ulist _ _ _ _ O) as (ps & R & Hps).
  assert (Hm : malloc_node (h_ustate_list h) ≠ 0) by (intros E; by rewrite E in Hi).
  destruct (list_insert_head_alloc _ _ u R Hm) as (l2 & E2 & R2).
  assert (l2 = l') as -> by congruence.
  assert (Hold : ∀ v y, v ∈ us → h_ustates h !! v = Some y → unit_ok lim y).
  { intros v y Hv Hy. destruct (ho_unit _ _ _ _ O v Hv) as (y' & Hy' & ? & _). congruence. }
  split; simpl; try solve [apply O].
  - eexists. split; [exact R2|]. by rewrite fmap_cons, Hps.
  - intros v [->|Hv]%elem_of_cons; [by exists x|].
    destruct (ho_unit _ _ _ _ O v Hv) as (y & Hy & [] & Hya). exists y. split; [done|]. split; [|done].
    split; lia || done.
  - intros v w y z [->|Hv]%elem_of_cons [->|Hw]%elem_of_cons Hne Hy Hz.
    + done.
    + pose proof (uo_high _ _ (Hold w z Hw Hz)). pose proof (uo_len _ _ (Hold w z Hw Hz)).
      assert (y = x) as -> by congruence. lia.
    + pose proof (uo_high _ _ (Hold v y Hv Hy)). pose proof (uo_len _ _ (Hold v y Hv Hy)).
      assert (z = x) as -> by congruence. lia.
    + by apply (ho_disj _ _ _ _ O v w).
  - apply NoDup_cons. split; [done|]. apply O.
Qed.

Lemma ext_unit_label h h' us avs u x x' L :
  ext h h' us avs → u ∈ us → unit_av x ∈ avs → h_ustates h !! u = Some x → h_ustates h' !! u = Some x' →
  unit_label h' x' L → unit_meta x' = unit_meta x ∧ unit_label h x L.
Proof.
  intros X Hu Hav Hx Hx' (t & Ht & HL). pose proof (ex_unit _ _ _ _ X u Hu) as E.
  rewrite Hx, Hx' in E. injection E as E1 E2 E3. split; [unfold unit_meta; congruence|].
  pose proof (ex_state _ _ _ _ X (unit_av x) Hav) as F. rewrite E3 in Ht. rewrite Ht in F.
  destruct (h_mstates h !! unit_av x) as [t'|] eqn:Et; [|done]. injection F as F.
  exists t'. split; [done|]. congruence.
Qed.

Lemma clients_ok_member k k' : (∀ q, os_member k' q ↔ os_member k q) → clients_ok k → clients_ok k'.
Proof. intros Hm C. split; [apply C|apply C|]. intros c d Hc. apply Hm. by eapply C. Qed.

Lemma up_is_some p a n L cs k k' q g :
  updated p a n L cs k k' → is_Some (os_prot k q g) → is_Some (os_prot k' q g).
Proof.
  intros U Hs. destruct (decide (in_pages a n g)) as [Hg|]; [|by rewrite (up_out _ _ _ _ _ _ _ U)].
  set (f := λ c, match descs abt !! c with Some d => (pid d =? q) && negb (pid d =? u32 p) | None => false end).
  destruct (existsb f cs) eqn:He.
  - apply existsb_exists in He as (c & Hc%list_elem_of_In & Hf). unfold f in Hf.
    destruct (descs abt !! c) as [d|] eqn:Hd; [|done]. apply andb_true_iff in Hf as [<-%Z.eqb_eq Hp%negb_true_iff].
    apply Z.eqb_neq in Hp. by rewrite (up_set _ _ _ _ _ _ _ U c d).
  - rewrite (up_other _ _ _ _ _ _ _ U); [done|]. intros c d Hc Hd Hq.
    destruct (decide (pid d = u32 p)) as [|Hne]; [done|].
    assert (existsb f cs = true); [|congruence]. apply existsb_exists. exists c.
    split; [by apply list_elem_of_In|]. unfold f. by rewrite Hd, Hq, Z.eqb_refl, <-Hq, (proj2 (Z.eqb_neq _ _)).
Qed.

Lemma client_index ps c d :
  table_ok abt ps → is_client c d → c ∈ ps.*2 ∧ descs abt !! c = Some d ∧ u32 (pid d) = pid d.
Proof.
  intros T [(qs & Rq & Hin) Hd]. rewrite <-(ll_rep_det _ _ _ (tok_rep _ _ T) Rq) in Hin. split; [done|]. split; [done|].
  apply u32_small. destruct (tok_desc _ _ T c Hin) as (d2 & Hd2 & Hok). assert (d2 = d) as -> by congruence. apply Hok.
Qed.

Lemma unit_aligned B : page_aligned B = true → page_aligned (B + UNIT_SIZE) = true.
Proof.
  rewrite !page_aligned_mul. unfold UNIT_SIZE, PAGE_PER_UNIT, PAGESIZE. intros Hal.
  rewrite Hal at 2. replace (4096 * (B / 4096) + 10 * 4096) with ((B / 4096 + 10) * 4096) by lia.
  rewrite Z.div_mul by lia. lia.
Qed.

(** The pages of the new unit after the pass over the clients *)
Lemma grown_perm k k1 k2 a n L c d c' d' g :
  clients_ok k → is_client c d → length L = 8%nat → can_flow (unpack (label d)) (unpack (ownership d)) L →
  grown k k1 a n → (∀ ps, table_ok abt ps → updated (pid d) a n L ps.*2 k1 k2) → is_client c' d' → in_pages a n g →
  ∃ b, os_prot k2 (pid d') g = Some b ∧ access_ok (pid d) d' L b.
Proof.
  intros C Hc HL Hcf G Upd Hc' Hg. destruct (co_table _ C) as (ps & T). specialize (Upd ps T).
  destruct (client_index ps c d T Hc) as (_ & Hd & Hp32), (client_index ps c' d' T Hc') as (Hin & Hd' & _).
  destruct (decide (c' = c)) as [->|Hne].
  - assert (d' = d) as -> by congruence. eexists. split; [|by right].
    rewrite (up_other _ _ _ _ _ _ _ Upd); [apply (gr_in _ _ _ _ G); [by eapply C|done]|].
    intros c2 d2 _ _ ->. by rewrite Hp32.
  - eexists. split; [apply (up_set _ _ _ _ _ _ _ Upd c' d'); try done|left; by apply policy_perm_ok].
    rewrite Hp32. intros He. apply Hne. by apply (co_pids _ C c' d' c d).
Qed.

(** The units from before lie in front of the new one. *)
Lemma old_unit B h h' us avs v y g :
  heap_ok B h us avs → ext h h' us avs → v ∈ us → h_ustates h' !! v = Some y → in_pages (addr y) (length_ y) g →
  ∃ y0, h_ustates h !! v = Some y0 ∧ unit_av y0 ∈ avs ∧ in_pages (addr y0) (length_ y0) g ∧ ¬ in_pages B UNIT_SIZE g.
Proof.
  intros O X Hv Hy Hg. destruct (ho_unit _ _ _ _ O v Hv) as (y0 & Hy0 & Hok & Hav).
  pose proof (ex_unit _ _ _ _ X v Hv) as E. rewrite Hy, Hy0 in E. injection E as E1 E2 E3.
  exists y0. split; [done|]. split; [done|]. rewrite <-E1, <-E2. split; [done|].
  pose proof (uo_high _ _ Hok) as Hh. unfold in_pages in *. rewrite E1, E2 in Hg. lia.
Qed.

(** A unit of label [L] that client [d] allocated, after the protections of
    the other clients were updated. *)
Lemma safe_grow s us avs c d L s' u x k1 :
  safe s us avs → is_client c d → length L = 8%nat →
  can_flow (unpack (label d)) (unpack (ownership d)) L →
  heap_ok (os_brk (ab_os s')) (ab_heap s') (u :: us) avs → ext (ab_heap s) (ab_heap s') us avs →
  h_ustates (ab_heap s') !! u = Some x → unit_label (ab_heap s') x L →
  addr x = os_brk (ab_os s) → grown (ab_os s) k1 (addr x) UNIT_SIZE →
  (∀ ps, table_ok abt ps → updated (pid d) (addr x) UNIT_SIZE L ps.*2 k1 (ab_os s')) →
  h_ab_curbrk (ab_heap s') = os_brk (ab_os s') → os_brk (ab_os s') = addr x + UNIT_SIZE →
  addr x + UNIT_SIZE ≤ TASK_SIZE →
  safe s' (u :: us) avs.
Proof.
  intros S Hc HL Hcf O X Hx Hxl Hxa G Upd Hcb Hbrk Hhi. pose proof (sf_clients _ _ _ S) as C.
  destruct (co_table _ C) as (ps & T). pose proof (Upd ps T) as U. destruct (sf_brk _ _ _ S) as [Hal Hlow].
  assert (Hlen : length_ x = UNIT_SIZE).
  { destruct (ho_unit _ _ _ _ O u ltac:(by left)) as (x' & Hx' & Ho & _). assert (x' = x) as -> by congruence. apply Ho. }
  assert (Hold : ∀ v y g, v ∈ us → h_ustates (ab_heap s') !! v = Some y → in_pages (addr y) (length_ y) g →
    ∃ y0, h_ustates (ab_heap s) !! v = Some y0 ∧ unit_av y0 ∈ avs ∧ in_pages (addr y0) (length_ y0) g ∧ ¬ in_pages (addr x) UNIT_SIZE g).
  { intros v y g. rewrite Hxa. by apply (old_unit _ _ _ _ _ _ _ _ (sf_heap _ _ _ S)). }
  split.
  - done.
  - eapply clients_ok_member; [|exact C]. intros q. by rewrite (up_member _ _ _ _ _ _ _ U), (gr_member _ _ _ _ G).
  - by right.
  - split; [|unfold AB_HEAP_START, UNIT_SIZE, PAGE_PER_UNIT, PAGESIZE in *; lia].
    rewrite Hbrk, Hxa. by apply unit_aligned.
  - destruct (sf_perm _ _ _ S) as [ow Hp]. exists (λ v, if decide (v = u) then pid d else ow v).
    intros c' d' v y M g Hc' Hv Hy HyL Hg. destruct (decide (v = u)) as [->|Hvu].
    + assert (y = x) as -> by congruence. rewrite Hlen in Hg.
      assert (M = L) as -> by (destruct Hxl as (t1 & ? & ?), HyL as (t2 & ? & ?); congruence).
      by apply (grown_perm (ab_os s) k1 (ab_os s') (addr x) UNIT_SIZE L c d c' d' g).
    + apply elem_of_cons in Hv as [|Hv]; [done|]. destruct (Hold v y g Hv Hy Hg) as (y0 & Hy0 & Hav & Hg0 & Hng).
      destruct (ext_unit_label _ _ _ _ v y0 y M X Hv Hav Hy0 Hy HyL) as [_ HM].
      rewrite (up_out _ _ _ _ _ _ _ U), (gr_out _ _ _ _ G) by done. by apply (Hp c' d' v y0 M g).
  - intros q v y g Hq Hv Hy Hg. apply (up_is_some _ _ _ _ _ _ _ _ _ U).
    apply (up_member _ _ _ _ _ _ _ U) in Hq. apply (gr_member _ _ _ _ G) in Hq. apply elem_of_cons in Hv as [->|Hv].
    + assert (y = x) as -> by congruence. rewrite Hlen in Hg. rewrite (gr_in _ _ _ _ G) by done. by eexists.
    + destruct (Hold v y g Hv Hy Hg) as (y0 & Hy0 & _ & Hg0 & Hng).
      rewrite (gr_out _ _ _ _ G) by done. by apply (sf_mapped _ _ _ S q v y0 g).
  - intros c' d' Hc'. pose proof (sf_fresh _ _ _ S c' d' Hc'). pose proof (ex_next _ _ _ _ X). lia.
Qed.

(** The facts that travel through [alloc_unit]. *)
Record stage (lim : Z) (h0 h : heap) (us avs : list Z) (av : Z) (L : list Z) (cb : Z) : Prop := {
  st_ok : heap_ok lim h us avs;
  st_ext : ext h0 h us avs;
  st_av : ms_label <$> h_mstates h !! av = Some L;
  st_cb : h_ab_curbrk h = cb;
}.

Lemma stage_meta lim h0 h h' us avs av L cb :
  meta_eq h h' → stage lim h0 h us avs av L cb → stage lim h0 h' us avs av L cb.
Proof.
  intros M [O X A B]. split.
  - by eapply heap_ok_meta.
  - eapply ext_trans; [done|by apply ext_meta].
  - destruct (h_mstates h !! av) as [t|] eqn:Et; [|done].
    destruct (meta_state _ _ _ _ M Et) as (t' & -> & [= E1 _ _ _ _]). simpl in *. congruence.
  - by rewrite (me_curbrk _ _ _ M).
Qed.

Lemma sd_inv a v h u h' : sd a v h = Ret (u, h') → h' = set_h_mem (store32 (h_mem h) a v) h.
Proof. unfold sd. destruct (valid_word h a); [|done]. by intros [= _ <-]. Qed.

Lemma init_unit_top_size top h z h' :
  init_unit_top top UNIT_SIZE h = Ret (z, h') → 0 ≤ top → top + UNIT_SIZE ≤ TASK_SIZE →
  load32 (h_mem h') (top + 4) = Z.lor tsize PREV_INUSE.
Proof.
  intros E H0 H1. unfold init_unit_top in E. unfold UNIT_SIZE, PAGE_PER_UNIT, PAGESIZE, TASK_SIZE in *.
  change (Z.land (u32 (10 * 4096 - 3 * SIZE_SZ)) (not32 MALLOC_ALIGN_MASK)) with 40944 in E.
  change (Z.lor tsize PREV_INUSE) with 40945. change (Z.lor 40944 PREV_INUSE) with 40945 in E.
  change (Z.lor SIZE_SZ PREV_INUSE) with 5 in E. change (40944 + SIZE_SZ) with 40948 in E.
  unfold set_head, chunk_at_offset in E. rewrite !u32_small in E by (rewrite ?u32_small; lia).
  binv E. binv E. binv E. injection E as _ <-.
  apply sd_inv in E0, E1, E2. subst. simpl.
  rewrite !load32_store32_ne by lia. rewrite load32_store32_eq by lia. done.
Qed.

Lemma chunksize_top top h z h' :
  chunksize top h = Ret (z, h') → 0 ≤ top → top + UNIT_SIZE ≤ TASK_SIZE →
  load32 (h_mem h) (top + 4) = Z.lor tsize PREV_INUSE → z = tsize.
Proof.
  intros E H0 H1 Hl. unfold chunksize in E. binv E. injection E as <- <-.
  unfold rd_size, ld in E0. rewrite u32_small in E0 by (unfold TASK_SIZE, UNIT_SIZE, PAGE_PER_UNIT, PAGESIZE in *; lia).
  destruct (valid_word h (top + 4)); [|done]. injection E0 as <- _. rewrite Hl. done.
Qed.

Lemma upd_av_mem av f h u h' : upd_av av f h = Ret (u, h') → h_mem h' = h_mem h.
Proof. by intros (t & _ & ->)%upd_av_inv. Qed.

Lemma prot_update_inv p a size L s u s' :
  prot_update abt p a size L s = Ret (u, s') →
  for_each (client_list abt) (prot_update_client abt p a size L) s = Ret s'.
Proof.
  unfold prot_update. destruct (for_each _ _ s) as [s1|]; [|done]. by intros [= _ <-].
Qed.

Lemma meta_unit_label h h' av L u B n :
  meta_eq h h' → ms_label <$> h_mstates h !! av = Some L → unit_meta <$> h_ustates h !! u = Some (B, n, av) →
  ∃ x, h_ustates h' !! u = Some x ∧ addr x = B ∧ length_ x = n ∧ unit_label h' x L.
Proof.
  intros M A U. destruct (h_mstates h !! av) as [t|] eqn:Et; [|done]. injection A as A.
  destruct (h_ustates h !! u) as [x|] eqn:Ex; [|done]. injection U as U1 U2 U3.
  destruct (meta_state _ _ _ _ M Et) as (t' & Et' & [= E1 _ _ _ _]).
  destruct (meta_unit' _ _ _ _ M Ex) as (x' & Ex' & [= F1 F2 F3]).
  exists x'. repeat split; [done|congruence|congruence|]. exists t'. split; congruence.
Qed.

Lemma add_unit_ok h0 h us avs av L cb B u h' :
  stage B h0 h us avs av L cb → av ∈ avs → page_aligned B = true → AB_HEAP_START ≤ B →
  add_unit av B h = Ret (u, h') →
  heap_ok (B + UNIT_SIZE) h' (u :: us) avs ∧ ext h0 h' us avs ∧ h_ab_curbrk h' = cb ∧
  ms_label <$> h_mstates h' !! av = Some L ∧ unit_meta <$> h_ustates h' !! u = Some (B, UNIT_SIZE, av).
Proof.
  intros T Hav Hal HB E. unfold add_unit in E. binv E.
  destruct (unit_init_ok _ _ _ _ _ _ _ _ _ _ (st_ok _ _ _ _ _ _ _ _ T) E0) as (O2 & Hu & Hni & X2 & Em2 & Ec2).
  assert (T2 : stage B h0 s us avs av L cb).
  { destruct T as [_ X0 A0 B0]. split; [done|by eapply ext_trans|by rewrite Em2|by rewrite Ec2]. }
  clear T E0. binv E. apply get_av_inv in E0 as [_ ->].
  binv E. apply lift_inv in E0 as [_ ->].
  binv E. assert (M4 : meta_eq s s0) by (revert E0; apply keeps_upd_av; by intros []).
  apply (stage_meta _ _ _ _ _ _ _ _ _ M4) in T2.
  destruct (meta_unit' _ _ _ _ M4 Hu) as (x4 & Hx4 & [= Xa Xl Xv]).
  binv E. injection E as <- <-. unfold insert_head_in in E1.
  binv E1. apply gets_inv in E as [-> ->]. binv E1. apply lift_inv in E as [Hl2 ->]. apply modify_inv in E1 as ->.
  destruct T2 as [O X A C]. split; [|split; [|split; [done|split; [done|]]]].
  - eapply insert_unit_ok; [exact O|exact Hx4|done|by rewrite Xv| | | |exact Hl2].
    + unfold UNIT_SIZE, PAGE_PER_UNIT, PAGESIZE. lia.
    + rewrite Xa. lia.
    + split; by rewrite ?Xa, ?Xl.
  - eapply ext_trans; [exact X|]. by split.
  - simpl. rewrite Hx4. simpl. unfold unit_meta. congruence.
Qed.

(** The clients and the pages the loop of [prot_update] works on. *)
Lemma prot_update_spec s us avs k1 h1 p a size L u s' ps :
  safe s us avs → grown (ab_os s) k1 a UNIT_SIZE → table_ok abt ps →
  0 ≤ a → page_aligned a = true → 0 < size → a + size ≤ TASK_SIZE → PAGE_ALIGN size = UNIT_SIZE →
  prot_update abt p a size L (AbSt h1 k1) = Ret (u, s') →
  ab_heap s' = h1 ∧ updated p a UNIT_SIZE L ps.*2 k1 (ab_os s').
Proof.
  intros S G T Ha Hal Hsz Hhi Hpa E%prot_update_inv. pose proof (sf_clients _ _ _ S) as C.
  rewrite (for_each_rep _ _ _ _ (tok_rep _ _ T)) in E.
  assert (Hcl : ∀ c d, c ∈ ps.*2 → descs abt !! c = Some d → is_client c d).
  { intros c d Hc Hd. split; [|done]. exists ps. split; [apply T|done]. }
  rewrite <-Hpa. apply (prot_update_fold _ _ _ _ _ _ _ E); try done.
  - apply T.
  - intros c1 d1 c2 d2 H1 H2 D1 D2. apply (co_pids _ C); auto.
  - intros c d Hc Hd. apply (gr_member _ _ _ _ G). eapply (co_member _ C); eauto.
  - intros c d g Hc Hd Hg. rewrite Hpa in Hg. rewrite (gr_in _ _ _ _ G); [by eexists| |done].
    eapply (co_member _ C); eauto.
Qed.

(** The unit that [alloc_unit] adds at the break [B], up to the test whether the
    chunk fits. *)
Record new_unit (s : abst K) (us avs : list Z) (av : Z) (L : list Z) (B u : Z) (s' : abst K) : Prop := {
  nu_low : page_aligned B = true ∧ AB_HEAP_START ≤ B ∧ B + UNIT_SIZE ≤ TASK_SIZE;
  nu_os : B = os_brk (ab_os s) ∧ os_brk (ab_os s') = B + UNIT_SIZE ∧ h_ab_curbrk (ab_heap s') = os_brk (ab_os s');
  nu_grown : grown (ab_os s) (ab_os s') B UNIT_SIZE;
  nu_heap : heap_ok (B + UNIT_SIZE) (ab_heap s') (u :: us) avs;
  nu_ext : ext (ab_heap s) (ab_heap s') us avs;
  nu_label : ms_label <$> h_mstates (ab_heap s') !! av = Some L;
  nu_unit : unit_meta <$> h_ustates (ab_heap s') !! u = Some (B, UNIT_SIZE, av);
}.

Lemma alloc_unit_start s us avs c d nb av t L r s' :
  safe s us avs → is_client c d → av ∈ avs → h_mstates (ab_heap s) !! av = Some t → ms_label t = L →
  alloc_unit abt (pid d) nb av L s = Ret (r, s') →
  ∃ B u s1, new_unit s us avs av L B u s1 ∧
    (if u32 (nb + MINSIZE) <=? tsize then
       lh (carve u B nb tsize);; prot_update abt (pid d) B tsize L;; mret (chunk2mem B)
     else mret 0) s1 = Ret (r, s').
Proof.
  intros S Hc Hav Ht HtL E. unfold alloc_unit in E.
  binv E. binv E. apply assertb_inv in E1 as [Hne ->]. rename r0 into B.
  destruct (sbrk_spec _ _ _ _ _ _ _ S Hc E0) as (HB & Hb1 & Hhi & (cb & Hh1) & Hcb & G).
  { intros ->. by rewrite Z.eqb_refl in Hne. }
  destruct (sf_brk _ _ _ S) as [Hal Hlow]. rewrite <-HB in Hal, Hlow.
  assert (T0 : stage B (ab_heap s) (ab_heap s0) us avs av L (os_brk (ab_os s0))).
  { split; [rewrite HB, Hh1; apply heap_ok_curbrk, S|rewrite Hh1; split; done|rewrite Hh1; simpl; by rewrite Ht, <-HtL|done]. }
  binv E. apply lh_inv in E1 as [E1 K1].
  assert (M1 : meta_eq (ab_heap s0) (ab_heap s1)) by (revert E1; apply keeps_upd_av; by intros []).
  apply (stage_meta _ _ _ _ _ _ _ _ _ M1) in T0.
  binv E. apply assertb_inv in E2 as [_ ->].
  binv E. apply lh_inv in E2 as [E2 K2].
  destruct (add_unit_ok _ _ _ _ _ _ _ _ _ _ T0 Hav Hal (proj1 Hlow) E2) as (O2 & X2 & C2 & A2 & U2).
  clear T0 E2. binv E. apply lh_inv in E2 as [E2 K3]. unfold AB_HEAP_START in Hlow.
  pose proof (init_unit_top_size _ _ _ _ E2 ltac:(lia) Hhi) as Hsz.
  binv E. apply lh_inv in E3 as [E3 K4]. rewrite <-(upd_av_mem _ _ _ _ _ E3) in Hsz.
  binv E. apply lh_inv in E4 as [E4 K5]. pose proof (chunksize_top _ _ _ _ E4 ltac:(lia) Hhi Hsz) as ->.
  assert (M : meta_eq (ab_heap s2) (ab_heap s5)).
  { etrans; [exact (keeps_init_unit_top _ _ _ _ _ E2)|]. etrans; [exact (keeps_stats_sbrk _ _ _ _ E3)|].
    exact (keeps_chunksize _ _ _ _ E4). }
  assert (Hk : ab_os s5 = ab_os s0) by congruence.
  exists B, r3, s5. split; [|exact E]. split; rewrite ?Hk.
  - unfold AB_HEAP_START. split; [done|]. lia.
  - split; [done|]. split; [done|]. by rewrite (me_curbrk _ _ _ M), C2.
  - done.
  - by eapply heap_ok_meta.
  - eapply ext_trans; [exact X2|by apply ext_meta].
  - destruct (h_mstates (ab_heap s2) !! av) as [t2|] eqn:Et; [|done]. injection A2 as A2.
    destruct (meta_state _ _ _ _ M Et) as (t' & -> & [= E1' _ _ _ _]). simpl. congruence.
  - by rewrite (me_units _ _ _ M).
Qed.

(** The chunk is cut and the protections are updated. *)
Lemma alloc_unit_end s us avs av L B u d nb r s1 s' :
  safe s us avs → new_unit s us avs av L B u s1 →
  (lh (carve u B nb tsize);; prot_update abt (pid d) B tsize L;; mret (chunk2mem B)) s1 = Ret (r, s') →
  r = chunk2mem B ∧ meta_eq (ab_heap s1) (ab_heap s') ∧
  ∀ ps, table_ok abt ps → updated (pid d) B UNIT_SIZE L ps.*2 (ab_os s1) (ab_os s').
Proof.
  intros S N E. pose proof N as [(Hal & Hlow & Hhi) _ G _ _ _ _]. unfold AB_HEAP_START in Hlow.
  binv E. apply lh_inv in E0 as [E0 K0]. binv E. injection E as <- <-. split; [done|].
  destruct s0 as [h0 k0]. simpl in *. subst k0.
  assert (Hup : ∀ ps, table_ok abt ps → ab_heap s2 = h0 ∧ updated (pid d) B UNIT_SIZE L ps.*2 (ab_os s1) (ab_os s2)).
  { intros qs Tq. refine (prot_update_spec _ _ _ _ _ _ _ _ _ _ _ _ S G Tq _ Hal _ _ _ E1); [lia|change tsize with 40944; lia| |by vm_compute].
    change tsize with 40944. unfold UNIT_SIZE, PAGE_PER_UNIT, PAGESIZE in Hhi. lia. }
  destruct (co_table _ (sf_clients _ _ _ S)) as (ps & T). split; [|intros qs Tq; by apply Hup].
  rewrite (proj1 (Hup ps T)). exact (keeps_carve _ _ _ _ _ _ _ E0).
Qed.

Lemma alloc_unit_safe s us avs c d nb av t L r s' :
  safe s us avs → is_client c d → length L = 8%nat →
  can_flow (unpack (label d)) (unpack (ownership d)) L →
  av ∈ avs → h_mstates (ab_heap s) !! av = Some t → ms_label t = L → 0 ≤ nb → nb + MINSIZE ≤ tsize →
  alloc_unit abt (pid d) nb av L s = Ret (r, s') → ∃ us', safe s' us' avs.
Proof.
  intros S Hc HL Hcf Hav Ht HtL Hnb0 Hnb E.
  destruct (alloc_unit_start _ _ _ _ _ _ _ _ _ _ _ S Hc Hav Ht HtL E) as (B & u & s1 & N & E1).
  rewrite u32_small in E1 by (rewrite MINSIZE_16 in *; change tsize with 40944 in *; lia).
  rewrite (proj2 (Z.leb_le _ _)) in E1 by done.
  destruct (alloc_unit_end _ _ _ _ _ _ _ _ _ _ _ _ S N E1) as (_ & M & Hup).
  destruct N as [(Hal & Hlow & Hhi) (HB & Hb1 & Hcb) G O2 X2 A2 U2].
  destruct (meta_unit_label _ _ _ _ _ _ _ M A2 U2) as (x & Hx & Hxa & Hxl & HxL).
  destruct (co_table _ (sf_clients _ _ _ S)) as (ps & T). pose proof (Hup ps T) as U7. rewrite <-Hxa in Hup, G.
  exists (u :: us). eapply (safe_grow s us avs c d L s' u x (ab_os s1)); try done.
  - rewrite (up_brk _ _ _ _ _ _ _ U7), Hb1. by eapply heap_ok_meta.
  - eapply ext_trans; [exact X2|by apply ext_meta].
  - by rewrite Hxa.
  - by rewrite (me_curbrk _ _ _ M), (up_brk _ _ _ _ _ _ _ U7).
  - by rewrite (up_brk _ _ _ _ _ _ _ U7), Hb1, Hxa.
  - by rewrite Hxa.
Qed.

(** * [ablib_malloc] *)

(** The largest request that an ordinary unit holds together with the minimal
    remainder: its chunk has 40928 bytes of the 40944 of a fresh unit. *)
Definition MAX_SMALL : Z := 40924.

Lemma small_nb bytes nb :
  0 ≤ bytes ≤ MAX_SMALL → checked_request2size bytes = Some nb → 16 ≤ nb ∧ nb + MINSIZE ≤ tsize.
Proof.
  unfold MAX_SMALL. intros Hb. unfold checked_request2size, REQUEST_OUT_OF_RANGE. rewrite MINSIZE_16.
  change tsize with 40944. change (u32 (-2 * 16)) with (2 ^ 32 - 32).
  destruct (_ <=? _); [done|]. intros [= <-].
  destruct (request2size_cases bytes) as [[? ->]|[? ->]]; [lia|lia|].
  pose proof (Z.div_mod (bytes + 11) 8 ltac:(lia)). pose proof (Z.mod_pos_bound (bytes + 11) 8 ltac:(lia)). lia.
Qed.

Lemma lookup_mstate_inv L h av h' :
  lookup_mstate_by_label L h = Ret (av, h') →
  linked_list_lookup (h_mstate_list h) (_cmp_mstate h L) = Ret av ∧ h' = h.
Proof.
  unfold lookup_mstate_by_label. generalize (linked_list_lookup (h_mstate_list h) (_cmp_mstate h L)).
  intros o E. destruct o; [|done]. by injection E as -> ->.
Qed.

(** The lookup of a label's state returns. *)
Lemma lookup_mstate_returns lim h us avs L :
  heap_ok lim h us avs → ∃ av, lookup_mstate_by_label L h = Ret (av, h).
Proof.
  intros O. destruct (ho_mlist _ _ _ _ O) as (ps & R & Hps).
  set (f := λ av, match h_mstates h !! av with Some s => bool_decide (L = ms_label s) | None => false end).
  eexists. unfold lookup_mstate_by_label. rewrite (linked_list_lookup_rep _ ps _ f R); [done|].
  intros x Hx. rewrite Hps in Hx. destruct (ho_state _ _ _ _ O x Hx) as (s & Hs & _). unfold _cmp_mstate, f. by rewrite Hs.
Qed.

Lemma lookup_mstate_spec lim h us avs L av h' :
  heap_ok lim h us avs → lookup_mstate_by_label L h = Ret (av, h') →
  h' = h ∧ (av = 0 ∨ (av ∈ avs ∧ ∃ t, h_mstates h !! av = Some t ∧ ms_label t = L)).
Proof.
  intros O E. destruct (ho_mlist _ _ _ _ O) as (ps & R & Hps).
  set (f := λ av, match h_mstates h !! av with Some s => bool_decide (L = ms_label s) | None => false end).
  assert (Hst : ∀ x, x ∈ ps.*2 → ∃ s, h_mstates h !! x = Some s).
  { intros x Hx. rewrite Hps in Hx. destruct (ho_state _ _ _ _ O x Hx) as (s & ? & _). eauto. }
  apply lookup_mstate_inv in E as [E ->].
  rewrite (linked_list_lookup_rep _ ps _ f R) in E.
  2:{ intros x Hx. destruct (Hst x Hx) as (s & Hs). unfold _cmp_mstate, f. by rewrite Hs. }
  injection E as <-. split; [done|].
  assert (Hpos : ∀ x, x ∈ ps.*2 → 0 < x).
  { intros x Hx. destruct (Hst x Hx) as (s & Hs). apply (ho_fresh_s _ _ _ _ O). by eexists. }
  destruct (find_data_spec f ps.*2 Hpos) as [[-> _]|(pre & post & Hds & Hf & _)]; [by left|right].
  set (x := find_data f ps.*2) in *. rewrite Hps in Hds.
  split; [rewrite Hds; apply elem_of_app; right; by left|]. unfold f in Hf.
  destruct (h_mstates h !! x) as [s|]; [|done]. apply bool_decide_eq_true_1 in Hf. eauto.
Qed.

Lemma anychunks_nonzero mf : have_anychunks mf = true → mf ≠ 0.
Proof. by intros Hb ->. Qed.

Lemma lh_intro {A} (m : hm A) (s : abst K) a h : m (ab_heap s) = Ret (a, h) → lh m s = Ret (a, AbSt h (ab_os s)).
Proof. intros E. unfold lh. by rewrite E. Qed.

Lemma lookup_mstate_safe s us avs L av s' :
  safe s us avs → lh (lookup_mstate_by_label L) s = Ret (av, s') →
  s' = s ∧ (av = 0 ∨ (av ∈ avs ∧ ∃ t, h_mstates (ab_heap s) !! av = Some t ∧ ms_label t = L)).
Proof.
  intros S E. apply lh_inv in E as [E Ek]. apply (lookup_mstate_spec (os_brk (ab_os s)) _ us avs) in E as [Eh Hav]; [|apply S].
  destruct s, s'. simpl in Ek, Eh. by subst.
Qed.

Lemma lh_get_av av (s : abst K) t s' : lh (get_av av) s = Ret (t, s') → h_mstates (ab_heap s) !! av = Some t ∧ s' = s.
Proof.
  intros E. apply lh_inv in E as [E Ek]. apply get_av_inv in E as [Ht Eh]. split; [done|].
  destruct s, s'. simpl in Ek, Eh. by subst.
Qed.

(** The state a request works on: one of the list with the right label, or a
    new one. *)
Definition av_ready (h : heap) (avs : list Z) (av : Z) (L : list Z) : Prop :=
  ∃ t, h_mstates h !! av = Some t ∧
    ((av ∈ avs ∧ ms_label t = L) ∨ (av ∉ avs ∧ ms_max_fast t = 0 ∧ length (ms_label t) = 8%nat)).

(** The searches, with the initialisation of a state that had no free chunk. *)
Lemma search_safe s us avs av nb L t r s' :
  safe s us avs → length L = 8%nat → av_ready (ab_heap s) avs av L → h_mstates (ab_heap s) !! av = Some t →
  lh (if negb (have_anychunks (ms_max_fast t))
      then init_on_first_use av L;; mret None else malloc_search av nb) s = Ret (r, s') →
  ∃ avs', safe s' us avs' ∧ av ∈ avs' ∧ ms_label <$> h_mstates (ab_heap s') !! av = Some L.
Proof.
  intros S HL (t' & Ht' & Hor) Ht E. assert (t' = t) as -> by congruence.
  destruct (have_anychunks (ms_max_fast t)) eqn:Ha; cbn [negb] in E.
  - destruct Hor as [[Hin Hl]|(_ & H0 & _)]; [|by apply anychunks_nonzero in Ha].
    exists avs. destruct (safe_keeps _ _ _ _ _ _ (keeps_malloc_search av nb) S E) as (S' & _ & Em).
    split; [done|]. split; [done|]. pose proof (keeps_malloc_search (lk := false) _ _ _ _ _ Em) as M.
    destruct (meta_state _ _ _ _ M Ht) as (t2 & -> & [= E1 _ _ _ _]). simpl. congruence.
  - apply lh_inv in E as [E Ek]. destruct s' as [h' k']. simpl in *. subst k'. binv E. injection E as <- <-.
    apply lh_intro in E0. destruct (safe_first_use _ _ _ _ _ _ _ _ S Ht HL Hor E0) as (avs' & t2 & S' & _ & Hin & Ht2 & Hl & _).
    exists avs'. split; [done|]. split; [done|]. simpl in Ht2. rewrite Ht2. simpl. congruence.
Qed.

Lemma alloc_mmap_small s us avs p nb av L r s' :
  safe s us avs → av ∈ avs → nb + MINSIZE ≤ tsize →
  alloc_mmap abt p nb av L s = Ret (r, s') → r = None ∧ s' = s.
Proof.
  intros S Hav Hnb E. unfold alloc_mmap in E. binv E. apply lh_inv in E0 as [E0 Ek].
  apply get_av_inv in E0 as [Ht Eh]. destruct s, s0. simpl in *. subst.
  destruct (ho_state _ _ _ _ (sf_heap _ _ _ S) av Hav) as (t & Ht' & _ & Hth). simpl in *.
  assert (t = r0) as -> by congruence. rewrite Hth in E.
  rewrite (proj2 (Z.leb_gt _ _)) in E; [by injection E as <- <-|].
  rewrite MINSIZE_16 in Hnb. change tsize with 40944 in Hnb. unfold UNIT_SIZE, PAGE_PER_UNIT, PAGESIZE. lia.
Qed.

Lemma malloc_alloc_safe rec s us avs c d nb av L r s' :
  safe s us avs → is_client c d → length L = 8%nat →
  can_flow (unpack (label d)) (unpack (ownership d)) L →
  av ∈ avs → ms_label <$> h_mstates (ab_heap s) !! av = Some L → 16 ≤ nb → nb + MINSIZE ≤ tsize →
  (∀ s us avs bytes r s', safe s us avs → 0 ≤ bytes ≤ MAX_SMALL → rec (pid d) bytes L s = Ret (r, s') →
     ∃ us' avs', safe s' us' avs') →
  __malloc_alloc rec abt (pid d) nb av L s = Ret (r, s') → ∃ us' avs', safe s' us' avs'.
Proof.
  intros S Hc HL Hcf Hav Hl Hn0 Hn Hrec E. unfold __malloc_alloc in E. binv E.
  destruct (safe_keeps _ _ _ _ _ _ (keeps_get_av av) S E0) as (_ & Ek & Eg).
  apply get_av_inv in Eg as [Ht Eh]. destruct s as [h k], s0 as [h0 k0]. simpl in *. subst h0 k0. clear E0.
  destruct (have_fastchunks (ms_max_fast r0)) eqn:Hf.
  - binv E. apply assertb_inv in E0 as [_ ->]. binv E. apply lh_inv in E0 as [E0 Ek]. simpl in *.
    pose proof (consolidate_meta (lk := false) _ _ _ _ _ Ht (have_fastchunks_nonzero _ Hf) E0) as M.
    destruct s as [h1 k1]. simpl in *. subst k1.
    eapply (Hrec _ us avs); [by eapply safe_meta| |exact E]. unfold MAX_SMALL, MALLOC_ALIGN_MASK.
    rewrite MINSIZE_16 in Hn. change tsize with 40944 in Hn. rewrite u32_small; lia.
  - binv E. destruct (alloc_mmap_small _ _ _ _ _ _ _ _ _ S Hav Hn E0) as [-> ->].
    rewrite Ht in Hl. injection Hl as Hl. assert (Hnz : 0 ≤ nb) by lia.
    destruct (alloc_unit_safe _ _ _ _ _ _ _ _ _ _ _ S Hc HL Hcf Hav Ht Hl Hnz Hn E) as (us' & S'). eauto.
Qed.

Definition keeps_safe (d : client_desc) (L : list Z) (rec : Z → Z → list Z → am K Z) : Prop :=
  ∀ s us avs bytes r s', safe s us avs → 0 ≤ bytes ≤ MAX_SMALL → rec (pid d) bytes L s = Ret (r, s') →
    ∃ us' avs', safe s' us' avs'.

Lemma malloc_rec_S n p bytes L (s : abst K) :
  ablib_malloc_rec (S n) abt p bytes L s = malloc_body (ablib_malloc_rec n abt) abt p bytes L s.
Proof. reflexivity. Qed.

Lemma malloc_body_safe rec s us avs c d bytes L r s' :
  safe s us avs → is_client c d → length L = 8%nat →
  can_flow (unpack (label d)) (unpack (ownership d)) L → 0 ≤ bytes ≤ MAX_SMALL → keeps_safe d L rec →
  malloc_body rec abt (pid d) bytes L s = Ret (r, s') → ∃ us' avs', safe s' us' avs'.
Proof.
  intros S Hc HL Hcf Hb IH E. unfold malloc_body in E. bstep E as av0 s0 E0.
  destruct (lookup_mstate_safe _ _ _ _ _ _ S E0) as [-> Hav]. clear E0.
  destruct (bytes =? 0); [injection E as <- <-; eauto|].
  bstep E as x s1 E1. destruct (safe_keeps _ _ _ _ _ _ keeps_lock S E1) as (S1 & _ & El).
  pose proof (keeps_lock _ _ _ El) as M1. clear E1.
  bstep E as av s2 E2. assert (Hr : safe s2 us avs ∧ av_ready (ab_heap s2) avs av L).
  { destruct (Z.eqb_spec av0 0) as [->|Hne].
    - destruct (safe_new_mstate _ _ _ _ _ S1 E2) as (S2 & _ & _ & Hni & Ht & _). split; [done|].
      exists zero_mstate. split; [done|]. right. done.
    - injection E2 as <- <-. split; [done|]. destruct Hav as [|(Hin & t & Ht & Hl)]; [done|].
      destruct (meta_state _ _ _ _ M1 Ht) as (t2 & Ht2 & [= F1 _ _ _ _]). exists t2. split; [done|]. left.
      split; [done|]. congruence. }
  destruct Hr as [S2 Hrd]. clear E2 Hav.
  destruct (checked_request2size bytes) as [nb|] eqn:Hnb; [|injection E as <- <-; eauto].
  apply small_nb in Hnb as [Hn0 Hn]; [|done].
  bstep E as t s3 E3. apply lh_get_av in E3 as [Ht ->].
  bstep E as r4 s4 E4. destruct (search_safe _ _ _ _ _ _ _ _ _ S2 HL Hrd Ht E4) as (avs' & S4 & Hin & Hl). clear E4.
  bstep E as r5 s5 E5. assert (H5 : safe s5 us avs' ∧ ms_label <$> h_mstates (ab_heap s5) !! av = Some L).
  { destruct r4; [by injection E5 as <- <-|].
    destruct (safe_keeps _ _ _ _ _ _ (keeps_malloc_unit_top av nb) S4 E5) as (S5 & _ & Em). split; [done|].
    apply (keeps_malloc_unit_top (lk := false)) in Em as M. destruct (h_mstates (ab_heap s4) !! av) as [t4|] eqn:Et; [|done].
    destruct (meta_state _ _ _ _ M Et) as (t5 & -> & [= F1 _ _ _ _]). injection Hl as <-. simpl. by rewrite F1. }
  destruct H5 as [S5 Hl5]. clear E5.
  bstep E as r6 s6 E6. assert (H6 : ∃ us' avs', safe s6 us' avs').
  { destruct r5; [injection E6 as <- <-; eauto|].
    eapply malloc_alloc_safe; [exact S5|exact Hc|done|done|done|done|done|done|exact IH|exact E6]. }
  destruct H6 as (us' & avs2 & S6). bstep E as r7 s7 E7. injection E as <- <-.
  exists us', avs2. by destruct (safe_keeps _ _ _ _ _ _ keeps_unlock S6 E7).
Qed.

Lemma malloc_rec_safe n c d L :
  is_client c d → length L = 8%nat → can_flow (unpack (label d)) (unpack (ownership d)) L →
  keeps_safe d L (ablib_malloc_rec n abt).
Proof.
  intros Hc HL Hcf. induction n as [|n IH]; intros s us avs bytes r s' S Hb E; [done|]. rewrite malloc_rec_S in E.
  exact (malloc_body_safe _ _ _ _ _ _ _ _ _ _ S Hc HL Hcf Hb IH E).
Qed.

(** C6: The access to a unit that [alloc_unit] adds for the label [L] at the
    request of the client [d], when it returns: the unit is recorded with its
    label, the pages of all other ranges keep their access, and [d] itself may
    read and write every page of the unit, whatever its label says.  If the
    chunk fits with a minimal remainder, the address of the chunk is returned
    and every other client has exactly the access the flow relation gives it for
    [L]; if it does not fit, 0 is returned and the unit, which stays in the
    list, can be read and written by every task of the group. *)
Theorem alloc_unit_access s us avs c d nb av t L r s' :
  safe s us avs → is_client c d → length L = 8%nat →
  av ∈ avs → h_mstates (ab_heap s) !! av = Some t → ms_label t = L → 0 ≤ nb < 2 ^ 32 - MINSIZE →
  alloc_unit abt (pid d) nb av L s = Ret (r, s') →
  let B := os_brk (ab_os s) in let RW := Z.lor PROT_READ PROT_WRITE in
  (∃ ps u x, ll_rep (h_ustate_list (ab_heap s')) ps ∧ u ∈ ps.*2 ∧
     h_ustates (ab_heap s') !! u = Some x ∧ addr x = B ∧ length_ x = UNIT_SIZE ∧ unit_label (ab_heap s') x L) ∧
  (∀ q g, ¬ in_pages B UNIT_SIZE g → os_prot (ab_os s') q g = os_prot (ab_os s) q g) ∧
  (∀ g, in_pages B UNIT_SIZE g → os_prot (ab_os s') (pid d) g = Some RW) ∧
  (nb + MINSIZE ≤ tsize → r = chunk2mem B ∧
     ∀ c' d' g, is_client c' d' → c' ≠ c → in_pages B UNIT_SIZE g →
       ∃ b, os_prot (ab_os s') (pid d') g = Some b ∧ exact_perm d' L b) ∧
  (tsize < nb + MINSIZE → r = 0 ∧
     ∀ q g, os_member (ab_os s) q → in_pages B UNIT_SIZE g → os_prot (ab_os s') q g = Some RW).
Proof.
  intros S Hc HL Hav Ht HtL Hnb E B0 RW. pose proof (sf_clients _ _ _ S) as C. destruct (co_table _ C) as (ps & T).
  pose proof (co_member _ C _ _ Hc) as Hm. destruct (client_index ps c d T Hc) as (_ & Hd & Hp32).
  destruct (alloc_unit_start _ _ _ _ _ _ _ _ _ _ _ S Hc Hav Ht HtL E) as (B & u & s1 & N & E1).
  pose proof N as [_ (HB & _) G O _ A U]. unfold B0. rewrite <-HB.
  assert (Hunit : ∀ h, meta_eq (ab_heap s1) h → ∃ qs u x, ll_rep (h_ustate_list h) qs ∧ u ∈ qs.*2 ∧
    h_ustates h !! u = Some x ∧ addr x = B ∧ length_ x = UNIT_SIZE ∧ unit_label h x L).
  { intros h M. destruct (meta_unit_label _ _ _ _ _ _ _ M A U) as (x & Hx).
    destruct (ho_ulist _ _ _ _ (heap_ok_meta _ _ _ _ _ M O)) as (qs & R & Hqs). exists qs, u, x.
    split; [done|]. split; [rewrite Hqs; by left|]. tauto. }
  rewrite u32_small in E1 by (rewrite MINSIZE_16 in *; lia).
  destruct (Z.leb_spec (nb + MINSIZE) tsize) as [Hfit|Hno].
  - destruct (alloc_unit_end _ _ _ _ _ _ _ _ _ _ _ _ S N E1) as (-> & M & Hup). pose proof (Hup ps T) as Upd.
    split; [by apply Hunit|]. split; [|split; [|split; [|lia]]].
    + intros q g Hg. by rewrite (up_out _ _ _ _ _ _ _ Upd), (gr_out _ _ _ _ G).
    + intros g Hg. rewrite (up_other _ _ _ _ _ _ _ Upd); [by apply (gr_in _ _ _ _ G)|].
      intros c2 d2 _ _ ->. by rewrite Hp32.
    + intros _. split; [done|]. intros c' d' g Hc' Hne Hg. destruct (client_index ps c' d' T Hc') as (Hin & Hd' & _).
      eexists. split; [apply (up_set _ _ _ _ _ _ _ Upd c' d'); try done|by apply policy_exact].
      rewrite Hp32. intros He. apply Hne. by apply (co_pids _ C c' d' c d).
  - injection E1 as <- <-. split; [by apply Hunit|]. split; [apply G|]. split; [|split; [lia|]].
    + intros g Hg. by apply (gr_in _ _ _ _ G).
    + intros _. split; [done|]. intros q g Hq Hg. by apply (gr_in _ _ _ _ G).
Qed.

(** C4: [prot_update] after an allocation by thread [p]: when the client table
    is well formed, every client is a task the arbiter controls and has every
    page of the range (which lies in the user space and starts at a page), the
    loop over the client table terminates without a fault and leaves every
    client but [p] with exactly the access the flow relation gives it for the
    label [L] of the new memory, on every page of the range: the read bit
    exactly when information may flow from [L] to the client, the write bit
    exactly when it may flow both ways, and no other bit. The thread that
    allocated, tasks that are not clients and all pages outside the range keep
    what they had, and the allocator's data is untouched. *)
Theorem prot_update_exact ps p a size L s :
  table_ok abt ps → clients_ok (ab_os s) → length L = 8%nat →
  (∀ c d g, is_client c d → in_pages a (PAGE_ALIGN size) g → is_Some (os_prot (ab_os s) (pid d) g)) →
  0 ≤ a → page_aligned a = true → 0 < size → a + size ≤ TASK_SIZE →
  ∃ s', prot_update abt p a size L s = Ret (tt, s') ∧ ab_heap s' = ab_heap s ∧
    (∀ c d g, is_client c d → pid d ≠ u32 p → in_pages a (PAGE_ALIGN size) g →
       ∃ b, os_prot (ab_os s') (pid d) g = Some b ∧ exact_perm d L b) ∧
    (∀ q g, q = u32 p ∨ (∀ c d, is_client c d → pid d ≠ q) ∨ ¬ in_pages a (PAGE_ALIGN size) g →
       os_prot (ab_os s') q g = os_prot (ab_os s) q g).
Proof.
  intros T C HL Hmap Ha Hal Hsz Hhi. unfold prot_update. rewrite (for_each_rep _ _ _ _ (tok_rep _ _ T)).
  assert (Hcl : ∀ c d, c ∈ ps.*2 → descs abt !! c = Some d → is_client c d).
  { intros c d Hc Hd. split; [|done]. exists ps. split; [apply T|done]. }
  destruct (prot_update_total p a size L ps.*2 s Ha ltac:(lia)) as [s' E].
  { intros c Hc. destruct (tok_desc _ _ T c Hc) as (d & Hd & _). exists d. split; [done|].
    eapply (co_member _ C); eauto. }
  rewrite E. exists s'. split; [done|].
  destruct (prot_update_fold _ _ _ _ _ _ _ E) as [Hh U]; try done.
  - apply T.
  - intros c1 d1 c2 d2 H1 H2 D1 D2. apply (co_pids _ C); auto.
  - intros c d Hc Hd. eapply (co_member _ C); eauto.
  - intros c d g Hc Hd. eapply Hmap; eauto.
  - split; [done|]. split.
    + intros c d g [(qs & R & Hin) Hd] Hp Hg. rewrite <-(ll_rep_det _ _ _ (tok_rep _ _ T) R) in Hin.
      eexists. split; [by apply (up_set _ _ _ _ _ _ _ U c)|by apply policy_exact].
    + intros q g Hq. destruct Hq as [->|[Hq|Hg]].
      * by apply (up_other _ _ _ _ _ _ _ U).
      * apply (up_other _ _ _ _ _ _ _ U). intros c d Hc Hd Hpq. exfalso. apply (Hq c d); auto.
      * by apply (up_out _ _ _ _ _ _ _ U).
Qed.
End Protection.

(** No unit and no state *)
Definition empty_heap : heap :=
  Heap ∅ ∅ ∅ 0 init_linked_list init_linked_list init_linked_list false 0 64 false.

(** One client, 1234, and a page it may read and write at the time of the
    update. *)
Definition demo_kern : abkern := AbKern [1234; 7] [] AB_HEAP_START {[(1234, 0x80000) := 3]}.

Lemma demo_is_client c d : is_client demo_abt c d → c = 16 ∧ d = demo_desc.
Proof.
  intros [(qs & R & Hin) Hd]. rewrite <-(ll_rep_det _ _ _ (tok_rep _ _ demo_table) R) in Hin.
  apply list_elem_of_singleton in Hin. simpl in Hin. subst c. split; [done|]. vm_compute in Hd. by injection Hd as <-.
Qed.
Lemma demo_client : is_client demo_abt 16 demo_desc.
Proof. split; [|by vm_compute]. exists [(1, 16)]. split; [apply demo_table|by left]. Qed.
Lemma demo_clients_ok : clients_ok demo_abt demo_kern.
Proof.
  split; [exists [(1, 16)]; apply demo_table| |].
  - intros c1 d1 c2 d2 [-> _]%demo_is_client [-> _]%demo_is_client. done.
  - intros c d [-> ->]%demo_is_client. simpl. by left.
Qed.

Lemma prot_update_exact_witness :
  ∃ s', prot_update demo_abt 7 AB_HEAP_START 100 (cats8 [t_ar]) (AbSt empty_heap demo_kern) = Ret (tt, s') ∧
    k_prot (ab_os s') !! (1234, 0x80000) = Some PROT_NONE.
Proof.
  destruct (prot_update_exact demo_abt [(1, 16)] 7 AB_HEAP_START 100 (cats8 [t_ar]) (AbSt empty_heap demo_kern))
    as (s' & E & _ & H & _); [apply demo_table|apply demo_clients_ok|done| |by vm_compute..|].
  - intros c d g [-> ->]%demo_is_client Hg. unfold in_pages in Hg. change (PAGE_ALIGN 100) with 4096 in Hg.
    unfold AB_HEAP_START, PAGESIZE in Hg. assert (g = 0x80000) as -> by lia. exists 3. by vm_compute.
  - exists s'. split; [exact E|].
    destruct (H 16 demo_desc 0x80000 demo_client) as (b & Eb & Hb); [by vm_compute| |].
    + change (PAGE_ALIGN 100) with 4096. unfold in_pages, AB_HEAP_START, PAGESIZE. lia.
    + change (k_prot (ab_os s') !! (1234, 0x80000) = Some b) in Eb. rewrite Eb. f_equal.
      by apply (exact_perm_unique _ _ _ _ Hb (policy_exact demo_desc (cats8 [t_ar]) eq_refl)).
Defined.
