(* ===== verification/UnitLookup.v ===== *)
(** The unit that contains an address: [lookup_ustate_by_mem] and
    [lookup_label_by_mem] of [monitor/ablib_malloc.c] on a well-formed heap. *)

From S2P Require Import Prelude LinkedList Label Memory Client Chunk Heap Consolidate Os Malloc Free Frame Protection.

(** The unit record [u] covers the address. *)
Definition covers (h : heap) (ptr u : Z) : bool :=
  match h_ustates h !! u with
  | Some x => (addr x <=? ptr) && (ptr <? u32 (addr x + length_ x))
  | None => false
  end.

(** The body of the loop, from the tail of the list to its head. *)
Definition lookup_step (l : linked_list) (ptr victim : Z) : hm (Z + Z) :=
  n ← node l victim;
  u ← get_unit (data n);
  mret (if (addr u <=? ptr) && (ptr <? u32 (addr u + length_ u)) then inr (data n) else inl (prev n)).

Lemma lookup_step_node l ptr h pre a u post :
  ll_rep l (pre ++ (a, u) :: post) → is_Some (h_ustates h !! u) →
  loop_body (lookup_step l ptr) (a, h) =
    Ret (if covers h ptr u then inr (u, h) else inl (lastp 0 pre, h)).
Proof.
  intros R [x Hx]. unfold loop_body, lookup_step, node, lift, mbind, st_bind, covers. simpl.
  rewrite (ll_rep_read _ _ _ _ _ R). unfold get_unit. simpl. rewrite Hx. simpl. by destruct (_ && _).
Qed.

Lemma read_null l ps : ll_rep l ps → read_node l 0 = Fault Segv.
Proof.
  intros R. unfold read_node. destruct (nodes l !! 0) eqn:E; [|done].
  pose proof (rep_ptr _ _ R 0 (rep_dom _ _ R 0 (ex_intro _ _ E))). lia.
Qed.

Lemma lookup_iters l ptr h pre post :
  ll_rep l (pre ++ post) → (∀ u, u ∈ pre.*2 → is_Some (h_ustates h !! u)) →
  iters (loop_body (lookup_step l ptr)) (S (length pre)) (lastp 0 pre, h) =
    match List.find (covers h ptr) (rev pre.*2) with
    | Some u => Ret (inr (u, h))
    | None => Fault Segv
    end.
Proof.
  revert post. induction pre as [|[a u] pre IH] using rev_ind; intros post R Hs.
  - cbn [iters length lastp]. unfold loop_body, lookup_step, node, lift, mbind, st_bind. simpl.
    by rewrite (read_null _ _ R).
  - rewrite <-app_assoc in R. rewrite length_app, Nat.add_1_r, lastp_app. cbn [lastp].
    change (iters ?f (S ?n) ?s) with (match f s with Ret (inl s') => iters f n s' | r => r end).
    rewrite fmap_app, rev_app_distr in *. cbn [fmap list_fmap rev app snd] in *.
    rewrite (lookup_step_node l ptr h pre a u post); [|exact R|apply Hs; apply elem_of_app; right; by left].
    cbn [List.find]. destruct (covers h ptr u); [done|]. apply (IH _ R).
    intros v Hv. apply Hs. apply elem_of_app. by left.
Qed.

Lemma lookup_find h ps ptr :
  ll_rep (h_ustate_list h) ps → (∀ u, u ∈ ps.*2 → is_Some (h_ustates h !! u)) →
  lookup_ustate_by_mem ptr h =
    match List.find (covers h ptr) (rev ps.*2) with
    | Some u => Ret (u, h)
    | None => Fault Segv
    end.
Proof.
  intros R Hs. unfold lookup_ustate_by_mem, mbind, st_bind, gets. cbn.
  fold (lookup_step (h_ustate_list h) ptr). rewrite loopM_unfold, (rep_tail _ _ R).
  pose proof (ll_rep_length _ _ R) as Hlen.
  pose proof (lookup_iters (h_ustate_list h) ptr h ps []) as Hit. rewrite app_nil_r in Hit. specialize (Hit R Hs).
  destruct (List.find _ _) as [u|].
  - eapply while_iters; [|exact Hit]. lia.
  - eapply while_fault; [|exact Hit]. lia.
Qed.

Section Spec.
Variables (lim : Z) (h : heap) (us avs : list Z).
Hypotheses (O : heap_ok lim h us avs) (Hlim : lim ≤ TASK_SIZE).

Definition inside (ptr u : Z) : Prop :=
  ∃ x, h_ustates h !! u = Some x ∧ addr x ≤ ptr < addr x + length_ x.

Lemma covers_inside ptr u : u ∈ us → covers h ptr u = true ↔ inside ptr u.
Proof.
  intros Hu. destruct (ho_unit _ _ _ _ O u Hu) as (x & Hx & Hok & _). unfold covers, inside. rewrite Hx.
  pose proof (uo_high _ _ Hok) as Hh. pose proof (uo_low _ _ Hok) as Hl. pose proof (uo_len _ _ Hok) as Hn.
  unfold TASK_SIZE in Hlim. unfold AB_HEAP_START in Hl. rewrite Hn in *.
  rewrite u32_small by (unfold UNIT_SIZE, PAGE_PER_UNIT, PAGESIZE in *; lia).
  rewrite andb_true_iff, Z.leb_le, Z.ltb_lt. split; [intros; exists x; rewrite Hn; auto|].
  intros (y & [= <-] & Hy). by rewrite Hn in Hy.
Qed.

Lemma inside_unique ptr u v : u ∈ us → v ∈ us → inside ptr u → inside ptr v → u = v.
Proof.
  intros Hu Hv (x & Hx & Hpx) (y & Hy & Hpy). destruct (decide (u = v)) as [|Hne]; [done|].
  destruct (ho_unit _ _ _ _ O u Hu) as (x' & Hx' & Hox & _), (ho_unit _ _ _ _ O v Hv) as (y' & Hy' & Hoy & _).
  assert (x' = x) as -> by congruence. assert (y' = y) as -> by congruence.
  rewrite (uo_len _ _ Hox) in Hpx. rewrite (uo_len _ _ Hoy) in Hpy.
  destruct (ho_disj _ _ _ _ O u v x y); [done..|lia|lia].
Qed.

Lemma lookup_ustate_result ptr :
  (∀ u, u ∈ us → inside ptr u → lookup_ustate_by_mem ptr h = Ret (u, h)) ∧
  ((∀ u, u ∈ us → ¬ inside ptr u) → lookup_ustate_by_mem ptr h = Fault Segv).
Proof.
  destruct (ho_ulist _ _ _ _ O) as (ps & R & Hps).
  rewrite (lookup_find h ps ptr R).
  2:{ intros u. rewrite Hps. intros Hu. destruct (ho_unit _ _ _ _ O u Hu) as (x & Hx & _). by eexists. }
  rewrite Hps. destruct (List.find (covers h ptr) (rev us)) as [v|] eqn:E.
  - apply find_some in E as [Hv Hc]. rewrite <-in_rev in Hv. apply list_elem_of_In in Hv.
    apply (covers_inside _ _ Hv) in Hc. split.
    + intros u Hu Hi. by rewrite (inside_unique ptr u v).
    + intros Hn. by destruct (Hn v Hv).
  - split; [|done]. intros u Hu Hi. apply (covers_inside _ _ Hu) in Hi.
    rewrite (find_none _ _ E u) in Hi; [done|]. rewrite <-in_rev. by apply list_elem_of_In.
Qed.

Lemma lookup_ustate_inv ptr u h' :
  lookup_ustate_by_mem ptr h = Ret (u, h') → h' = h ∧ u ∈ us ∧ inside ptr u.
Proof.
  intros E. destruct (ho_ulist _ _ _ _ O) as (ps & R & Hps). rewrite (lookup_find h ps ptr R) in E.
  2:{ intros v. rewrite Hps. intros Hv. destruct (ho_unit _ _ _ _ O v Hv) as (x & Hx & _). by eexists. }
  rewrite Hps in E. destruct (List.find (covers h ptr) (rev us)) as [v|] eqn:Ef; [|done]. injection E as <- <-.
  apply find_some in Ef as [Hv Hc]. split; [done|]. rewrite <-in_rev in Hv. apply list_elem_of_In in Hv.
  split; [done|]. by apply covers_inside.
Qed.
End Spec.

(** A heap with one unit of label [L] at the bottom of the break area. *)
Definition single (x : Z) : linked_list := LinkedList 1 1 1 {[1 := Node x 0 0]}.
Lemma single_rep x : ll_rep (single x) [(1, x)].
Proof.
  split; simpl; try done.
  - intros a [n Hn]. apply lookup_singleton_Some in Hn as [<- _]. by left.
  - apply NoDup_singleton.
  - intros a ->%list_elem_of_singleton. lia.
Qed.

Definition demo_state (L : list Z) : malloc_state := init_tunables (set_ms_label L zero_mstate).
Definition demo_heap (L : list Z) : heap :=
  Heap ∅ {[16 := demo_state L]} {[32 := UnitState AB_HEAP_START AB_HEAP_START UNIT_SIZE 16]} AB_HEAP_START
    (single 16) (single 32) init_linked_list false (AB_HEAP_START + UNIT_SIZE) 64 true.

Lemma demo_heap_ok L : length L = 8%nat → heap_ok (AB_HEAP_START + UNIT_SIZE) (demo_heap L) [32] [16].
Proof.
  intros HL. split; simpl.
  - eexists. split; [apply single_rep|done].
  - eexists. split; [apply single_rep|done].
  - done.
  - intros u ->%list_elem_of_singleton. eexists. split; [apply lookup_singleton_eq|].
    split; [by split|by left].
  - intros av ->%list_elem_of_singleton. eexists. split; [apply lookup_singleton_eq|]. by split.
  - intros u v x y ->%list_elem_of_singleton ->%list_elem_of_singleton. done.
  - apply NoDup_singleton.
  - done.
  - intros u [x Hx]. apply lookup_singleton_Some in Hx as [<- _]. lia.
  - intros u [x Hx]. apply lookup_singleton_Some in Hx as [<- _]. lia.
Qed.

(** On a well-formed heap the lookup of an address finds the one unit that
    contains it, with the label the unit was allocated for, and changes
    nothing; the number of units does not matter, since the loop visits each
    at most once.  For an address outside every unit it does not report
    failure but follows the last [prev] pointer, [NULL], and faults. *)
Theorem lookup_by_mem_spec lim h us avs ptr :
  heap_ok lim h us avs → lim ≤ TASK_SIZE →
  (∀ u x t, u ∈ us → h_ustates h !! u = Some x → addr x ≤ ptr < addr x + length_ x →
     h_mstates h !! unit_av x = Some t →
     lookup_ustate_by_mem ptr h = Ret (u, h) ∧ lookup_label_by_mem ptr h = Ret (ms_label t, h)) ∧
  ((∀ u x, u ∈ us → h_ustates h !! u = Some x → ¬ addr x ≤ ptr < addr x + length_ x) →
     lookup_ustate_by_mem ptr h = Fault Segv ∧ lookup_label_by_mem ptr h = Fault Segv).
Proof.
  intros O Hlim. destruct (lookup_ustate_result lim h us avs O Hlim ptr) as [H1 H2]. split.
  - intros u x t Hu Hx Hp Ht. assert (E : lookup_ustate_by_mem ptr h = Ret (u, h)) by (apply H1; [done|by exists x]).
    split; [done|]. unfold lookup_label_by_mem, mbind, st_bind. rewrite E. unfold get_unit. rewrite Hx.
    unfold get_av. by rewrite Ht.
  - intros Hn. assert (E : lookup_ustate_by_mem ptr h = Fault Segv).
    { apply H2. intros u Hu (x & Hx & Hp). by apply (Hn u x). }
    split; [done|]. unfold lookup_label_by_mem, mbind, st_bind. by rewrite E.
Qed.

Lemma lookup_by_mem_spec_witness :
  lookup_label_by_mem 0x80000008 (demo_heap (unpack 1)) = Ret (unpack 1, demo_heap (unpack 1)) ∧
  lookup_ustate_by_mem 0x90000000 (demo_heap (unpack 1)) = Fault Segv.
Proof.
  pose proof (demo_heap_ok (unpack 1) (length_unpack 1)) as O.
  destruct (lookup_by_mem_spec _ _ _ _ 0x80000008 O) as [H _]; [by vm_compute|].
  destruct (lookup_by_mem_spec _ _ _ _ 0x90000000 O) as [_ H']; [by vm_compute|]. split.
  - destruct (H 32 (UnitState AB_HEAP_START AB_HEAP_START UNIT_SIZE 16) (demo_state (unpack 1))) as [_ E];
      [by left|reflexivity|by vm_compute|reflexivity|exact E].
  - apply H'. intros u x ->%list_elem_of_singleton [= <-] [_ H2]. vm_compute in H2. discriminate.
Defined.
