(* ===== verification/Requests.v ===== *)
(** The remaining allocator entry points keep page protections in line with
    the labels: free, calloc and realloc, and the pass over all units that
    follows the registration of a new thread. *)

From S2P Require Import Prelude LinkedList Label Memory Client Chunk Heap Consolidate Os Malloc Free Frame Protection UnitLookup.

(** One step of a computation that keeps the bookkeeping. *)
Ltac sstep S E :=
  let r := fresh "r" in let s1 := fresh "s" in let E1 := fresh "E" in let S1 := fresh "S" in
  apply bind_ret_inv in E as (r & s1 & E1 & E);
  eapply safe_keeps in E1 as (S1 & _ & _); [|solve [keeps]|exact S]; clear S; rename S1 into S.

Section Requests.
Context {K : Type} `{HK : AbOsLaws K}.
Variable abt : arbiter_thread.
Implicit Types s : abst K.

Lemma malloc_safe s us avs c d bytes L r s' :
  safe abt s us avs → is_client abt c d → length L = 8%nat →
  can_flow (unpack (label d)) (unpack (ownership d)) L → 0 ≤ bytes ≤ MAX_SMALL →
  ablib_malloc abt (pid d) bytes L s = Ret (r, s') → ∃ us' avs', safe abt s' us' avs'.
Proof. intros S Hc HL Hcf Hb. exact (malloc_rec_safe abt 2 c d L Hc HL Hcf s us avs bytes r s' S Hb). Qed.

(** * Free *)

Lemma remove_unit_empty get set u h r : get h = init_linked_list → remove_unit get set u h ≠ Ret r.
Proof.
  intros Hg E. unfold remove_unit in E. destruct r as [x h'].
  bstep E as l h1 E1. apply gets_inv in E1 as [-> ->]. rewrite Hg in E.
  bstep E as n h2 E2. apply lift_inv in E2 as [E2 ->].
  rewrite (linked_list_locate_rep _ [] _ init_linked_list_rep) in E2. injection E2 as <-.
  bstep E as q h3 E3. apply lift_inv in E3 as [E3 ->].
  by rewrite (list_del_entry_null _ _ init_linked_list_rep) in E3.
Qed.

(** No unit is in the list of mapped units, so the code for a mapped chunk
    never gets past the removal of the unit from it. *)
Lemma free_mmapped_stuck s us avs p av u q size r :
  safe abt s us avs → free_mmapped p av u q size s ≠ Ret r.
Proof.
  intros S E. destruct r as [x s']. unfold free_mmapped in E. sstep S E.
  pose proof (ho_mmlist _ _ _ _ (sf_heap _ _ _ _ S)) as Hmm. clear S.
  bstep E as y s1 E1. apply lh_inv in E1 as [E1 _]. apply upd_av_inv in E1 as (t & _ & E1).
  bstep E as z s2 E2. unfold sys in E2. destruct (absys_munmap _ _ _ _) as [[rc k]|]; [|done].
  injection E2 as <- <-. bstep E as w s3 E3. apply lh_inv in E3 as [E3 _]. simpl in E3.
  revert E3. apply remove_unit_empty. by rewrite E1.
Qed.

Lemma free_safe s us avs p mem u s' :
  safe abt s us avs → ablib_free p mem s = Ret (u, s') → safe abt s' us avs.
Proof.
  intros S E. unfold ablib_free in E. destruct (mem =? 0); [by injection E as _ <-|].
  do 6 sstep S E. bstep E as x s7 E7. assert (S7 : safe abt s7 us avs).
  { destruct (_ <=? _); [|destruct (negb _)].
    - by eapply safe_keeps in E7 as (S7 & _); [|apply keeps_free_fast|exact S].
    - by eapply safe_keeps in E7 as (S7 & _); [|apply keeps_free_consolidate|exact S].
    - by eapply free_mmapped_stuck in E7. }
  by eapply safe_keeps in E as (S8 & _); [|apply keeps_unlock|exact S7].
Qed.

(** * Calloc *)

Lemma calloc_safe s us avs c d n z L r s' :
  safe abt s us avs → is_client abt c d → length L = 8%nat →
  can_flow (unpack (label d)) (unpack (ownership d)) L → u32 (n * z) ≤ MAX_SMALL →
  ablib_calloc abt (pid d) n z L s = Ret (r, s') → ∃ us' avs', safe abt s' us' avs'.
Proof.
  intros S Hc HL Hcf Hb E. unfold ablib_calloc in E. destruct (_ && _); [injection E as _ <-; eauto|].
  bstep E as mem s1 E1. pose proof (u32_bound (n * z)) as H0.
  apply (malloc_safe _ us avs c) in E1 as (us1 & avs1 & S1); [|done..|lia].
  bstep E as x s2 E2. injection E as _ <-. exists us1, avs1.
  destruct (negb _); [|by injection E2 as _ <-].
  by eapply safe_keeps in E2 as (S2 & _); [|apply keeps_clear_chunk|exact S1].
Qed.

(** * Realloc *)

Lemma trim_safe s us avs p q newsize nb r s' :
  safe abt s us avs → realloc_trim p q newsize nb s = Ret (r, s') → safe abt s' us avs.
Proof.
  intros S E. unfold realloc_trim in E. bstep E as x s1 E1. apply assertb_inv in E1 as [_ ->].
  bstep E as y s2 E2. injection E as _ <-. destruct (_ <? _).
  - do 2 sstep S E2. by eapply safe_keeps in E2 as (S2 & _); [|apply keeps_unlock|exact S].
  - do 4 sstep S E2. by eapply free_safe.
Qed.

(** The requests realloc passes on to malloc fit when its own does. *)
Lemma small_again bytes nb :
  0 ≤ bytes ≤ MAX_SMALL → checked_request2size bytes = Some nb →
  0 ≤ u32 (nb - MALLOC_ALIGN_MASK) ≤ MAX_SMALL.
Proof.
  intros Hb [H1 H2]%small_nb; [|done]. rewrite MINSIZE_16 in H2. change tsize with 40944 in H2.
  unfold MALLOC_ALIGN_MASK, MAX_SMALL in *. rewrite u32_small; lia.
Qed.

Section Client.
Variables (c : Z) (d : client_desc) (L : list Z).
Hypotheses (Hc : is_client abt c d) (HL : length L = 8%nat)
  (Hcf : can_flow (unpack (label d)) (unpack (ownership d)) L).

Lemma move_safe s us avs oldmem oldp oldsize next nb r s' :
  safe abt s us avs → 0 ≤ u32 (nb - MALLOC_ALIGN_MASK) ≤ MAX_SMALL →
  realloc_move abt (pid d) oldmem oldp oldsize next nb L s = Ret (r, s') → ∃ us' avs', safe abt s' us' avs'.
Proof.
  intros S Hn E. unfold realloc_move in E. sstep S E.
  bstep E as mem s1 E1. apply (malloc_safe _ us avs c) in E1 as (us1 & avs1 & S1); [|done..].
  exists us1, avs1. destruct (mem =? 0); [by injection E as _ <-|].
  do 2 sstep S1 E. destruct (_ =? next); [by eapply trim_safe|].
  do 2 sstep S1 E. bstep E as x s6 E6. injection E as _ <-. by eapply free_safe.
Qed.

Lemma chunk_safe s us avs u oldmem oldp oldsize nb r s' :
  safe abt s us avs → 0 ≤ u32 (nb - MALLOC_ALIGN_MASK) ≤ MAX_SMALL →
  realloc_chunk abt (pid d) u oldmem oldp oldsize nb L s = Ret (r, s') → ∃ us' avs', safe abt s' us' avs'.
Proof.
  intros S Hn E. unfold realloc_chunk in E.
  destruct (nb <=? oldsize); [exists us, avs; by eapply trim_safe|]. do 2 sstep S E.
  destruct (_ && _); [do 4 sstep S E; injection E as _ <-; eauto|]. sstep S E.
  match type of E with match ?m with _ => _ end _ = _ => destruct m end.
  - sstep S E. exists us, avs. by eapply trim_safe.
  - by eapply move_safe.
Qed.

Lemma mmapped_safe s us avs av oldmem oldp oldsize nb r s' :
  safe abt s us avs → 0 ≤ u32 (nb - MALLOC_ALIGN_MASK) ≤ MAX_SMALL →
  realloc_mmapped abt (pid d) av oldmem oldp oldsize nb L s = Ret (r, s') → ∃ us' avs', safe abt s' us' avs'.
Proof.
  intros S Hn E. unfold realloc_mmapped in E. do 2 sstep S E.
  destruct (_ =? _); [sstep S E; injection E as _ <-; eauto|].
  destruct (_ <=? _); [sstep S E; injection E as _ <-; eauto|]. sstep S E.
  bstep E as mem s4 E4. apply (malloc_safe _ us avs c) in E4 as (us1 & avs1 & S4); [|done..].
  exists us1, avs1. bstep E as x s5 E5. injection E as _ <-. destruct (negb _); [|by injection E5 as _ <-].
  sstep S4 E5. by eapply free_safe.
Qed.

Lemma realloc_safe s us avs oldmem bytes r s' :
  safe abt s us avs → 0 ≤ bytes ≤ MAX_SMALL →
  ablib_realloc abt (pid d) oldmem bytes L s = Ret (r, s') → ∃ us' avs', safe abt s' us' avs'.
Proof.
  intros S Hb E. unfold ablib_realloc in E.
  destruct (oldmem =? 0); [by eapply malloc_safe|].
  destruct (bytes =? 0); [bstep E as x s1 E1; injection E as _ <-; exists us, avs; by eapply free_safe|].
  do 3 sstep S E. destruct (checked_request2size bytes) as [nb|] eqn:Hnb; [|injection E as _ <-; eauto].
  pose proof (small_again _ _ Hb Hnb) as Hn. do 2 sstep S E. destruct (negb _).
  - by eapply chunk_safe.
  - by eapply mmapped_safe.
Qed.
End Client.

(** * The pass over all units for a new thread *)

(** The effect of [malloc_update] over the units [us] on the kernel. *)
Record admitted (h : heap) (d : client_desc) (us : list Z) (k k' : K) : Prop := {
  ad_member q : os_member k' q ↔ os_member k q;
  ad_brk : os_brk k' = os_brk k;
  ad_other q g : q ≠ pid d → os_prot k' q g = os_prot k q g;
  ad_out g : (∀ u x, u ∈ us → h_ustates h !! u = Some x → ¬ in_pages (addr x) (length_ x) g) →
    os_prot k' (pid d) g = os_prot k (pid d) g;
  ad_set u x L g : u ∈ us → h_ustates h !! u = Some x → unit_label h x L →
    in_pages (addr x) (length_ x) g → os_prot k' (pid d) g = Some (policy d L);
}.

Lemma unit_len_align : PAGE_ALIGN UNIT_SIZE = UNIT_SIZE.
Proof. by vm_compute. Qed.

(** One unit *)
Lemma update_unit_spec d u s s' lim x :
  malloc_update_unit d u s = Ret s' → h_ustates (ab_heap s) !! u = Some x →
  unit_ok lim x → lim ≤ TASK_SIZE → os_member (ab_os s) (pid d) →
  (∀ g, in_pages (addr x) (length_ x) g → is_Some (os_prot (ab_os s) (pid d) g)) →
  ab_heap s' = ab_heap s ∧ admitted (ab_heap s) d [u] (ab_os s) (ab_os s').
Proof.
  intros E Hx Hok Hlim Hm Hmap. unfold malloc_update_unit in E.
  unfold get_unit at 1 in E. rewrite Hx in E. cbn [mbind outcome_bind] in E.
  unfold get_av in E. destruct (h_mstates (ab_heap s) !! unit_av x) as [t|] eqn:Et; [|done].
  cbn [mbind outcome_bind] in E. fold (policy d (ms_label t)) in E.
  destruct (absys_mprotect _ _ _ _ _) as [[rc k]|] eqn:Em; [|done]. injection E as <-.
  pose proof (uo_len _ _ Hok) as Hlen. pose proof (uo_high _ _ Hok) as Hhi. pose proof (uo_low _ _ Hok) as Hlow.
  destruct (mprotect_frame _ _ _ _ _ _ _ Em Hm) as (Fm & Fb & Fp);
    [unfold AB_HEAP_START in *; lia|rewrite Hlen; by vm_compute|apply policy_range|].
  assert (Hal : PAGE_ALIGN (length_ x) = length_ x) by (rewrite Hlen; apply unit_len_align).
  rewrite Hal in Fp. split; [done|]. simpl. split; try done.
  - intros q g Hq. destruct (Fp q g) as [|(-> & _)]; done.
  - intros g Hg. destruct (Fp (pid d) g) as [|(_ & Hin & _)]; [done|].
    by destruct (Hg u x ltac:(by left) Hx).
  - intros v y L g Hv%list_elem_of_singleton Hy (t' & Ht' & <-) Hg. subst v.
    assert (y = x) as -> by congruence. assert (t' = t) as -> by congruence.
    apply (mprotect_ok _ _ _ _ _ _ _ Em); rewrite ?Hal; try done.
    + unfold AB_HEAP_START in *. lia.
    + apply Hok.
    + rewrite Hlen. unfold UNIT_SIZE, PAGE_PER_UNIT, PAGESIZE. lia.
    + lia.
    + apply policy_range.
Qed.

Lemma admitted_app h d us vs k1 k2 k3 :
  (∀ u v x y g, u ∈ us → v ∈ vs → h_ustates h !! u = Some x → h_ustates h !! v = Some y →
     in_pages (addr x) (length_ x) g → ¬ in_pages (addr y) (length_ y) g) →
  admitted h d us k1 k2 → admitted h d vs k2 k3 → admitted h d (us ++ vs) k1 k3.
Proof.
  intros Hd A B. split.
  - intros q. by rewrite (ad_member _ _ _ _ _ B), (ad_member _ _ _ _ _ A).
  - by rewrite (ad_brk _ _ _ _ _ B), (ad_brk _ _ _ _ _ A).
  - intros q g Hq. by rewrite (ad_other _ _ _ _ _ B), (ad_other _ _ _ _ _ A).
  - intros g Hg. rewrite (ad_out _ _ _ _ _ B), (ad_out _ _ _ _ _ A); [done|..]; intros u x Hu;
      apply (Hg u x); apply elem_of_app; auto.
  - intros u x L g [Hu|Hu]%elem_of_app Hx HL Hg; [|by eapply (ad_set _ _ _ _ _ B)].
    rewrite (ad_out _ _ _ _ _ B); [by eapply (ad_set _ _ _ _ _ A)|]. intros v y Hv Hy. by eapply Hd.
Qed.

Lemma update_units_spec d us s s' lim :
  fold_outcome (malloc_update_unit d) us s = Ret s' → lim ≤ TASK_SIZE → NoDup us →
  (∀ u, u ∈ us → ∃ x, h_ustates (ab_heap s) !! u = Some x ∧ unit_ok lim x) →
  (∀ u v x y, u ∈ us → v ∈ us → u ≠ v → h_ustates (ab_heap s) !! u = Some x →
     h_ustates (ab_heap s) !! v = Some y → addr x + UNIT_SIZE ≤ addr y ∨ addr y + UNIT_SIZE ≤ addr x) →
  os_member (ab_os s) (pid d) →
  (∀ u x g, u ∈ us → h_ustates (ab_heap s) !! u = Some x → in_pages (addr x) (length_ x) g →
     is_Some (os_prot (ab_os s) (pid d) g)) →
  ab_heap s' = ab_heap s ∧ admitted (ab_heap s) d us (ab_os s) (ab_os s').
Proof.
  intros E Hlim. revert s E. induction us as [|u us IH]; intros s E Hnd Hun Hdis Hm Hmap.
  { injection E as <-. split; [done|]. split; try done; intros ???; set_solver. }
  apply NoDup_cons in Hnd as [Hni Hnd]. cbn [fold_outcome] in E.
  destruct (malloc_update_unit d u s) as [s1|] eqn:Eu; [|done].
  change (fold_outcome (malloc_update_unit d) us s1 = Ret s') in E.
  destruct (Hun u ltac:(by left)) as (x & Hx & Hok).
  destruct (update_unit_spec _ _ _ _ _ _ Eu Hx Hok Hlim Hm) as [Hh A].
  { intros g. apply (Hmap u); [by left|done]. }
  assert (Hsep : ∀ v y g, v ∈ us → h_ustates (ab_heap s) !! v = Some y →
            in_pages (addr x) (length_ x) g → ¬ in_pages (addr y) (length_ y) g).
  { intros v y g Hv Hy Hg Hg'. destruct (Hun v ltac:(by right)) as (y' & Hy' & Hoky).
    assert (y' = y) as -> by congruence. destruct (Hdis u v x y) as [|]; [by left|by right|congruence|done..| |];
    unfold in_pages in *; rewrite (uo_len _ _ Hok) in Hg; rewrite (uo_len _ _ Hoky) in Hg'; lia. }
  destruct (IH s1 E Hnd) as [Hh' B]; rewrite ?Hh.
  - intros v Hv. apply Hun. by right.
  - intros v w y z Hv Hw. apply Hdis; by right.
  - by apply (ad_member _ _ _ _ _ A).
  - intros v y g Hv Hy Hg. rewrite (ad_out _ _ _ _ _ A); [apply (Hmap v y); [by right|done|done]|].
    intros u' x' ->%list_elem_of_singleton Hx' Hgx. assert (x' = x) as -> by congruence. by eapply (Hsep v).
  - split; [congruence|]. rewrite Hh in B. apply (admitted_app _ _ [u] us _ (ab_os s1)); [|done|done].
    intros u' v x' y g ->%list_elem_of_singleton Hv Hx' Hy. assert (x' = x) as -> by congruence. by eapply Hsep.
Qed.

Lemma update_units_total d us s :
  (∀ u, u ∈ us → ∃ x t, h_ustates (ab_heap s) !! u = Some x ∧ h_mstates (ab_heap s) !! unit_av x = Some t ∧
     0 ≤ addr x ∧ 0 ≤ length_ x) →
  os_member (ab_os s) (pid d) → ∃ s', fold_outcome (malloc_update_unit d) us s = Ret s'.
Proof.
  revert s. induction us as [|u us IH]; intros s Hu Hm; [by exists s|]. cbn [fold_outcome].
  destruct (Hu u ltac:(by left)) as (x & t & Hx & Ht & Ha & Hl).
  assert (∃ k1, malloc_update_unit d u s = Ret (AbSt (ab_heap s) k1) ∧ os_member k1 (pid d)) as (k1 & -> & Hm1).
  { unfold malloc_update_unit, get_unit, get_av. rewrite Hx. cbn [mbind outcome_bind]. rewrite Ht.
    cbn [mbind outcome_bind]. fold (policy d (ms_label t)).
    destruct (mprotect_total (ab_os s) (pid d) (addr x) (length_ x) (policy d (ms_label t)) Hm Ha) as (rc & k & Ek).
    rewrite Ek. exists k. split; [done|]. by apply (mprotect_frame _ _ _ _ _ _ _ Ek Hm Ha Hl (policy_range _ _)). }
  apply IH; [|done]. intros v Hv. apply Hu. by right.
Qed.

Lemma malloc_update_spec d s us avs u s' :
  safe abt s us avs → os_member (ab_os s) (pid d) → malloc_update d s = Ret (u, s') →
  ab_heap s' = ab_heap s ∧ admitted (ab_heap s) d us (ab_os s) (ab_os s').
Proof.
  intros S Hm E. pose proof (sf_heap _ _ _ _ S) as O. destruct (ho_ulist _ _ _ _ O) as (ps & R & Hps).
  unfold malloc_update in E. rewrite (for_each_rep _ _ _ _ R), Hps in E.
  destruct (fold_outcome _ us s) as [s1|] eqn:Ef; [|done]. injection E as _ <-.
  apply (update_units_spec _ _ _ _ (os_brk (ab_os s)) Ef); try solve [apply O|apply S|done].
  - intros v Hv. destruct (ho_unit _ _ _ _ O v Hv) as (x & ? & ? & _). eauto.
  - intros v x g. by apply (sf_mapped _ _ _ _ S).
Qed.

Lemma malloc_update_result d s lim us avs :
  heap_ok lim (ab_heap s) us avs → lim ≤ TASK_SIZE → os_member (ab_os s) (pid d) →
  (∀ u x g, u ∈ us → h_ustates (ab_heap s) !! u = Some x → in_pages (addr x) (length_ x) g →
     is_Some (os_prot (ab_os s) (pid d) g)) →
  ∃ s', malloc_update d s = Ret (tt, s') ∧ ab_heap s' = ab_heap s ∧
    (∀ u x t g, u ∈ us → h_ustates (ab_heap s) !! u = Some x → h_mstates (ab_heap s) !! unit_av x = Some t →
       in_pages (addr x) (length_ x) g →
       ∃ b, os_prot (ab_os s') (pid d) g = Some b ∧ exact_perm d (ms_label t) b) ∧
    (∀ q g, q ≠ pid d ∨ (∀ u x, u ∈ us → h_ustates (ab_heap s) !! u = Some x → ¬ in_pages (addr x) (length_ x) g) →
       os_prot (ab_os s') q g = os_prot (ab_os s) q g).
Proof.
  intros O Hlim Hm Hmap. destruct (ho_ulist _ _ _ _ O) as (ps & R & Hps).
  destruct (update_units_total d us s) as [s' E]; [|done|].
  { intros u Hu. destruct (ho_unit _ _ _ _ O u Hu) as (x & Hx & Hok & Hav).
    destruct (ho_state _ _ _ _ O _ Hav) as (t & Ht & _). exists x, t. split_and!; try done.
    - pose proof (uo_low _ _ Hok). unfold AB_HEAP_START in *. lia.
    - rewrite (uo_len _ _ Hok). by vm_compute. }
  exists s'. unfold malloc_update. rewrite (for_each_rep _ _ _ _ R), Hps, E. split; [done|].
  destruct (update_units_spec _ _ _ _ lim E Hlim) as [Hh A]; try solve [apply O|done].
  - intros v Hv. destruct (ho_unit _ _ _ _ O v Hv) as (x & ? & ? & _). eauto.
  - split; [done|]. split.
    + intros u x t g Hu Hx Ht Hg. destruct (ho_unit _ _ _ _ O u Hu) as (y & Hy & _ & Hav).
      assert (y = x) as -> by congruence. destruct (ho_state _ _ _ _ O _ Hav) as (t' & Ht' & Htu).
      assert (t' = t) as -> by congruence. eexists. split; [|apply policy_exact, Htu].
      eapply (ad_set _ _ _ _ _ A); [done|done|by exists t|done].
    + intros q g [Hq|Hg]; [by apply (ad_other _ _ _ _ _ A)|].
      destruct (decide (q = pid d)) as [->|]; [by apply (ad_out _ _ _ _ _ A)|by apply (ad_other _ _ _ _ _ A)].
Qed.

(** C5: [malloc_update], run when a thread is registered: on a well-formed heap
    whose units lie in the user space and are mapped in the new thread, which
    the arbiter controls, the loop over all units terminates without a fault
    and gives the new thread on every page of every unit exactly the access the
    flow relation gives it for the label of the unit: the read bit exactly when
    information may flow from the unit to the thread, the write bit exactly
    when it may flow both ways, and no other bit; no other task and no other
    page is affected, and the allocator's data is untouched. *)
Theorem malloc_update_exact d s lim us avs :
  heap_ok lim (ab_heap s) us avs → lim ≤ TASK_SIZE → os_member (ab_os s) (pid d) →
  (∀ u x g, u ∈ us → h_ustates (ab_heap s) !! u = Some x → in_pages (addr x) (length_ x) g →
     is_Some (os_prot (ab_os s) (pid d) g)) →
  ∃ s', malloc_update d s = Ret (tt, s') ∧ ab_heap s' = ab_heap s ∧
    (∀ u x t g, u ∈ us → h_ustates (ab_heap s) !! u = Some x → h_mstates (ab_heap s) !! unit_av x = Some t →
       in_pages (addr x) (length_ x) g →
       ∃ b, os_prot (ab_os s') (pid d) g = Some b ∧ exact_perm d (ms_label t) b) ∧
    (∀ q g, q ≠ pid d ∨ (∀ u x, u ∈ us → h_ustates (ab_heap s) !! u = Some x → ¬ in_pages (addr x) (length_ x) g) →
       os_prot (ab_os s') q g = os_prot (ab_os s) q g).
Proof. apply malloc_update_result. Qed.

(** * Changes of the client table *)

Lemma perm_ok_mono d d' L b :
  label d' = label d → own_le (unpack (ownership d)) (unpack (ownership d')) → perm_ok d L b → perm_ok d' L b.
Proof.
  intros El Ho [Hw Hr]. unfold perm_ok. rewrite El. split.
  - intros Hb. destruct (Hw Hb). split; by eapply can_flow_own_mono.
  - intros Hb. eapply can_flow_own_mono; [exact Ho|auto].
Qed.

Lemma access_ok_mono o d d' L b :
  pid d' = pid d → label d' = label d → own_le (unpack (ownership d)) (unpack (ownership d')) →
  access_ok o d L b → access_ok o d' L b.
Proof.
  intros Ep El Ho [Hp|[-> Hf]]; [left; by eapply perm_ok_mono|right]. split; [done|].
  rewrite El. by eapply can_flow_own_mono.
Qed.

Variable abt' : arbiter_thread.

(** Clients leave, or their ownership grows. *)
Lemma safe_clients s us avs :
  safe abt s us avs → (∃ ps, table_ok abt' ps) →
  (∀ c d', is_client abt' c d' → ∃ d, is_client abt c d ∧ pid d' = pid d ∧ label d' = label d ∧
     own_le (unpack (ownership d)) (unpack (ownership d'))) →
  safe abt' s us avs.
Proof.
  intros S T Hcl. pose proof (sf_clients _ _ _ _ S) as C. split; try solve [apply S].
  - split; [done| |].
    + intros c1 d1 c2 d2 H1 H2 Hp. destruct (Hcl _ _ H1) as (e1 & ? & ? & _), (Hcl _ _ H2) as (e2 & ? & ? & _).
      eapply (co_pids _ _ C); [done|done|congruence].
    + intros c d' H1. destruct (Hcl _ _ H1) as (e1 & ? & -> & _). by eapply (co_member _ _ C).
  - destruct (sf_perm _ _ _ _ S) as [ow Hp]. exists ow.
    intros c d' u x L g H1 Hu Hx HL Hg. destruct (Hcl _ _ H1) as (d & Hd & Ep & El & Ho).
    destruct (Hp c d u x L g) as (b & Hb & Ha); [done..|]. rewrite Ep. eauto using access_ok_mono.
  - intros c d' H1. destruct (Hcl _ _ H1) as (d & Hd & _). by eapply (sf_fresh _ _ _ _ S).
Qed.

(** A new client, after the pass over all units. *)
Lemma safe_admit s us avs c_new d_new u s' :
  safe abt s us avs → (∃ ps, table_ok abt' ps) →
  (∀ c d, is_client abt' c d → is_client abt c d ∨ (c = c_new ∧ d = d_new)) →
  (∀ c d, is_client abt c d → pid d ≠ pid d_new) → os_member (ab_os s) (pid d_new) →
  c_new < h_libc_next (ab_heap s) → malloc_update d_new s = Ret (u, s') → safe abt' s' us avs.
Proof.
  intros S T Hcl Hnew Hm Hfr E. pose proof (sf_clients _ _ _ _ S) as C. pose proof (sf_heap _ _ _ _ S) as O.
  destruct (malloc_update_spec _ _ _ _ _ _ S Hm E) as [Hh A]. destruct s' as [h' k']. simpl in *. subst h'.
  split; simpl.
  - rewrite (ad_brk _ _ _ _ _ A). apply S.
  - split; [done| |].
    + intros c1 d1 c2 d2 [H1|[-> ->]]%Hcl [H2|[-> ->]]%Hcl Hp; [by eapply (co_pids _ _ C)|..|done].
      * by apply Hnew in H1.
      * by apply Hnew in H2.
    + intros c d Hc. apply (ad_member _ _ _ _ _ A). apply Hcl in Hc as [Hc|[-> ->]]; [|done].
      by eapply (co_member _ _ C).
  - rewrite (ad_brk _ _ _ _ _ A). apply S.
  - rewrite (ad_brk _ _ _ _ _ A). apply S.
  - destruct (sf_perm _ _ _ _ S) as [ow Hp]. exists ow.
    intros c d v x L g Hc Hv Hx HL Hg. apply Hcl in Hc as [Hc|[-> ->]].
    + rewrite (ad_other _ _ _ _ _ A) by (by eapply Hnew). by eapply Hp.
    + eexists. split; [by eapply (ad_set _ _ _ _ _ A)|]. left. apply policy_perm_ok.
      destruct HL as (t & Ht & <-). destruct (ho_unit _ _ _ _ O v Hv) as (y & Hy & _ & Hav).
      assert (y = x) as -> by congruence. destruct (ho_state _ _ _ _ O _ Hav) as (t' & Ht' & Htu).
      assert (t' = t) as -> by congruence. apply Htu.
  - intros q v x g Hq Hv Hx Hg. apply (ad_member _ _ _ _ _ A) in Hq.
    destruct (decide (q = pid d_new)) as [->|]; [|rewrite (ad_other _ _ _ _ _ A) by done; by eapply (sf_mapped _ _ _ _ S)].
    destruct (ho_unit _ _ _ _ O v Hv) as (y & Hy & _ & Hav). assert (y = x) as -> by congruence.
    destruct (ho_state _ _ _ _ O _ Hav) as (t & Ht & _).
    rewrite (ad_set _ _ _ _ _ A v x (ms_label t) g); [by eexists|done|done|by exists t|done].
  - intros c d [Hc|[-> ->]]%Hcl; [by eapply (sf_fresh _ _ _ _ S)|done].
Qed.
End Requests.

(** Thread 1234 joins while a unit of a secret label exists. *)
Definition unit_kern : abkern :=
  AbKern [1234; 7] [] (AB_HEAP_START + UNIT_SIZE)
    (on_pages (map_page 3 1234) (pages AB_HEAP_START UNIT_SIZE) ∅).

Lemma malloc_update_exact_witness :
  ∃ s', malloc_update demo_desc (AbSt (demo_heap (cats8 [t_ar])) unit_kern) = Ret (tt, s') ∧
    k_prot (ab_os s') !! (1234, 0x80009) = Some PROT_NONE.
Proof.
  destruct (malloc_update_exact demo_desc (AbSt (demo_heap (cats8 [t_ar])) unit_kern)
    (AB_HEAP_START + UNIT_SIZE) [32] [16]) as (s' & E & _ & H & _).
  - apply demo_heap_ok. reflexivity.
  - by vm_compute.
  - by left.
  - intros u x g ->%list_elem_of_singleton [= <-] Hg. exists 3. simpl in Hg.
    change (on_pages (map_page 3 1234) (pages AB_HEAP_START UNIT_SIZE) ∅ !! (1234, g) = Some 3).
    rewrite lookup_map_pages, decide_True; [done|]. split; [done|]. apply elem_of_pages; [done|done|exact Hg].
  - exists s'. split; [exact E|].
    destruct (H 32 (UnitState AB_HEAP_START AB_HEAP_START UNIT_SIZE 16) (demo_state (cats8 [t_ar])) 0x80009)
      as (b & Eb & Hb); [by left|reflexivity|reflexivity| |].
    + unfold in_pages, AB_HEAP_START, UNIT_SIZE, PAGE_PER_UNIT, PAGESIZE. simpl. lia.
    + change (k_prot (ab_os s') !! (1234, 0x80009) = Some b) in Eb. rewrite Eb. f_equal.
      by apply (exact_perm_unique _ _ _ _ Hb (policy_exact demo_desc (cats8 [t_ar]) eq_refl)).
Defined.
