(* ===== verification/AllocSpec.v ===== *)
(** Functional behaviour of the allocator's stages: fastbins, the unit top,
    unlinking, clearing, the overflow check of calloc and the bin map, and what
    an overwritten link of a free chunk does to the requests that follow. *)

From S2P Require Import Prelude LinkedList Label Memory Client Chunk Heap Consolidate Os Malloc Free Frame Protection UnitLookup.

Lemma lor_le a b : 0 ≤ a → 0 ≤ b → a ≤ Z.lor a b.
Proof.
  intros Ha Hb. apply Z.ldiff_le; [by apply Z.lor_nonneg|]. apply Z.bits_inj'. intros n _.
  rewrite Z.ldiff_spec, Z.lor_spec, Z.bits_0. by destruct (Z.testbit a n), (Z.testbit b n).
Qed.

(** * Fastbins *)

Lemma fastbin_index_range nb : 16 ≤ nb < 96 → 0 ≤ fastbin_index nb < NFASTBINS.
Proof.
  intros Hn. unfold fastbin_index. rewrite Z.shiftr_div_pow2 by lia. change (2 ^ 3) with 8.
  change NFASTBINS with 10. pose proof (Z.div_mod nb 8 ltac:(lia)). pose proof (Z.mod_pos_bound nb 8 ltac:(lia)).
  rewrite u32_small; lia.
Qed.

Lemma sd_eq a v h : valid_word h a = true → sd a v h = Ret (tt, set_h_mem (store32 (h_mem h) a v) h).
Proof. intros E. unfold sd. by rewrite E. Qed.
Lemma ld_eq a h : valid_word h a = true → ld a h = Ret (load32 (h_mem h) a, h).
Proof. intros E. unfold ld. by rewrite E. Qed.
Lemma get_av_eq av h t : h_mstates h !! av = Some t → get_av av h = Ret (t, h).
Proof. intros E. unfold get_av. by rewrite E. Qed.
Lemma upd_av_eq av f h t :
  h_mstates h !! av = Some t → upd_av av f h = Ret (tt, set_h_mstates (<[av := f t]> (h_mstates h)) h).
Proof. intros E. unfold upd_av. by rewrite E. Qed.

Lemma in_channel_valid h a : in_channel h a = true → valid_word h a = true.
Proof. intros E. unfold valid_word. by rewrite E. Qed.

Lemma fb_load_eq av i h t :
  h_mstates h !! av = Some t → 0 ≤ i < NFASTBINS → fb_load av i h = Ret (aget (ms_fastbins t) i, h).
Proof.
  intros Ht Hi. unfold fb_load. rewrite (bind_ret _ _ _ _ _ (get_av_eq _ _ _ Ht)).
  by rewrite (proj2 (Z.ltb_lt _ _)) by lia.
Qed.
Lemma fb_store_eq av i v h t :
  h_mstates h !! av = Some t → 0 ≤ i < NFASTBINS →
  fb_store av i v h = Ret (tt, set_h_mstates (<[av := set_ms_fastbins (aset (ms_fastbins t) i v) t]> (h_mstates h)) h).
Proof.
  intros Ht Hi. unfold fb_store. rewrite (proj2 (Z.ltb_lt _ _)) by lia.
  exact (upd_av_eq av (λ s, set_ms_fastbins (aset (ms_fastbins s) i v) s) h t Ht).
Qed.

Lemma aget_aset_same l i v : 0 ≤ i < Z.of_nat (length l) → aget (aset l i v) i = v.
Proof.
  intros Hi. unfold aget, aset. apply nth_lookup_Some. apply list_lookup_insert_eq. lia.
Qed.
Lemma aset_aset l i v w : aset (aset l i v) i w = aset l i w.
Proof. unfold aset. apply list_insert_insert_eq. Qed.
Lemma aset_aget l i : 0 ≤ i < Z.of_nat (length l) → aset l i (aget l i) = l.
Proof.
  intros Hi. unfold aget, aset. apply list_insert_id.
  destruct (lookup_lt_is_Some_2 l (Z.to_nat i)) as [x Hx]; [lia|].
  rewrite Hx. f_equal. symmetry. by apply nth_lookup_Some.
Qed.

(** The state after the chunk [p] of size [nb] was put into its fastbin. *)
Definition fast_freed (av p nb : Z) (t : malloc_state) (h : heap) : heap :=
  let i := fastbin_index nb in
  let t1 := set_ms_max_fast (set_fastchunks (ms_max_fast t)) t in
  set_h_mstates (<[av := set_ms_fastbins (aset (ms_fastbins t) i p) t1]> (h_mstates h))
    (set_h_mem (store32 (h_mem h) (u32 (p + 8)) (aget (ms_fastbins t) i)) h).

Lemma in_channel_mem h a m : in_channel (set_h_mem m h) a = in_channel h a.
Proof. done. Qed.

Lemma free_fast_eq av p nb h t :
  h_mstates h !! av = Some t → 16 ≤ nb < 96 → in_channel h (u32 (p + 8)) = true →
  free_fast av p nb h = Ret (tt, fast_freed av p nb t h).
Proof.
  intros Ht Hn Hv. pose proof (fastbin_index_range nb Hn) as Hi. unfold free_fast.
  rewrite (bind_ret _ _ _ _ _ (upd_av_eq _ _ _ _ Ht)). set (t1 := set_ms_max_fast _ t).
  set (h1 := set_h_mstates _ h). assert (Ht1 : h_mstates h1 !! av = Some t1) by apply lookup_insert_eq.
  rewrite (bind_ret _ _ _ _ _ (fb_load_eq _ _ _ _ Ht1 Hi)). unfold wr_fd.
  rewrite (bind_ret _ _ h1 tt _ (sd_eq _ _ h1 (in_channel_valid h1 _ Hv))).
  rewrite (fb_store_eq _ _ _ _ t1) by done. unfold fast_freed. simpl. by rewrite insert_insert_eq.
Qed.

(** C26: A chunk put into its fastbin is the next one taken from it: a release
    through the fastbin followed by a request of the same chunk size returns
    the same block, the fastbins are as before, the link word of the chunk is
    the only memory written, and the flag that announces free chunks is set. *)
Theorem fastbin_roundtrip av p nb h t :
  h_mstates h !! av = Some t → length (ms_fastbins t) = 10%nat →
  16 ≤ nb < 96 → nb ≤ ms_max_fast t → p ≠ 0 →
  in_channel h (u32 (p + 8)) = true → 0 ≤ aget (ms_fastbins t) (fastbin_index nb) < 2 ^ 32 →
  ∃ h1 h2 t2, free_fast av p nb h = Ret (tt, h1) ∧ malloc_fastbin av nb h1 = Ret (Some (chunk2mem p), h2) ∧
    h_mstates h2 !! av = Some t2 ∧ ms_fastbins t2 = ms_fastbins t ∧
    ms_max_fast t2 = Z.lor (ms_max_fast t) 3 ∧
    ∀ a, a < u32 (p + 8) ∨ u32 (p + 8) + 4 ≤ a → load8 (h_mem h2) a = load8 (h_mem h) a.
Proof.
  intros Ht Hl Hn Hmf Hp Hv Hold. pose proof (fastbin_index_range nb Hn) as Hi.
  rewrite (free_fast_eq _ _ _ _ _ Ht Hn Hv). exists (fast_freed av p nb t h).
  set (h1 := fast_freed av p nb t h). set (i := fastbin_index nb) in *.
  set (t1 := set_ms_fastbins (aset (ms_fastbins t) i p) (set_ms_max_fast (set_fastchunks (ms_max_fast t)) t)).
  assert (Ht1 : h_mstates h1 !! av = Some t1) by apply lookup_insert_eq.
  assert (Hlen : 0 ≤ i < Z.of_nat (length (ms_fastbins t))) by (rewrite Hl; exact Hi).
  unfold malloc_fastbin. rewrite (bind_ret _ _ _ _ _ (get_av_eq _ _ _ Ht1)).
  pose proof (lor_le (ms_max_fast t) 3 ltac:(lia) ltac:(lia)) as Hle.
  rewrite (proj2 (Z.leb_le _ _)) by (simpl; unfold set_fastchunks; change (Z.lor FASTCHUNKS_BIT ANYCHUNKS_BIT) with 3; lia).
  rewrite (bind_ret _ _ _ _ _ (fb_load_eq _ _ _ _ Ht1 Hi)). fold i. cbn [ms_fastbins t1 set_ms_fastbins].
  rewrite (aget_aset_same _ _ p Hlen), (proj2 (Z.eqb_neq p 0)) by done. cbn [negb]. unfold rd_fd.
  rewrite (bind_ret _ _ h1 _ _ (ld_eq _ h1 (in_channel_valid h1 _ Hv))).
  rewrite (bind_ret _ _ _ _ _ (fb_store_eq _ _ _ _ _ Ht1 Hi)). fold i.
  assert (Hld : load32 (h_mem h1) (u32 (p + 8)) = aget (ms_fastbins t) i) by (by apply load32_store32_eq).
  rewrite Hld. eexists _, _. split; [done|]. split; [done|]. split; [apply lookup_insert_eq|].
  split; [simpl; by rewrite aset_aset, aset_aget|]. split; [done|].
  intros a Ha. by apply load8_store32_ne.
Qed.

(** A chunk of 24 bytes in the unit of [demo_heap]. *)
Lemma fastbin_roundtrip_witness :
  ∃ h1 h2, free_fast 16 0x80000010 24 (demo_heap (unpack 1)) = Ret (tt, h1) ∧
    malloc_fastbin 16 24 h1 = Ret (Some 0x80000018, h2).
Proof.
  destruct (fastbin_roundtrip 16 0x80000010 24 (demo_heap (unpack 1)) (demo_state (unpack 1)))
    as (h1 & h2 & _ & E1 & E2 & _); [reflexivity|reflexivity|lia|by vm_compute|done|by vm_compute|by vm_compute|].
  exists h1, h2. split; [exact E1|exact E2].
Defined.

(** * Links that clients can write *)

(** A request that takes the first chunk [p] of a fastbin makes the word behind
    its header the head of the bin, whatever that word is. *)
Lemma malloc_fastbin_eq av nb p h t :
  h_mstates h !! av = Some t → 16 ≤ nb < 96 → nb ≤ ms_max_fast t →
  aget (ms_fastbins t) (fastbin_index nb) = p → p ≠ 0 →
  malloc_fastbin av nb h =
    if valid_word h (u32 (p + 8)) then
      Ret (Some (chunk2mem p), set_h_mstates (<[av := set_ms_fastbins
        (aset (ms_fastbins t) (fastbin_index nb) (load32 (h_mem h) (u32 (p + 8)))) t]> (h_mstates h)) h)
    else Fault Wild.
Proof.
  intros Ht Hn Hmf Hp Hp0. pose proof (fastbin_index_range nb Hn) as Hi. unfold malloc_fastbin.
  rewrite (bind_ret _ _ _ _ _ (get_av_eq _ _ _ Ht)), (proj2 (Z.leb_le _ _)) by done.
  rewrite (bind_ret _ _ _ _ _ (fb_load_eq _ _ _ _ Ht Hi)), Hp, (proj2 (Z.eqb_neq p 0)) by done. cbn [negb]. unfold rd_fd.
  destruct (valid_word h (u32 (p + 8))) eqn:Hv.
  - rewrite (bind_ret _ _ h _ _ (ld_eq _ h Hv)). by rewrite (bind_ret _ _ _ _ _ (fb_store_eq _ _ _ _ _ Ht Hi)).
  - unfold mbind at 1, st_bind at 1, ld. by rewrite Hv.
Qed.

Lemma in_bins_insert av t t1 h a :
  h_mstates h !! av = Some t → in_bins (set_h_mstates (<[av := t1]> (h_mstates h)) h) a = in_bins h a.
Proof.
  intros Ht. apply eq_true_iff_eq. unfold in_bins. simpl. rewrite !existsb_exists.
  assert (Hk : ∀ x, In x (map_to_list (<[av := t1]> (h_mstates h))).*1 ↔ In x (map_to_list (h_mstates h)).*1); [|by setoid_rewrite Hk].
  intros x. rewrite <-!list_elem_of_In, !list_elem_of_fmap. split; intros ([y z] & -> & Hy%elem_of_map_to_list).
  - destruct (decide (av = y)) as [<-|]; [exists (av, t)|exists (y, z)]; (split; [done|]); apply elem_of_map_to_list; [done|].
    by rewrite lookup_insert_ne in Hy.
  - destruct (decide (av = y)) as [<-|]; [exists (av, t1)|exists (y, z)]; (split; [done|]); apply elem_of_map_to_list.
    + apply lookup_insert_eq.
    + by rewrite lookup_insert_ne.
Qed.

(** C34: The links of free chunks are trusted although clients can write them.
    When a fastbin holds a chunk [p] of the channel whose link word has been
    set to any [v] other than 0, the next request of that size returns the
    block of [p], and the one after it returns the block at [v], in use or not
    and of whatever label, if the word behind [v] is in the channel or in a
    bin; if it is not, the arbiter follows the pointer out of the memory that
    the allocator owns. *)
Theorem fastbin_link_trusted av nb p v h t :
  h_mstates h !! av = Some t → length (ms_fastbins t) = 10%nat → 16 ≤ nb < 96 → nb ≤ ms_max_fast t →
  aget (ms_fastbins t) (fastbin_index nb) = p → p ≠ 0 → in_channel h (u32 (p + 8)) = true →
  load32 (h_mem h) (u32 (p + 8)) = v → v ≠ 0 →
  ∃ h1, malloc_fastbin av nb h = Ret (Some (chunk2mem p), h1) ∧
    if valid_word h (u32 (v + 8)) then ∃ h2, malloc_fastbin av nb h1 = Ret (Some (chunk2mem v), h2)
    else malloc_fastbin av nb h1 = Fault Wild.
Proof.
  intros Ht Hl Hn Hmf Hp Hp0 Hc Hv Hv0. pose proof (fastbin_index_range nb Hn) as Hi.
  rewrite (malloc_fastbin_eq av nb p h t Ht Hn Hmf Hp Hp0), (in_channel_valid h _ Hc), Hv. eexists. split; [done|].
  set (h1 := set_h_mstates _ h). set (t1 := set_ms_fastbins _ t) in h1.
  assert (Ht1 : h_mstates h1 !! av = Some t1) by apply lookup_insert_eq.
  assert (Hb : aget (ms_fastbins t1) (fastbin_index nb) = v).
  { simpl. rewrite aget_aset_same; [done|]. rewrite Hl. exact Hi. }
  assert (Hvalid : valid_word h1 (u32 (v + 8)) = valid_word h (u32 (v + 8))).
  { unfold valid_word. f_equal. by eapply in_bins_insert. }
  rewrite (malloc_fastbin_eq av nb v h1 t1 Ht1 Hn Hmf Hb Hv0), Hvalid.
  destruct (valid_word h (u32 (v + 8))); [by eexists|done].
Qed.

(** The client that holds the chunk of 24 bytes at [0x80000010] releases it and
    sets its link to a chunk at [0x80004000], which is still in use. *)
Definition poisoned : heap :=
  let t := demo_state (unpack 1) in
  let h := demo_heap (unpack 1) in
  set_h_mstates (<[16 := set_ms_fastbins (aset (ms_fastbins t) (fastbin_index 24) 0x80000010) t]> (h_mstates h))
    (set_h_mem (store32 (h_mem h) 0x80000018 0x80004000) h).
Lemma fastbin_link_trusted_witness :
  ∃ h1 h2, malloc_fastbin 16 24 poisoned = Ret (Some 0x80000018, h1) ∧
    malloc_fastbin 16 24 h1 = Ret (Some 0x80004008, h2).
Proof.
  destruct (fastbin_link_trusted 16 24 0x80000010 0x80004000 poisoned
    (set_ms_fastbins (aset (ms_fastbins (demo_state (unpack 1))) (fastbin_index 24) 0x80000010) (demo_state (unpack 1))))
    as (h1 & E1 & H); [by vm_compute|by vm_compute|lia|by vm_compute|by vm_compute|done|by vm_compute|by vm_compute|done|].
  assert (Hw : valid_word poisoned (u32 (0x80004000 + 8)) = true) by (by vm_compute). rewrite Hw in H.
  destruct H as (h2 & E2). exists h1, h2. split; [exact E1|exact E2].
Defined.

(** * Calloc *)

Section Calloc.
Context {K : Type} `{AbOs K}.

(** The overflow check of [ablib_calloc] is exact: a product that does not
    fit 32 bits returns [NULL] without an allocation, and otherwise the whole
    product is requested and the block is cleared. *)
Theorem calloc_overflow abt p n e L (s : abst K) :
  0 ≤ n < 2 ^ 32 → 0 ≤ e < 2 ^ 32 →
  (2 ^ 32 ≤ n * e → ablib_calloc abt p n e L s = Ret (0, s)) ∧
  (n * e < 2 ^ 32 → ablib_calloc abt p n e L s =
     (mem ← ablib_malloc abt p (n * e) L;
      (if negb (mem =? 0) then lh (clear_chunk mem) else mret tt);; mret mem) s).
Proof.
  intros Hn He. unfold ablib_calloc. split; intros Hb.
  - assert (0 < n) by nia. pose proof (u32_bound (n * e)).
    rewrite (proj2 (Z.eqb_neq n 0)), (proj2 (Z.eqb_neq e _)); [done| |lia].
    intros Heq. pose proof (Z.mul_div_le (u32 (n * e)) n ltac:(lia)). rewrite <-Heq in *. nia.
  - rewrite u32_small by nia. destruct (Z.eqb_spec n 0) as [->|Hne]; [done|].
    rewrite Z.mul_comm, Z.div_mul by lia. by rewrite Z.eqb_refl.
Qed.
End Calloc.

Lemma calloc_overflow_witness :
  ablib_calloc demo_abt 1234 0x10000 0x10001 (unpack 0) (AbSt empty_heap demo_kern)
    = Ret (0, AbSt empty_heap demo_kern).
Proof. apply (calloc_overflow demo_abt 1234 0x10000 0x10001); lia. Defined.

(** Words cleared one by one *)
Definition zero_words (mem : Z) (ks : list Z) (m : memory) : memory :=
  foldl (λ m i, store32 m (mem + 4 * i) 0) m ks.

Lemma load8_store0 m a b : load8 (store32 m a 0) b = if decide (a ≤ b < a + 4) then 0 else load8 m b.
Proof.
  case_decide; [|by apply load8_store32_ne; lia]. rewrite store32_unfold, !load8_insert.
  repeat case_decide; try done; lia.
Qed.

Lemma load8_zero_words mem ks m b :
  ((∃ i, i ∈ ks ∧ mem + 4 * i ≤ b < mem + 4 * i + 4) → load8 (zero_words mem ks m) b = 0) ∧
  ((∀ i, i ∈ ks → ¬ mem + 4 * i ≤ b < mem + 4 * i + 4) → load8 (zero_words mem ks m) b = load8 m b).
Proof.
  revert m. induction ks as [|i ks IH]; intros m; simpl; [set_solver|].
  destruct (IH (store32 m (mem + 4 * i) 0)) as [IH1 IH2]. split.
  - intros (j & Hj & Hb). destruct (decide (Exists (λ i, mem + 4 * i ≤ b < mem + 4 * i + 4) ks)) as [He|Hne].
    + apply IH1. by apply Exists_exists in He.
    + rewrite IH2.
      * rewrite load8_store0. apply elem_of_cons in Hj as [->|Hj]; [by rewrite decide_True|].
        destruct Hne. apply Exists_exists. eauto.
      * intros k Hk Hkb. apply Hne. apply Exists_exists. eauto.
  - intros Hn. rewrite IH2; [|intros; apply Hn; by right]. rewrite load8_store0, decide_False; [done|].
    apply Hn. by left.
Qed.

Lemma for_zero mem ks h :
  (∀ i, i ∈ ks → word_at mem i = mem + 4 * i ∧ in_channel h (mem + 4 * i) = true) →
  for_ ks (λ i, sd (word_at mem i) 0) h = Ret (tt, set_h_mem (zero_words mem ks (h_mem h)) h).
Proof.
  revert h. induction ks as [|i ks IH]; intros h Hi; [by destruct h|]. cbn [for_].
  destruct (Hi i ltac:(by left)) as [-> Hv].
  rewrite (bind_ret _ _ h tt _ (sd_eq _ _ h (in_channel_valid h _ Hv))).
  rewrite IH; [done|]. intros j Hj. apply Hi. by right.
Qed.

(** A chunk at [mem] of size [csz] that is not mapped on its own, inside the
    channel. *)
Record chunk_in (h : heap) (mem csz : Z) : Prop := {
  ci_size : load32 (h_mem h) (mem - 4) = Z.lor csz PREV_INUSE;
  ci_mult : csz = 8 * (csz / 8);
  ci_min : 16 ≤ csz;
  ci_low : CHANNEL_ADDR + 8 ≤ mem;
  ci_high : mem + csz ≤ CHANNEL_ADDR + CHANNEL_SIZE;
  ci_mapped : h_channel_mapped h = true;
}.

Lemma chunk_in_channel h mem csz a :
  chunk_in h mem csz → mem - 4 ≤ a → a + 4 ≤ mem + csz → in_channel h a = true.
Proof.
  intros C Ha Hb. unfold in_channel. rewrite (ci_mapped _ _ _ C). pose proof (ci_low _ _ _ C). pose proof (ci_high _ _ _ C).
  rewrite (proj2 (Z.leb_le _ _)), (proj2 (Z.leb_le _ _)) by lia. done.
Qed.

Lemma lor_1_mult8 csz : csz = 8 * (csz / 8) → Z.lor csz PREV_INUSE = csz + 1.
Proof.
  intros E. unfold PREV_INUSE. assert (H0 : Z.land csz 1 = 0).
  { change 1 with (Z.ones 1). rewrite Z.land_ones by lia. change (2 ^ 1) with 2. rewrite E.
    replace (8 * (csz / 8)) with (4 * (csz / 8) * 2) by lia. by apply Z.mod_mul. }
  by rewrite Z.add_nocarry_lxor, Z.lxor_lor.
Qed.

Lemma mod8_masks csz : csz = 8 * (csz / 8) → 0 ≤ csz < 2 ^ 32 - 8 →
  Z.land (csz + 1) IS_MMAPPED = 0 ∧ Z.land (csz + 1) (not32 SIZE_BITS) = csz.
Proof.
  intros E Hr. split.
  - unfold IS_MMAPPED. apply Z.bits_inj'. intros n Hn. rewrite Z.land_spec, Z.bits_0.
    destruct (decide (n = 1)) as [->|Hne]; [|change 2 with (2 ^ 1); rewrite (Z.pow2_bits_false 1) by lia; by rewrite andb_false_r].
    change (Z.testbit 2 1) with true. rewrite andb_true_r, Z.testbit_odd, Z.shiftr_div_pow2 by lia. change (2 ^ 1) with 2.
    replace ((csz + 1) / 2) with (2 * (2 * (csz / 8))).
    { rewrite Z.odd_mul. done. }
    rewrite E at 2. replace (8 * (csz / 8) + 1) with (1 + (4 * (csz / 8)) * 2) by lia.
    rewrite Z.div_add by lia. change (1 / 2) with 0. lia.
  - change SIZE_BITS with (2 ^ 2 - 1). rewrite land_not32_pow2 by lia. change (2 ^ 2) with 4.
    rewrite E at 1. replace (8 * (csz / 8) + 1) with (1 + (2 * (csz / 8)) * 4) by lia.
    rewrite Z.div_add by lia. change (1 / 4) with 0. lia.
Qed.

Lemma chunk_head h mem csz :
  chunk_in h mem csz →
  chunk_is_mmapped (mem2chunk mem) h = Ret (false, h) ∧ chunksize (mem2chunk mem) h = Ret (csz, h) ∧
  0 ≤ csz < 2 ^ 32 - 8.
Proof.
  intros C. pose proof (ci_low _ _ _ C) as Hlow. pose proof (ci_high _ _ _ C) as Hhigh.
  pose proof (ci_min _ _ _ C) as Hmin. unfold CHANNEL_ADDR, CHANNEL_SIZE in *.
  assert (Hr : 0 ≤ csz < 2 ^ 32 - 8) by lia.
  destruct (mod8_masks csz (ci_mult _ _ _ C) Hr) as [M1 M2].
  assert (Hld : rd_size (mem2chunk mem) h = Ret (csz + 1, h)).
  { unfold rd_size, mem2chunk. rewrite (u32_small (mem - _)) by (unfold SIZE_SZ; lia).
    rewrite u32_small by (unfold SIZE_SZ; lia). replace (mem - 2 * SIZE_SZ + 4) with (mem - 4) by (unfold SIZE_SZ; lia).
    rewrite ld_eq by (apply in_channel_valid; eapply chunk_in_channel; [exact C|lia|lia]).
    by rewrite (ci_size _ _ _ C), (lor_1_mult8 _ (ci_mult _ _ _ C)). }
  split; [|split; [|done]].
  - unfold chunk_is_mmapped. rewrite (bind_ret _ _ _ _ _ Hld). by rewrite M1.
  - unfold chunksize. rewrite (bind_ret _ _ _ _ _ Hld). by rewrite M2.
Qed.

(** The four sizes the unrolled code handles: it clears every word. *)
Lemma unrolled_all n : n = 3 ∨ n = 5 ∨ n = 7 ∨ n = 9 → unrolled n = seqZ 0 n.
Proof. intros [->|[->|[->| ->]]]; reflexivity. Qed.

(** The clearing of [ablib_calloc]: for every chunk size, by [memset] or by
    the unrolled code, it returns, every byte of the block that the caller may
    use is zero afterwards, and no other byte has changed. *)
Theorem clear_chunk_zeroes h mem csz :
  chunk_in h mem csz →
  ∃ h', clear_chunk mem h = Ret (tt, h') ∧
    (∀ a, mem ≤ a < mem + csz - SIZE_SZ → load8 (h_mem h') a = 0) ∧
    (∀ a, a < mem ∨ mem + csz - SIZE_SZ ≤ a → load8 (h_mem h') a = load8 (h_mem h) a).
Proof.
  intros C. destruct (chunk_head _ _ _ C) as (E1 & E2 & Hr). pose proof (ci_min _ _ _ C) as Hmin.
  pose proof (ci_mult _ _ _ C) as Hm. pose proof (ci_low _ _ _ C) as Hlow. pose proof (ci_high _ _ _ C) as Hhi.
  unfold clear_chunk. rewrite (bind_ret _ _ _ _ _ E1), (bind_ret _ _ _ _ _ E2). unfold SIZE_SZ in *.
  rewrite u32_small by lia. set (k := csz / 8) in *.
  assert (Hn : (csz - 4) / 4 = 2 * k - 1).
  { rewrite Hm. replace (8 * k - 4) with ((2 * k - 1) * 4) by lia. by apply Z.div_mul. }
  rewrite Hn, (bind_ret _ _ h tt h) by (unfold assertb; by rewrite (proj2 (Z.leb_le _ _)) by lia).
  unfold CHANNEL_ADDR, CHANNEL_SIZE in *. destruct (Z.ltb_spec 9 (2 * k - 1)) as [H9|H9].
  - unfold memset_, range_in_channel. rewrite (ci_mapped _ _ _ C).
    unfold CHANNEL_ADDR, CHANNEL_SIZE. rewrite (proj2 (Z.leb_le _ _)), (proj2 (Z.leb_le _ _)) by lia.
    eexists. split; [done|]. simpl. split; intros a Ha; rewrite load8_memset0.
    + by rewrite decide_True by lia.
    + by rewrite decide_False by lia.
  - rewrite unrolled_all by lia. rewrite for_zero.
    2:{ intros i Hi%elem_of_seqZ. unfold word_at. rewrite u32_small by lia. split; [done|].
        eapply chunk_in_channel; [exact C|lia|lia]. }
    eexists. split; [done|]. simpl. split; intros a Ha; apply load8_zero_words.
    + exists ((a - mem) / 4). pose proof (Z.div_mod (a - mem) 4 ltac:(lia)).
      pose proof (Z.mod_pos_bound (a - mem) 4 ltac:(lia)). split; [apply elem_of_seqZ; lia|lia].
    + intros i Hi%elem_of_seqZ. lia.
Qed.

(** A used chunk of 32 bytes whose memory holds junk. *)
Definition junk_heap : heap :=
  set_h_mem (store32 (store32 ∅ 0x80000004 33) 0x80000010 0xdead) (demo_heap (unpack 1)).
Lemma clear_chunk_zeroes_witness :
  ∃ h', clear_chunk 0x80000008 junk_heap = Ret (tt, h') ∧ load8 (h_mem h') 0x80000010 = 0 ∧
    load8 (h_mem h') 0x80000004 = 33.
Proof.
  destruct (clear_chunk_zeroes junk_heap 0x80000008 32) as (h' & E & Z1 & Z2); [by split; vm_compute|].
  exists h'. split; [exact E|]. split; [apply Z1; unfold SIZE_SZ; lia|].
  rewrite Z2 by (left; lia). by vm_compute.
Defined.

(** * The scan of the bin map *)

(** The least number that satisfies a test, when one does *)
Lemma find_first (f : nat → bool) m :
  f m = true → ∃ n, (n ≤ m)%nat ∧ f n = true ∧ ∀ i, (i < n)%nat → f i = false.
Proof.
  induction m as [m IH] using lt_wf_ind. intros Hm.
  destruct (existsb f (seq 0 m)) eqn:E.
  - apply existsb_exists in E as (i & Hi%in_seq & Hf). destruct (IH i ltac:(lia) Hf) as (n & Hn & ? & ?).
    exists n. split; [lia|done].
  - exists m. split; [done|]. split; [done|]. intros i Hi. destruct (f i) eqn:Ef; [|done].
    assert (existsb f (seq 0 m) = true); [|congruence]. apply existsb_exists. exists i.
    split; [apply in_seq; lia|done].
Qed.

Section Scan.
Variables (h : heap) (map : Z).

Definition bit_body : Z * Z → hm ((Z * Z) + (Z * Z)) := λ '(bin, bit),
  if Z.land bit map =? 0 then
    let bit := u32 (Z.shiftl bit 1) in
    assertb (negb (bit =? 0));;
    mret (inl (next_bin bin, bit))
  else mret (inr (bin, bit)).

Lemma land_bit k : 0 ≤ k → Z.land (2 ^ k) map = 0 ↔ Z.testbit map k = false.
Proof.
  intros Hk. split.
  - intros E. rewrite <-(andb_true_r (Z.testbit map k)), andb_comm, <-(Z.pow2_bits_true k) by done.
    by rewrite <-Z.land_spec, E, Z.bits_0.
  - intros E. apply Z.bits_inj'. intros n Hn. rewrite Z.land_spec, Z.bits_0.
    destruct (decide (n = k)) as [->|]; [by rewrite E, andb_false_r|by rewrite Z.pow2_bits_false].
Qed.

Lemma bit_step bin k :
  0 ≤ k < 31 →
  loop_body bit_body ((bin, 2 ^ k), h) =
    Ret (if Z.testbit map k then inr ((bin, 2 ^ k), h) else inl ((next_bin bin, 2 ^ (k + 1)), h)).
Proof.
  intros Hk. unfold loop_body, bit_body. simpl.
  destruct (Z.testbit map k) eqn:E.
  - rewrite (proj2 (Z.eqb_neq _ 0)); [done|]. intros E0. apply land_bit in E0; [congruence|lia].
  - rewrite (proj2 (Z.eqb_eq _ 0)) by (apply land_bit; [lia|done]).
    rewrite Z.shiftl_mul_pow2 by lia. change (2 ^ 1) with 2. rewrite Z.mul_comm, <-Z.pow_succ_r by lia.
    assert (2 ^ Z.succ k < 2 ^ 32) by (apply Z.pow_lt_mono_r; lia). assert (0 < 2 ^ Z.succ k) by lia.
    rewrite u32_small by lia. rewrite (bind_ret _ _ h tt h); [done|].
    unfold assertb. by rewrite (proj2 (Z.eqb_neq _ 0)) by lia.
Qed.

Definition bins_on (bin n : Z) : Z := u32 (bin + 8 * n).

Lemma next_bins bin n : next_bin (bins_on bin n) = bins_on bin (n + 1).
Proof.
  unfold next_bin, bins_on, u32. rewrite Z.add_mod_idemp_l by lia. f_equal. lia.
Qed.

(** From bit [k] on, [n] bits are blank and then one is set. *)
Lemma bit_iters bin k (n : nat) m :
  0 ≤ k → k + Z.of_nat n < 32 → 0 ≤ map < 2 ^ 32 →
  (∀ i, k ≤ i < k + Z.of_nat n → Z.testbit map i = false) → Z.testbit map (k + Z.of_nat n) = true →
  iters (loop_body bit_body) (S n) ((bins_on bin m, 2 ^ k), h) =
    Ret (inr ((bins_on bin (m + Z.of_nat n), 2 ^ (k + Z.of_nat n)), h)).
Proof.
  revert k m. induction n as [|n IH]; intros k m Hk Hn Hmap Hz H1.
  - rewrite !Z.add_0_r in *. cbn [iters].
    assert (E : loop_body bit_body ((bins_on bin m, 2 ^ k), h) = Ret (inr ((bins_on bin m, 2 ^ k), h))); [|by rewrite E].
    unfold loop_body, bit_body. simpl. rewrite (proj2 (Z.eqb_neq _ 0)); [done|].
    intros E0. apply land_bit in E0; [congruence|done].
  - change (iters ?f (S ?n) ?s) with (match f s with Ret (inl s') => iters f n s' | r => r end).
    rewrite bit_step by lia. rewrite (Hz k) by lia. rewrite next_bins, IH; try lia.
    + replace (m + 1 + Z.of_nat n) with (m + Z.of_nat (S n)) by lia.
      by replace (k + 1 + Z.of_nat n) with (k + Z.of_nat (S n)) by lia.
    + intros i Hi. apply Hz. lia.
    + by replace (k + 1 + Z.of_nat n) with (k + Z.of_nat (S n)) by lia.
Qed.

(** The first set bit at or above [k] *)
Lemma first_bit k :
  0 ≤ k → 2 ^ k ≤ map < 2 ^ 32 →
  ∃ n : nat, k + Z.of_nat n < 32 ∧ Z.testbit map (k + Z.of_nat n) = true ∧
    ∀ i, k ≤ i < k + Z.of_nat n → Z.testbit map i = false.
Proof.
  intros Hk Hm. set (t := Z.log2 map).
  assert (Hp : 0 < map) by lia. assert (Ht : Z.testbit map t = true) by (by apply Z.bit_log2).
  assert (Hkt : k ≤ t < 32).
  { split; [apply (Z.log2_le_pow2 map k); lia|]. apply (Z.log2_lt_pow2 map 32); lia. }
  destruct (find_first (λ n : nat, Z.testbit map (k + Z.of_nat n)) (Z.to_nat (t - k))) as (n & Hn & Hb & Hz).
  { by rewrite Z2Nat.id, Zplus_minus by lia. }
  exists n. split; [lia|]. split; [done|]. intros i Hi. specialize (Hz (Z.to_nat (i - k)) ltac:(lia)).
  by rewrite Z2Nat.id, Zplus_minus in Hz by lia.
Qed.
End Scan.

Definition block_body (t : malloc_state) (block : Z) : hm (Z + option (Z * Z)) :=
  let block := block + 1 in
  if BINMAPSIZE <=? block then mret (inr None) else
  let map := aget (ms_binmap t) block in
  mret (if map =? 0 then inl block else inr (Some (block, map))).

Lemma skip_loop h t block :
  0 ≤ block ≤ BINMAPSIZE →
  ∃ r, loopM (block_body t) block h = Ret (r, h) ∧
     match r with
     | Some (b, m) => block < b < BINMAPSIZE ∧ m = aget (ms_binmap t) b ∧ m ≠ 0 ∧
         ∀ b', block < b' < b → aget (ms_binmap t) b' = 0
     | None => ∀ b', block < b' < BINMAPSIZE → aget (ms_binmap t) b' = 0
     end.
Proof.
  intros Hb. set (P := λ (n : nat) block, ∃ r, iters (loop_body (block_body t)) n (block, h) = Ret (inr (r, h)) ∧
     match r with
     | Some (b, m) => block < b < BINMAPSIZE ∧ m = aget (ms_binmap t) b ∧ m ≠ 0 ∧
         ∀ b', block < b' < b → aget (ms_binmap t) b' = 0
     | None => ∀ b', block < b' < BINMAPSIZE → aget (ms_binmap t) b' = 0
     end).
  assert (Hit : ∀ n : nat, ∀ block, BINMAPSIZE - block ≤ Z.of_nat n → P (S n) block).
  { induction n as [|n IH]; intros b Hn; unfold P;
      change (iters ?f (S ?n) ?s) with (match f s with Ret (inl s') => iters f n s' | r => r end);
      unfold loop_body at 1, block_body at 1; simpl.
    - rewrite (proj2 (Z.leb_le _ _)) by lia. exists None. split; [done|]. lia.
    - destruct (Z.leb_spec BINMAPSIZE (b + 1)); [exists None; split; [done|]; lia|]. simpl.
      destruct (Z.eqb_spec (aget (ms_binmap t) (b + 1)) 0) as [E0|E0].
      + destruct (IH (b + 1) ltac:(lia)) as (r & E & Hr). exists r. split; [exact E|].
        destruct r as [[c m]|].
        * destruct Hr as (H1 & H2 & H3 & H4). split; [lia|]. split; [done|]. split; [done|]. intros b' Hb'.
          destruct (decide (b' = b + 1)) as [->|]; [done|]. apply H4. lia.
        * intros b' Hb'. destruct (decide (b' = b + 1)) as [->|]; [done|]. apply Hr. lia.
      + eexists (Some _). split; [done|]. split; [lia|]. split; [done|]. split; [done|]. lia. }
  destruct (Hit 3%nat block) as (r & E & Hr); [change BINMAPSIZE with 3 in *; lia|]. exists r. split; [|done].
  rewrite loopM_unfold. eapply while_iters; [|exact E]. lia.
Qed.

(** C37: The scan of the bin map terminates and finds what it looks for.  When a
    bit of the map at or above the current one is set, the inner loop stops at
    the first such bit, with the bin pointer advanced by as many bins, and the
    assertion that the bit does not run out cannot fail; the loop over the
    words of the map stops at the first nonzero word behind the current one,
    or reports that there is none, after at most three words. *)
Theorem binmap_scan_terminates h av t map bin k block :
  h_mstates h !! av = Some t → 0 ≤ k → 2 ^ k ≤ map < 2 ^ 32 → 0 ≤ bin < 2 ^ 32 → 0 ≤ block ≤ BINMAPSIZE →
  (∃ j, k ≤ j < 32 ∧ Z.testbit map j = true ∧ (∀ i, k ≤ i < j → Z.testbit map i = false) ∧
     advance_bit map bin (2 ^ k) h = Ret ((u32 (bin + 8 * (j - k)), 2 ^ j), h)) ∧
  (∃ r, skip_blocks av block h = Ret (r, h) ∧
     match r with
     | Some (b, m) => block < b < BINMAPSIZE ∧ m = aget (ms_binmap t) b ∧ m ≠ 0 ∧
         ∀ b', block < b' < b → aget (ms_binmap t) b' = 0
     | None => ∀ b', block < b' < BINMAPSIZE → aget (ms_binmap t) b' = 0
     end).
Proof.
  intros Ht Hk Hm Hbin Hb. split.
  - destruct (first_bit map k Hk Hm) as (n & Hn & H1 & Hz).
    assert (0 ≤ map < 2 ^ 32) by lia. exists (k + Z.of_nat n). split; [lia|]. split; [done|]. split; [done|].
    unfold advance_bit. fold (bit_body map). rewrite loopM_unfold.
    pose proof (bit_iters h map bin k n 0 Hk Hn ltac:(done) Hz H1) as Hit.
    unfold bins_on in Hit. rewrite Z.mul_0_r, Z.add_0_r, u32_small in Hit by done.
    replace (k + Z.of_nat n - k) with (0 + Z.of_nat n) by lia.
    eapply while_iters; [|exact Hit]. lia.
  - unfold skip_blocks. rewrite (bind_ret _ _ _ _ _ (get_av_eq _ _ _ Ht)). by apply skip_loop.
Qed.

Lemma binmap_scan_terminates_witness :
  ∃ r, skip_blocks 16 0 (demo_heap (unpack 1)) = Ret (r, demo_heap (unpack 1)).
Proof.
  destruct (binmap_scan_terminates (demo_heap (unpack 1)) 16 (demo_state (unpack 1)) 12 100 1 0)
    as (_ & r & E & _); [reflexivity|lia|lia|lia|by vm_compute|].
  exists r. exact E.
Defined.
