(* ===== verification/Blocks.v ===== *)
(** The blocks of the channel heap: an invariant that ties the allocator's
    words in the channel to the set of chunks that were handed out.

    [chunks] relates a heap to the chunks carved so far ([ck], address to
    size) and to the contents of the fastbins ([fl]): every unit is cut into
    chunks below its top, the word at the top holds what is left of the unit,
    the fenceposts are in place, the fastbins are chains through chunks that
    were released, the other bins are empty.  One lemma per way in which the
    allocator changes the heap says that the invariant is kept: a unit is cut
    at its top, a unit is added, a state is added, a chunk enters or leaves
    its fastbin, a thread writes into its own block. *)

From S2P Require Import Prelude LinkedList Label Memory Client Chunk Heap Consolidate Os Malloc Free Frame Protection UnitLookup AllocSpec.

Create HintDb heapdb.

(** * Memory outside an interval *)

Definition untouched (lo hi : Z) (m m' : memory) : Prop :=
  ∀ b, b < lo ∨ hi ≤ b → load8 m' b = load8 m b.

Lemma untouched_refl lo hi m : untouched lo hi m m.
Proof. by intros b _. Qed.
Lemma untouched_trans lo hi m1 m2 m3 : untouched lo hi m1 m2 → untouched lo hi m2 m3 → untouched lo hi m1 m3.
Proof. intros H1 H2 b Hb. by rewrite H2, H1. Qed.
Lemma untouched_wider lo hi lo' hi' m m' : lo' ≤ lo → hi ≤ hi' → untouched lo hi m m' → untouched lo' hi' m m'.
Proof. intros ? ? H b Hb. apply H. lia. Qed.
Lemma untouched_store lo hi m a v : lo ≤ a → a + 4 ≤ hi → untouched lo hi m (store32 m a v).
Proof. intros ? ? b Hb. apply load8_store32_ne. lia. Qed.
Lemma untouched_memset lo hi m a n : lo ≤ a → a + n ≤ hi → untouched lo hi m (memset0 m a n).
Proof. intros ? ? b Hb. rewrite load8_memset0, decide_False by lia. done. Qed.
Lemma untouched_load lo hi m m' a : untouched lo hi m m' → a + 4 ≤ lo ∨ hi ≤ a → load32 m' a = load32 m a.
Proof. intros H Ha. unfold load32. rewrite !H by lia. done. Qed.
#[export] Hint Resolve untouched_refl untouched_store untouched_memset : heapdb.

(** * The parts of the invariant *)

(** A list of chunks linked through their [fd] words, the last link null. *)
Fixpoint fd_chain (m : memory) (p : Z) (l : list Z) : Prop :=
  match l with
  | [] => p = 0
  | q :: l' => p = q ∧ fd_chain m (load32 m (q + 8)) l'
  end.

(** The end of a unit's chunks; the fenceposts are behind it. *)
Definition unit_end (x : unit_state) : Z := addr x + tsize.

(** The top of a unit: it holds the rest of the unit, which nobody has
    written, or fewer bytes than any request. *)
Record unit_shape (m : memory) (x : unit_state) : Prop := {
  un_top : addr x ≤ unit_top x ≤ unit_end x;
  un_align : unit_top x `mod` 8 = 0;
  un_channel : unit_end x + 16 ≤ CHANNEL_ADDR + CHANNEL_SIZE;
  un_fence : load32 m (unit_end x + 4) = 5;
  un_head :
    (unit_top x + 16 ≤ unit_end x ∧ load32 m (unit_top x + 4) = unit_end x - unit_top x + 1 ∧
     ∀ b, unit_top x + 8 ≤ b < unit_end x → load8 m b = 0) ∨
    (unit_end x - 8 ≤ unit_top x ∧ 0 ≤ load32 m (unit_top x + 4) ≤ 5);
}.

(** The chunk [p] of [z] bytes lies in the used part of unit [u]. *)
Record holds (h : heap) (us : list Z) (u : Z) (x : unit_state) (p z : Z) : Prop := {
  hl_in : u ∈ us;
  hl_unit : h_ustates h !! u = Some x;
  hl_low : addr x ≤ p;
  hl_high : p + z ≤ unit_top x;
}.

(** Sizes and the header; the last chunk of a unit may own 8 bytes more than
    were asked for. *)
Record chunk_shape (m : memory) (p z : Z) : Prop := {
  cs_min : 16 ≤ z;
  cs_mult : z `mod` 8 = 0;
  cs_align : p `mod` 8 = 0;
  cs_head : load32 m (p + 4) = z + 1 ∨ load32 m (p + 4) = z + 9;
}.

(** A state whose regular bins are empty and whose fastbins hold [F]. *)
Record state_shape (m : memory) (av : Z) (t : malloc_state) (F : Z → list Z) : Prop := {
  sh_fast : (ms_max_fast t = 72 ∧ ∀ i, F i = []) ∨ ms_max_fast t = 75;
  sh_len : length (ms_fastbins t) = 10%nat;
  sh_map : ms_binmap t = replicate 4 0;
  sh_bins i : 1 ≤ i < NBINS → load32 m (av + 72 + 8 * i) = bin_at av i;
  sh_chain i : 0 ≤ i < NFASTBINS → fd_chain m (aget (ms_fastbins t) i) (F i);
}.

(** A chunk of the fastbin [i] of the state [av]. *)
Definition fast_chunk (h : heap) (us : list Z) (ck : gmap Z Z) (av i p : Z) : Prop :=
  ∃ z u x, ck !! p = Some z ∧ load32 (h_mem h) (p + 4) = z + 1 ∧ z ≤ 72 ∧ fastbin_index z = i ∧
    holds h us u x p z ∧ unit_av x = av.

Record chunks (lim : Z) (h : heap) (us avs : list Z) (ck : gmap Z Z) (fl : Z → Z → list Z) : Prop := {
  ck_mapped : avs ≠ [] → h_channel_mapped h = true;
  ck_zero b : avs ≠ [] → lim ≤ b < CHANNEL_ADDR + CHANNEL_SIZE → load8 (h_mem h) b = 0;
  ck_low av : is_Some (h_mstates h !! av) → av + SIZEOF_MALLOC_STATE ≤ CHANNEL_ADDR ∧ av + SIZEOF_MALLOC_STATE ≤ h_libc_next h;
  ck_unit u x : u ∈ us → h_ustates h !! u = Some x → unit_shape (h_mem h) x;
  ck_units av t : av ∈ avs → h_mstates h !! av = Some t →
    ∃ ps, ll_rep (ms_ustate_list t) ps ∧
      ∀ u, u ∈ ps.*2 ↔ u ∈ us ∧ ∃ x, h_ustates h !! u = Some x ∧ unit_av x = av;
  ck_state av t : av ∈ avs → h_mstates h !! av = Some t → state_shape (h_mem h) av t (fl av);
  ck_chunk p z : ck !! p = Some z → chunk_shape (h_mem h) p z ∧ ∃ u x, holds h us u x p z;
  ck_disj p z q w : ck !! p = Some z → ck !! q = Some w → p ≠ q → p + z ≤ q ∨ q + w ≤ p;
  ck_free av i p : p ∈ fl av i → fast_chunk h us ck av i p;
  ck_nodup av i : NoDup (fl av i);
}.

(** * Frames *)

Lemma fd_chain_frame lo hi m m' p l :
  untouched lo hi m m' → (∀ q, q ∈ l → q + 12 ≤ lo ∨ hi ≤ q + 8) → fd_chain m p l → fd_chain m' p l.
Proof.
  intros Hm. revert p. induction l as [|q l IH]; intros p Hq; [done|]. intros [-> Hc]. split; [done|].
  rewrite (untouched_load _ _ _ _ _ Hm); [|destruct (Hq q); [by left|lia..]]. apply IH; [|done].
  intros r Hr. apply Hq. by right.
Qed.

Lemma unit_shape_frame lo hi m m' x :
  untouched lo hi m m' → hi ≤ unit_top x + 4 ∨ unit_end x + 8 ≤ lo → unit_shape m x → unit_shape m' x.
Proof.
  intros Hm Hd [T A N F Hh]. split; [done|done|done|rewrite (untouched_load _ _ _ _ _ Hm); [done|lia]|].
  rewrite (untouched_load _ _ _ _ (unit_top x + 4) Hm) by lia.
  destruct Hh as [(H1 & H2 & H3)|]; [left|by right]. split; [done|]. split; [done|]. intros b Hb. rewrite Hm by lia. by apply H3.
Qed.

Lemma chunk_shape_frame lo hi m m' p z :
  untouched lo hi m m' → p + 8 ≤ lo ∨ hi ≤ p + 4 → chunk_shape m p z → chunk_shape m' p z.
Proof. intros Hm Hd [? ? ? H]. split; [done..|]. rewrite (untouched_load _ _ _ _ _ Hm) by lia. done. Qed.

Lemma state_shape_frame lo hi m m' av t F :
  untouched lo hi m m' → (hi ≤ av + BINS_OFFSET ∨ av + BINS_OFFSET + BINS_BYTES ≤ lo) →
  (∀ i q, q ∈ F i → q + 12 ≤ lo ∨ hi ≤ q + 8) → state_shape m av t F → state_shape m' av t F.
Proof.
  intros Hm Hd Hq S. split; try apply S.
  - intros i Hi. rewrite (untouched_load _ _ _ _ _ Hm); [by apply S|]. revert Hd Hi. unfold BINS_OFFSET. change BINS_BYTES with 768. change NBINS with 96. lia.
  - intros i Hi. eapply fd_chain_frame; [done| |by apply S]. intros q. apply Hq.
Qed.

(** * Geometry *)

Section Geometry.
Context {lim : Z} {h : heap} {us avs : list Z} (O : heap_ok lim h us avs) (Hlim : lim ≤ TASK_SIZE).

(** Bounds of a unit: 16 bytes behind the end of its chunks still belong to it. *)
Lemma unit_bounds u x : u ∈ us → h_ustates h !! u = Some x →
  AB_HEAP_START ≤ addr x ∧ unit_end x + 16 = addr x + UNIT_SIZE ∧ unit_end x + 16 ≤ TASK_SIZE ∧ addr x `mod` 8 = 0 ∧
  unit_av x ∈ avs ∧ unit_end x `mod` 8 = 0.
Proof.
  intros Hu Hx. destruct (ho_unit _ _ _ _ O u Hu) as (y & Hy & Hok & Hav). assert (y = x) as -> by congruence.
  pose proof (uo_low _ _ Hok). pose proof (uo_high _ _ Hok). rewrite (uo_len _ _ Hok) in *.
  pose proof (uo_aligned _ _ Hok) as Ha. apply page_aligned_mul in Ha. unfold unit_end.
  unfold UNIT_SIZE, PAGE_PER_UNIT, PAGESIZE in *. change tsize with 40944.
  assert (H8 : addr x `mod` 8 = 0). { rewrite Ha. replace (4096 * (addr x / 4096)) with (512 * (addr x / 4096) * 8) by lia. by rewrite Z.mod_mul. }
  assert ((addr x + 40944) `mod` 8 = 0). { replace (addr x + 40944) with (addr x + 5118 * 8) by lia. by rewrite Z.mod_add. }
  repeat split; try done; lia.
Qed.

Lemma unit_limit u x : u ∈ us → h_ustates h !! u = Some x → unit_end x + 16 ≤ lim.
Proof.
  intros Hu Hx. destruct (ho_unit _ _ _ _ O u Hu) as (y & Hy & Hok & _). assert (y = x) as -> by congruence.
  pose proof (uo_high _ _ Hok) as Hh. rewrite (uo_len _ _ Hok) in Hh.
  by rewrite (proj1 (proj2 (unit_bounds u x Hu Hx))).
Qed.

Lemma units_apart u v x y : u ∈ us → v ∈ us → u ≠ v → h_ustates h !! u = Some x → h_ustates h !! v = Some y →
  unit_end x + 16 ≤ addr y ∨ unit_end y + 16 ≤ addr x.
Proof.
  intros Hu Hv Hne Hx Hy. destruct (unit_bounds u x Hu Hx) as (_ & -> & _), (unit_bounds v y Hv Hy) as (_ & -> & _).
  by apply (ho_disj _ _ _ _ O u v).
Qed.
End Geometry.

Lemma holds_grow h h' us u x t' v y p z :
  h_ustates h !! u = Some x → unit_top x ≤ t' → h_ustates h' = <[u := set_unit_top t' x]> (h_ustates h) →
  holds h us v y p z → ∃ y', holds h' us v y' p z ∧ unit_av y' = unit_av y.
Proof.
  intros Hx Ht E [Hv Hy Hl Hh]. destruct (decide (u = v)) as [<-|Hne].
  - assert (y = x) as -> by congruence. exists (set_unit_top t' x). split; [|done].
    split; [done|rewrite E; apply lookup_insert_eq|done|simpl; lia].
  - exists y. split; [|done]. split; [done|by rewrite E, lookup_insert_ne|done|done].
Qed.

Section Keep.
Context (lim : Z) (h : heap) (us avs : list Z) (ck : gmap Z Z) (fl : Z → Z → list Z).
Context (O : heap_ok lim h us avs) (Hlim : lim ≤ TASK_SIZE) (C : chunks lim h us avs ck fl).

(** Every chunk lies below the tops and is one of a unit. *)
Lemma chunk_bounds p z : ck !! p = Some z →
  AB_HEAP_START ≤ p ∧ p + z + 16 ≤ TASK_SIZE ∧ 16 ≤ z ∧ p `mod` 8 = 0.
Proof.
  intros Hp. destruct (ck_chunk _ _ _ _ _ _ C p z Hp) as ([] & u & x & []).
  destruct (unit_bounds O Hlim u x) as (? & ? & ? & _); [done..|].
  pose proof (un_top _ _ (ck_unit _ _ _ _ _ _ C u x hl_in0 hl_unit0)). lia.
Qed.

(** A chunk lies in one unit only. *)
Lemma holds_unique u x v y p z w : 16 ≤ z → 16 ≤ w → holds h us u x p z → holds h us v y p w → u = v ∧ x = y.
Proof.
  intros Hz Hw [Hu Hx H1 H2] [Hv Hy H3 H4]. assert (u = v) as ->; [|split; congruence].
  destruct (decide (u = v)) as [|Hne]; [done|]. pose proof (un_top _ _ (ck_unit _ _ _ _ _ _ C u x Hu Hx)).
  pose proof (un_top _ _ (ck_unit _ _ _ _ _ _ C v y Hv Hy)). destruct (units_apart O Hlim u v x y); [done..|lia|lia].
Qed.

(** A chunk against the unused end of a unit *)
Lemma chunk_below_top u x p z : u ∈ us → h_ustates h !! u = Some x → ck !! p = Some z →
  p + z ≤ unit_top x ∨ unit_end x + 16 ≤ p.
Proof.
  intros Hu Hx Hp. destruct (ck_chunk _ _ _ _ _ _ C p z Hp) as (_ & v & y & []).
  destruct (decide (v = u)) as [->|Hne]; [assert (y = x) as -> by congruence; lia|].
  pose proof (un_top _ _ (ck_unit _ _ _ _ _ _ C u x Hu Hx)).
  pose proof (un_top _ _ (ck_unit _ _ _ _ _ _ C v y hl_in0 hl_unit0)).
  destruct (units_apart O Hlim v u y x); [done..| |]; lia.
Qed.

(** The unused end of a unit against that of another *)
Lemma tops_apart u v x y : u ∈ us → v ∈ us → u ≠ v → h_ustates h !! u = Some x → h_ustates h !! v = Some y →
  unit_end x + 8 ≤ unit_top y + 4 ∨ unit_end y + 8 ≤ unit_top x + 4.
Proof.
  intros Hu Hv Hne Hx Hy. pose proof (un_top _ _ (ck_unit _ _ _ _ _ _ C u x Hu Hx)).
  pose proof (un_top _ _ (ck_unit _ _ _ _ _ _ C v y Hv Hy)).
  destruct (units_apart O Hlim u v x y); [done..| |]; lia.
Qed.

Lemma fast_chunk_size av i p : p ∈ fl av i → ∃ z, ck !! p = Some z ∧ 16 ≤ z ≤ 72 ∧ fastbin_index z = i ∧ av ∈ avs.
Proof.
  intros Hp. destruct (ck_free _ _ _ _ _ _ C av i p Hp) as (z & u & x & Hz & _ & H72 & Hi & [] & Hav).
  exists z. split; [done|]. split; [|split; [done|]].
  - pose proof (cs_min _ _ _ (proj1 (ck_chunk _ _ _ _ _ _ C p z Hz))). lia.
  - rewrite <-Hav. by apply (unit_bounds O Hlim u x).
Qed.

Lemma fast_chunk_unique p a i b j : p ∈ fl a i → p ∈ fl b j → a = b ∧ i = j.
Proof.
  intros Ha Hb. destruct (ck_free _ _ _ _ _ _ C a i p Ha) as (z & u & x & Hz & _ & _ & <- & Hx & <-).
  destruct (ck_free _ _ _ _ _ _ C b j p Hb) as (w & v & y & Hw & _ & _ & <- & Hy & <-).
  assert (w = z) as -> by congruence. pose proof (chunk_bounds p z Hz) as (_ & _ & H16 & _).
  by destruct (holds_unique u x v y p z z H16 H16 Hx Hy) as [-> ->].
Qed.

(** The states' bins lie below the channel. *)
Lemma state_low av : av ∈ avs → av + SIZEOF_MALLOC_STATE ≤ CHANNEL_ADDR ∧ av + SIZEOF_MALLOC_STATE ≤ h_libc_next h.
Proof. intros Hav. apply (ck_low _ _ _ _ _ _ C). destruct (ho_state _ _ _ _ O av Hav) as (t & Ht & _). eauto. Qed.
Lemma bins_below av : av ∈ avs → av + BINS_OFFSET + BINS_BYTES ≤ CHANNEL_ADDR.
Proof.
  intros Hav. destruct (state_low av Hav) as [Hl _]. revert Hl. unfold SIZEOF_MALLOC_STATE, BINS_OFFSET.
  change BINS_BYTES with 768. lia.
Qed.

(** ** A unit is cut at its top *)

Section Cut.
Context (u : Z) (x : unit_state) (nb : Z) (h' : heap).
Context (Hu : u ∈ us) (Hx : h_ustates h !! u = Some x) (Hnb : 16 ≤ nb) (Hmul : nb `mod` 8 = 0).
Context (Hfit : unit_top x + nb ≤ unit_end x).
Let t := unit_top x.
Let x' := set_unit_top (t + nb) x.
Context (Hm : untouched (t + 4) (unit_end x + 8) (h_mem h) (h_mem h')) (Hs : unit_shape (h_mem h') x').
Context (Hhd : load32 (h_mem h') (t + 4) = nb + 1 ∨ load32 (h_mem h') (t + 4) = nb + 9).
Context (Eu : h_ustates h' = <[u := x']> (h_ustates h)) (Es : h_mstates h' = h_mstates h).
Context (Ec : h_channel_mapped h' = h_channel_mapped h) (En : h_libc_next h' = h_libc_next h).

Lemma cut_out p z : ck !! p = Some z → p + z + 4 ≤ t + 4 ∨ unit_end x + 8 ≤ p.
Proof. intros Hp. destruct (chunk_below_top u x p z Hu Hx Hp); unfold t; lia. Qed.

Lemma cut_lookup v y : h_ustates h' !! v = Some y →
  (v = u ∧ y = x') ∨ (v ≠ u ∧ h_ustates h !! v = Some y).
Proof.
  rewrite Eu. intros Hy. destruct (decide (u = v)) as [<-|Hne].
  - rewrite lookup_insert_eq in Hy. left. split; congruence.
  - rewrite lookup_insert_ne in Hy by done. right. split; [congruence|done].
Qed.

Lemma cut_fast av i p : p ∈ fl av i → p + 12 ≤ t + 4 ∨ unit_end x + 8 ≤ p + 8.
Proof. intros Hp. destruct (fast_chunk_size av i p Hp) as (z & Hz & Hr & _). destruct (cut_out p z Hz); lia. Qed.

Lemma chunks_cut : chunks lim h' us avs (<[t := nb]> ck) fl.
Proof.
  destruct (unit_bounds O Hlim u x Hu Hx) as (Hlo & He & Hhi & _ & _ & _).
  pose proof (ck_unit _ _ _ _ _ _ C u x Hu Hx) as Sx. pose proof (un_top _ _ Sx) as Ht. fold t in Ht.
  assert (Hout : ∀ p z, ck !! p = Some z → p ≠ t ∧ p + z ≤ t ∨ t + nb ≤ p).
  { intros p z Hp. pose proof (chunk_bounds p z Hp). destruct (cut_out p z Hp); [left|right]; unfold t in *; lia. }
  split.
  - rewrite Ec. apply C.
  - intros b Hb Hr. rewrite Hm; [by apply C|]. pose proof (unit_limit O Hlim u x Hu Hx). lia.
  - rewrite En, Es. apply C.
  - intros v y Hv [[-> ->]|[Hne Hy]]%cut_lookup; [done|].
    eapply unit_shape_frame; [exact Hm| |by apply (ck_unit _ _ _ _ _ _ C v)].
    destruct (tops_apart u v x y); [done..|left|right]; unfold t; lia.
  - intros av s. rewrite Es. intros Hav Hss. destruct (ck_units _ _ _ _ _ _ C av s Hav Hss) as (ps & R & Hps).
    exists ps. split; [done|]. intros v. rewrite Hps. split; intros [Hv (y & Hy & Hya)]; (split; [done|]).
    + destruct (decide (v = u)) as [->|Hne].
      * exists x'. rewrite Eu, lookup_insert_eq. split; [done|]. simpl. congruence.
      * exists y. by rewrite Eu, lookup_insert_ne.
    + apply cut_lookup in Hy as [[-> ->]|[_ Hy]]; eauto.
  - intros av s. rewrite Es. intros Hav Hss. eapply state_shape_frame; [exact Hm| | |by apply (ck_state _ _ _ _ _ _ C)].
    + right. pose proof (bins_below av Hav). unfold AB_HEAP_START, CHANNEL_ADDR in *. unfold t. lia.
    + intros i q. apply cut_fast.
  - intros p z. destruct (decide (t = p)) as [<-|Hne].
    + rewrite lookup_insert_eq. intros [= <-]. split; [split; [done|done|apply Sx|done]|].
      exists u, x'. split; [done|by rewrite Eu, lookup_insert_eq|unfold x'; simpl; lia|done].
    + rewrite lookup_insert_ne by done. intros Hp. destruct (ck_chunk _ _ _ _ _ _ C p z Hp) as (Sc & v & y & Hh). split.
      * eapply chunk_shape_frame; [exact Hm| |done]. pose proof (cs_min _ _ _ Sc). destruct (cut_out p z Hp); lia.
      * destruct (holds_grow h h' us u x (t + nb) v y p z) as (y' & Hy' & _); [done|unfold t; lia|done|done|eauto].
  - intros p z q w. destruct (decide (t = p)) as [<-|Hp], (decide (t = q)) as [<-|Hq];
      rewrite ?lookup_insert_eq, ?lookup_insert_ne by done; [done| | |apply C].
    + intros [= <-] Hq' _. destruct (Hout q w Hq'); lia.
    + intros Hp' [= <-] _. destruct (Hout p z Hp'); lia.
  - intros av i p Hp. destruct (ck_free _ _ _ _ _ _ C av i p Hp) as (z & v & y & Hz & Hd & H72 & Hi & Hh & Hav).
    destruct (holds_grow h h' us u x (t + nb) v y p z) as (y' & Hy' & Ea); [done|unfold t; lia|done|done|].
    destruct (Hout p z Hz) as [[Hne ?]|?].
    + exists z, v, y'. rewrite lookup_insert_ne by done. rewrite (untouched_load _ _ _ _ _ Hm) by (pose proof (chunk_bounds p z Hz); lia).
      by rewrite Ea.
    + exists z, v, y'. rewrite lookup_insert_ne by lia.
      rewrite (untouched_load _ _ _ _ _ Hm) by (destruct (cut_out p z Hz); pose proof (chunk_bounds p z Hz); lia). by rewrite Ea.
  - apply C.
Qed.
End Cut.

(** ** Fields the invariant does not mention *)

Definition vital (t : malloc_state) : linked_list * Z * list Z * list Z :=
  (ms_ustate_list t, ms_max_fast t, ms_fastbins t, ms_binmap t).

Lemma state_shape_vital m av t t' F : vital t' = vital t → state_shape m av t F → state_shape m av t' F.
Proof. intros [= E1 E2 E3 E4] S. split; rewrite ?E2, ?E3, ?E4; apply S. Qed.

Lemma chunks_same h' lim' :
  h_mem h' = h_mem h → h_ustates h' = h_ustates h → lim ≤ lim' →
  (∀ av, vital <$> h_mstates h' !! av = vital <$> h_mstates h !! av) →
  h_channel_mapped h' = h_channel_mapped h → h_libc_next h ≤ h_libc_next h' → chunks lim' h' us avs ck fl.
Proof.
  intros Em Eu Hl Es Ec En.
  assert (Hs : ∀ av t', h_mstates h' !! av = Some t' → ∃ t, h_mstates h !! av = Some t ∧ vital t' = vital t).
  { intros av t' Ht. specialize (Es av). rewrite Ht in Es. destruct (h_mstates h !! av) as [t|]; [|done].
    exists t. split; [done|]. injection Es as E1 E2 E3 E4. unfold vital. congruence. }
  assert (Hh : ∀ v y p z, holds h us v y p z → holds h' us v y p z).
  { intros v y p z []. split; [done|by rewrite Eu|done..]. }
  split.
  - rewrite Ec. apply C.
  - rewrite Em. intros b Ha Hb. apply C; [done|lia].
  - intros av [t Ht]. destruct (Hs av t Ht) as (t0 & Ht0 & _). destruct (ck_low _ _ _ _ _ _ C av); [eauto|]. split; lia.
  - rewrite Em, Eu. apply C.
  - intros av t' Hav (t & Ht & [= E1 _ _ _])%Hs. rewrite Eu, E1. by apply (ck_units _ _ _ _ _ _ C).
  - intros av t' Hav (t & Ht & Ev)%Hs. rewrite Em. eapply state_shape_vital; [done|]. by apply (ck_state _ _ _ _ _ _ C).
  - intros p z Hp. rewrite Em. destruct (ck_chunk _ _ _ _ _ _ C p z Hp) as (? & v & y & ?). eauto.
  - apply C.
  - intros av i p Hp. destruct (ck_free _ _ _ _ _ _ C av i p Hp) as (z & v & y & H1 & H2 & H3 & H4 & H5 & H6).
    exists z, v, y. rewrite Em. auto 10.
  - apply C.
Qed.

(** ** A unit is added *)

Section Add.
Context (u av : Z) (t t' : malloc_state) (n : Z) (ps : list (Z * Z)) (h' : heap).
Let x := UnitState lim lim UNIT_SIZE av.
Context (Hnew : u ∉ us) (Hav : av ∈ avs) (Ht : h_mstates h !! av = Some t).
Context (Hlow : AB_HEAP_START ≤ lim).
Context (R : ll_rep (ms_ustate_list t) ps) (R' : ll_rep (ms_ustate_list t') ((n, u) :: ps)).
Context (E1 : ms_max_fast t' = ms_max_fast t) (E2 : ms_fastbins t' = ms_fastbins t) (E3 : ms_binmap t' = ms_binmap t).
Context (Es : h_mstates h' = <[av := t']> (h_mstates h)) (Eu : h_ustates h' = <[u := x]> (h_ustates h)).
Context (Hm : untouched lim (lim + UNIT_SIZE) (h_mem h) (h_mem h')) (Hs : unit_shape (h_mem h') x).
Context (Ec : h_channel_mapped h' = h_channel_mapped h) (En : h_libc_next h ≤ h_libc_next h').

Lemma add_holds v y p z : holds h us v y p z → holds h' (u :: us) v y p z.
Proof.
  intros []. split; [by right| |done..]. rewrite Eu, lookup_insert_ne; [done|]. by intros ->.
Qed.

Lemma add_out p z : ck !! p = Some z → p + z + 16 ≤ lim.
Proof.
  intros Hp. destruct (ck_chunk _ _ _ _ _ _ C p z Hp) as (_ & v & y & []).
  pose proof (un_top _ _ (ck_unit _ _ _ _ _ _ C v y hl_in0 hl_unit0)).
  pose proof (unit_limit O Hlim v y hl_in0 hl_unit0). lia.
Qed.

Lemma chunks_add_unit : chunks (lim + UNIT_SIZE) h' (u :: us) avs ck fl.
Proof.
  split.
  - rewrite Ec. apply C.
  - intros b Ha Hb. rewrite Hm by lia. apply C; [done|]. unfold UNIT_SIZE, PAGE_PER_UNIT, PAGESIZE in Hb. lia.
  - intros av' Hs'. destruct (ck_low _ _ _ _ _ _ C av'); [|split; lia]. rewrite Es in Hs'.
    destruct (decide (av = av')) as [<-|Hne]; [eauto|]. by rewrite lookup_insert_ne in Hs'.
  - rewrite Eu. intros v y Hv Hy. destruct (decide (u = v)) as [<-|Hne].
    + rewrite lookup_insert_eq in Hy. by injection Hy as <-.
    + rewrite lookup_insert_ne in Hy by done. apply elem_of_cons in Hv as [|Hv]; [done|].
      eapply unit_shape_frame; [exact Hm| |by apply (ck_unit _ _ _ _ _ _ C v)].
      right. pose proof (unit_limit O Hlim v y Hv Hy). lia.
  - rewrite Es, Eu. intros av' s Hav' Hss. assert (Hold : ∀ v, v ∈ us → u ≠ v) by (by intros v Hv ->).
    destruct (decide (av = av')) as [<-|Hne].
    + rewrite lookup_insert_eq in Hss. injection Hss as <-. exists ((n, u) :: ps). split; [done|].
      destruct (ck_units _ _ _ _ _ _ C av t Hav Ht) as (qs & Rq & Hq). rewrite <-(ll_rep_det _ _ _ R Rq) in Hq.
      intros v. cbn [fmap list_fmap snd]. rewrite !elem_of_cons, Hq. destruct (decide (v = u)) as [->|Hvu].
      * rewrite lookup_insert_eq. naive_solver.
      * rewrite lookup_insert_ne by done. naive_solver.
    + rewrite lookup_insert_ne in Hss by done. destruct (ck_units _ _ _ _ _ _ C av' s Hav' Hss) as (qs & Rq & Hq).
      exists qs. split; [done|]. intros v. rewrite Hq, elem_of_cons. destruct (decide (v = u)) as [->|Hvu].
      * rewrite lookup_insert_eq. split; [intros [? _]; done|]. intros [_ (y & [= <-] & Hy)]. done.
      * rewrite lookup_insert_ne by done. naive_solver.
  - rewrite Es. intros av' s Hav' Hss. assert (Hsh : state_shape (h_mem h) av' s (fl av')).
    { destruct (decide (av = av')) as [<-|Hne].
      - rewrite lookup_insert_eq in Hss. injection Hss as <-. pose proof (ck_state _ _ _ _ _ _ C av t Hav Ht) as S.
        split; rewrite ?E1, ?E2, ?E3; apply S.
      - rewrite lookup_insert_ne in Hss by done. by apply (ck_state _ _ _ _ _ _ C). }
    eapply state_shape_frame; [exact Hm| | |done].
    + right. pose proof (bins_below av' Hav'). unfold AB_HEAP_START, CHANNEL_ADDR in *. lia.
    + intros i q Hq. destruct (fast_chunk_size av' i q Hq) as (z & Hz & Hr & _). pose proof (add_out q z Hz). lia.
  - intros p z Hp. pose proof (add_out p z Hp). pose proof (chunk_bounds p z Hp).
    destruct (ck_chunk _ _ _ _ _ _ C p z Hp) as (Sc & v & y & Hh).
    split; [|eauto using add_holds]. eapply chunk_shape_frame; [exact Hm|lia|done].
  - apply C.
  - intros av' i p Hp. destruct (ck_free _ _ _ _ _ _ C av' i p Hp) as (z & v & y & H1 & H2 & H3 & H4 & H5 & H6).
    exists z, v, y. pose proof (add_out p z H1). pose proof (chunk_bounds p z H1).
    rewrite (untouched_load _ _ _ _ _ Hm) by lia. auto 10 using add_holds.
  - apply C.
Qed.
End Add.

(** ** A state is added *)

Lemma chunks_add_state h' av t' :
  av ∉ avs → h_mstates h' = <[av := t']> (h_mstates h) → h_ustates h' = h_ustates h →
  ms_ustate_list t' = init_linked_list → state_shape (h_mem h') av t' (λ _, []) →
  (avs ≠ [] → untouched (av + BINS_OFFSET) (av + BINS_OFFSET + BINS_BYTES) (h_mem h) (h_mem h')) →
  h_channel_mapped h' = true → h_libc_next h ≤ av → av + SIZEOF_MALLOC_STATE ≤ h_libc_next h' →
  av + SIZEOF_MALLOC_STATE ≤ CHANNEL_ADDR → AB_HEAP_START ≤ lim →
  (avs = [] → ∀ b, lim ≤ b < CHANNEL_ADDR + CHANNEL_SIZE → load8 (h_mem h') b = 0) →
  chunks lim h' us (avs ++ [av]) ck fl.
Proof.
  intros Hni Es Eu El Hs Hm Hmap Hnx Hnx' Hch Hlow Hz.
  assert (Hbins : 0 ≤ BINS_OFFSET ∧ BINS_OFFSET + BINS_BYTES ≤ SIZEOF_MALLOC_STATE) by done.
  assert (Hold : ∀ a, a ∈ avs → a ≠ av ∧ a + SIZEOF_MALLOC_STATE ≤ av).
  { intros a Ha. split; [by intros ->|]. pose proof (state_low a Ha). lia. }
  assert (Hne : ∀ a, a ∈ avs → untouched (av + BINS_OFFSET) (av + BINS_OFFSET + BINS_BYTES) (h_mem h) (h_mem h')).
  { intros a Ha. apply Hm. intros ->. by apply not_elem_of_nil in Ha. }
  assert (Huv : ∀ u x, u ∈ us → h_ustates h !! u = Some x → unit_av x ∈ avs) by (intros u x Hu Hx; by apply (unit_bounds O Hlim u x)).
  assert (Hck : ∀ p z, ck !! p = Some z → ∃ a, a ∈ avs).
  { intros p z Hp. destruct (ck_chunk _ _ _ _ _ _ C p z Hp) as (_ & u & x & []). eauto. }
  assert (Hfl : ∀ a i p, p ∈ fl a i → a ∈ avs) by (intros a i p Hp; by destruct (fast_chunk_size a i p Hp) as (? & _ & _ & _ & ?)).
  assert (Hh : ∀ v y p z, holds h us v y p z → holds h' us v y p z) by (intros v y p z []; split; [done|by rewrite Eu|done..]).
  assert (Hb : ∀ a, a ∈ avs → av + BINS_OFFSET + BINS_BYTES ≤ AB_HEAP_START) by (unfold AB_HEAP_START; unfold CHANNEL_ADDR in Hch; lia).
  split.
  - done.
  - intros b _ Hr. destruct avs as [|a l] eqn:Ea; [by apply Hz|]. rewrite (Hne a); [by apply C|by left|].
    right. pose proof (Hb a ltac:(by left)). lia.
  - intros a. rewrite Es. destruct (decide (av = a)) as [<-|Hne']; [done|]. rewrite lookup_insert_ne by done. intros Ha.
    pose proof (ck_low _ _ _ _ _ _ C a Ha). unfold SIZEOF_MALLOC_STATE in *. lia.
  - rewrite Eu. intros u x Hu Hx. pose proof (unit_bounds O Hlim u x Hu Hx) as (Hl & _ & _ & _ & Ha & _).
    eapply unit_shape_frame; [by eapply Hne| |by apply (ck_unit _ _ _ _ _ _ C u)].
    left. pose proof (un_top _ _ (ck_unit _ _ _ _ _ _ C u x Hu Hx)). pose proof (Hb _ Ha). lia.
  - rewrite Es, Eu. intros a s [Ha| ->%list_elem_of_singleton]%elem_of_app.
    + rewrite lookup_insert_ne by (symmetry; by apply Hold). by apply (ck_units _ _ _ _ _ _ C).
    + rewrite lookup_insert_eq. intros [= <-]. exists []. rewrite El. split; [apply init_linked_list_rep|].
      intros u. split; [intros Hu; by apply not_elem_of_nil in Hu|]. intros [Hu (x & Hx & <-)]. destruct Hni. eauto.
  - rewrite Es. intros a s [Ha| ->%list_elem_of_singleton]%elem_of_app.
    + destruct (Hold a Ha) as [Hn1 Hn2]. rewrite lookup_insert_ne by done. intros Hss.
      eapply state_shape_frame; [by eapply Hne| | |by apply (ck_state _ _ _ _ _ _ C)].
      * right. lia.
      * intros i q Hq. right. destruct (fast_chunk_size a i q Hq) as (z & Hq' & _). pose proof (chunk_bounds q z Hq').
        pose proof (Hb a Ha). lia.
    + rewrite lookup_insert_eq. intros [= <-].
      assert (HF : ∀ i, fl av i = []).
      { intros i. destruct (fl av i) as [|p l] eqn:E; [done|]. destruct Hni. apply (Hfl av i p). rewrite E. by left. }
      split; try apply Hs.
      * destruct (sh_fast _ _ _ _ Hs) as [[? _]|]; [left|right]; done.
      * intros i Hi. rewrite HF. by apply Hs.
  - intros p z Hp. destruct (Hck p z Hp) as [a Ha]. destruct (ck_chunk _ _ _ _ _ _ C p z Hp) as (Sc & u & x & Hx).
    split; [|eauto]. eapply chunk_shape_frame; [by eapply Hne| |done]. pose proof (chunk_bounds p z Hp). pose proof (Hb a Ha). lia.
  - apply C.
  - intros a i p Hp. destruct (ck_free _ _ _ _ _ _ C a i p Hp) as (z & v & y & H1 & H2 & H3 & H4 & H5 & H6).
    exists z, v, y. pose proof (chunk_bounds p z H1). pose proof (Hb a (Hfl a i p Hp)).
    rewrite (untouched_load _ _ _ _ _ (Hne a (Hfl a i p Hp))) by lia. auto 10.
  - apply C.
Qed.

(** ** Writes inside a chunk *)

Section Inside.
Context (p z : Z) (h' : heap) (Hp : ck !! p = Some z).
Context (Hm : untouched (p + 8) (p + z + 4) (h_mem h) (h_mem h')).
Context (Eu : h_ustates h' = h_ustates h).

Lemma in_unit u x : u ∈ us → h_ustates h' !! u = Some x → unit_shape (h_mem h') x.
Proof.
  rewrite Eu. intros Hu Hx. eapply unit_shape_frame; [exact Hm| |by apply (ck_unit _ _ _ _ _ _ C u)].
  destruct (chunk_below_top u x p z Hu Hx Hp); lia.
Qed.
Lemma in_other q w : ck !! q = Some w → q + 8 ≤ p + 8 ∨ p + z + 4 ≤ q + 4.
Proof. intros Hq. destruct (decide (p = q)) as [->|Hne]; [lia|]. pose proof (chunk_bounds q w Hq). destruct (ck_disj _ _ _ _ _ _ C p z q w); [done..|lia|lia]. Qed.
Lemma in_link q w : ck !! q = Some w → q ≠ p → q + 12 ≤ p + 8 ∨ p + z + 4 ≤ q + 8.
Proof. intros Hq Hne. pose proof (chunk_bounds q w Hq). destruct (ck_disj _ _ _ _ _ _ C p z q w); [done..|lia|lia]. Qed.
Lemma in_chunk q w : ck !! q = Some w → chunk_shape (h_mem h') q w ∧ ∃ u x, holds h' us u x q w.
Proof.
  intros Hq. destruct (ck_chunk _ _ _ _ _ _ C q w Hq) as (Sc & u & x & []). split.
  - eapply chunk_shape_frame; [exact Hm| |done]. pose proof (in_other q w Hq). lia.
  - exists u, x. split; [done|by rewrite Eu|done..].
Qed.
Lemma in_fast a i q : fast_chunk h us ck a i q → fast_chunk h' us ck a i q.
Proof.
  intros (w & u & x & Hq & H2 & H3 & H4 & [] & H6). exists w, u, x.
  rewrite (untouched_load _ _ _ _ _ Hm) by (pose proof (in_other q w Hq); lia).
  repeat split; try done. by rewrite Eu.
Qed.
Lemma in_zero b : avs ≠ [] → lim ≤ b < CHANNEL_ADDR + CHANNEL_SIZE → load8 (h_mem h') b = 0.
Proof.
  intros Ha Hb. rewrite Hm; [by apply C|]. right. destruct (ck_chunk _ _ _ _ _ _ C p z Hp) as (_ & u & x & []).
  pose proof (unit_limit O Hlim u x hl_in0 hl_unit0). pose proof (un_top _ _ (ck_unit _ _ _ _ _ _ C u x hl_in0 hl_unit0)). lia.
Qed.
Lemma in_state a t F : a ∈ avs → (∀ i q, q ∈ F i → q ≠ p ∧ is_Some (ck !! q)) →
  state_shape (h_mem h) a t F → state_shape (h_mem h') a t F.
Proof.
  intros Ha HF. eapply state_shape_frame; [exact Hm| |].
  - right. pose proof (bins_below a Ha). pose proof (chunk_bounds p z Hp). unfold AB_HEAP_START, CHANNEL_ADDR in *. lia.
  - intros i q Hq. destruct (HF i q Hq) as [Hne [w Hw]]. by apply (in_link q w).
Qed.

(** A thread writes into the data of its block. *)
Lemma chunks_write :
  (∀ a i, p ∉ fl a i) → h_mstates h' = h_mstates h → h_channel_mapped h' = h_channel_mapped h →
  h_libc_next h' = h_libc_next h → chunks lim h' us avs ck fl.
Proof.
  intros Hnf Es Ec En. split.
  - rewrite Ec. apply C.
  - apply in_zero.
  - rewrite En, Es. apply C.
  - apply in_unit.
  - rewrite Es, Eu. apply C.
  - rewrite Es. intros a s Ha Hs. apply in_state; [done| |by apply (ck_state _ _ _ _ _ _ C)].
    intros i q Hq. split; [intros ->; by apply (Hnf a i)|]. destruct (fast_chunk_size a i q Hq) as (w & Hw & _). eauto.
  - apply in_chunk.
  - apply C.
  - intros a i q Hq. apply in_fast. by apply (ck_free _ _ _ _ _ _ C).
  - apply C.
Qed.

(** A fastbin changes: [p] enters or leaves fastbin [i] of [av]. *)
Definition set_fl (av i : Z) (l : list Z) : Z → Z → list Z :=
  λ a j, if decide (a = av ∧ j = i) then l else fl a j.

Lemma chunks_fast av i t t' l :
  av ∈ avs → h_mstates h !! av = Some t → 0 ≤ i < NFASTBINS → (∀ a j, p ∈ fl a j → a = av ∧ j = i) →
  h_mstates h' = <[av := t']> (h_mstates h) → h_channel_mapped h' = h_channel_mapped h →
  h_libc_next h' = h_libc_next h →
  ms_max_fast t' = 75 → ms_ustate_list t' = ms_ustate_list t → ms_binmap t' = ms_binmap t →
  length (ms_fastbins t') = 10%nat → (∀ j, 0 ≤ j → j ≠ i → aget (ms_fastbins t') j = aget (ms_fastbins t) j) →
  fd_chain (h_mem h') (aget (ms_fastbins t') i) l → (∀ q, q ∈ l → fast_chunk h us ck av i q) → NoDup l →
  chunks lim h' us avs ck (set_fl av i l).
Proof.
  intros Hav Ht Hi Hin Es Ec En E1 E2 E3 E4 E5 Hch Hl Hnd. split.
  - rewrite Ec. apply C.
  - apply in_zero.
  - intros a Ha. rewrite En. apply (ck_low _ _ _ _ _ _ C). rewrite Es in Ha.
    destruct (decide (av = a)) as [<-|Hne]; [eauto|]. by rewrite lookup_insert_ne in Ha.
  - apply in_unit.
  - rewrite Es, Eu. intros a s Ha. destruct (decide (av = a)) as [<-|Hne].
    + rewrite lookup_insert_eq. intros [= <-]. rewrite E2. by apply (ck_units _ _ _ _ _ _ C).
    + rewrite lookup_insert_ne by done. by apply (ck_units _ _ _ _ _ _ C).
  - rewrite Es. intros a s Ha. destruct (decide (av = a)) as [<-|Hne].
    + rewrite lookup_insert_eq. intros [= <-]. pose proof (ck_state _ _ _ _ _ _ C av t Hav Ht) as S.
      split; [by right|done|rewrite E3; apply S| |].
      * intros j Hj. rewrite (untouched_load _ _ _ _ _ Hm); [by apply S|]. left. pose proof (bins_below av Hav) as Hbb.
        pose proof (chunk_bounds p z Hp). revert Hbb. unfold BINS_OFFSET, AB_HEAP_START, CHANNEL_ADDR in *. change BINS_BYTES with 768. change NBINS with 96 in Hj. lia.
      * intros j Hj. unfold set_fl. destruct (decide (av = av ∧ j = i)) as [[_ ->]|Hne]; [done|].
        rewrite E5 by naive_solver lia. eapply fd_chain_frame; [exact Hm| |by apply S].
        intros q Hq. destruct (fast_chunk_size av j q Hq) as (w & Hw & _). apply (in_link q w Hw).
        intros ->. destruct (Hin av j Hq) as [_ ->]. by apply Hne.
    + rewrite lookup_insert_ne by done. intros Hs.
      assert (HF : ∀ j, set_fl av i l a j = fl a j) by (intros j; unfold set_fl; rewrite decide_False; naive_solver).
      pose proof (ck_state _ _ _ _ _ _ C a s Ha Hs) as S. apply (in_state a s (fl a)) in S; [|done|].
      * split; try apply S.
        -- destruct (sh_fast _ _ _ _ S) as [[? HF0]|]; [left|by right]. split; [done|]. intros j. by rewrite HF.
        -- intros j Hj. rewrite HF. by apply S.
      * intros j q Hq. split; [intros ->; by destruct (Hin a j Hq) as [-> _]|].
        destruct (fast_chunk_size a j q Hq) as (w & Hw & _). eauto.
  - apply in_chunk.
  - apply C.
  - intros a j q. unfold set_fl. destruct (decide (a = av ∧ j = i)) as [[-> ->]|]; intros Hq; apply in_fast; [by apply Hl|].
    by apply (ck_free _ _ _ _ _ _ C).
  - intros a j. unfold set_fl. case_decide; [done|]. apply C.
Qed.
End Inside.
End Keep.
