(* ===== verification/BlocksMalloc.v ===== *)
(** [ablib_malloc] on the blocks of the channel heap.

    The stages of the allocator on a heap that satisfies [chunks]: the cut at
    the top of a unit, the fastbins, the empty regular bins, the new unit and
    the new state.  [malloc_block] puts them together. *)

From S2P Require Import Prelude LinkedList Label Memory Client Chunk Heap Consolidate Os Malloc Free Frame Lock Protection UnitLookup AllocSpec Blocks.

(** * Words of the channel *)

Lemma channel_valid h a : h_channel_mapped h = true → CHANNEL_ADDR ≤ a → a + 4 ≤ CHANNEL_ADDR + CHANNEL_SIZE → valid_word h a = true.
Proof.
  intros Hm H1 H2. apply in_channel_valid. unfold in_channel. rewrite Hm.
  by rewrite (proj2 (Z.leb_le _ _) H1), (proj2 (Z.leb_le _ _) H2).
Qed.

Lemma mod8_mult z : z `mod` 8 = 0 → z = 8 * (z / 8).
Proof. intros H. pose proof (Z.div_mod z 8 ltac:(lia)). lia. Qed.
Lemma lor_flag z : z `mod` 8 = 0 → Z.lor z PREV_INUSE = z + 1.
Proof. intros H. by apply lor_1_mult8, mod8_mult. Qed.
Lemma size_flag z : z `mod` 8 = 0 → 0 ≤ z < 2 ^ 32 - 8 → Z.land (z + 1) (not32 SIZE_BITS) = z.
Proof. intros H Hr. by apply mod8_masks; [apply mod8_mult|]. Qed.
Lemma mod8_sub a b : a `mod` 8 = 0 → b `mod` 8 = 0 → (a - b) `mod` 8 = 0.
Proof. intros Ha Hb. by rewrite Zminus_mod, Ha, Hb. Qed.
Lemma mod8_add a b : a `mod` 8 = 0 → b `mod` 8 = 0 → (a + b) `mod` 8 = 0.
Proof. intros Ha Hb. by rewrite Zplus_mod, Ha, Hb. Qed.

(** A word of a mapped channel, and a store to it as the next step *)
Ltac channel := apply channel_valid; [done|unfold CHANNEL_ADDR, CHANNEL_SIZE; lia..].
Ltac step_sd h1 :=
  match goal with |- (sd ?a ?v ≫= ?k) _ = _ => rewrite (bind_ret (sd a v) k h1 tt _ (sd_eq a v h1 ltac:(channel))) end.
Ltac step_ld h1 :=
  match goal with |- (ld ?a ≫= ?k) _ = _ => rewrite (bind_ret (ld a) k h1 _ _ (ld_eq a h1 ltac:(channel))) end.

(** * The top of a unit *)

(** The bytes a unit can still hand out. *)
Definition top_room (x : unit_state) : Z :=
  if unit_top x + 16 <=? unit_end x then unit_end x - unit_top x else 0.

(** The memory after the unit with chunks up to [e] was cut at [t]. *)
Definition split_mem (m : memory) (t nb e : Z) : memory :=
  store32 (store32 (store32 m (t + 4) (nb + 1)) (t + nb + 4) (e - t - nb + 1)) e (e - t - nb).

Section Split.
Context (t nb e : Z) (m : memory).
Context (Ht : AB_HEAP_START ≤ t) (He : e + 16 ≤ CHANNEL_ADDR + CHANNEL_SIZE) (Hnb : 16 ≤ nb) (Hfit : t + nb + 16 ≤ e).
Context (Hn8 : nb `mod` 8 = 0) (Ht8 : t `mod` 8 = 0) (He8 : e `mod` 8 = 0).

Lemma split_exec h : h_channel_mapped h = true →
  (set_head t (Z.lor nb PREV_INUSE);;
   set_head (chunk_at_offset t nb) (Z.lor (e - t - nb) PREV_INUSE);;
   set_foot (chunk_at_offset t nb) (e - t - nb)) h = Ret (tt, set_h_mem (split_mem (h_mem h) t nb e) h).
Proof.
  intros Hc. unfold AB_HEAP_START, CHANNEL_ADDR, CHANNEL_SIZE in *. rewrite (lor_flag nb Hn8), (lor_flag (e - t - nb)) by (by repeat apply mod8_sub).
  unfold set_head, set_foot, wr_prev_size, chunk_at_offset. rewrite !u32_small by (rewrite ?u32_small; lia).
  replace (t + nb + (e - t - nb)) with e by lia.
  step_sd h. match goal with |- (sd _ _ ≫= _) ?h1 = _ => step_sd h1 end.
  match goal with |- sd ?a _ ?h1 = _ => rewrite (sd_eq a _ h1) by channel end.
  unfold split_mem. simpl. done.
Qed.

Lemma split_untouched : untouched (t + 4) (e + 8) m (split_mem m t nb e).
Proof.
  unfold split_mem. repeat (eapply untouched_trans; [|apply untouched_store; lia]). apply untouched_refl.
Qed.

Lemma split_head : load32 (split_mem m t nb e) (t + 4) = nb + 1.
Proof.
  unfold split_mem, AB_HEAP_START, CHANNEL_ADDR, CHANNEL_SIZE in *. rewrite !load32_store32_ne by lia. apply load32_store32_eq. lia.
Qed.

Lemma split_shape x :
  unit_end x = e → addr x ≤ t → load32 m (e + 4) = 5 → (∀ b, t + 8 ≤ b < e → load8 m b = 0) →
  unit_shape (split_mem m t nb e) (set_unit_top (t + nb) x).
Proof.
  intros Ee Ha Hf Hz. change (unit_end (set_unit_top (t + nb) x)) with (unit_end x) in *.
  unfold AB_HEAP_START, CHANNEL_ADDR, CHANNEL_SIZE in *. split; change (unit_end (set_unit_top (t + nb) x)) with (unit_end x); rewrite ?Ee; simpl.
  - lia.
  - by apply mod8_add.
  - done.
  - unfold split_mem. rewrite !load32_store32_ne by lia. done.
  - left. split; [lia|]. unfold split_mem. split.
    + rewrite load32_store32_ne, load32_store32_eq by lia. lia.
    + intros b Hb. rewrite !load8_store32_ne by lia. apply Hz. lia.
Qed.
End Split.

(** What one request does to a heap: the chunk [p] of [nb] bytes is new, and
    no byte outside the unused end [lo, hi) of its unit has changed. *)
Record took (lim : Z) (h h' : heap) (us avs : list Z) (ck : gmap Z Z) (fl : Z → Z → list Z) (u : Z) (x : unit_state) (nb : Z) : Prop := {
  tk_chunks : chunks lim h' us avs (<[unit_top x := nb]> ck) fl;
  tk_mem : untouched (unit_top x + 4) (unit_end x + 8) (h_mem h) (h_mem h');
  tk_states : h_mstates h' = h_mstates h;
  tk_units : h_ustates h' = <[u := set_unit_top (unit_top x + nb) x]> (h_ustates h);
}.

Section Top.
Context (lim : Z) (h : heap) (us avs : list Z) (ck : gmap Z Z) (fl : Z → Z → list Z).
Context (O : heap_ok lim h us avs) (Hlim : lim ≤ TASK_SIZE) (C : chunks lim h us avs ck fl).

Lemma mapped u x : u ∈ us → h_ustates h !! u = Some x → h_channel_mapped h = true.
Proof.
  intros Hu Hx. apply (ck_mapped _ _ _ _ _ _ C). intros ->. destruct (unit_bounds O Hlim u x Hu Hx) as (_ & _ & _ & _ & Ha & _).
  by apply not_elem_of_nil in Ha.
Qed.

Lemma small_chunksize z : 0 ≤ z ≤ 5 → Z.land z (not32 SIZE_BITS) < 16.
Proof.
  intros Hz. assert (z = 0 ∨ z = 1 ∨ z = 2 ∨ z = 3 ∨ z = 4 ∨ z = 5) as H by lia.
  by destruct H as [->|[->|[->|[->|[->| ->]]]]].
Qed.

Lemma top_chunksize u x : u ∈ us → h_ustates h !! u = Some x →
  ∃ z, chunksize (unit_top x) h = Ret (z, h) ∧
    ((unit_top x + 16 ≤ unit_end x ∧ z = unit_end x - unit_top x) ∨ (unit_end x < unit_top x + 16 ∧ z < 16)).
Proof.
  intros Hu Hx. pose proof (mapped u x Hu Hx) as Hc. destruct (unit_bounds O Hlim u x Hu Hx) as (Hl & _ & _ & _ & _ & He).
  destruct (ck_unit _ _ _ _ _ _ C u x Hu Hx) as [T A N F Hh]. unfold AB_HEAP_START, CHANNEL_ADDR, CHANNEL_SIZE in *.
  exists (Z.land (load32 (h_mem h) (unit_top x + 4)) (not32 SIZE_BITS)).
  split; [unfold chunksize, rd_size; rewrite u32_small by lia; by step_ld h|].
  destruct Hh as [(H1 & H2 & _)|[H1 H2]]; [left; split; [done|]|right; split; [lia|by apply small_chunksize]].
  rewrite H2. apply size_flag; [by apply mod8_sub|lia].
Qed.

Lemma top_room_le u x nb : u ∈ us → h_ustates h !! u = Some x → 16 ≤ nb →
  nb ≤ top_room x → unit_top x + 16 ≤ unit_end x ∧ unit_top x + nb ≤ unit_end x.
Proof. intros Hu Hx Hn. unfold top_room. destruct (Z.leb_spec (unit_top x + 16) (unit_end x)); lia. Qed.

(** The body of the loop of [malloc_unit_top] *)
Definition top_step (l : linked_list) (nb victim_unit : Z) : hm (Z + option Z) :=
  n ← node l victim_unit;
  u ← get_unit (data n);
  let victim := unit_top u in
  size ← chunksize victim;
  if nb <=? size then
    let remainder_size := u32 (size - nb) in
    let remainder := chunk_at_offset victim nb in
    upd_unit (data n) (set_unit_top remainder);;
    (if remainder_size <? MINSIZE then set_inuse_bit_at_offset victim size
     else
       set_head victim (Z.lor nb PREV_INUSE);;
       set_head remainder (Z.lor remainder_size PREV_INUSE);;
       set_foot remainder remainder_size);;
    mret (inr (Some (chunk2mem victim)))
  else mret (if prev n =? 0 then inr None else inl (prev n)).

Context (nb : Z) (Hnb : 16 ≤ nb) (Hn8 : nb `mod` 8 = 0).

Section Unit.
Context (u : Z) (x : unit_state) (Hu : u ∈ us) (Hx : h_ustates h !! u = Some x) (Hroom : nb ≤ top_room x).
Let t := unit_top x.
Let e := unit_end x.
Let h1 := set_h_ustates (<[u := set_unit_top (t + nb) x]> (h_ustates h)) h.

Lemma took_split : t + nb + 16 ≤ e → took lim h (set_h_mem (split_mem (h_mem h) t nb e) h1) us avs ck fl u x nb.
Proof.
  intros Hfit. destruct (unit_bounds O Hlim u x Hu Hx) as (Hl & _ & _ & _ & _ & He). fold e in He.
  destruct (ck_unit _ _ _ _ _ _ C u x Hu Hx) as [T A N F Hh]. fold t e in T, A, N, F, Hh.
  assert (Hz : ∀ b, t + 8 ≤ b < e → load8 (h_mem h) b = 0) by (destruct Hh as [(_ & _ & H)|[? _]]; [done|lia]).
  assert (Hm : untouched (t + 4) (e + 8) (h_mem h) (split_mem (h_mem h) t nb e)) by (apply split_untouched; lia).
  split; [|done..]. apply (chunks_cut lim h us avs ck fl O Hlim C u x nb); try done.
  - fold t e. lia.
  - apply split_shape; try done; lia.
  - left. apply split_head; lia.
Qed.

Lemma cut_exhaust : e < t + nb + 16 → took lim h (set_h_mem (store32 (h_mem h) (e + 4) 5) h1) us avs ck fl u x nb.
Proof.
  intros Hfit. destruct (unit_bounds O Hlim u x Hu Hx) as (Hl & _ & _ & _ & _ & He). fold e in He.
  destruct (top_room_le u x nb Hu Hx Hnb Hroom) as [Ho Hf]. fold t e in Ho, Hf.
  destruct (ck_unit _ _ _ _ _ _ C u x Hu Hx) as [T A N F Hh]. fold t e in T, A, N, F, Hh.
  destruct Hh as [(_ & Hd & Hz)|[? _]]; [|lia].
  assert (Hr : t + nb = e ∨ t + nb = e - 8).
  { pose proof (mod8_mult _ (mod8_sub _ _ He (mod8_add _ _ A Hn8))). lia. }
  assert (Hld : load32 (store32 (h_mem h) (e + 4) 5) (t + 4) = e - t + 1) by (rewrite load32_store32_ne by lia; done).
  split; [|apply untouched_store; fold t e; lia|done..]. apply (chunks_cut lim h us avs ck fl O Hlim C u x nb); try done.
  - apply untouched_store; fold t e; lia.
  - split; change (unit_end (set_unit_top (unit_top x + nb) x)) with e; simpl; fold t e.
    + lia.
    + by apply mod8_add.
    + done.
    + by apply load32_store32_eq.
    + right. split; [lia|]. destruct Hr as [->|Hr].
      * by rewrite load32_store32_eq.
      * replace (t + nb + 4) with (e - 4) by lia. rewrite load32_store32_ne by lia. unfold load32.
        rewrite !Hz by lia. by vm_compute.
  - simpl. fold t e. rewrite Hld. destruct Hr; [left|right]; lia.
Qed.

Lemma top_step_cut l pre a post :
  ll_rep l (pre ++ (a, u) :: post) →
  ∃ h', top_step l nb a h = Ret (inr (Some (t + 8)), h') ∧ took lim h h' us avs ck fl u x nb.
Proof.
  intros R. destruct (unit_bounds O Hlim u x Hu Hx) as (Hl & _ & _ & _ & _ & He). fold e in He.
  destruct (top_room_le u x nb Hu Hx Hnb Hroom) as [Ho Hf]. fold t e in Ho, Hf.
  pose proof (ck_unit _ _ _ _ _ _ C u x Hu Hx) as Sx. pose proof (un_top _ _ Sx) as T. pose proof (un_align _ _ Sx) as A.
  pose proof (un_channel _ _ Sx) as N. fold t e in T, A, N. pose proof (mapped u x Hu Hx) as Hc.
  assert (Hb : 0 ≤ t + nb < 2 ^ 32 - 8 ∧ 0 ≤ t < 2 ^ 32 - 8 ∧ e < 2 ^ 32 - 8) by (unfold AB_HEAP_START, CHANNEL_ADDR, CHANNEL_SIZE in *; lia).
  unfold top_step, node, lift. rewrite (ll_rep_read _ _ _ _ _ R). unfold mbind at 1, st_bind at 1. cbn [data prev].
  unfold get_unit at 1. unfold mbind at 1, st_bind at 1. rewrite Hx. fold t.
  destruct (top_chunksize u x Hu Hx) as (z & Ez & [[_ ->]|[Hbad _]]); [|fold t e in Hbad; lia]. fold t e in Ez.
  rewrite (bind_ret _ _ _ _ _ Ez). rewrite (proj2 (Z.leb_le nb (e - t))) by lia. cbv zeta.
  rewrite (u32_small (e - t - nb)) by lia. unfold chunk_at_offset. rewrite (u32_small (t + nb)) by lia.
  assert (Eu : upd_unit u (set_unit_top (t + nb)) h = Ret (tt, h1)) by (unfold upd_unit; by rewrite Hx).
  rewrite (bind_ret _ _ _ _ _ Eu). rewrite MINSIZE_16. unfold chunk2mem. change (2 * SIZE_SZ) with 8. rewrite (u32_small (t + 8)) by lia.
  destruct (Z.ltb_spec (e - t - nb) 16).
  - exists (set_h_mem (store32 (h_mem h) (e + 4) 5) h1). split; [|by apply cut_exhaust; lia].
    assert (Ei : set_inuse_bit_at_offset t (e - t) h1 = Ret (tt, set_h_mem (store32 (h_mem h) (e + 4) 5) h1)).
    { unfold set_inuse_bit_at_offset, chunk_at_offset, rd_size, set_head. replace (t + (e - t)) with e by lia.
      unfold AB_HEAP_START, CHANNEL_ADDR, CHANNEL_SIZE in *. rewrite !u32_small by (rewrite ?u32_small; lia). step_ld h1. cbn [h1 h_mem set_h_ustates].
      pose proof (un_fence _ _ Sx) as F. fold e in F. rewrite F.
      match goal with |- sd ?a _ ?h2 = _ => rewrite (sd_eq a _ h2) by channel end. done. }
    by rewrite (bind_ret _ _ _ _ _ Ei).
  - exists (set_h_mem (split_mem (h_mem h) t nb e) h1). split; [|by apply took_split; lia].
    pose proof (split_exec t nb e) as Esp. specialize (Esp ltac:(lia) N Hnb ltac:(lia) Hn8 A He h1 Hc).
    unfold chunk_at_offset in Esp. rewrite (u32_small (t + nb)) in Esp by lia.
    by rewrite (bind_ret _ _ _ _ _ Esp).
Qed.
End Unit.

Lemma top_step_skip l pre a u x post :
  ll_rep l (pre ++ (a, u) :: post) → u ∈ us → h_ustates h !! u = Some x → top_room x < nb →
  top_step l nb a h = Ret (if lastp 0 pre =? 0 then inr None else inl (lastp 0 pre), h).
Proof.
  intros R Hu Hx Hr. unfold top_step, node, lift. rewrite (ll_rep_read _ _ _ _ _ R). unfold mbind at 1, st_bind at 1. cbn [data prev].
  unfold get_unit at 1. unfold mbind at 1, st_bind at 1. rewrite Hx.
  destruct (top_chunksize u x Hu Hx) as (z & Ez & Hz). rewrite (bind_ret _ _ _ _ _ Ez).
  rewrite (proj2 (Z.leb_gt nb z)); [done|]. unfold top_room in Hr.
  destruct (Z.leb_spec (unit_top x + 16) (unit_end x)), Hz as [[? ->]|[? ?]]; lia.
Qed.

(** The loop from the last unit of [pre] on *)
Definition top_result (l : list Z) (o : outcome (option Z * heap)) : Prop :=
  (∃ u x h', u ∈ l ∧ h_ustates h !! u = Some x ∧ nb ≤ top_room x ∧ o = Ret (Some (unit_top x + 8), h') ∧
     took lim h h' us avs ck fl u x nb) ∨
  (o = Ret (None, h) ∧ ∀ u x, u ∈ l → h_ustates h !! u = Some x → top_room x < nb).

Lemma lastp_nonnull l pre post : ll_rep l (pre ++ post) → pre ≠ [] → lastp 0 pre ≠ 0.
Proof.
  intros R Hne. destruct pre as [|[a d] pre _] using rev_ind; [done|]. rewrite lastp_app. simpl. intros ->.
  assert (0 < 0 < 2 ^ 32); [|lia]. apply (rep_ptr _ _ R). rewrite !fmap_app. set_solver.
Qed.

Lemma top_iters l pre post :
  ll_rep l (pre ++ post) → pre ≠ [] → (∀ u, u ∈ pre.*2 → u ∈ us) →
  ∃ r, iters (loop_body (top_step l nb)) (length pre) (lastp 0 pre, h) = Ret (inr r) ∧ top_result pre.*2 (Ret r).
Proof.
  revert post. induction pre as [|[a u] pre IH] using rev_ind; intros post R Hne Hin; [done|].
  rewrite <-app_assoc in R. cbn [app] in R. rewrite length_app, Nat.add_1_r, lastp_app. cbn [lastp].
  change (iters ?f (S ?n) ?s) with (match f s with Ret (inl s') => iters f n s' | r => r end).
  assert (Hu : u ∈ us) by (apply Hin; rewrite fmap_app; apply elem_of_app; right; by left).
  assert (Hin' : ∀ v, v ∈ pre.*2 → v ∈ us) by (intros v Hv; apply Hin; rewrite fmap_app; apply elem_of_app; by left).
  destruct (ho_unit _ _ _ _ O u Hu) as (x & Hx & _). unfold top_result. setoid_rewrite fmap_app. setoid_rewrite elem_of_app.
  unfold loop_body at 1. cbn [fst snd]. destruct (decide (nb ≤ top_room x)) as [Hr|Hr].
  - destruct (top_step_cut u x Hu Hx Hr l pre a post R) as (h' & -> & Ht). eexists. split; [done|]. left.
    exists u, x, h'. split; [right; by left|]. auto.
  - rewrite (top_step_skip l pre a u x post R Hu Hx) by lia. destruct pre as [|p0 pre0] eqn:Ep.
    + eexists. split; [done|]. right. split; [done|]. intros v y [Hv|Hv%list_elem_of_singleton] Hy; [by apply not_elem_of_nil in Hv|].
      simpl in Hv. subst v. assert (y = x) as -> by congruence. lia.
    + rewrite <-Ep in *. pose proof (lastp_nonnull _ _ _ R ltac:(by rewrite Ep)) as Hnz.
      rewrite (proj2 (Z.eqb_neq _ _) Hnz). destruct (IH _ R) as (r & Er & Hres); [by rewrite Ep|done|]. exists r. split; [exact Er|].
      destruct Hres as [(v & y & h' & Hv & Hrest)|[E0 Hnone]]; [left; exists v, y, h'; auto|right]. split; [done|].
      intros v y [Hv|Hv%list_elem_of_singleton] Hy; [by apply (Hnone v)|]. simpl in Hv. subst v. assert (y = x) as -> by congruence. lia.
Qed.

(** The stage of the units' tops: it takes the first unit of the label, the
    oldest one first, that has room, and reports failure exactly when none
    has; it always returns. *)
Lemma malloc_unit_top_spec av s :
  av ∈ avs → h_mstates h !! av = Some s →
  (∃ u x h', u ∈ us ∧ h_ustates h !! u = Some x ∧ unit_av x = av ∧ nb ≤ top_room x ∧
     malloc_unit_top av nb h = Ret (Some (unit_top x + 8), h') ∧ took lim h h' us avs ck fl u x nb) ∨
  (malloc_unit_top av nb h = Ret (None, h) ∧
   ∀ u x, u ∈ us → h_ustates h !! u = Some x → unit_av x = av → top_room x < nb).
Proof.
  intros Hav Hs. destruct (ck_units _ _ _ _ _ _ C av s Hav Hs) as (ps & R & Hps).
  unfold malloc_unit_top. rewrite (bind_ret _ _ _ _ _ (get_av_eq _ _ _ Hs)).
  pose proof (ll_rep_num _ _ R) as Hn. destruct (Z.eqb_spec (num (ms_ustate_list s)) 0) as [H0|H0]; cbn [negb].
  - apply Hn in H0 as ->. right. split; [done|]. intros u x Hu Hx Hxa.
    assert (u ∈ @nil Z) as Hbad by (apply Hps; eauto). by apply not_elem_of_nil in Hbad.
  - fold (top_step (ms_ustate_list s) nb). rewrite loopM_unfold, (rep_tail _ _ R).
    destruct (top_iters (ms_ustate_list s) ps []) as (r & Er & Hres); [by rewrite app_nil_r|by intros ->; apply H0, Hn|intros u Hu; by apply Hps|].
    rewrite (while_iters _ _ _ _ (Z.lt_le_incl _ _ (ll_rep_length _ _ R)) Er).
    destruct Hres as [(u & x & h' & Hu & Hx & Hr & E & Ht)|[E Hnone]]; [left|right].
    + apply Hps in Hu as [Hu (y & Hy & Hya)]. assert (y = x) as -> by congruence. exists u, x, h'. injection E as ->. auto 10.
    + split; [by injection E as ->|]. intros u x Hu Hx Hxa. apply (Hnone u); [|done]. apply Hps. eauto.
Qed.
End Top.

(** * The bins *)

Lemma fastbin_index_inj z w : z `mod` 8 = 0 → w `mod` 8 = 0 → 16 ≤ z ≤ 72 → 16 ≤ w ≤ 72 →
  fastbin_index z = fastbin_index w → z = w.
Proof.
  intros Hz Hw Rz Rw. unfold fastbin_index. rewrite !Z.shiftr_div_pow2 by lia. change (2 ^ 3) with 8.
  pose proof (mod8_mult z Hz). pose proof (mod8_mult w Hw). rewrite !u32_small by lia. lia.
Qed.

Section Bins.
Context (lim : Z) (h : heap) (us avs : list Z) (ck : gmap Z Z) (fl : Z → Z → list Z).
Context (O : heap_ok lim h us avs) (Hlim : lim ≤ TASK_SIZE) (C : chunks lim h us avs ck fl).
Context (av : Z) (s : malloc_state) (Hav : av ∈ avs) (Hs : h_mstates h !! av = Some s).
Let S := ck_state _ _ _ _ _ _ C av s Hav Hs.

Lemma bin_at_eq i : 1 ≤ i < NBINS → bin_at av i = av + 60 + 8 * i ∧ 0 < av ∧ av + 904 ≤ CHANNEL_ADDR.
Proof.
  intros Hi. assert (0 < av) by (apply (ho_fresh_s _ _ _ _ O); eauto).
  destruct (ck_low _ _ _ _ _ _ C av ltac:(eauto)) as [Hl _]. unfold SIZEOF_MALLOC_STATE, CHANNEL_ADDR in *. change NBINS with 96 in Hi.
  split; [|done]. unfold bin_at, BINS_OFFSET. rewrite Z.shiftl_mul_pow2 by lia. change (2 ^ 1) with 2. rewrite u32_small; lia.
Qed.

Lemma bins_valid a : av + BINS_OFFSET ≤ a → a + 4 ≤ av + BINS_OFFSET + BINS_BYTES → valid_word h a = true.
Proof.
  intros H1 H2. unfold valid_word. apply orb_true_iff. right. unfold in_bins. apply existsb_exists. exists av. split.
  - apply list_elem_of_In, list_elem_of_fmap. exists (av, s). split; [done|]. by apply elem_of_map_to_list.
  - by rewrite (proj2 (Z.leb_le _ _) H1), (proj2 (Z.leb_le _ _) H2).
Qed.

Lemma bin_empty i : 1 ≤ i < NBINS → rd_bk (bin_at av i) h = Ret (bin_at av i, h).
Proof.
  intros Hi. destruct (bin_at_eq i Hi) as (Eb & H0 & Hl). unfold rd_bk. rewrite Eb at 1. change NBINS with 96 in Hi. unfold CHANNEL_ADDR in Hl.
  rewrite u32_small by lia. replace (av + 60 + 8 * i + 12) with (av + 72 + 8 * i) by lia.
  rewrite ld_eq; [by rewrite (sh_bins _ _ _ _ S i Hi)|]. apply bins_valid; unfold BINS_OFFSET; change BINS_BYTES with 768; lia.
Qed.

Context (nb : Z) (Hnb : 16 ≤ nb) (Hn8 : nb `mod` 8 = 0).

Lemma smallbin_none : in_smallbin_range nb = true → malloc_smallbin av nb h = Ret (None, h).
Proof.
  intros Hr. apply Z.ltb_lt in Hr. change MIN_LARGE_SIZE with 256 in Hr.
  assert (Hi : 1 ≤ smallbin_index nb < NBINS).
  { unfold smallbin_index. rewrite Z.shiftr_div_pow2 by lia. change (2 ^ 3) with 8. change NBINS with 96. pose proof (mod8_mult nb Hn8). lia. }
  unfold malloc_smallbin, last. rewrite (bind_ret _ _ _ _ _ (bin_empty _ Hi)). by rewrite Z.eqb_refl.
Qed.

Lemma unsorted_none : malloc_unsorted av nb h = Ret (None, h).
Proof.
  unfold malloc_unsorted. apply loopM_one. unfold unsorted_step, unsorted_chunks.
  rewrite (bind_ret _ _ _ _ _ (bin_empty 1 ltac:(by vm_compute))). by rewrite Z.eqb_refl.
Qed.

Lemma binmap_zero i : 0 ≤ i → aget (ms_binmap s) i = 0.
Proof.
  intros Hi. rewrite (sh_map _ _ _ _ S). unfold aget. by destruct (Z.to_nat i) as [|[|[|[|[|]]]]].
Qed.

Lemma bin_search_none idx : 0 ≤ idx → idx2block idx ≤ BINMAPSIZE → 0 < idx2bit idx → malloc_bin_search av nb idx h = Ret (None, h).
Proof.
  intros H0 Hb Hbit. assert (0 ≤ idx2block idx) by (unfold idx2block; rewrite Z.shiftr_div_pow2 by (by vm_compute); apply Z.div_pos; [lia|by vm_compute]).
  unfold malloc_bin_search. rewrite (bind_ret _ _ _ _ _ (get_av_eq _ _ _ Hs)). apply loopM_one. unfold bin_search_step.
  rewrite binmap_zero by done. rewrite (proj2 (Z.ltb_lt _ _) Hbit). cbn [orb].
  assert (Esk : skip_blocks av (idx2block idx) h = Ret (None, h)).
  { unfold skip_blocks. rewrite (bind_ret _ _ _ _ _ (get_av_eq _ _ _ Hs)). fold (block_body s).
    destruct (skip_loop h s (idx2block idx)) as ([[b m]|] & E & Hr); [lia| |exact E].
    destruct Hr as (Hb1 & Hm & Hm0 & _). rewrite binmap_zero in Hm by lia. done. }
  unfold mbind, st_bind. by rewrite Esk.
Qed.

(** The fastbin of the request: its first chunk, which has the size of the
    request, or nothing. *)
Record popped (h' : heap) (p : Z) (l : list Z) : Prop := {
  pp_chunks : chunks lim h' us avs ck (set_fl fl av (fastbin_index nb) l);
  pp_size : ck !! p = Some nb;
  pp_head : load32 (h_mem h) (p + 4) = nb + 1;
  pp_mem : h_mem h' = h_mem h;
  pp_units : h_ustates h' = h_ustates h;
  pp_label a : ms_label <$> h_mstates h' !! a = ms_label <$> h_mstates h !! a;
}.

Lemma fastbin_pop p l : nb ≤ 72 → ms_max_fast s = 75 → fl av (fastbin_index nb) = p :: l →
  ∃ h', malloc_fastbin av nb h = Ret (Some (p + 8), h') ∧ popped h' p l.
Proof.
  intros H72 Hmf Hfl. pose proof (fastbin_index_range nb ltac:(lia)) as Hi. set (i := fastbin_index nb) in *.
  pose proof (sh_chain _ _ _ _ S i Hi) as Hch. rewrite Hfl in Hch. destruct Hch as [Hhd Hch].
  assert (Hin : p ∈ fl av i) by (rewrite Hfl; by left).
  pose proof (ck_nodup _ _ _ _ _ _ C av i) as Hnd. rewrite Hfl in Hnd. apply NoDup_cons in Hnd as [Hnl Hnd].
  destruct (ck_free _ _ _ _ _ _ C av i p Hin) as (z & u & x & Hz & Hd & Hz72 & Hzi & Hh & Hxa).
  pose proof (ck_chunk _ _ _ _ _ _ C p z Hz) as [Sc _].
  assert (z = nb) as -> by (apply fastbin_index_inj; try done; [apply Sc|split; [apply Sc|done]]).
  pose proof (chunk_bounds lim h us avs ck fl O Hlim C p nb Hz) as (Hb1 & Hb2 & _ & _).
  pose proof (un_channel _ _ (ck_unit _ _ _ _ _ _ C u x (hl_in _ _ _ _ _ _ Hh) (hl_unit _ _ _ _ _ _ Hh))) as Hcn.
  pose proof (un_top _ _ (ck_unit _ _ _ _ _ _ C u x (hl_in _ _ _ _ _ _ Hh) (hl_unit _ _ _ _ _ _ Hh))) as Htp.
  pose proof (hl_high _ _ _ _ _ _ Hh) as Hhh. unfold AB_HEAP_START, TASK_SIZE, CHANNEL_ADDR, CHANNEL_SIZE in *.
  assert (Hc : h_channel_mapped h = true) by (apply (mapped lim h us avs ck fl O Hlim C u x); apply Hh).
  unfold malloc_fastbin. rewrite (bind_ret _ _ _ _ _ (get_av_eq _ _ _ Hs)), Hmf, (proj2 (Z.leb_le nb 75)) by lia.
  rewrite (bind_ret _ _ _ _ _ (fb_load_eq _ _ _ _ Hs Hi)). fold i. rewrite Hhd, (proj2 (Z.eqb_neq p 0)) by lia. cbn [negb].
  unfold rd_fd. rewrite u32_small by lia. erewrite bind_ret; [|apply ld_eq; channel].
  rewrite (bind_ret _ _ _ _ _ (fb_store_eq _ _ _ _ _ Hs Hi)). fold i. unfold chunk2mem. change (2 * SIZE_SZ) with 8.
  rewrite u32_small by lia. eexists. split; [done|]. set (h' := set_h_mstates _ h).
  pose proof (sh_len _ _ _ _ S) as Hlen.
  assert (Hir : 0 ≤ i < Z.of_nat (length (ms_fastbins s))) by (rewrite Hlen; exact Hi).
  split; try done; simpl.
  - eapply (chunks_fast lim h us avs ck fl O Hlim C p nb h' Hz (untouched_refl _ _ _) eq_refl av i s); try done; simpl.
    + intros a j Hj. by apply (fast_chunk_unique lim h us avs ck fl O Hlim C p).
    + unfold aset. by rewrite length_insert.
    + intros j Hj Hne. unfold aget, aset. rewrite !nth_lookup. rewrite list_lookup_insert_ne; [done|]. lia.
    + by rewrite aget_aset_same.
    + intros q Hq. apply (ck_free _ _ _ _ _ _ C). rewrite Hfl. by right.
  - intros a. destruct (decide (av = a)) as [<-|Hne]; [|by rewrite lookup_insert_ne].
    rewrite lookup_insert_eq, Hs. done.
Qed.

Lemma fastbin_none : 72 < nb ∨ fl av (fastbin_index nb) = [] → ms_max_fast s = 75 → malloc_fastbin av nb h = Ret (None, h).
Proof.
  intros Hor Hmf. unfold malloc_fastbin. rewrite (bind_ret _ _ _ _ _ (get_av_eq _ _ _ Hs)), Hmf.
  destruct (Z.leb_spec nb 75) as [H75|]; [|done]. pose proof (fastbin_index_range nb ltac:(lia)) as Hi.
  rewrite (bind_ret _ _ _ _ _ (fb_load_eq _ _ _ _ Hs Hi)). destruct Hor as [|Hfl].
  { exfalso. pose proof (mod8_mult nb Hn8). lia. }
  pose proof (sh_chain _ _ _ _ S _ Hi) as Hch. rewrite Hfl in Hch. simpl in Hch. by rewrite Hch.
Qed.

(** The searches for a small request *)
Lemma search_spec : ms_max_fast s = 75 → in_smallbin_range nb = true →
  (∃ p l h', fl av (fastbin_index nb) = p :: l ∧ nb ≤ 72 ∧ malloc_search av nb h = Ret (Some (p + 8), h') ∧ popped h' p l) ∨
  malloc_search av nb h = Ret (None, h).
Proof.
  intros Hmf Hr. unfold malloc_search, orelse. rewrite Hr.
  assert (Hcase : (∃ p l, nb ≤ 72 ∧ fl av (fastbin_index nb) = p :: l) ∨ 72 < nb ∨ fl av (fastbin_index nb) = []).
  { destruct (decide (nb ≤ 72)) as [Hle|Hgt]; [|right; left; lia]. destruct (fl av (fastbin_index nb)) as [|p l]; [by right; right|].
    left. eauto. }
  destruct Hcase as [(p & l & H72 & Hfl)|Hno].
  - left. destruct (fastbin_pop p l H72 Hmf Hfl) as (h' & E & Hp). exists p, l, h'. rewrite (bind_ret _ _ _ _ _ E). auto.
  - right. rewrite (bind_ret _ _ _ _ _ (fastbin_none Hno Hmf)), (bind_ret _ _ _ _ _ (smallbin_none Hr)).
    rewrite (bind_ret _ _ _ _ _ unsorted_none). apply Z.ltb_lt in Hr. change MIN_LARGE_SIZE with 256 in Hr.
    pose proof (mod8_mult nb Hn8). rewrite smallbin_index_eq.
    assert (Hb : 0 ≤ idx2block (nb / 8 + 1) ≤ BINMAPSIZE).
    { unfold idx2block, BINMAPSHIFT. rewrite Z.shiftr_div_pow2 by lia. change (2 ^ 5) with 32. change BINMAPSIZE with 3.
      split; [apply Z.div_pos; lia|]. apply Z.div_le_upper_bound; lia. }
    apply bin_search_none; [lia|lia|]. rewrite idx2bit_pow2 by lia. apply Z.pow_pos_nonneg; [lia|]. apply Z.mod_pos_bound. lia.
Qed.
End Bins.

(** * A new unit *)

Lemma heap_ok_det lim lim' h us us' avs avs' : heap_ok lim h us avs → heap_ok lim' h us' avs' → us = us' ∧ avs = avs'.
Proof.
  intros O O'. destruct (ho_ulist _ _ _ _ O) as (p1 & R1 & <-), (ho_ulist _ _ _ _ O') as (p2 & R2 & <-).
  destruct (ho_mlist _ _ _ _ O) as (q1 & S1 & <-), (ho_mlist _ _ _ _ O') as (q2 & S2 & <-).
  by rewrite (ll_rep_det _ _ _ R1 R2), (ll_rep_det _ _ _ S1 S2).
Qed.

(** A word that may be accessed above the C heap is one of the channel. *)
Lemma valid_channel h a :
  (∀ av, is_Some (h_mstates h !! av) → av + SIZEOF_MALLOC_STATE ≤ CHANNEL_ADDR) → CHANNEL_ADDR ≤ a → valid_word h a = true →
  h_channel_mapped h = true ∧ a + 4 ≤ CHANNEL_ADDR + CHANNEL_SIZE.
Proof.
  intros C Ha. unfold valid_word. rewrite orb_true_iff. intros [Hv|Hv].
  - unfold in_channel in Hv. rewrite !andb_true_iff, !Z.leb_le in Hv. naive_solver.
  - exfalso. unfold in_bins in Hv. apply existsb_exists in Hv as (av & Hin & Hb). apply list_elem_of_In, list_elem_of_fmap in Hin as ([a' t] & -> & Hin).
    apply elem_of_map_to_list in Hin. simpl in *. rewrite andb_true_iff, !Z.leb_le in Hb.
    pose proof (C a' (ex_intro _ _ Hin)) as Hl. revert Hl Hb. unfold SIZEOF_MALLOC_STATE, BINS_OFFSET. change BINS_BYTES with 768. lia.
Qed.

Lemma add_unit_inv av B h u h' lim us avs :
  heap_ok lim h us avs → add_unit av B h = Ret (u, h') →
  ∃ t l, h_mstates h !! av = Some t ∧ u = h_libc_next h ∧ u ∉ us ∧
    list_insert_head (malloc_node (ms_ustate_list t)) (ms_ustate_list t) u = Ret l ∧
    h_mem h' = h_mem h ∧ h_mstates h' = <[av := set_ms_ustate_list l t]> (h_mstates h) ∧
    h_ustates h' = <[u := UnitState B B UNIT_SIZE av]> (h_ustates h) ∧
    h_channel_mapped h' = h_channel_mapped h ∧ h_libc_next h ≤ h_libc_next h'.
Proof.
  intros O E. unfold add_unit in E. binv E. unfold unit_init_state in E0. binv E0. pose proof (ho_next _ _ _ _ O) as Hn.
  apply libc_malloc_inv in E1 as [[-> ->]|[-> ->]]; [done| |done].
  rewrite (proj2 (Z.eqb_neq _ 0)) in E0 by lia. injection E0 as <- <-.
  binv E. apply get_av_inv in E0 as [Ht ->]. binv E. apply lift_inv in E0 as [Hl ->].
  binv E. apply upd_av_inv in E0 as (t2 & Ht2 & ->). binv E. unfold insert_head_in in E0.
  binv E0. apply gets_inv in E1 as [-> ->]. binv E0. apply lift_inv in E1 as [_ ->]. apply modify_inv in E0 as ->.
  injection E as <- <-. simpl in *. exists r, r0. assert (t2 = r) as -> by congruence.
  repeat split; try done; [|unfold SIZEOF_UNIT_STATE; lia].
  intros Hu. destruct (ho_unit _ _ _ _ O _ Hu) as (x & Hx & _). pose proof (ho_fresh_u _ _ _ _ O _ (ex_intro _ _ Hx)). lia.
Qed.

Lemma sd_valid a v h u h' : sd a v h = Ret (u, h') → valid_word h a = true.
Proof. unfold sd. by destruct (valid_word h a). Qed.

(** The memory of a new unit *)
Definition unit_mem (m : memory) (B : Z) : memory :=
  store32 (store32 (store32 m (B + 4) 40945) (B + 40948) 5) (B + 40952) 5.

Lemma init_unit_top_inv B h z h' :
  AB_HEAP_START ≤ B → B + UNIT_SIZE ≤ TASK_SIZE → init_unit_top B UNIT_SIZE h = Ret (z, h') →
  h' = set_h_mem (unit_mem (h_mem h) B) h ∧ valid_word h (B + 40952) = true.
Proof.
  unfold AB_HEAP_START, UNIT_SIZE, PAGE_PER_UNIT, PAGESIZE, TASK_SIZE. intros H0 H1 E. unfold init_unit_top in E.
  change (Z.land (u32 (10 * 4096 - 3 * SIZE_SZ)) (not32 MALLOC_ALIGN_MASK)) with 40944 in E.
  change (Z.lor 40944 PREV_INUSE) with 40945 in E.
  change (Z.lor SIZE_SZ PREV_INUSE) with 5 in E. change (40944 + SIZE_SZ) with 40948 in E.
  unfold set_head, chunk_at_offset in E. rewrite !u32_small in E by (rewrite ?u32_small; lia).
  binv E. binv E. binv E. injection E as _ <-. pose proof (sd_valid _ _ _ _ _ E2) as Hv.
  apply sd_inv in E0, E1, E2. subst. simpl in *. rewrite <-!Z.add_assoc in *. split; [done|]. exact Hv.
Qed.

Lemma unit_mem_shape m B av :
  AB_HEAP_START ≤ B → page_aligned B = true → B + UNIT_SIZE ≤ CHANNEL_ADDR + CHANNEL_SIZE →
  (∀ b, B ≤ b < CHANNEL_ADDR + CHANNEL_SIZE → load8 m b = 0) →
  unit_shape (unit_mem m B) (UnitState B B UNIT_SIZE av) ∧ untouched B (B + UNIT_SIZE) m (unit_mem m B).
Proof.
  intros H0 Hal H1 Hz. apply page_aligned_mul in Hal. revert H0 Hal H1 Hz.
  unfold AB_HEAP_START, UNIT_SIZE, PAGE_PER_UNIT, PAGESIZE, CHANNEL_ADDR, CHANNEL_SIZE. intros.
  split; [|unfold unit_mem; repeat (eapply untouched_trans; [|apply untouched_store; lia]); apply untouched_refl].
  split; unfold unit_end; change tsize with 40944; simpl; unfold CHANNEL_ADDR, CHANNEL_SIZE.
  - lia.
  - rewrite Hal. replace (4096 * (B / 4096)) with (512 * (B / 4096) * 8) by lia. by rewrite Z.mod_mul.
  - lia.
  - unfold unit_mem. rewrite <-Z.add_assoc. rewrite load32_store32_ne by lia. by rewrite load32_store32_eq by lia.
  - left. split; [lia|]. unfold unit_mem. split.
    + rewrite !load32_store32_ne by lia. rewrite load32_store32_eq by lia. lia.
    + intros b Hb. rewrite !load8_store32_ne by lia. apply Hz. lia.
Qed.

(** The record, the lists and the memory of a new unit at the break [B] *)
Lemma new_unit_chunks h us avs ck fl av B u h1 z h2 :
  heap_ok B h us avs → chunks B h us avs ck fl → av ∈ avs → AB_HEAP_START ≤ B → page_aligned B = true → B + UNIT_SIZE ≤ TASK_SIZE →
  add_unit av B h = Ret (u, h1) → init_unit_top B UNIT_SIZE h1 = Ret (z, h2) →
  chunks (B + UNIT_SIZE) h2 (u :: us) avs ck fl ∧ h_ustates h2 !! u = Some (UnitState B B UNIT_SIZE av) ∧ u ∉ us ∧
  (∀ v, v ≠ u → h_ustates h2 !! v = h_ustates h !! v) ∧ untouched B (B + UNIT_SIZE) (h_mem h) (h_mem h2).
Proof.
  intros O C Hav HB Hal Hhi E1 E2. assert (Hlim : B ≤ TASK_SIZE) by (unfold UNIT_SIZE, PAGE_PER_UNIT, PAGESIZE in *; lia).
  destruct (add_unit_inv _ _ _ _ _ _ _ _ O E1) as (t & l & Ht & Hu & Hni & Hl & Em & Es & Eu & Ec & En).
  destruct (init_unit_top_inv _ _ _ _ HB Hhi E2) as [-> Hv]. destruct (ck_units _ _ _ _ _ _ C av t Hav Ht) as (ps & R & _).
  assert (Hmn : malloc_node (ms_ustate_list t) ≠ 0) by (intros E0; by rewrite E0 in Hl).
  destruct (list_insert_head_alloc _ _ u R Hmn) as (l2 & E3 & R2). assert (l2 = l) as -> by congruence.
  assert (Hvc : h_channel_mapped h1 = true ∧ B + 40952 + 4 ≤ CHANNEL_ADDR + CHANNEL_SIZE).
  { apply valid_channel; [|unfold AB_HEAP_START, CHANNEL_ADDR in *; lia|done]. intros a Ha. apply (ck_low _ _ _ _ _ _ C).
    rewrite Es in Ha. destruct (decide (av = a)) as [<-|Hne]; [eauto|]. by rewrite lookup_insert_ne in Ha. }
  destruct Hvc as [Hc1 Hch].
  assert (Hb : B + UNIT_SIZE ≤ CHANNEL_ADDR + CHANNEL_SIZE).
  { apply page_aligned_mul in Hal. revert Hal Hch. unfold UNIT_SIZE, PAGE_PER_UNIT, PAGESIZE, CHANNEL_ADDR, CHANNEL_SIZE. lia. }
  destruct (unit_mem_shape (h_mem h) B av HB Hal Hb) as [Hs Hm].
  { intros b Hb'. apply (ck_zero _ _ _ _ _ _ C); [|done]. intros ->. by apply not_elem_of_nil in Hav. }
  rewrite <-Em in Hs, Hm. split; [|split; [simpl; rewrite Eu; apply lookup_insert_eq|split; [done|split; [|simpl; by rewrite <-Em]]]].
  - eapply (chunks_add_unit B h us avs ck fl O Hlim C u av t (set_ms_ustate_list l t) _ ps); try done. simpl. by rewrite <-Em.
  - intros v Hne. simpl. by rewrite Eu, lookup_insert_ne.
Qed.

(** The first cut of the new unit *)
Lemma carve_chunks lim h us avs ck fl u B av nb v h' :
  heap_ok lim h us avs → lim ≤ TASK_SIZE → chunks lim h us avs ck fl → u ∈ us →
  h_ustates h !! u = Some (UnitState B B UNIT_SIZE av) → 16 ≤ nb → nb `mod` 8 = 0 → nb + 16 ≤ tsize →
  carve u B nb tsize h = Ret (v, h') →
  took lim h h' us avs ck fl u (UnitState B B UNIT_SIZE av) nb.
Proof.
  intros O Hlim C Hu Hx Hnb Hn8 Hfit E. set (x := UnitState B B UNIT_SIZE av) in *.
  destruct (unit_bounds O Hlim u x Hu Hx) as (Hl & _ & _ & _ & _ & He).
  pose proof (ck_unit _ _ _ _ _ _ C u x Hu Hx) as Sx. pose proof (un_align _ _ Sx) as A.
  pose proof (un_channel _ _ Sx) as N. pose proof (mapped lim h us avs ck fl O Hlim C u x Hu Hx) as Hc.
  assert (Ee : unit_end x = B + tsize) by done. change tsize with 40944 in *. rewrite Ee in *.
  unfold AB_HEAP_START, CHANNEL_ADDR, CHANNEL_SIZE in *. simpl in Hl, A.
  unfold carve in E. cbv zeta in E. rewrite (u32_small (40944 - nb)) in E by lia.
  assert (Eu : upd_unit u (set_unit_top (chunk_at_offset B nb)) h = Ret (tt, set_h_ustates (<[u := set_unit_top (B + nb) x]> (h_ustates h)) h)).
  { unfold upd_unit, chunk_at_offset. rewrite Hx, u32_small by lia. done. }
  rewrite (bind_ret _ _ _ _ _ Eu) in E. replace (40944 - nb) with (B + 40944 - B - nb) in E by lia.
  rewrite (split_exec B nb (B + 40944)) in E; try done; try (unfold AB_HEAP_START, CHANNEL_ADDR, CHANNEL_SIZE; lia).
  injection E as _ <-. apply (took_split lim h us avs ck fl O Hlim C nb Hnb Hn8 u x Hu Hx).
  simpl. rewrite Ee. lia.
Qed.

(** * What a request leaves alone *)

(** The header and the data of every chunk that is in use are as before, and
    the units are the same or have grown, with their labels. *)
Record spares (h h' : heap) (us us' : list Z) (ck : gmap Z Z) (fl : Z → Z → list Z) : Prop := {
  sp_data p z b : ck !! p = Some z → (∀ a i, p ∉ fl a i) → p + 4 ≤ b < p + z + 4 → load8 (h_mem h') b = load8 (h_mem h) b;
  sp_unit u x M : u ∈ us → h_ustates h !! u = Some x → unit_label h x M →
    u ∈ us' ∧ ∃ x', h_ustates h' !! u = Some x' ∧ addr x' = addr x ∧ unit_top x ≤ unit_top x' ∧ unit_label h' x' M;
}.

Lemma spares_trans h1 h2 h3 us1 us2 us3 ck fl :
  spares h1 h2 us1 us2 ck fl → spares h2 h3 us2 us3 ck fl → spares h1 h3 us1 us3 ck fl.
Proof.
  intros [D1 U1] [D2 U2]. split.
  - intros p z b Hp Hf Hb. by rewrite (D2 p z), (D1 p z).
  - intros u x M Hu Hx HM. destruct (U1 u x M Hu Hx HM) as (Hu2 & x2 & Hx2 & E2 & T2 & M2).
    destruct (U2 u x2 M Hu2 Hx2 M2) as (Hu3 & x3 & Hx3 & E3 & T3 & M3). split; [done|]. exists x3. repeat split; try done; [congruence|lia].
Qed.

(** Same units and labels *)
Lemma spares_same h h' us ck fl :
  (∀ p z b, ck !! p = Some z → (∀ a i, p ∉ fl a i) → p + 4 ≤ b < p + z + 4 → load8 (h_mem h') b = load8 (h_mem h) b) →
  (∀ u, u ∈ us → h_ustates h' !! u = h_ustates h !! u) →
  (∀ u x, u ∈ us → h_ustates h !! u = Some x → ms_label <$> h_mstates h' !! unit_av x = ms_label <$> h_mstates h !! unit_av x) →
  spares h h' us us ck fl.
Proof.
  intros Hd Hu Hl. split; [done|]. intros u x M Hin Hx (t & Ht & HM). split; [done|]. exists x. rewrite (Hu u Hin).
  split; [done|]. split; [done|]. split; [done|]. pose proof (Hl u x Hin Hx) as E. rewrite Ht in E.
  destruct (h_mstates h' !! unit_av x) as [t'|] eqn:Et; [|done]. injection E as E. exists t'. split; congruence.
Qed.

Lemma spares_took lim h h' us avs ck fl u x nb :
  heap_ok lim h us avs → lim ≤ TASK_SIZE → chunks lim h us avs ck fl → u ∈ us → h_ustates h !! u = Some x → 0 ≤ nb →
  took lim h h' us avs ck fl u x nb → spares h h' us us ck fl.
Proof.
  intros O Hlim C Hu Hx Hn [_ Hm Es Eu]. split.
  - intros p z b Hp _ Hb. apply Hm. destruct (chunk_below_top lim h us avs ck fl O Hlim C u x p z Hu Hx Hp); lia.
  - intros v y M Hv Hy (t & Ht & HM). split; [done|]. rewrite Eu. destruct (decide (u = v)) as [<-|Hne].
    + assert (y = x) as -> by congruence. eexists. rewrite lookup_insert_eq. split; [done|]. split; [done|]. split; [simpl; lia|].
      exists t. by rewrite Es.
    + exists y. rewrite lookup_insert_ne by done. repeat split; try done. exists t. by rewrite Es.
Qed.

Lemma state_label_insert (m : gmap Z malloc_state) av f (t : malloc_state) : (∀ t, ms_label (f t) = ms_label t) → m !! av = Some t →
  ∀ a, ms_label <$> <[av := f t]> m !! a = ms_label <$> m !! a.
Proof.
  intros Hf Ht a. destruct (decide (av = a)) as [<-|Hne]; [|by rewrite lookup_insert_ne]. rewrite lookup_insert_eq, Ht. simpl. by rewrite Hf.
Qed.

(** * A new state *)

Lemma new_mstate_inv h av h' :
  0 < h_libc_next h → new_mstate h = Ret (av, h') →
  av = h_libc_next h ∧ av + SIZEOF_MALLOC_STATE < CHANNEL_ADDR ∧
  h' = set_h_mstates (<[av := zero_mstate]> (h_mstates h))
         (set_h_mem (memset0 (h_mem h) (av + BINS_OFFSET) BINS_BYTES) (set_h_libc_next (av + SIZEOF_MALLOC_STATE + 8) h)).
Proof.
  intros Hn E. unfold new_mstate in E. binv E. unfold libc_malloc in E0.
  destruct (Z.ltb_spec (h_libc_next h + SIZEOF_MALLOC_STATE) CHANNEL_ADDR) as [Hl|]; injection E0 as <- <-; [|done].
  rewrite (proj2 (Z.eqb_neq _ 0)) in E by lia. injection E as <- <-. done.
Qed.

(** [init_bin] on the bins [ixs] of a state *)
Lemma init_bins_inv av ixs h u h' :
  0 < av → av + SIZEOF_MALLOC_STATE ≤ CHANNEL_ADDR → (∀ i, i ∈ ixs → 1 ≤ i < NBINS) →
  for_ ixs (init_bin av) h = Ret (u, h') →
  h' = set_h_mem (h_mem h') h ∧ untouched (av + BINS_OFFSET) (av + BINS_OFFSET + BINS_BYTES) (h_mem h) (h_mem h') ∧
  ∀ i, 1 ≤ i < NBINS → i ∈ ixs ∨ load32 (h_mem h) (av + 72 + 8 * i) = bin_at av i →
    load32 (h_mem h') (av + 72 + 8 * i) = bin_at av i.
Proof.
  intros H0 Hl. unfold SIZEOF_MALLOC_STATE, CHANNEL_ADDR, BINS_OFFSET in *. change BINS_BYTES with 768. change NBINS with 96.
  revert h. induction ixs as [|j ixs IH]; intros h Hix E.
  { injection E as _ <-. split; [by destruct h|]. split; [apply untouched_refl|]. intros i _ [Hi|]; [by apply not_elem_of_nil in Hi|done]. }
  cbn [for_] in E. binv E. pose proof (Hix j ltac:(by left)) as Hj.
  assert (Eb : bin_at av j = av + 60 + 8 * j).
  { unfold bin_at, BINS_OFFSET. rewrite Z.shiftl_mul_pow2 by lia. change (2 ^ 1) with 2. rewrite u32_small; lia. }
  assert (E1 : s = set_h_mem (store32 (store32 (h_mem h) (av + 72 + 8 * j) (bin_at av j)) (av + 68 + 8 * j) (bin_at av j)) h).
  { unfold init_bin, wr_bk, wr_fd in E0. binv E0. apply sd_inv in E0, E1. subst. rewrite Eb, !u32_small by lia.
    replace (av + 60 + 8 * j + 12) with (av + 72 + 8 * j) by lia. by replace (av + 60 + 8 * j + 8) with (av + 68 + 8 * j) by lia. }
  destruct (IH s) as (Es & Hm & Hi); [intros i Hi; apply Hix; by right|done|]. subst s. simpl in *. split; [exact Es|]. split.
  - eapply untouched_trans; [|exact Hm]. repeat (eapply untouched_trans; [|apply untouched_store; lia]). apply untouched_refl.
  - intros i Hr Hor. apply Hi; [done|]. destruct (decide (i = j)) as [->|Hne].
    + right. rewrite load32_store32_ne, load32_store32_eq by (rewrite ?Eb; lia). done.
    + destruct Hor as [[|Hin]%elem_of_cons|Hld]; [done|by left|]. right. rewrite !load32_store32_ne by lia. done.
Qed.

(** The state a first request for a label creates *)
Definition fresh_state (L : list Z) : malloc_state := set_ms_label L (init_tunables zero_mstate).

Lemma first_use_inv lim h us avs av L u h' :
  heap_ok lim h us avs → h_mstates h !! av = Some zero_mstate → 0 < av → av + SIZEOF_MALLOC_STATE ≤ CHANNEL_ADDR →
  init_on_first_use av L h = Ret (u, h') →
  h_mstates h' = <[av := fresh_state L]> (h_mstates h) ∧ h_ustates h' = h_ustates h ∧ h_libc_next h' = h_libc_next h ∧
  (∀ i, 1 ≤ i < NBINS → load32 (h_mem h') (av + 72 + 8 * i) = bin_at av i) ∧
  (avs ≠ [] → h_channel_mapped h' = h_channel_mapped h ∧
     untouched (av + BINS_OFFSET) (av + BINS_OFFSET + BINS_BYTES) (h_mem h) (h_mem h')) ∧
  (avs = [] → h_channel_mapped h' = true ∧ ∀ b, CHANNEL_ADDR ≤ b < CHANNEL_ADDR + CHANNEL_SIZE → load8 (h_mem h') b = 0).
Proof.
  intros O Ht H0 Hl E. unfold init_on_first_use in E. binv E. apply get_av_inv in E0 as [Et ->]. rewrite Ht in Et. injection Et as <-.
  cbn [zero_mstate ms_max_fast Z.eqb when] in E. binv E. unfold __malloc_consolidate in E0. binv E0. apply get_av_inv in E1 as [Et ->].
  rewrite Ht in Et. injection Et as <-. cbn [zero_mstate ms_max_fast Z.eqb negb] in E0. binv E0. apply gets_inv in E1 as [-> ->].
  destruct (ho_mlist _ _ _ _ O) as (ps & R & Hps). binv E0.
  assert (Hres : h_mstates s0 = h_mstates h ∧ h_ustates s0 = h_ustates h ∧ h_libc_next s0 = h_libc_next h ∧
    (avs ≠ [] → s0 = h) ∧
    (avs = [] → h_channel_mapped s0 = true ∧ ∀ b, CHANNEL_ADDR ≤ b < CHANNEL_ADDR + CHANNEL_SIZE → load8 (h_mem s0) b = 0)).
  { pose proof (ll_rep_num _ _ R) as Hn. destruct (Z.eqb_spec (num (h_mstate_list h)) 0) as [Hz|Hz]; cbn [when] in E1; injection E1 as _ <-.
    - apply Hn in Hz. subst ps. simpl in Hps. subst avs. split; [done|]. split; [done|]. split; [done|]. split; [done|].
      intros _. split; [done|]. intros b Hb. simpl. rewrite load8_memset0, decide_True by done. done.
    - split; [done|]. split; [done|]. split; [done|]. split; [done|]. intros ->. destruct Hz. apply Hn. by destruct ps. }
  destruct Hres as (R1 & R2 & R3 & R4 & R5). unfold malloc_init_state in E0. binv E0.
  apply (init_bins_inv av _ s0 _ _ H0 Hl) in E2 as (Es & Hm & Hb); [|intros i Hi%elem_of_seqZ; lia].
  binv E0. apply upd_av_inv in E2 as (t2 & Ht2 & ->). binv E0. apply gets_inv in E2 as [-> ->].
  binv E0. apply lift_inv in E2 as [_ ->]. apply modify_inv in E0 as ->. apply upd_av_inv in E as (t3 & Ht3 & ->).
  rewrite Es in *. simpl in *. rewrite R1, Ht in Ht2. injection Ht2 as <-. rewrite lookup_insert_eq in Ht3. injection Ht3 as <-.
  rewrite insert_insert_eq, R1. split; [done|]. split; [done|]. split; [done|]. split; [|split].
  - intros i Hi. apply Hb; [done|]. left. apply elem_of_seqZ. lia.
  - intros Hne. by rewrite <-(R4 Hne).
  - intros He. destruct (R5 He) as [R6 R7]. split; [done|]. intros b Hr. rewrite Hm; [by apply R7|]. right. revert Hl.
    unfold SIZEOF_MALLOC_STATE, BINS_OFFSET. change BINS_BYTES with 768. lia.
Qed.

Lemma new_state_chunks lim h us avs ck fl av h1 L u h2 :
  heap_ok lim h us avs → heap_ok lim h1 us avs → lim ≤ TASK_SIZE → AB_HEAP_START ≤ lim → chunks lim h us avs ck fl →
  new_mstate h = Ret (av, h1) → init_on_first_use av L h1 = Ret (u, h2) →
  chunks lim h2 us (avs ++ [av]) ck fl ∧ spares h h2 us us ck fl ∧ h_mstates h2 !! av = Some (fresh_state L).
Proof.
  intros O O1 Hlim Hlow C E1 E2. pose proof (ho_next _ _ _ _ O) as Hn.
  apply new_mstate_inv in E1 as (Ea & Hl & Eh1); [|done].
  assert (Hni : av ∉ avs).
  { intros Hin. destruct (ho_state _ _ _ _ O av Hin) as (t & Ht & _). pose proof (ho_fresh_s _ _ _ _ O av (ex_intro _ _ Ht)). lia. }
  assert (Ht1 : h_mstates h1 !! av = Some zero_mstate) by (rewrite Eh1; apply lookup_insert_eq).
  destruct (first_use_inv lim h1 us avs av L u h2) as (S2 & U2 & N2 & B2 & Hne & Hnil); [done..|lia|lia|done|].
  assert (Es : h_mstates h2 = <[av := fresh_state L]> (h_mstates h)) by (rewrite S2, Eh1; simpl; apply insert_insert_eq).
  assert (Hm : avs ≠ [] → untouched (av + BINS_OFFSET) (av + BINS_OFFSET + BINS_BYTES) (h_mem h) (h_mem h2)).
  { intros Ha. destruct (Hne Ha) as [_ Hm]. rewrite Eh1 in Hm. simpl in Hm. eapply untouched_trans; [|exact Hm]. apply untouched_memset; lia. }
  rewrite Eh1 in U2, N2, Hne. simpl in U2, N2, Hne. unfold AB_HEAP_START, CHANNEL_ADDR in *.
  split; [|split; [|rewrite Es; apply lookup_insert_eq]].
  - apply (chunks_add_state lim h us avs ck fl O Hlim C h2 av (fresh_state L)); try done.
    + split; try done; [by left|]. intros i Hi. simpl. unfold aget.
      by destruct (Z.to_nat i) as [|[|[|[|[|[|[|[|[|[|[|]]]]]]]]]]].
    + destruct avs as [|a0 l0] eqn:Ha; [by apply Hnil|]. rewrite (proj1 (Hne ltac:(done))). apply (ck_mapped _ _ _ _ _ _ C). done.
    + lia.
    + lia.
    + unfold CHANNEL_ADDR. lia.
    + intros Ha b Hb. apply Hnil; [done|]. unfold CHANNEL_ADDR in *. lia.
  - apply spares_same.
    + intros p z b Hp _ Hb. destruct (ck_chunk _ _ _ _ _ _ C p z Hp) as (_ & v & y & Hh).
      destruct (unit_bounds O Hlim v y (hl_in _ _ _ _ _ _ Hh) (hl_unit _ _ _ _ _ _ Hh)) as (Hlo & _ & _ & _ & Hya & _).
      apply Hm; [intros ->; by apply not_elem_of_nil in Hya|]. right. pose proof (hl_low _ _ _ _ _ _ Hh).
      revert Hl Hlo. unfold SIZEOF_MALLOC_STATE, BINS_OFFSET, AB_HEAP_START. change BINS_BYTES with 768. lia.
    + intros v _. by rewrite U2.
    + intros v y Hv Hy. rewrite Es, lookup_insert_ne; [done|]. intros ->. destruct Hni. by apply (unit_bounds O Hlim v y).
Qed.

(** * A unit of its own for the request *)

Section Kernel.
Context {K : Type} `{HK : AbOsLaws K}.
Variable abt : arbiter_thread.

(** A request was served: the chunk behind [r] is new or comes from a
    fastbin, it is in use now, and it lies in a unit of label [L]. *)
Record served (s s' : abst K) (us us' avs avs' : list Z) (ck ck' : gmap Z Z) (fl fl' : Z → Z → list Z) (r nb : Z) (L : list Z) : Prop := {
  sv_safe : safe abt s' us' avs';
  sv_chunks : chunks (os_brk (ab_os s')) (ab_heap s') us' avs' ck' fl';
  sv_spares : spares (ab_heap s) (ab_heap s') us us' ck fl;
  sv_ck : ck' = <[r - 8 := nb]> ck;
  sv_new : ck !! (r - 8) = None ∨ ∃ a i, r - 8 ∈ fl a i;
  sv_fl a i p : p ∈ fl' a i → p ∈ fl a i ∧ p ≠ r - 8;
  sv_head : load32 (h_mem (ab_heap s')) (r - 4) = nb + 1 ∨ load32 (h_mem (ab_heap s')) (r - 4) = nb + 9;
  sv_label : ∃ u x, holds (ab_heap s') us' u x (r - 8) nb ∧ unit_label (ab_heap s') x L;
}.

Lemma upd_av_same lim h us avs ck fl av f h' u :
  chunks lim h us avs ck fl → upd_av av f h = Ret (u, h') → (∀ t, vital (f t) = vital t ∧ ms_label (f t) = ms_label t) →
  chunks lim h' us avs ck fl ∧ spares h h' us us ck fl ∧ h_ustates h' = h_ustates h ∧
  ∀ a, ms_label <$> h_mstates h' !! a = ms_label <$> h_mstates h !! a.
Proof.
  intros C E Hf. apply upd_av_inv in E as (t & Ht & ->).
  assert (Hl : ∀ a, ms_label <$> <[av := f t]> (h_mstates h) !! a = ms_label <$> h_mstates h !! a).
  { apply state_label_insert; [|done]. apply Hf. }
  split; [|split; [|split; done]].
  - eapply (chunks_same lim h us avs ck fl C); try done. intros a. simpl. destruct (decide (av = a)) as [<-|Hne].
    + rewrite lookup_insert_eq, Ht. simpl. by rewrite (proj1 (Hf t)).
    + by rewrite lookup_insert_ne.
  - apply spares_same; [done|done|]. intros u' x _ _. simpl. done.
Qed.

Lemma stats_vital t : vital (stats_sbrk t) = vital t ∧ ms_label (stats_sbrk t) = ms_label t.
Proof. unfold stats_sbrk. simpl. by repeat case_match. Qed.

(** The chunk level of [alloc_unit], from the break [B] on *)
Lemma new_unit_block B h0 h1 h2 h3 h4 h5 us avs ck fl av L nb u r1 r3 r4 r5 :
  heap_ok B h0 us avs → chunks B h0 us avs ck fl → av ∈ avs → ms_label <$> h_mstates h0 !! av = Some L →
  AB_HEAP_START ≤ B → page_aligned B = true → B + UNIT_SIZE ≤ TASK_SIZE → 16 ≤ nb → nb `mod` 8 = 0 → nb + MINSIZE ≤ tsize →
  upd_av av (λ s, set_ms_sbrked_mem (u32 (ms_sbrked_mem s + UNIT_SIZE)) s) h0 = Ret (r1, h1) →
  add_unit av B h1 = Ret (u, h2) → init_unit_top B UNIT_SIZE h2 = Ret (r3, h3) →
  upd_av av stats_sbrk h3 = Ret (r4, h4) → carve u B nb tsize h4 = Ret (r5, h5) →
  let x := UnitState B B UNIT_SIZE av in
  heap_ok (B + UNIT_SIZE) h5 (u :: us) avs ∧ chunks (B + UNIT_SIZE) h5 (u :: us) avs (<[B := nb]> ck) fl ∧
  spares h0 h5 us (u :: us) ck fl ∧ holds h5 (u :: us) u (set_unit_top (B + nb) x) B nb ∧
  unit_label h5 (set_unit_top (B + nb) x) L ∧ ck !! B = None.
Proof.
  intros O0 C0 Hav HL HB Hal Hhi Hn0 Hn8 Hnb E0 E1 E2 E3 E4 x. assert (Hlim : B ≤ TASK_SIZE) by (unfold UNIT_SIZE, PAGE_PER_UNIT, PAGESIZE in *; lia).
  destruct (upd_av_same _ _ _ _ _ _ _ _ _ _ C0 E0 ltac:(done)) as (C1 & P1 & U1 & L1).
  assert (O1 : heap_ok B h1 us avs) by (eapply heap_ok_meta; [|exact O0]; revert E0; apply keeps_upd_av; by intros []).
  assert (T1 : stage B h1 h1 us avs av L (h_ab_curbrk h1)) by (split; [done|by split|by rewrite L1|done]).
  destruct (add_unit_ok _ _ _ _ _ _ _ _ _ _ T1 Hav Hal HB E1) as (O2 & X2 & _ & L2 & _).
  destruct (new_unit_chunks _ _ _ _ _ _ _ _ _ _ _ O1 C1 Hav HB Hal Hhi E1 E2) as (C3 & X3 & Hni & U3 & M3).
  destruct (init_unit_top_inv _ _ _ _ HB Hhi E2) as [Eh3 _].
  pose proof (heap_ok_meta _ _ _ _ _ (keeps_init_unit_top (lk := false) _ _ _ _ _ E2) O2) as O3.
  assert (P3 : spares h1 h3 us (u :: us) ck fl).
  { destruct (spares_same h1 h3 us ck fl) as [D U].
    - intros p z b Hp _ Hb. apply M3. left. pose proof (add_out B h1 us avs ck fl O1 Hlim C1 p z Hp). lia.
    - intros v Hv. apply U3. by intros ->.
    - intros v y Hv Hy. rewrite Eh3. simpl. apply X2. by apply (unit_bounds O1 Hlim v y).
    - split; [done|]. intros v y M Hv Hy HM. destruct (U v y M Hv Hy HM) as [_ HU]. split; [by right|done]. }
  destruct (upd_av_same _ _ _ _ _ _ _ _ _ _ C3 E3 stats_vital) as (C4 & P4 & U4 & L4).
  assert (O4 : heap_ok (B + UNIT_SIZE) h4 (u :: us) avs) by (eapply heap_ok_meta; [exact (keeps_stats_sbrk (lk := false) _ _ _ _ E3)|exact O3]).
  rewrite <-U4 in X3. rewrite MINSIZE_16 in Hnb.
  pose proof (carve_chunks _ _ _ _ _ _ _ _ _ _ _ _ O4 Hhi C4 ltac:(by left) X3 Hn0 Hn8 Hnb E4) as T. fold x in T, X3.
  pose proof T as [C5 M5 S5 Eu5]. simpl in C5, Eu5.
  split; [eapply heap_ok_meta; [exact (keeps_carve (lk := false) _ _ _ _ _ _ _ E4)|exact O4]|]. split; [done|]. split; [|split; [|split]].
  - eapply spares_trans; [exact P1|]. eapply spares_trans; [exact P3|]. eapply spares_trans; [exact P4|].
    apply (spares_took (B + UNIT_SIZE) h4 h5 (u :: us) avs ck fl u x nb); try done; [by left|lia].
  - split; [by left|rewrite Eu5; apply lookup_insert_eq|simpl; lia|simpl; lia].
  - unfold unit_label. simpl. rewrite S5. specialize (L4 av). rewrite Eh3 in L4. simpl in L4. rewrite L2 in L4.
    destruct (h_mstates h4 !! av) as [t4|]; [|done]. injection L4 as L4. eauto.
  - destruct (ck !! B) as [z|] eqn:Ez; [|done]. pose proof (add_out B h1 us avs ck fl O1 Hlim C1 B z Ez).
    pose proof (chunk_bounds B h1 us avs ck fl O1 Hlim C1 B z Ez). lia.
Qed.

Lemma chunksize_state p h z h' : chunksize p h = Ret (z, h') → h' = h.
Proof.
  unfold chunksize. intros E. binv E. injection E as _ <-. unfold rd_size, ld in E0. case_match; [|done]. by injection E0 as _ <-.
Qed.

Lemma alloc_unit_block s us avs ck fl c d nb av t L r s' :
  safe abt s us avs → chunks (os_brk (ab_os s)) (ab_heap s) us avs ck fl → is_client abt c d → length L = 8%nat →
  can_flow (unpack (label d)) (unpack (ownership d)) L →
  av ∈ avs → h_mstates (ab_heap s) !! av = Some t → ms_label t = L → 16 ≤ nb → nb `mod` 8 = 0 → nb + MINSIZE ≤ tsize →
  alloc_unit abt (pid d) nb av L s = Ret (r, s') →
  ∃ u, served s s' us (u :: us) avs avs ck (<[r - 8 := nb]> ck) fl fl r nb L.
Proof.
  intros S C Hc HL Hcf Hav Ht HtL Hn0 Hn8 Hnb E. assert (Hnn : 0 ≤ nb) by lia.
  destruct (alloc_unit_safe abt _ _ _ _ _ _ _ _ _ _ _ S Hc HL Hcf Hav Ht HtL Hnn Hnb E) as (us' & S').
  pose proof (sf_heap _ _ _ _ S) as O. destruct (sf_brk _ _ _ _ S) as [Hal Hlow].
  unfold alloc_unit in E. binv E. binv E. apply assertb_inv in E1 as [Hne ->]. rename r0 into B.
  destruct (sbrk_spec _ _ _ _ _ _ _ _ S Hc E0) as (HB & Hb1 & Hhi & (cb & Hh1) & _ & G).
  { intros ->. by rewrite Z.eqb_refl in Hne. }
  rewrite <-HB in *. clear E0. binv E. apply lh_inv in E0 as [E0 K1]. binv E. apply assertb_inv in E1 as [_ ->].
  binv E. apply lh_inv in E1 as [E1 K2]. binv E. apply lh_inv in E2 as [E2 K3]. binv E. apply lh_inv in E3 as [E3 K4].
  pose proof (init_unit_top_size _ _ _ _ E2 ltac:(unfold AB_HEAP_START in *; lia) Hhi) as Hsz.
  rewrite <-(upd_av_mem _ _ _ _ _ E3) in Hsz.
  binv E. apply lh_inv in E4 as [E4 K5]. pose proof (chunksize_top _ _ _ _ E4 ltac:(unfold AB_HEAP_START in *; lia) Hhi Hsz) as ->.
  rewrite u32_small in E by (rewrite MINSIZE_16 in *; change tsize with 40944 in *; lia).
  rewrite (proj2 (Z.leb_le _ _)) in E by done. binv E. apply lh_inv in E5 as [E5 K6].
  rewrite (chunksize_state _ _ _ _ E4) in E5. set (h := ab_heap s) in *.
  assert (C0 : chunks B (ab_heap s0) us avs ck fl) by (rewrite Hh1; by apply (chunks_same B h us avs ck fl C)).
  assert (O0 : heap_ok B (ab_heap s0) us avs) by (rewrite Hh1; by apply heap_ok_curbrk).
  assert (L0 : ms_label <$> h_mstates (ab_heap s0) !! av = Some L) by (rewrite Hh1; simpl; rewrite Ht; simpl; by rewrite HtL).
  destruct (new_unit_block _ _ _ _ _ _ _ _ _ _ _ _ _ _ _ _ _ _ _ O0 C0 Hav L0 (proj1 Hlow) Hal Hhi Hn0 Hn8 Hnb E0 E1 E2 E3 E5)
    as (O5 & C5 & P5 & H5 & L5 & N5).
  binv E. injection E as <- <-. destruct (co_table _ _ (sf_clients _ _ _ _ S)) as (ps & T).
  destruct s6 as [h6 k6]. simpl in *. assert (k6 = ab_os s0) as -> by congruence.
  refine (_ (prot_update_spec _ _ _ _ _ _ _ _ _ _ _ _ _ S G T _ Hal _ _ _ E6)); [|unfold AB_HEAP_START in *; lia|change tsize with 40944; lia| |by vm_compute].
  2:{ change tsize with 40944. unfold UNIT_SIZE, PAGE_PER_UNIT, PAGESIZE in Hhi. lia. }
  intros [Hh7 U7]. exists r3. unfold chunk2mem. change (2 * SIZE_SZ) with 8.
  rewrite u32_small by (unfold AB_HEAP_START, TASK_SIZE, UNIT_SIZE, PAGE_PER_UNIT, PAGESIZE in *; lia).
  replace (B + 8 - 8) with B by lia. replace (B + 8 - 4) with (B + 4) by lia.
  pose proof (up_brk _ _ _ _ _ _ _ _ U7) as Hbrk.
  assert (us' = r3 :: us) as ->. { rewrite <-Hh7 in O5. by destruct (heap_ok_det _ _ _ _ _ _ _ (sf_heap _ _ _ _ S') O5). }
  split; rewrite ?Hh7, ?Hbrk, ?Hb1; try done.
  - eapply spares_trans; [|exact P5]. rewrite Hh1. by apply spares_same.
  - by replace (B + 8 - 8) with B by lia.
  - replace (B + 8 - 8) with B by lia. by left.
  - intros a i p Hp. split; [done|]. intros ->. replace (B + 8 - 8) with B in Hp by lia.
    destruct (fast_chunk_size B h us avs ck fl O ltac:(lia) C a i B Hp) as (z & Hz & _). congruence.
  - replace (B + 8 - 4) with (B + 4) by lia. apply (ck_chunk _ _ _ _ _ _ C5 B nb). apply lookup_insert_eq.
  - replace (B + 8 - 8) with B by lia. eauto.
Qed.

(** * [ablib_malloc] *)

(** The heap changes in ways that neither the clients nor the chunks notice. *)
Lemma served_before s0 s s' us us' avs0 avs avs' ck ck' fl fl' r nb L :
  spares (ab_heap s0) (ab_heap s) us us ck fl →
  served s s' us us' avs avs' ck ck' fl fl' r nb L → served s0 s' us us' avs0 avs' ck ck' fl fl' r nb L.
Proof. intros P []. split; try done. by eapply spares_trans. Qed.

Lemma served_unlock s s' s'' us us' avs avs' ck ck' fl fl' r nb L u :
  served s s' us us' avs avs' ck ck' fl fl' r nb L → lh unlock s' = Ret (u, s'') →
  served s s'' us us' avs avs' ck ck' fl fl' r nb L ∧ h_malloc_lock (ab_heap s'') = false.
Proof.
  intros V E. destruct (safe_keeps abt _ _ _ _ _ _ keeps_unlock (sv_safe _ _ _ _ _ _ _ _ _ _ _ _ _ V) E) as (S'' & Ek & Eu).
  apply modify_inv in Eu. destruct V as [_ C P E0 N F Hd (v & x & Hh & Hl)]. split; [|by rewrite Eu]. split; try done.
  - rewrite Ek, Eu. by apply (chunks_same _ _ _ _ _ _ C).
  - eapply spares_trans; [exact P|]. rewrite Eu. by apply spares_same.
  - by rewrite Eu.
  - exists v, x. rewrite Eu. split; [|done]. destruct Hh. by split.
Qed.

(** The state that serves a request *)
Record ready (s : abst K) (us avs : list Z) (ck : gmap Z Z) (fl : Z → Z → list Z) (av : Z) (L : list Z) (t : malloc_state) : Prop := {
  rd_safe : safe abt s us avs;
  rd_chunks : chunks (os_brk (ab_os s)) (ab_heap s) us avs ck fl;
  rd_in : av ∈ avs;
  rd_state : h_mstates (ab_heap s) !! av = Some t;
  rd_label : ms_label t = L;
}.

Lemma ready_limit s us avs ck fl av L t : ready s us avs ck fl av L t → os_brk (ab_os s) ≤ TASK_SIZE.
Proof. intros R. by destruct (sf_brk _ _ _ _ (rd_safe _ _ _ _ _ _ _ _ R)) as [_ [_ ?]]. Qed.

Lemma ck_new_top lim h us avs ck fl u x :
  heap_ok lim h us avs → lim ≤ TASK_SIZE → chunks lim h us avs ck fl → u ∈ us → h_ustates h !! u = Some x → ck !! unit_top x = None.
Proof.
  intros O Hlim C Hu Hx. destruct (ck !! unit_top x) as [z|] eqn:E; [exfalso|done].
  destruct (chunk_bounds lim h us avs ck fl O Hlim C _ _ E) as (_ & _ & H16 & _).
  pose proof (un_top _ _ (ck_unit _ _ _ _ _ _ C u x Hu Hx)).
  destruct (chunk_below_top lim h us avs ck fl O Hlim C u x _ _ Hu Hx E); lia.
Qed.

(** The cut of a unit serves a request. *)
Lemma top_served s us avs ck fl av L t u x nb h' :
  ready s us avs ck fl av L t → 16 ≤ nb → u ∈ us → h_ustates (ab_heap s) !! u = Some x → unit_av x = av →
  meta_eq (ab_heap s) h' → took (os_brk (ab_os s)) (ab_heap s) h' us avs ck fl u x nb →
  served s (AbSt h' (ab_os s)) us us avs avs ck (<[unit_top x := nb]> ck) fl fl (unit_top x + 8) nb L.
Proof.
  intros R Hn Hu Hx Hxa M T. pose proof (ready_limit _ _ _ _ _ _ _ _ R) as Hlim. destruct R as [S C Hin Ht HL].
  pose proof (sf_heap _ _ _ _ S) as O. pose proof (ck_new_top _ _ _ _ _ _ u x O Hlim C Hu Hx) as N.
  assert (E8 : unit_top x + 8 - 8 = unit_top x) by lia. assert (E4 : unit_top x + 8 - 4 = unit_top x + 4) by lia.
  pose proof T as [C' _ Es Eu]. split; rewrite ?E8, ?E4; simpl; try done.
  - destruct s as [h k]. by eapply safe_meta.
  - apply (spares_took (os_brk (ab_os s)) _ _ us avs ck fl u x nb); try done. lia.
  - by left.
  - intros a i p Hp. split; [done|]. intros ->. destruct (fast_chunk_size _ _ _ _ _ _ O Hlim C a i _ Hp) as (z & Hz & _). congruence.
  - apply (ck_chunk _ _ _ _ _ _ C' (unit_top x) nb). apply lookup_insert_eq.
  - exists u, (set_unit_top (unit_top x + nb) x). split.
    + pose proof (un_top _ _ (ck_unit _ _ _ _ _ _ C u x Hu Hx)). split; [done|by rewrite Eu, lookup_insert_eq|simpl; lia|simpl; lia].
    + exists t. simpl. by rewrite Es, Hxa.
Qed.

(** A call with the lock held does not return. *)
Lemma locked_no_return n p bytes L (s : abst K) r s' :
  locked s → bytes ≠ 0 → ablib_malloc_rec n abt p bytes L s ≠ Ret (r, s').
Proof.
  intros Hl Hb E. destruct n as [|n]; [done|]. rewrite malloc_rec_S in E. unfold malloc_body in E. bstep E as av s1 E1.
  apply lh_lookup_lock in E1. rewrite (proj2 (Z.eqb_neq bytes 0) Hb) in E. bstep E as x s2 E2. unfold lh, lock in E2.
  unfold locked in Hl. by rewrite E1, Hl in E2.
Qed.

(** The stages behind the searches *)
Lemma malloc_tail_block n s us avs ck fl c d nb av L t r5 s5 r6 s6 r s' :
  ready s us avs ck fl av L t → locked s → is_client abt c d → length L = 8%nat →
  can_flow (unpack (label d)) (unpack (ownership d)) L → 16 ≤ nb → nb `mod` 8 = 0 → nb + MINSIZE ≤ tsize →
  lh (malloc_unit_top av nb) s = Ret (r5, s5) →
  match r5 with Some x => mret x | None => __malloc_alloc (ablib_malloc_rec n abt) abt (pid d) nb av L end s5 = Ret (r, s6) →
  lh unlock s6 = Ret (r6, s') →
  ∃ us' ck', served s s' us us' avs avs ck ck' fl fl r nb L ∧ h_malloc_lock (ab_heap s') = false.
Proof.
  intros R Hlk Hc HL Hcf Hn0 Hn8 Hnb E5 E6 E7. pose proof (ready_limit _ _ _ _ _ _ _ _ R) as Hlim.
  pose proof R as [S C Hin Ht HtL]. pose proof (sf_heap _ _ _ _ S) as O.
  destruct (malloc_unit_top_spec _ _ _ _ _ _ O Hlim C nb Hn0 Hn8 av t Hin Ht) as [(u & x & h' & Hu & Hx & Hxa & _ & Eq & T)|[Eq _]].
  - apply lh_inv in E5 as [E5 Ek]. rewrite Eq in E5. injection E5 as <- Eh. injection E6 as <- <-.
    assert (M : meta_eq (ab_heap s) h') by (apply (keeps_malloc_unit_top (lk := false) av nb _ _ _ Eq)).
    exists us, (<[unit_top x := nb]> ck). eapply served_unlock; [|exact E7].
    assert (AbSt h' (ab_os s) = s5) as <- by (destruct s5; simpl in *; congruence).
    by apply (top_served s us avs ck fl av L t u x nb h').
  - apply lh_inv in E5 as [E5 Ek]. rewrite Eq in E5. injection E5 as <- Eh.
    assert (s5 = s) as -> by (destruct s, s5; simpl in *; congruence). unfold __malloc_alloc in E6.
    bstep E6 as t' s1 E1. apply lh_get_av in E1 as [Ht' ->]. assert (t' = t) as -> by congruence.
    destruct (sh_fast _ _ _ _ (ck_state _ _ _ _ _ _ C av t Hin Ht)) as [[Hmf _]|Hmf]; rewrite Hmf in E6.
    + change (have_fastchunks 72) with false in E6. cbn iota in E6. bstep E6 as m s1 E1.
      destruct (alloc_mmap_small _ _ _ _ _ _ _ _ _ _ S Hin Hnb E1) as [-> ->].
      destruct (alloc_unit_block _ _ _ _ _ _ _ _ _ _ _ _ _ S C Hc HL Hcf Hin Ht HtL Hn0 Hn8 Hnb E6) as (u & V).
      exists (u :: us), (<[r - 8 := nb]> ck). by eapply served_unlock.
    + change (have_fastchunks 75) with true in E6. cbn iota in E6. binv E6. apply assertb_inv in E as [_ ->].
      bstep E6 as z s1 E1. pose proof (locked_lh _ _ _ _ (lock_eq_consolidate av) Hlk E1) as Hlk1. exfalso. revert E6.
      apply locked_no_return; [done|]. rewrite MINSIZE_16 in Hnb. change tsize with 40944 in Hnb. unfold MALLOC_ALIGN_MASK. rewrite u32_small; lia.
Qed.

(** A request the theorems cover: small enough for a unit; once chunks of its
    label were released, of a size for which the regular bins are searched
    without merging fastbins. *)
Definition plain_request (h : heap) (bytes : Z) (L : list Z) : Prop :=
  0 < bytes ≤ MAX_SMALL ∧
  (in_smallbin_range (request2size bytes) = true ∨
   ∀ av t, h_mstates h !! av = Some t → ms_label t = L → have_anychunks (ms_max_fast t) = false).

Lemma pop_served s us avs ck fl av L t nb p l h' :
  ready s us avs ck fl av L t → nb ≤ 72 → fl av (fastbin_index nb) = p :: l → meta_eq (ab_heap s) h' →
  popped (os_brk (ab_os s)) (ab_heap s) us avs ck fl av nb h' p l →
  served s (AbSt h' (ab_os s)) us us avs avs ck ck fl (set_fl fl av (fastbin_index nb) l) (p + 8) nb L.
Proof.
  intros R H72 Hfl M [C' Hck Hhd Em Eu El]. pose proof (ready_limit _ _ _ _ _ _ _ _ R) as Hlim. destruct R as [S C Hin Ht HL].
  pose proof (sf_heap _ _ _ _ S) as O. set (i := fastbin_index nb) in *.
  assert (Hpi : p ∈ fl av i) by (rewrite Hfl; by left).
  assert (E8 : p + 8 - 8 = p) by lia. assert (E4 : p + 8 - 4 = p + 4) by lia.
  split; rewrite ?E8, ?E4; simpl; try done.
  - destruct s as [h k]. by eapply safe_meta.
  - apply spares_same; [by rewrite Em|by rewrite Eu|]. intros u x _ _. apply El.
  - by rewrite insert_id.
  - right. eauto.
  - intros a j q. unfold set_fl. destruct (decide (a = av ∧ j = i)) as [[-> ->]|Hne]; intros Hq.
    + split; [rewrite Hfl; by right|]. intros ->. pose proof (ck_nodup _ _ _ _ _ _ C av i) as Hnd. rewrite Hfl in Hnd.
      by apply NoDup_cons in Hnd as [? _].
    + split; [done|]. intros ->. destruct Hne. by apply (fast_chunk_unique _ _ _ _ _ _ O Hlim C p).
  - rewrite Em. by left.
  - destruct (ck_free _ _ _ _ _ _ C av i p Hpi) as (z & u & x & Hz & _ & _ & _ & Hh & Hxa). assert (z = nb) as -> by congruence.
    exists u, x. split; [destruct Hh; by split; rewrite ?Eu|]. specialize (El av). rewrite Ht in El. rewrite <-Hxa in El.
    unfold unit_label. destruct (h_mstates h' !! unit_av x) as [t'|]; [|done]. injection El as El. exists t'. split; congruence.
Qed.

(** The searches on a state of the list *)
Lemma known_state_block s us avs ck fl av L t nb r s' :
  ready s us avs ck fl av L t → locked s → 16 ≤ nb → nb `mod` 8 = 0 →
  in_smallbin_range nb = true ∨ have_anychunks (ms_max_fast t) = false →
  lh (if negb (have_anychunks (ms_max_fast t)) then init_on_first_use av L;; mret None else malloc_search av nb) s = Ret (r, s') →
  (r = None ∧ s' = s) ∨
  ∃ fl' p, r = Some p ∧ served s s' us us avs avs ck ck fl fl' p nb L.
Proof.
  intros R Hlk Hn0 Hn8 Hor E. pose proof (ready_limit _ _ _ _ _ _ _ _ R) as Hlim. pose proof R as [S C Hin Ht HL].
  pose proof (sf_heap _ _ _ _ S) as O. apply lh_inv in E as [E Ek].
  destruct (sh_fast _ _ _ _ (ck_state _ _ _ _ _ _ C av t Hin Ht)) as [[Hmf _]|Hmf]; rewrite Hmf in *.
  - left. change (negb (have_anychunks 72)) with true in E. cbn iota in E. binv E. injection E as <- Es. split; [done|].
    unfold init_on_first_use in E0. binv E0. apply get_av_inv in E as [Ht' ->]. assert (r = t) as -> by congruence. rewrite Hmf in E0.
    injection E0 as _ E0. destruct s, s'; simpl in *; congruence.
  - change (negb (have_anychunks 75)) with false in E. cbn iota in E. destruct Hor as [Hor|]; [|done].
    destruct (search_spec _ _ _ _ _ _ O Hlim C av t Hin Ht nb Hn0 Hn8 Hmf Hor) as [(p & l & h' & Hfl & H72 & Eq & P)|Eq].
    + right. pose proof (keeps_malloc_search (lk := false) av nb _ _ _ Eq) as M. rewrite Eq in E. injection E as <- Eh.
      exists (set_fl fl av (fastbin_index nb) l), (p + 8). split; [done|].
      assert (AbSt h' (ab_os s) = s') as <- by (destruct s'; simpl in *; congruence).
      by apply (pop_served s us avs ck fl av L t nb p l h').
    + left. rewrite Eq in E. injection E as <- Es. split; [done|]. destruct s, s'; simpl in *; congruence.
Qed.

(** A state for a label that had none *)
Lemma new_state_block s us avs ck fl av L t nb s1 r s2 :
  safe abt s us avs → chunks (os_brk (ab_os s)) (ab_heap s) us avs ck fl → length L = 8%nat →
  lh new_mstate s = Ret (av, s1) → h_mstates (ab_heap s1) !! av = Some t →
  lh (if negb (have_anychunks (ms_max_fast t)) then init_on_first_use av L;; mret None else malloc_search av nb) s1 = Ret (r, s2) →
  r = None ∧ ready s2 us (avs ++ [av]) ck fl av L (fresh_state L) ∧ spares (ab_heap s) (ab_heap s2) us us ck fl.
Proof.
  intros S C HL E1 Ht E2. destruct (safe_new_mstate abt _ _ _ _ _ S E1) as (S1 & Ek1 & _ & Hni & Hz & _).
  assert (t = zero_mstate) as -> by congruence. change (negb (have_anychunks (ms_max_fast zero_mstate))) with true in E2. cbn iota in E2.
  apply lh_inv in E1 as [E1 _]. apply lh_inv in E2 as [E2 Ek2]. binv E2. injection E2 as <- ->. split; [done|].
  destruct (sf_brk _ _ _ _ S) as [_ [Hlow Hlim]].
  destruct (safe_first_use abt s1 us avs av zero_mstate L r0 s2) as (avs' & t' & S2 & _ & Hin & _ & _ & Ha); [done|done|done|by right| |].
  { unfold lh. rewrite E. destruct s2; simpl in *. by rewrite Ek2. }
  rewrite (Ha Hni) in S2. pose proof (sf_heap _ _ _ _ S1) as O1. rewrite Ek1 in O1.
  destruct (new_state_chunks _ _ _ _ _ _ _ _ _ _ _ (sf_heap _ _ _ _ S) O1 Hlim Hlow C E1 E) as (C2 & P2 & Ht2).
  split; [|done]. split; [done|by rewrite Ek2, Ek1|set_solver|done|done].
Qed.

Lemma small_request bytes : 0 < bytes ≤ MAX_SMALL →
  checked_request2size bytes = Some (request2size bytes) ∧ 16 ≤ request2size bytes ∧ request2size bytes `mod` 8 = 0 ∧
  request2size bytes + MINSIZE ≤ tsize ∧ bytes + 4 ≤ request2size bytes.
Proof.
  intros Hb. assert (E : checked_request2size bytes = Some (request2size bytes)).
  { unfold checked_request2size, REQUEST_OUT_OF_RANGE. rewrite MINSIZE_16. change (u32 (-2 * 16)) with (2 ^ 32 - 32).
    rewrite (proj2 (Z.leb_gt _ _)); [done|]. unfold MAX_SMALL in Hb. lia. }
  split; [done|]. destruct (small_nb bytes _ ltac:(lia) E) as [H1 H2]. split; [done|].
  destruct (request2size_cases bytes) as [[? ->]|[? ->]]; [unfold MAX_SMALL in Hb; lia|split; [done|]; split; [by vm_compute|lia]|].
  rewrite Z.mul_comm, Z.mod_mul by lia. split; [done|]. split.
  - rewrite MINSIZE_16 in *. change tsize with 40944 in *. unfold MAX_SMALL in Hb.
    pose proof (Z.div_mod (bytes + 11) 8 ltac:(lia)). pose proof (Z.mod_pos_bound (bytes + 11) 8 ltac:(lia)). lia.
  - pose proof (Z.div_mod (bytes + 11) 8 ltac:(lia)). pose proof (Z.mod_pos_bound (bytes + 11) 8 ltac:(lia)). lia.
Qed.

Lemma lock_inv (s : abst K) u s1 : lh lock s = Ret (u, s1) →
  h_malloc_lock (ab_heap s) = false ∧ s1 = AbSt (set_h_malloc_lock true (ab_heap s)) (ab_os s).
Proof. unfold lh, lock. destruct (h_malloc_lock (ab_heap s)); [done|]. by intros [= _ <-]. Qed.

Lemma malloc_block n s us avs ck fl c d bytes L r s' :
  safe abt s us avs → chunks (os_brk (ab_os s)) (ab_heap s) us avs ck fl → is_client abt c d → length L = 8%nat →
  can_flow (unpack (label d)) (unpack (ownership d)) L → plain_request (ab_heap s) bytes L →
  ablib_malloc_rec (S n) abt (pid d) bytes L s = Ret (r, s') →
  ∃ us' avs' ck' fl', served s s' us us' avs avs' ck ck' fl fl' r (request2size bytes) L ∧
    h_malloc_lock (ab_heap s') = false.
Proof.
  intros S C Hc HL Hcf [Hb Hpl] E. destruct (small_request bytes Hb) as (Hnb & H16 & H8 & Hmax & _). set (nb := request2size bytes) in *.
  rewrite malloc_rec_S in E. unfold malloc_body in E. bstep E as av0 s0 E0.
  destruct (lookup_mstate_safe _ _ _ _ _ _ _ S E0) as [-> Hav]. clear E0.
  rewrite (proj2 (Z.eqb_neq bytes 0)) in E by lia. bstep E as x s1 E1.
  destruct (safe_keeps abt _ _ _ _ _ _ keeps_lock S E1) as (S1 & _ & _). apply lock_inv in E1 as [Hlk0 Es1].
  assert (Hlk1 : locked s1) by (by rewrite Es1).
  assert (C1 : chunks (os_brk (ab_os s1)) (ab_heap s1) us avs ck fl) by (rewrite Es1; by apply (chunks_same _ _ _ _ _ _ C)).
  assert (P1 : spares (ab_heap s) (ab_heap s1) us us ck fl) by (rewrite Es1; by apply spares_same).
  bstep E as av s2 E2. rewrite Hnb in E. bstep E as t s3 E3. apply lh_get_av in E3 as [Ht ->]. bstep E as r4 s4 E4.
  destruct (Z.eqb_spec av0 0) as [->|Hne].
  - pose proof (locked_lh _ _ _ _ lock_eq_new_mstate Hlk1 E2) as Hlk2.
    destruct (new_state_block _ _ _ _ _ _ _ _ _ _ _ _ S1 C1 HL E2 Ht E4) as (-> & R4 & P4).
    assert (Hlk4 : locked s4).
    { destruct (safe_new_mstate abt _ _ _ _ _ S1 E2) as (_ & _ & _ & _ & Hz & _). assert (t = zero_mstate) as -> by congruence.
      apply lh_inv in E4 as [E4 _]. cbn in E4. bstep E4 as z4 h4 E3. injection E4 as E4. unfold locked. rewrite <-E4. by rewrite (lock_eq_first_use _ _ _ _ _ E3). }
    bstep E as r5 s5 E5. bstep E as r6 s6 E6. bstep E as r7 s7 E7. injection E as <- <-.
    destruct (malloc_tail_block _ _ _ _ _ _ _ _ _ _ _ _ _ _ _ _ _ _ R4 Hlk4 Hc HL Hcf H16 H8 Hmax E5 E6 E7) as (us' & ck' & V & Vl).
    exists us', (avs ++ [av]), ck', fl. split; [|done]. eapply served_before; [|exact V]. by eapply spares_trans.
  - injection E2 as <- <-. destruct Hav as [|(Hin & t0 & Ht0 & Hl0)]; [done|].
    assert (t0 = t) as -> by (rewrite Es1 in Ht; simpl in Ht; congruence).
    assert (R1 : ready s1 us avs ck fl av0 L t) by (by split).
    assert (Hor : in_smallbin_range nb = true ∨ have_anychunks (ms_max_fast t) = false).
    { destruct Hpl as [|Hpl]; [by left|right]. by apply (Hpl av0 t). }
    destruct (known_state_block _ _ _ _ _ _ _ _ _ _ _ R1 Hlk1 H16 H8 Hor E4) as [[-> ->]|(fl' & p & -> & V)].
    + bstep E as r5 s5 E5. bstep E as r6 s6 E6. bstep E as r7 s7 E7. injection E as <- <-.
      destruct (malloc_tail_block _ _ _ _ _ _ _ _ _ _ _ _ _ _ _ _ _ _ R1 Hlk1 Hc HL Hcf H16 H8 Hmax E5 E6 E7) as (us' & ck' & V & Vl).
      exists us', avs, ck', fl. split; [|done]. by eapply served_before.
    + bstep E as r5 s5 E5. injection E5 as <- <-. bstep E as r6 s6 E6. injection E6 as <- <-. bstep E as r7 s7 E7. injection E as <- <-.
      exists us, avs, ck, fl'. destruct (served_unlock _ _ _ _ _ _ _ _ _ _ _ _ _ _ _ V E7) as [V' Vl]. split; [|done]. by eapply served_before.
Qed.
End Kernel.
