(* ===== verification/BlocksSpec.v ===== *)
(** The channel heap as a set of disjoint blocks.

    The abstract heap is a finite map from addresses to blocks with a label
    and contents; its steps are those of any allocator: a request adds a block
    at some address that overlaps no other, a release removes a block, a write
    changes one byte of one block and a read returns it.  [heap_refines_blocks]
    says that the allocator of the arbiter, with its boundary tags and fastbins
    in memory its clients write to, behaves like that as long as the threads
    use only blocks they hold. *)

From S2P Require Import Prelude LinkedList Label Memory Client Chunk Heap Consolidate Os Malloc Free Frame Lock Protection UnitLookup AllocSpec Blocks BlocksMalloc.

(** * Release *)

Lemma set_fastchunks_75 mf : mf = 72 ∨ mf = 75 → set_fastchunks mf = 75.
Proof. by intros [->| ->]. Qed.

Section Release.
Context {K : Type} `{HK : AbOsLaws K}.
Variable abt : arbiter_thread.

(** A chunk of a fastbin size, in use, with the header of its size *)
Record fast_block (h : heap) (ck : gmap Z Z) (fl : Z → Z → list Z) (p nb : Z) : Prop := {
  fb_ck : ck !! p = Some nb;
  fb_used a i : p ∉ fl a i;
  fb_head : load32 (h_mem h) (p + 4) = nb + 1;
  fb_small : nb ≤ 72;
}.

Section Chunk.
Context (s : abst K) (us avs : list Z) (ck : gmap Z Z) (fl : Z → Z → list Z) (p nb u : Z) (x : unit_state).
Context (S : safe abt s us avs) (C : chunks (os_brk (ab_os s)) (ab_heap s) us avs ck fl) (Hlk : h_malloc_lock (ab_heap s) = false).
Context (F : fast_block (ab_heap s) ck fl p nb) (Hh : holds (ab_heap s) us u x p nb).
Let h := ab_heap s.
Let h1 := set_h_malloc_lock true h.
Let i := fastbin_index nb.
Let O := sf_heap _ _ _ _ S.
Let Hlim := proj2 (proj2 (sf_brk _ _ _ _ S)).

Lemma block_place : 0x80000000 ≤ p ∧ p + nb + 16 ≤ 0xA0000000 ∧ h_channel_mapped h = true ∧ 16 ≤ nb ∧ nb `mod` 8 = 0 ∧ unit_av x ∈ avs.
Proof.
  destruct Hh as [Hu Hx Hl Hhi]. destruct (unit_bounds O Hlim u x Hu Hx) as (H1 & _ & _ & _ & Hav & _).
  pose proof (ck_unit _ _ _ _ _ _ C u x Hu Hx) as Sx. pose proof (un_channel _ _ Sx). pose proof (un_top _ _ Sx).
  destruct (ck_chunk _ _ _ _ _ _ C p nb (fb_ck _ _ _ _ _ F)) as [Sc _].
  unfold AB_HEAP_START, CHANNEL_ADDR, CHANNEL_SIZE in *. repeat split; try lia; try apply Sc; try done.
  by apply (mapped _ _ _ _ _ _ O Hlim C u x).
Qed.

(** The heap after [free_fast] *)
Lemma push_chunks t : h_mstates h !! unit_av x = Some t →
  ∃ h', free_fast (unit_av x) p nb h1 = Ret (tt, h') ∧
    chunks (os_brk (ab_os s)) h' us avs ck (set_fl fl (unit_av x) i (p :: fl (unit_av x) i)) ∧
    untouched (p + 8) (p + nb + 4) (h_mem h) (h_mem h') ∧ h_ustates h' = h_ustates h ∧
    (∀ a, ms_label <$> h_mstates h' !! a = ms_label <$> h_mstates h !! a) ∧ meta_eq h1 h'.
Proof.
  intros Ht. destruct block_place as (H1 & H2 & Hc & H3 & H8 & Hav). destruct F as [Fc Fu Fh Fs]. set (av := unit_av x) in *.
  assert (C1 : chunks (os_brk (ab_os s)) h1 us avs ck fl) by (by apply (chunks_same _ _ _ _ _ _ C)).
  assert (Hv : in_channel h1 (u32 (p + 8)) = true).
  { unfold in_channel. simpl. fold h. rewrite Hc, u32_small by lia. unfold CHANNEL_ADDR, CHANNEL_SIZE.
    by rewrite (proj2 (Z.leb_le _ _)), (proj2 (Z.leb_le _ _)) by lia. }
  pose proof (fastbin_index_range nb ltac:(lia)) as Hi. fold i in Hi. pose proof (ck_state _ _ _ _ _ _ C av t Hav Ht) as St.
  assert (Hir : 0 ≤ i < Z.of_nat (length (ms_fastbins t))) by (rewrite (sh_len _ _ _ _ St); exact Hi).
  pose proof (free_fast_eq av p nb h1 t Ht ltac:(lia) Hv) as Ef. exists (fast_freed av p nb t h1). split; [done|].
  assert (Hold : 0 ≤ aget (ms_fastbins t) i < 2 ^ 32).
  { pose proof (sh_chain _ _ _ _ St i Hi) as Hch. destruct (fl av i) as [|q l] eqn:El; simpl in Hch; [lia|]. destruct Hch as [-> _].
    destruct (fast_chunk_size _ _ _ _ _ _ O Hlim C av i q) as (z & Hz & _); [rewrite El; by left|].
    pose proof (chunk_bounds _ _ _ _ _ _ O Hlim C q z Hz). unfold AB_HEAP_START, TASK_SIZE in *. lia. }
  assert (Hm : untouched (p + 8) (p + nb + 4) (h_mem h) (h_mem (fast_freed av p nb t h1))).
  { simpl. rewrite u32_small by lia. apply untouched_store; lia. }
  split; [|split; [done|split; [done|split; [|exact (keeps_free_fast _ _ _ _ _ _ Ef)]]]].
  - apply (chunks_fast _ h us avs ck fl O Hlim C p nb _ Fc Hm eq_refl av i t
      (set_ms_fastbins (aset (ms_fastbins t) i p) (set_ms_max_fast (set_fastchunks (ms_max_fast t)) t))); try done.
    + intros a j Hp. by destruct (Fu a j).
    + simpl. apply set_fastchunks_75. destruct (sh_fast _ _ _ _ St) as [[? _]|?]; [by left|by right].
    + simpl. unfold aset. rewrite length_insert. apply St.
    + intros j Hj Hne. simpl. unfold aget, aset. rewrite !nth_lookup. rewrite list_lookup_insert_ne; [done|]. lia.
    + simpl. rewrite aget_aset_same by done. split; [done|]. rewrite (u32_small (p + 8)) by lia. fold i.
      rewrite load32_store32_eq by done. eapply fd_chain_frame; [apply (untouched_store (p + 8) (p + 12)); lia| |by apply St].
      intros q Hq. destruct (fast_chunk_size _ _ _ _ _ _ O Hlim C av i q Hq) as (z & Hz & Hr & _).
      destruct (ck_disj _ _ _ _ _ _ C p nb q z Fc Hz); [by intros ->; apply (Fu av i)|lia|lia].
    + intros q [->|Hq]%elem_of_cons; [|by apply (ck_free _ _ _ _ _ _ C)]. by exists nb, u, x.
    + apply NoDup_cons. split; [apply Fu|apply C].
  - intros a. simpl. apply (state_label_insert _ av (λ t, set_ms_fastbins _ (set_ms_max_fast _ t)) t); done.
Qed.

(** [ablib_free] of the block returns, puts the chunk at the front of its
    fastbin and leaves every chunk that is still in use as it was. *)
Lemma free_block q :
  ∃ s', ablib_free q (p + 8) s = Ret (tt, s') ∧ safe abt s' us avs ∧ h_malloc_lock (ab_heap s') = false ∧
    chunks (os_brk (ab_os s')) (ab_heap s') us avs ck (set_fl fl (unit_av x) i (p :: fl (unit_av x) i)) ∧
    spares h (ab_heap s') us us ck (set_fl fl (unit_av x) i (p :: fl (unit_av x) i)).
Proof.
  destruct block_place as (H1 & H2 & Hc & H3 & H8 & Hav). pose proof Hh as [Hu Hx Hl Hhi].
  destruct (ho_state _ _ _ _ O _ Hav) as (t & Ht & _). destruct (push_chunks t Ht) as (h' & Ef & C' & Hm & Eu & El & M).
  pose proof (ck_unit _ _ _ _ _ _ C u x Hu Hx) as Sx. pose proof (un_top _ _ Sx) as Tx.
  unfold ablib_free. rewrite (proj2 (Z.eqb_neq (p + 8) 0)) by lia.
  assert (E1 : lh lock s = Ret (tt, AbSt h1 (ab_os s))) by (unfold lh, lock; by rewrite Hlk).
  rewrite (bind_ret _ _ _ _ _ E1).
  assert (O1 : heap_ok (os_brk (ab_os s)) h1 us avs) by (eapply heap_ok_meta; [|exact O]; by split).
  assert (E2 : lookup_ustate_by_mem (p + 8) h1 = Ret (u, h1)).
  { apply (proj1 (lookup_ustate_result _ _ _ _ O1 Hlim (p + 8)) u Hu). exists x. split; [done|].
    destruct (ho_unit _ _ _ _ O u Hu) as (y & Hy & Hok & _). assert (y = x) as -> by (unfold h in *; congruence). rewrite (uo_len _ _ Hok).
    destruct (unit_bounds O Hlim u x Hu Hx) as (_ & <- & _). lia. }
  rewrite (bind_ret _ _ _ _ _ (lh_intro _ (AbSt h1 (ab_os s)) _ _ E2)).
  assert (E3 : get_unit u h1 = Ret (x, h1)) by (unfold get_unit; simpl; fold h; unfold h; by rewrite Hx).
  rewrite (bind_ret _ _ _ _ _ (lh_intro _ (AbSt h1 (ab_os s)) _ _ E3)). cbv zeta.
  assert (Ep : mem2chunk (p + 8) = p) by (unfold mem2chunk; change (2 * SIZE_SZ) with 8; rewrite u32_small; lia). rewrite Ep.
  assert (E4 : chunksize p h1 = Ret (nb, h1)).
  { unfold chunksize, rd_size. rewrite u32_small by lia. step_ld h1. simpl. fold h. unfold h. rewrite (fb_head _ _ _ _ _ F). by rewrite size_flag by (done || lia). }
  rewrite (bind_ret _ _ _ _ _ (lh_intro _ (AbSt h1 (ab_os s)) _ _ E4)).
  rewrite (bind_ret _ _ _ _ _ (lh_intro _ (AbSt h1 (ab_os s)) _ _ (get_av_eq _ h1 t Ht))).
  assert (Hle : nb <=? ms_max_fast t = true).
  { apply Z.leb_le. pose proof (fb_small _ _ _ _ _ F). destruct (sh_fast _ _ _ _ (ck_state _ _ _ _ _ _ C _ t Hav Ht)) as [[-> _]| ->]; lia. }
  rewrite Hle. rewrite (bind_ret _ _ (AbSt h1 (ab_os s)) false (AbSt h1 (ab_os s))) by done.
  rewrite (bind_ret _ _ _ _ _ (lh_intro _ (AbSt h1 (ab_os s)) _ _ Ef)). eexists. split; [done|]. split; [|split; [done|split]].
  - assert (M2 : meta_eq h (set_h_malloc_lock false h')).
    { etrans; [|etrans; [exact M|]]; by split. }
    destruct s as [h0 k0]. by apply (safe_meta abt h0 _ k0 us avs M2).
  - simpl. by apply (chunks_same _ _ _ _ _ _ C').
  - apply spares_same; simpl.
    + intros q0 z b Hq Hf Hb. apply Hm. assert (q0 ≠ p).
      { intros ->. apply (Hf (unit_av x) i). unfold set_fl. rewrite decide_True by done. by left. }
      destruct (ck_disj _ _ _ _ _ _ C p nb q0 z (fb_ck _ _ _ _ _ F) Hq); [done|lia|lia].
    + intros v _. by rewrite Eu.
    + intros v y _ _. apply El.
Qed.
End Chunk.
End Release.

(** * The abstract heap *)

Record block := Block { b_label : list Z; b_data : list Z }.
Abbreviation blocks := (gmap Z block).

(** What a thread does with the heap and what it sees *)
Inductive event :=
  | EMalloc (L : list Z) (bytes r : Z)   (* a request of [bytes] bytes returned [r] *)
  | EFree (r bytes : Z)                  (* the block of [bytes] bytes at [r] is released *)
  | EWrite (r : Z) (i : nat) (v : Z)     (* byte [i] of the block at [r] is set *)
  | ERead (r : Z) (i : nat) (v : Z).     (* it is read *)

Definition b_end (r : Z) (b : block) : Z := r + Z.of_nat (length (b_data b)).

Inductive astep : blocks → event → blocks → Prop :=
  | a_malloc σ L bytes r data :
      Z.of_nat (length data) = bytes → r `mod` 8 = 0 → AB_HEAP_START ≤ r → r + bytes ≤ CHANNEL_ADDR + CHANNEL_SIZE →
      (∀ q b, σ !! q = Some b → r + bytes ≤ q ∨ b_end q b ≤ r) →
      astep σ (EMalloc L bytes r) (<[r := Block L data]> σ)
  | a_free σ r b :
      σ !! r = Some b → astep σ (EFree r (Z.of_nat (length (b_data b)))) (delete r σ)
  | a_write σ r b i v :
      σ !! r = Some b → (i < length (b_data b))%nat →
      astep σ (EWrite r i v) (<[r := Block (b_label b) (<[i := v]> (b_data b))]> σ)
  | a_read σ r b i v :
      σ !! r = Some b → b_data b !! i = Some v → astep σ (ERead r i v) σ.

Inductive asteps : blocks → list event → blocks → Prop :=
  | asteps_nil σ : asteps σ [] σ
  | asteps_cons σ e σ1 t σ' : astep σ e σ1 → asteps σ1 t σ' → asteps σ (e :: t) σ'.

(** * What the threads may do

    [held] is what a trace says about the blocks a thread holds: where they are
    and how many bytes were asked for. *)

Definition held_after (e : event) (B : gmap Z Z) : gmap Z Z :=
  match e with
  | EMalloc _ bytes r => <[r := bytes]> B
  | EFree r _ => delete r B
  | _ => B
  end.
Definition in_held (B : gmap Z Z) (r : Z) (i : nat) : Prop :=
  match B !! r with Some n => Z.of_nat i < n | None => False end.
Definition obeys1 (B : gmap Z Z) (e : event) : Prop :=
  match e with
  | EMalloc _ _ _ => True
  | EFree r bytes => B !! r = Some bytes
  | EWrite r i _ | ERead r i _ => in_held B r i
  end.
Fixpoint obeys (B : gmap Z Z) (t : list event) : Prop :=
  match t with
  | [] => True
  | e :: t' => obeys1 B e ∧ obeys (held_after e B) t'
  end.

(** * The arbiter's heap *)

Section Refine.
Context {K : Type} `{HK : AbOsLaws K}.
Variable abt : arbiter_thread.

(** A write of a thread to the shared mapping of the channel *)
Definition poke (a v : Z) (s : abst K) : abst K :=
  AbSt (set_h_mem (<[a := v]> (h_mem (ab_heap s))) (ab_heap s)) (ab_os s).

(** The steps of the system: requests and releases go through the arbiter,
    data is accessed directly.  A release is one of a chunk of a fastbin size
    whose header is that size. *)
Inductive cstep : abst K → event → abst K → Prop :=
  | c_malloc s s' c d L bytes r :
      is_client abt c d → length L = 8%nat → can_flow (unpack (label d)) (unpack (ownership d)) L →
      plain_request (ab_heap s) bytes L → ablib_malloc abt (pid d) bytes L s = Ret (r, s') →
      cstep s (EMalloc L bytes r) s'
  | c_free s s' q r bytes :
      request2size bytes ≤ 72 → load32 (h_mem (ab_heap s)) (r - 4) = request2size bytes + 1 →
      ablib_free q r s = Ret (tt, s') → cstep s (EFree r bytes) s'
  | c_write s r i v : cstep s (EWrite r i v) (poke (r + Z.of_nat i) v s)
  | c_read s r i : cstep s (ERead r i (load8 (h_mem (ab_heap s)) (r + Z.of_nat i))) s.

(** The block at [r]: its chunk is in use, its unit has its label, its bytes
    are in memory. *)
Record has_block (h : heap) (us : list Z) (ck : gmap Z Z) (fl : Z → Z → list Z) (r : Z) (b : block) : Prop := {
  hb_len : 0 < Z.of_nat (length (b_data b)) ≤ MAX_SMALL;
  hb_ck : ck !! (r - 8) = Some (request2size (Z.of_nat (length (b_data b))));
  hb_used a i : r - 8 ∉ fl a i;
  hb_label : ∃ u x, holds h us u x (r - 8) (request2size (Z.of_nat (length (b_data b)))) ∧ unit_label h x (b_label b);
  hb_data i v : b_data b !! i = Some v → load8 (h_mem h) (r + Z.of_nat i) = v;
}.

Record represents (s : abst K) (us avs : list Z) (ck : gmap Z Z) (fl : Z → Z → list Z) (σ : blocks) : Prop := {
  rp_safe : safe abt s us avs;
  rp_chunks : chunks (os_brk (ab_os s)) (ab_heap s) us avs ck fl;
  rp_lock : h_malloc_lock (ab_heap s) = false;
  rp_block r b : σ !! r = Some b → has_block (ab_heap s) us ck fl r b;
}.
Definition sim (s : abst K) (σ : blocks) : Prop := ∃ us avs ck fl, represents s us avs ck fl σ.

(** A block outlives what spares its chunk. *)
Lemma has_block_spared h h' us us' ck ck' fl fl0 fl' r b :
  has_block h us ck fl r b → spares h h' us us' ck fl0 → (∀ a i, r - 8 ∉ fl0 a i) → (∀ a i, r - 8 ∉ fl' a i) →
  ck' !! (r - 8) = ck !! (r - 8) → has_block h' us' ck' fl' r b.
Proof.
  intros [Hl Hc Hu (u & x & Hx & HL) Hd] [Sd Su] Hf Hf' Ec. destruct (small_request _ Hl) as (_ & _ & _ & _ & Hfit). split; try done.
  - by rewrite Ec.
  - destruct Hx as [H1 H2 H3 H4]. destruct (Su u x (b_label b) H1 H2 HL) as (H1' & x' & H2' & Ea & Et & HL').
    exists u, x'. split; [|done]. split; [done|done|lia|lia].
  - intros i v Hv. rewrite (Sd (r - 8) _ (r + Z.of_nat i) Hc Hf); [by apply Hd|]. apply lookup_lt_Some in Hv. lia.
Qed.

Definition read_data (m : memory) (r : Z) (n : nat) : list Z := (λ i, load8 m (r + Z.of_nat i)) <$> seq 0 n.
Lemma read_data_lookup m r n i v : read_data m r n !! i = Some v → v = load8 m (r + Z.of_nat i).
Proof.
  unfold read_data. rewrite list_lookup_fmap. intros (j & Hj & ->)%fmap_Some. apply lookup_seq in Hj as [-> _]. done.
Qed.
Lemma read_data_length m r n : length (read_data m r n) = n.
Proof. unfold read_data. by rewrite length_fmap, length_seq. Qed.

(** ** The steps *)

Lemma malloc_sim s us avs ck fl σ s' us' avs' ck' fl' r bytes L :
  represents s us avs ck fl σ → 0 < bytes ≤ MAX_SMALL →
  served abt s s' us us' avs avs' ck ck' fl fl' r (request2size bytes) L → h_malloc_lock (ab_heap s') = false →
  ∃ σ', astep σ (EMalloc L bytes r) σ' ∧ sim s' σ'.
Proof.
  intros [S C Hlk Hb] Hbytes V Hlk'. destruct V as [S' C' P Eck Hnew Hfl Hhd Hlab].
  destruct (small_request bytes Hbytes) as (_ & H16 & H8 & _ & Hfit). set (nb := request2size bytes) in *.
  pose proof (sf_heap _ _ _ _ S') as O'. destruct (sf_brk _ _ _ _ S') as [_ [_ Hlim']].
  assert (Hr : ck' !! (r - 8) = Some nb) by (rewrite Eck; apply lookup_insert_eq).
  assert (Hne : ∀ q b, σ !! q = Some b → q - 8 ≠ r - 8).
  { intros q b Hq Heq. pose proof (Hb q b Hq) as [_ Hq1 Hq2 _ _]. rewrite Heq in *.
    destruct Hnew as [Hn|(a & i & Hi)]; [congruence|by apply (Hq2 a i)]. }
  assert (Hkeep : ∀ q b, σ !! q = Some b → has_block (ab_heap s') us' ck' fl' q b).
  { intros q b Hq. eapply has_block_spared; [by apply Hb|exact P|apply (Hb q b Hq)| |].
    - intros a i Hi. destruct (Hfl a i _ Hi) as [Hi' _]. by apply (hb_used _ _ _ _ _ _ (Hb q b Hq) a i).
    - rewrite Eck, lookup_insert_ne; [done|]. symmetry. by eapply Hne. }
  assert (Hlen : Z.of_nat (length (read_data (h_mem (ab_heap s')) r (Z.to_nat bytes))) = bytes) by (rewrite read_data_length; lia).
  exists (<[r := Block L (read_data (h_mem (ab_heap s')) r (Z.to_nat bytes))]> σ). split.
  - destruct (ck_chunk _ _ _ _ _ _ C' _ _ Hr) as [Sc (u & x & [Hu Hx Hl Hh])]. pose proof (ck_unit _ _ _ _ _ _ C' u x Hu Hx) as Sx.
    pose proof (un_channel _ _ Sx). pose proof (un_top _ _ Sx). destruct (unit_bounds O' Hlim' u x Hu Hx) as (Hlo & _).
    constructor; [done| |lia|lia|].
    + pose proof (cs_align _ _ _ Sc) as Ha. replace r with (r - 8 + 1 * 8) by lia. by rewrite Z.mod_add by lia.
    + intros q b Hq. destruct (Hkeep q b Hq) as [Hlq Hcq _ _ _]. destruct (small_request _ Hlq) as (_ & _ & _ & _ & Hfq). unfold b_end.
      destruct (ck_disj _ _ _ _ _ _ C' _ _ _ _ Hr Hcq); [symmetry; by eapply Hne|lia|lia].
  - exists us', avs', ck', fl'. split; try done. intros q b. destruct (decide (r = q)) as [<-|Hrq].
    + rewrite lookup_insert_eq. intros [= <-]. split; simpl; rewrite ?Hlen; try done.
      * intros a i Hi. by destruct (Hfl a i _ Hi) as [_ ?].
      * intros i v ->%read_data_lookup. done.
    + rewrite lookup_insert_ne by done. apply Hkeep.
Qed.

Lemma free_sim s us avs ck fl σ s' q r b :
  represents s us avs ck fl σ → σ !! r = Some b →
  request2size (Z.of_nat (length (b_data b))) ≤ 72 →
  load32 (h_mem (ab_heap s)) (r - 4) = request2size (Z.of_nat (length (b_data b))) + 1 →
  ablib_free q r s = Ret (tt, s') → sim s' (delete r σ).
Proof.
  intros [S C Hlk Hb] Hr H72 Hhd E. set (nb := request2size _) in *. pose proof (Hb r b Hr) as [Hl Hc Hu (u & x & Hx & HL) Hd]. fold nb in Hc, Hx.
  assert (F : fast_block (ab_heap s) ck fl (r - 8) nb) by (split; try done; by replace (r - 8 + 4) with (r - 4) by lia).
  destruct (free_block abt s us avs ck fl (r - 8) nb u x S C Hlk F Hx q) as (s1 & E1 & S1 & L1 & C1 & P1).
  replace (r - 8 + 8) with r in E1 by lia. assert (s1 = s') as -> by congruence.
  set (fl' := set_fl _ _ _ _) in *. exists us, avs, ck, fl'. split; try done. intros r2 b2.
  destruct (decide (r = r2)) as [<-|Hne]; [by rewrite lookup_delete_eq|]. rewrite lookup_delete_ne by done. intros H2.
  assert (Hf : ∀ a i, r2 - 8 ∉ fl' a i).
  { intros a i. unfold fl', set_fl. case_decide as Hd2; [|apply (Hb r2 b2 H2)]. destruct Hd2 as [-> ->].
    intros [Hq|Hq]%elem_of_cons; [lia|]. revert Hq. apply (Hb r2 b2 H2). }
  eapply has_block_spared; [by apply Hb|exact P1|done|done|done].
Qed.

Lemma write_sim s us avs ck fl σ r b i v :
  represents s us avs ck fl σ → σ !! r = Some b → (i < length (b_data b))%nat →
  sim (poke (r + Z.of_nat i) v s) (<[r := Block (b_label b) (<[i := v]> (b_data b))]> σ).
Proof.
  intros [S C Hlk Hb] Hr Hi. pose proof (Hb r b Hr) as [Hl Hc Hu (u & x & Hx & HL) Hd].
  destruct (small_request _ Hl) as (_ & H16 & _ & _ & Hfit). set (nb := request2size _) in *.
  pose proof (sf_heap _ _ _ _ S) as O. destruct (sf_brk _ _ _ _ S) as [_ [_ Hlim]]. set (m' := <[r + Z.of_nat i := v]> (h_mem (ab_heap s))).
  assert (Hm : untouched (r - 8 + 8) (r - 8 + nb + 4) (h_mem (ab_heap s)) m').
  { intros a Ha. unfold m'. rewrite load8_insert, decide_False by lia. done. }
  exists us, avs, ck, fl. split; try done.
  - destruct s as [h k]. by eapply safe_meta; [|exact S].
  - by apply (chunks_write _ _ _ _ _ _ O Hlim C (r - 8) nb).
  - intros q b2. simpl. destruct (decide (r = q)) as [<-|Hne].
    + rewrite lookup_insert_eq. intros [= <-]. split; simpl; rewrite ?length_insert; fold nb; try done.
      * exists u, x. split; [destruct Hx; by split|done].
      * intros j w Hj. fold m'. unfold m'. rewrite load8_insert. destruct (decide (i = j)) as [<-|Hij].
        -- rewrite list_lookup_insert_eq in Hj by done. rewrite decide_True by done. congruence.
        -- rewrite list_lookup_insert_ne in Hj by done. rewrite decide_False by lia. by apply Hd.
    + rewrite lookup_insert_ne by done. intros Hq. pose proof (Hb q b2 Hq) as [Hlq Hcq Huq (u2 & x2 & Hx2 & HL2) Hdq].
      destruct (small_request _ Hlq) as (_ & _ & _ & _ & Hfq). split; try done.
      * exists u2, x2. split; [destruct Hx2; by split|done].
      * intros j w Hj. simpl. fold m'. rewrite Hm; [by apply Hdq|]. apply lookup_lt_Some in Hj.
        destruct (ck_disj _ _ _ _ _ _ C _ _ _ _ Hc Hcq); [lia|lia|lia].
Qed.

Definition held_of (σ : blocks) : gmap Z Z := (λ b, Z.of_nat (length (b_data b))) <$> σ.

Lemma in_held_block σ r i : in_held (held_of σ) r i → ∃ b, σ !! r = Some b ∧ (i < length (b_data b))%nat.
Proof. unfold in_held, held_of. rewrite lookup_fmap. destruct (σ !! r) as [b|]; [|done]. simpl. intros Hi. exists b. split; [done|lia]. Qed.

(** One step is simulated by the abstract heap. *)
Lemma step_sim s σ e s' :
  sim s σ → cstep s e s' → obeys1 (held_of σ) e → ∃ σ', astep σ e σ' ∧ sim s' σ' ∧ held_of σ' = held_after e (held_of σ).
Proof.
  intros (us & avs & ck & fl & R) St Ho. destruct St as [s s' c d L bytes r Hc HL Hcf Hp E|s s' q r bytes H72 Hhd E|s r i v|s r i]; simpl in Ho.
  - destruct (malloc_block abt 1 s us avs ck fl c d bytes L r s' (rp_safe _ _ _ _ _ _ R) (rp_chunks _ _ _ _ _ _ R) Hc HL Hcf Hp E)
      as (us' & avs' & ck' & fl' & V & Vl).
    destruct (malloc_sim _ _ _ _ _ _ _ _ _ _ _ _ _ _ R (proj1 Hp) V Vl) as (σ' & A & Sm). exists σ'. split; [done|]. split; [done|].
    inversion A; subst. unfold held_of. by rewrite fmap_insert.
  - unfold held_of in Ho. rewrite lookup_fmap in Ho. destruct (σ !! r) as [b|] eqn:Hr; [|done]. injection Ho as <-.
    exists (delete r σ). split; [by constructor|]. split; [by eapply free_sim|]. unfold held_of. by rewrite fmap_delete.
  - apply in_held_block in Ho as (b & Hr & Hi). eexists. split; [by constructor|]. split; [by eapply write_sim|].
    unfold held_of. rewrite fmap_insert. simpl. rewrite length_insert. apply insert_id. by rewrite lookup_fmap, Hr.
  - apply in_held_block in Ho as (b & Hr & Hi). destruct (lookup_lt_is_Some_2 (b_data b) i Hi) as [v Hv]. exists σ.
    rewrite (hb_data _ _ _ _ _ _ (rp_block _ _ _ _ _ _ R r b Hr) i v Hv). split; [by econstructor|]. split; [by exists us, avs, ck, fl|done].
Qed.
End Refine.

Section Runs.
Context {K : Type} `{HK : AbOsLaws K}.

(** The other work of the server: the client table and the kernel change, the
    channel and the units do not (a thread is created or joined, a category is
    created).  [Policy] shows of each handler that the bookkeeping stays
    consistent. *)
Record admin (abt : arbiter_thread) (s : abst K) (abt' : arbiter_thread) (s' : abst K) : Prop := {
  ad_heap : ab_heap s' = set_h_libc_next (h_libc_next (ab_heap s')) (ab_heap s);
  ad_next : h_libc_next (ab_heap s) ≤ h_libc_next (ab_heap s');
  ad_brk : os_brk (ab_os s') = os_brk (ab_os s);
  ad_safe : ∃ us avs, safe abt' s' us avs;
}.

Inductive csteps : arbiter_thread → abst K → list event → arbiter_thread → abst K → Prop :=
  | csteps_nil abt s : csteps abt s [] abt s
  | csteps_cons abt s e s1 t abt' s' : cstep abt s e s1 → csteps abt s1 t abt' s' → csteps abt s (e :: t) abt' s'
  | csteps_admin abt s abt1 s1 t abt' s' : admin abt s abt1 s1 → csteps abt1 s1 t abt' s' → csteps abt s t abt' s'.

Lemma csteps_app abt s t abt1 s1 t' abt' s' :
  csteps abt s t abt1 s1 → csteps abt1 s1 t' abt' s' → csteps abt s (t ++ t') abt' s'.
Proof. intros R R'. induction R; simpl; [done|econstructor; eauto|eapply csteps_admin; eauto]. Qed.

Lemma admin_sim abt s abt' s' σ : sim abt s σ → admin abt s abt' s' → sim abt' s' σ.
Proof.
  intros (us & avs & ck & fl & [S C Hlk Hb]) [Eh En Ek (us' & avs' & S')].
  destruct (heap_ok_det (os_brk (ab_os s)) (os_brk (ab_os s')) (ab_heap s') us us' avs avs') as [<- <-]; [|apply S'|].
  { rewrite Eh. pose proof (sf_heap _ _ _ _ S) as O. pose proof (ho_next _ _ _ _ O). split; simpl; try solve [apply O].
    - lia.
    - intros u Hu. pose proof (ho_fresh_u _ _ _ _ O u Hu). lia.
    - intros a Ha. pose proof (ho_fresh_s _ _ _ _ O a Ha). lia. }
  exists us, avs, ck, fl. split; [done| |by rewrite Eh|].
  - rewrite Ek, Eh. by apply (chunks_same _ _ _ _ _ _ C).
  - intros r b Hr. destruct (Hb r b Hr) as [H1 H2 H3 (u & x & Hx & HL) H5]. rewrite Eh. split; try done.
    exists u, x. split; [destruct Hx; by split|done].
Qed.

Lemma run_sim abt s t abt' s' σ :
  csteps abt s t abt' s' → sim abt s σ → obeys (held_of σ) t → ∃ σ', asteps σ t σ' ∧ sim abt' s' σ'.
Proof.
  intros R. revert σ. induction R as [abt s|abt s e s1 t abt' s' St R IH|abt s abt1 s1 t abt' s' A R IH]; intros σ Sm Ho.
  - exists σ. split; [constructor|done].
  - destruct Ho as [Ho Ht]. destruct (step_sim abt s σ e s1 Sm St Ho) as (σ1 & A1 & Sm1 & Eh). rewrite <-Eh in Ht.
    destruct (IH σ1 Sm1 Ht) as (σ' & A' & Sm'). exists σ'. split; [by econstructor|done].
  - apply IH; [by eapply admin_sim|done].
Qed.

(** An empty heap has no blocks. *)
Lemma empty_sim abt s : safe abt s [] [] → h_mstates (ab_heap s) = ∅ → h_malloc_lock (ab_heap s) = false → sim abt s ∅.
Proof.
  intros S Es Hlk. exists [], [], ∅, (λ _ _, []). split; [done| |done|by intros r b Hr].
  assert (Hnil : ∀ a : Z, a ∉ @nil Z) by (intros a; apply not_elem_of_nil).
  split; try done; try (by intros ? ? []%Hnil); try (by intros ? ? ? []%Hnil).
  - intros av [t Ht]. by rewrite Es, lookup_empty in Ht.
  - intros av i. constructor.
Qed.
End Runs.
