(* ===== verification/Protocol.v ===== *)
(** The wire format: [common/include/abthread_protocol.h] and the request
    buffer of [monitor/ipc.h].

    Structures are i386 layouts: fields in declaration order, [uint64_t]
    aligned to four bytes, integers little-endian.  [Wire] is the interface
    between the client library, which fills a structure and sends its bytes,
    and the arbiter, which casts its receive buffer to the structure;
    [WireLaws] is the round trip both sides rely on. *)

From S2P Require Import Prelude.

(** * Opcodes and header *)

Inductive abt_opcode :=
| ABT_FORK
| ABT_PTHREAD_JOIN
| ABT_MALLOC
| ABT_FREE
| ABT_CREATE_CAT
| ABT_GET_LABEL
| ABT_GET_OWNERSHIP
| ABT_GET_MEM_LABEL
| ABT_CALLOC
| ABT_REALLOC
| ABT_RPC.

Definition opcode_num (o : abt_opcode) : Z :=
  match o with
  | ABT_FORK => 0 | ABT_PTHREAD_JOIN => 1 | ABT_MALLOC => 2 | ABT_FREE => 3
  | ABT_CREATE_CAT => 4 | ABT_GET_LABEL => 5 | ABT_GET_OWNERSHIP => 6
  | ABT_GET_MEM_LABEL => 7 | ABT_CALLOC => 8 | ABT_REALLOC => 9 | ABT_RPC => 10
  end.

(** The [switch] on the 32-bit opcode field; [None] is its default case. *)
Definition opcode_of (z : Z) : option abt_opcode :=
  if z =? 0 then Some ABT_FORK else if z =? 1 then Some ABT_PTHREAD_JOIN
  else if z =? 2 then Some ABT_MALLOC else if z =? 3 then Some ABT_FREE
  else if z =? 4 then Some ABT_CREATE_CAT else if z =? 5 then Some ABT_GET_LABEL
  else if z =? 6 then Some ABT_GET_OWNERSHIP else if z =? 7 then Some ABT_GET_MEM_LABEL
  else if z =? 8 then Some ABT_CALLOC else if z =? 9 then Some ABT_REALLOC
  else if z =? 10 then Some ABT_RPC else None.

Definition ABT_RPC_MAGIC : Z := 0xABC0DE.
Definition RPC_DATA_LEN : nat := 256.

Record rpc_header := RpcHeader { abt_magic : Z; msg_len : Z; opcode : Z }.

(** * Requests and reply *)

Record abreq_create_cat := ReqCreateCat { cc_hdr : rpc_header; cc_cat_type : Z; cc_pad : list Z }.
Record abreq_fork := ReqFork { fk_hdr : rpc_header; fk_label : Z; fk_ownership : Z; fk_pid : Z }.
Record abreq_pthread_join := ReqJoin { pj_hdr : rpc_header; pj_pid : Z }.
Record abreq_malloc := ReqMalloc { ma_hdr : rpc_header; ma_size : Z; ma_label : Z }.
Record abreq_free := ReqFree { fr_hdr : rpc_header; fr_addr : Z }.
Record abreq_label := ReqLabel { la_hdr : rpc_header }.
Record abreq_ownership := ReqOwnership { ow_hdr : rpc_header }.
Record abreq_mem_label := ReqMemLabel { ml_hdr : rpc_header; ml_mem : Z }.
Record abreq_calloc := ReqCalloc { ca_hdr : rpc_header; ca_nmemb : Z; ca_size : Z; ca_label : Z }.
Record abreq_realloc := ReqRealloc { re_hdr : rpc_header; re_addr : Z; re_size : Z }.
Record abt_reply_header := Reply {
  abt_reply_magic : Z; rply_msg_len : Z; return_val : Z; return_val_64 : Z }.

(** Reading a field of a buffer. *)
Definition field (off n : nat) (buf : list Z) : Z := le_dec (take n (drop off buf)).

Class Wire (A : Type) := {
  wsize : nat;              (* sizeof *)
  encode : A → list Z;      (* the bytes of the structure *)
  decode : list Z → A;      (* the structure a buffer is cast to *)
  wvalid : A → Prop;        (* every field fits its width *)
}.
Arguments wsize A {_}.

Class WireLaws (A : Type) `{Wire A} := {
  encode_length a : wvalid a → length (encode a) = wsize A;
  encode_bytes a : wvalid a → Forall is_byte (encode a);
  decode_encode a rest : wvalid a → decode (encode a ++ rest) = a;
}.

Definition w32 (z : Z) : Prop := 0 ≤ z < 2 ^ 32.
Definition w64 (z : Z) : Prop := 0 ≤ z < 2 ^ 64.

Definition enc_hdr (h : rpc_header) : list Z :=
  le_enc 4 (abt_magic h) ++ le_enc 4 (msg_len h) ++ le_enc 4 (opcode h).
Definition dec_hdr (b : list Z) : rpc_header := RpcHeader (field 0 4 b) (field 4 4 b) (field 8 4 b).
Definition hdr_ok (h : rpc_header) : Prop := w32 (abt_magic h) ∧ w32 (msg_len h) ∧ w32 (opcode h).

#[export] Instance wire_hdr : Wire rpc_header :=
  { wsize := 12; encode := enc_hdr; decode := dec_hdr; wvalid := hdr_ok }.
#[export] Instance wire_create_cat : Wire abreq_create_cat := {
  wsize := 16;
  encode r := enc_hdr (cc_hdr r) ++ [cc_cat_type r] ++ cc_pad r;
  decode b := ReqCreateCat (dec_hdr b) (field 12 1 b) (take 3 (drop 13 b));
  wvalid r := hdr_ok (cc_hdr r) ∧ is_byte (cc_cat_type r) ∧ length (cc_pad r) = 3%nat ∧ Forall is_byte (cc_pad r);
}.
#[export] Instance wire_fork : Wire abreq_fork := {
  wsize := 32;
  encode r := enc_hdr (fk_hdr r) ++ le_enc 8 (fk_label r) ++ le_enc 8 (fk_ownership r) ++ le_enc 4 (fk_pid r);
  decode b := ReqFork (dec_hdr b) (field 12 8 b) (field 20 8 b) (field 28 4 b);
  wvalid r := hdr_ok (fk_hdr r) ∧ w64 (fk_label r) ∧ w64 (fk_ownership r) ∧ w32 (fk_pid r);
}.
#[export] Instance wire_join : Wire abreq_pthread_join := {
  wsize := 16;
  encode r := enc_hdr (pj_hdr r) ++ le_enc 4 (pj_pid r);
  decode b := ReqJoin (dec_hdr b) (field 12 4 b);
  wvalid r := hdr_ok (pj_hdr r) ∧ w32 (pj_pid r);
}.
#[export] Instance wire_malloc : Wire abreq_malloc := {
  wsize := 24;
  encode r := enc_hdr (ma_hdr r) ++ le_enc 4 (ma_size r) ++ le_enc 8 (ma_label r);
  decode b := ReqMalloc (dec_hdr b) (field 12 4 b) (field 16 8 b);
  wvalid r := hdr_ok (ma_hdr r) ∧ w32 (ma_size r) ∧ w64 (ma_label r);
}.
#[export] Instance wire_free : Wire abreq_free := {
  wsize := 16;
  encode r := enc_hdr (fr_hdr r) ++ le_enc 4 (fr_addr r);
  decode b := ReqFree (dec_hdr b) (field 12 4 b);
  wvalid r := hdr_ok (fr_hdr r) ∧ w32 (fr_addr r);
}.
#[export] Instance wire_label : Wire abreq_label :=
  { wsize := 12; encode r := enc_hdr (la_hdr r); decode b := ReqLabel (dec_hdr b); wvalid r := hdr_ok (la_hdr r) }.
#[export] Instance wire_ownership : Wire abreq_ownership :=
  { wsize := 12; encode r := enc_hdr (ow_hdr r); decode b := ReqOwnership (dec_hdr b); wvalid r := hdr_ok (ow_hdr r) }.
#[export] Instance wire_mem_label : Wire abreq_mem_label := {
  wsize := 16;
  encode r := enc_hdr (ml_hdr r) ++ le_enc 4 (ml_mem r);
  decode b := ReqMemLabel (dec_hdr b) (field 12 4 b);
  wvalid r := hdr_ok (ml_hdr r) ∧ w32 (ml_mem r);
}.
#[export] Instance wire_calloc : Wire abreq_calloc := {
  wsize := 28;
  encode r := enc_hdr (ca_hdr r) ++ le_enc 4 (ca_nmemb r) ++ le_enc 4 (ca_size r) ++ le_enc 8 (ca_label r);
  decode b := ReqCalloc (dec_hdr b) (field 12 4 b) (field 16 4 b) (field 20 8 b);
  wvalid r := hdr_ok (ca_hdr r) ∧ w32 (ca_nmemb r) ∧ w32 (ca_size r) ∧ w64 (ca_label r);
}.
#[export] Instance wire_realloc : Wire abreq_realloc := {
  wsize := 20;
  encode r := enc_hdr (re_hdr r) ++ le_enc 4 (re_addr r) ++ le_enc 4 (re_size r);
  decode b := ReqRealloc (dec_hdr b) (field 12 4 b) (field 16 4 b);
  wvalid r := hdr_ok (re_hdr r) ∧ w32 (re_addr r) ∧ w32 (re_size r);
}.
#[export] Instance wire_reply : Wire abt_reply_header := {
  wsize := 20;
  encode r := le_enc 4 (abt_reply_magic r) ++ le_enc 4 (rply_msg_len r) ++
              le_enc 4 (return_val r) ++ le_enc 8 (return_val_64 r);
  decode b := Reply (field 0 4 b) (field 4 4 b) (field 8 4 b) (field 12 8 b);
  wvalid r := w32 (abt_reply_magic r) ∧ w32 (rply_msg_len r) ∧ w32 (return_val r) ∧ w64 (return_val_64 r);
}.

(** * Round trips *)

Lemma field_app_skip off n bs rest :
  (length bs ≤ off)%nat → field off n (bs ++ rest) = field (off - length bs) n rest.
Proof. intros Hl. unfold field. by rewrite drop_app_ge. Qed.

Lemma field_le_enc n z rest :
  0 ≤ z < 2 ^ (8 * Z.of_nat n) → field 0 n (le_enc n z ++ rest) = z.
Proof.
  intros Hz. unfold field. rewrite drop_0, take_app_length' by (by rewrite length_le_enc).
  rewrite le_dec_enc. by apply Z.mod_small.
Qed.

Lemma field_byte c rest : field 0 1 (c :: rest) = c.
Proof. unfold field. simpl. lia. Qed.

(** Skip the fields in front of the one that is read, then read it. *)
Ltac wire_field :=
  rewrite <-?app_assoc;
  repeat (rewrite field_app_skip by (rewrite ?length_le_enc; simpl; lia));
  rewrite ?length_le_enc; simpl Nat.sub;
  first [apply field_le_enc; assumption | apply field_byte | done].

Ltac wire_valid :=
  unfold hdr_ok, w32, w64 in *; destruct_and?.

Lemma dec_enc_hdr h rest : hdr_ok h → dec_hdr (enc_hdr h ++ rest) = h.
Proof.
  destruct h as [m l o]. unfold hdr_ok. cbn [abt_magic msg_len opcode]. intros (Hm & Hl & Ho).
  unfold dec_hdr, enc_hdr. cbn [abt_magic msg_len opcode]. unfold w32 in *.
  f_equal; wire_field.
Qed.

Lemma length_enc_hdr h : length (enc_hdr h) = 12%nat.
Proof. unfold enc_hdr. by rewrite !length_app, !length_le_enc. Qed.

Lemma enc_hdr_bytes h : Forall is_byte (enc_hdr h).
Proof. unfold enc_hdr. rewrite !Forall_app. auto using le_enc_bytes. Qed.

(** Read a field behind the header. *)
Lemma field_hdr off n h rest :
  (12 ≤ off)%nat → field off n (enc_hdr h ++ rest) = field (off - 12) n rest.
Proof. intros. rewrite field_app_skip; rewrite length_enc_hdr; [done|lia]. Qed.

Ltac wire_laws :=
  split;
  [ intros [] Hv; cbn in Hv |- *; rewrite ?length_app, ?length_enc_hdr, ?length_le_enc; simpl; lia
  | intros [] Hv; cbn -[enc_hdr le_enc] in Hv |- *; rewrite ?Forall_app;
    split_and?; auto using le_enc_bytes, enc_hdr_bytes
  | intros [] rest Hv; cbn -[enc_hdr le_enc field dec_hdr hdr_ok w32 w64] in Hv |- *; destruct_and?;
    rewrite <-?app_assoc, dec_enc_hdr by done; f_equal;
    rewrite field_hdr by lia; unfold w32, w64 in *; wire_field ].

#[export] Instance wire_laws_fork : WireLaws abreq_fork.
Proof. wire_laws. Qed.
#[export] Instance wire_laws_join : WireLaws abreq_pthread_join.
Proof. wire_laws. Qed.
#[export] Instance wire_laws_malloc : WireLaws abreq_malloc.
Proof. wire_laws. Qed.
#[export] Instance wire_laws_free : WireLaws abreq_free.
Proof. wire_laws. Qed.
#[export] Instance wire_laws_mem_label : WireLaws abreq_mem_label.
Proof. wire_laws. Qed.
#[export] Instance wire_laws_calloc : WireLaws abreq_calloc.
Proof. wire_laws. Qed.
#[export] Instance wire_laws_realloc : WireLaws abreq_realloc.
Proof. wire_laws. Qed.
#[export] Instance wire_laws_hdr : WireLaws rpc_header.
Proof.
  split; intros; [apply length_enc_hdr|apply enc_hdr_bytes|by apply dec_enc_hdr].
Qed.
#[export] Instance wire_laws_label : WireLaws abreq_label.
Proof.
  split; intros []; intros; [apply length_enc_hdr|apply enc_hdr_bytes|].
  cbn. f_equal. by apply dec_enc_hdr.
Qed.
#[export] Instance wire_laws_ownership : WireLaws abreq_ownership.
Proof.
  split; intros []; intros; [apply length_enc_hdr|apply enc_hdr_bytes|].
  cbn. f_equal. by apply dec_enc_hdr.
Qed.
#[export] Instance wire_laws_create_cat : WireLaws abreq_create_cat.
Proof.
  split.
  - intros [h c p] (Hh & Hc & Hl & Hp). cbn -[enc_hdr] in *.
    rewrite length_app, length_enc_hdr. simpl. lia.
  - intros [h c p] (Hh & Hc & Hl & Hp). cbn -[enc_hdr] in *.
    rewrite Forall_app, Forall_cons. auto using enc_hdr_bytes.
  - intros [h c p] rest (Hh & Hc & Hl & Hp). cbn -[enc_hdr field dec_hdr] in *.
    rewrite <-app_assoc, dec_enc_hdr by done. f_equal.
    + rewrite field_hdr by lia. apply field_byte.
    + rewrite drop_app_ge by (rewrite length_enc_hdr; lia). rewrite length_enc_hdr.
      cbn [app Nat.sub drop]. rewrite drop_0. by rewrite take_app_length'.
Qed.
#[export] Instance wire_laws_reply : WireLaws abt_reply_header.
Proof.
  split.
  - intros [] _. cbn -[le_enc]. by rewrite !length_app, !length_le_enc.
  - intros [] _. cbn -[le_enc]. rewrite !Forall_app. auto using le_enc_bytes.
  - intros [] rest (? & ? & ? & ?). cbn -[le_enc field] in *. unfold w32, w64 in *.
    f_equal; wire_field.
Qed.

Lemma opcode_of_num o : opcode_of (opcode_num o) = Some o.
Proof. by destruct o. Qed.
Lemma opcode_num_w32 o : w32 (opcode_num o).
Proof. unfold w32. destruct o; simpl; lia. Qed.
