(* ===== verification/Arbiter.v ===== *)
(** The arbiter process: [monitor/arbiter.c] and [monitor/ipc.c].

    [world] is the state of the process and of the kernel it controls; each
    request handler is a computation over it.  What the environment decides
    is an argument: the datagram that arrives ([recv_event]), what the stack
    holds where a handler declares its reply structure, and whether [sendto]
    succeeds. *)

From S2P Require Import Prelude LinkedList Label Memory Client Chunk Heap Consolidate Os Malloc Free Protocol.

(** * Receive buffer *)

(** [struct abt_request], without the member [rheader] that nothing uses. *)
Record abt_request := AbtRequest {
  pkt_sn : Z;
  pkt_size : Z;
  rdata : list Z;
  req_addr : list Z;
  req_addr_len : Z;
}.

(** [memset(&abreq, 0, sizeof(abreq))] of [server_loop] *)
Definition zero_request : abt_request :=
  AbtRequest 0 0 (replicate RPC_DATA_LEN 0) (replicate 256 0) 0.

(** What [recvfrom] reports: an error, or a datagram and its sender. *)
Inductive recv_event :=
| RecvFail
| RecvPkt (pkt : list Z) (from : list Z).

(** [wait_client_call]: the datagram is truncated to the buffer; a failed
    call leaves the buffers as they were. *)
Definition wait_client_call (e : recv_event) (serial : Z) (req : abt_request) : abt_request * Z :=
  let req' :=
    match e with
    | RecvFail => AbtRequest serial (-1) (rdata req) (req_addr req) 256
    | RecvPkt pkt from =>
        AbtRequest serial (Z.of_nat (length (take RPC_DATA_LEN pkt)))
          (write_at (rdata req) 0 (take RPC_DATA_LEN pkt))
          (write_at (req_addr req) 0 (take 256 from))
          (Z.of_nat (length from))
    end in
  (req', u32 (serial + 1)).

(** * State *)

Section Arbiter.
Context {K : Type} `{AbOs K}.

Record world := World {
  w_abt : arbiter_thread;              (* the client table *)
  w_cat_gen : Z;                       (* the static counter of create_cat *)
  w_ab : abst K;                       (* allocator and kernel *)
  w_serial : Z;                        (* the static counter of wait_client_call *)
  w_out : list (list Z * list Z);      (* datagrams sent: destination, bytes *)
}.
Abbreviation wm := (st world).

Definition set_w_abt (v : arbiter_thread) (w : world) : world :=
  World v (w_cat_gen w) (w_ab w) (w_serial w) (w_out w).
Definition set_w_cat_gen (v : Z) (w : world) : world :=
  World (w_abt w) v (w_ab w) (w_serial w) (w_out w).
Definition set_w_ab (v : abst K) (w : world) : world :=
  World (w_abt w) (w_cat_gen w) v (w_serial w) (w_out w).
Definition set_w_serial (v : Z) (w : world) : world :=
  World (w_abt w) (w_cat_gen w) (w_ab w) v (w_out w).
Definition set_w_out (v : list (list Z * list Z)) (w : world) : world :=
  World (w_abt w) (w_cat_gen w) (w_ab w) (w_serial w) v.

Definition lab {A} (m : am K A) : wm A := λ w,
  match m (w_ab w) with
  | Ret (a, s) => Ret (a, set_w_ab s w)
  | Fault f => Fault f
  end.
Definition get_desc (c : Z) : wm client_desc := λ w,
  d ← read_desc (w_abt w) c; Ret (d, w).
Definition put_desc (c : Z) (d : client_desc) : wm unit :=
  modify (λ w, set_w_abt (ArbiterThread (client_list (w_abt w)) (<[c := d]> (descs (w_abt w)))) w).

(** What the environment supplies to a request. *)
Record env := Env { stack : abt_reply_header; send_ok : bool }.

(** [abt_sendreply] *)
Definition abt_sendreply (e : env) (req : abt_request) (r : abt_reply_header) : wm unit :=
  if send_ok e then
    modify (λ w, set_w_out (w_out w ++ [(take (Z.to_nat (req_addr_len req)) (req_addr req), encode r)]) w)
  else fail AssertFail.

(** A reply with its magic and length set; the other members keep what the
    stack held. *)
Definition reply_init (e : env) : abt_reply_header :=
  Reply ABT_RPC_MAGIC (Z.of_nat (wsize abt_reply_header)) (return_val (stack e)) (return_val_64 (stack e)).
Definition reply_val (e : env) (v : Z) : abt_reply_header :=
  Reply ABT_RPC_MAGIC (Z.of_nat (wsize abt_reply_header)) (u32 v) (return_val_64 (stack e)).
Definition reply_val_64 (e : env) (v : Z) : abt_reply_header :=
  Reply ABT_RPC_MAGIC (Z.of_nat (wsize abt_reply_header)) (return_val (stack e)) v.

(** * Handlers *)

(** [handle_create_cat_rpc] *)
Definition handle_create_cat_rpc (e : env) (c : Z) (req : abt_request) : wm unit :=
  let catreq := decode (A := abreq_create_cat) (rdata req) in
  gen ← gets w_cat_gen;
  let '(cat, gen') := create_cat (cc_cat_type catreq) gen in
  modify (set_w_cat_gen gen');;
  d ← get_desc c;
  let '(cat, own) := add_onwership (unpack (ownership d)) cat in
  put_desc c (ClientDesc (client_addr d) (pid d) (label d) (pack own));;
  assertb (negb (cat =? 0));;
  let rv := 2 ^ 8 * (return_val (stack e) / 2 ^ 8) + cat in
  abt_sendreply e req (reply_val e rv).

(** [sizeof(struct client_desc)] *)
Definition SIZEOF_CLIENT_DESC : Z := 280.

(** [list_insert_tail(&(arbiter.client_list), (void * )c_new)] *)
Definition insert_client (c_new : Z) : wm unit :=
  abt ← gets w_abt;
  l' ← lift (list_insert_tail (malloc_node (client_list abt)) (client_list abt) c_new);
  modify (set_w_abt (ArbiterThread l' (descs abt))).

(** [handle_fork_rpc] *)
Definition handle_fork_rpc (e : env) (c : Z) (req : abt_request) : wm unit :=
  let forkreq := decode (A := abreq_fork) (rdata req) in
  d ← get_desc c;
  if negb (check_label (unpack (label d)) (unpack (ownership d))
             (unpack (fk_label forkreq)) (Some (unpack (fk_ownership forkreq))) =? 0)
  then abt_sendreply e req (reply_val e (-1))
  else
    c_new ← lab (lh (libc_malloc SIZEOF_CLIENT_DESC));
    if c_new =? 0 then fail Segv else
    let ua := set_client_path (req_addr req) (fk_pid forkreq) in
    let d_new := ClientDesc (ClientKey ua (2 + strlen (GET_PATH ua) + 1))
                   (fk_pid forkreq) (fk_label forkreq) (fk_ownership forkreq) in
    put_desc c_new d_new;;
    insert_client c_new;;
    lab (malloc_update d_new);;
    abt_sendreply e req (reply_val e 0).

(** [handle_pthread_join_rpc] *)
Definition handle_pthread_join_rpc (e : env) (c : Z) (req : abt_request) : wm unit :=
  let pjoinreq := decode (A := abreq_pthread_join) (rdata req) in
  abt ← gets w_abt;
  c_join ← lift (arbiter_lookup_client_pid abt (pj_pid pjoinreq));
  if c_join =? 0 then abt_sendreply e req (reply_val e (-1)) else
  d ← get_desc c;
  dj ← get_desc c_join;
  if negb (check_label (unpack (label d)) (unpack (ownership d))
             (unpack (label dj)) (Some (unpack (ownership dj))) =? 0)
  then abt_sendreply e req (reply_val e (-1))
  else
    '(_, abt') ← lift (arbiter_del_client abt c_join);
    modify (set_w_abt (ArbiterThread (client_list abt') (delete c_join (descs abt'))));;
    abt_sendreply e req (reply_val e 0).

(** [handle_malloc_rpc] *)
Definition handle_malloc_rpc (e : env) (c : Z) (req : abt_request) : wm unit :=
  let mallocreq := decode (A := abreq_malloc) (rdata req) in
  d ← get_desc c;
  let L2 := unpack (ma_label mallocreq) in
  if negb (check_label (unpack (label d)) (unpack (ownership d)) L2 None =? 0)
  then abt_sendreply e req (reply_val e 0)
  else
    abt ← gets w_abt;
    ptr ← lab (ablib_malloc abt (pid d) (ma_size mallocreq) L2);
    abt_sendreply e req (reply_val e ptr).

(** The label a request for [ptr] is checked against: the label of its unit,
    or the client's own for [NULL]. *)
Definition target_label (d : client_desc) (ptr : Z) : wm (list Z) :=
  if negb (ptr =? 0) then
    unit ← lab (lh (lookup_ustate_by_mem ptr));
    u ← lab (lh (get_unit unit));
    s ← lab (lh (get_av (unit_av u)));
    mret (ms_label s)
  else mret (unpack (label d)).

(** [handle_free_rpc] *)
Definition handle_free_rpc (e : env) (c : Z) (req : abt_request) : wm unit :=
  let freereq := decode (A := abreq_free) (rdata req) in
  d ← get_desc c;
  let ptr := fr_addr freereq in
  L2 ← target_label d ptr;
  if negb (check_label (unpack (label d)) (unpack (ownership d)) L2 None =? 0)
  then abt_sendreply e req (reply_init e)
  else
    lab (ablib_free (pid d) ptr);;
    abt_sendreply e req (reply_init e).

(** [handle_get_label_rpc] and [handle_get_ownership_rpc] *)
Definition handle_get_label_rpc (e : env) (c : Z) (req : abt_request) : wm unit :=
  d ← get_desc c;
  abt_sendreply e req (reply_val_64 e (label d)).
Definition handle_get_ownership_rpc (e : env) (c : Z) (req : abt_request) : wm unit :=
  d ← get_desc c;
  abt_sendreply e req (reply_val_64 e (ownership d)).

(** [handle_get_mem_label_rpc] *)
Definition handle_get_mem_label_rpc (e : env) (c : Z) (req : abt_request) : wm unit :=
  let labelreq := decode (A := abreq_mem_label) (rdata req) in
  L ← lab (lh (lookup_label_by_mem (ml_mem labelreq)));
  abt_sendreply e req (reply_val_64 e (pack L)).

(** [handle_calloc_rpc] *)
Definition handle_calloc_rpc (e : env) (c : Z) (req : abt_request) : wm unit :=
  let callocreq := decode (A := abreq_calloc) (rdata req) in
  d ← get_desc c;
  let L2 := unpack (ca_label callocreq) in
  if negb (check_label (unpack (label d)) (unpack (ownership d)) L2 None =? 0)
  then abt_sendreply e req (reply_val e 0)
  else
    abt ← gets w_abt;
    ptr ← lab (ablib_calloc abt (pid d) (ca_nmemb callocreq) (ca_size callocreq) L2);
    abt_sendreply e req (reply_val e ptr).

(** [handle_rpc] *)
Definition handle_rpc (e : env) (req : abt_request) : wm unit :=
  abt_sendreply e req (reply_val e 0).

(** [handle_realloc_rpc] *)
Definition handle_realloc_rpc (e : env) (c : Z) (req : abt_request) : wm unit :=
  let reallocreq := decode (A := abreq_realloc) (rdata req) in
  d ← get_desc c;
  let ptr := re_addr reallocreq in
  L2 ← target_label d ptr;
  if negb (check_label (unpack (label d)) (unpack (ownership d)) L2 None =? 0)
  then abt_sendreply e req (reply_init e)
  else
    abt ← gets w_abt;
    rval ← lab (ablib_realloc abt (pid d) ptr (re_size reallocreq) L2);
    abt_sendreply e req (reply_val e rval).

(** * Dispatch *)

Definition dispatch (e : env) (c : Z) (req : abt_request) (op : abt_opcode) : wm unit :=
  match op with
  | ABT_CREATE_CAT => handle_create_cat_rpc e c req
  | ABT_FORK => handle_fork_rpc e c req
  | ABT_PTHREAD_JOIN => handle_pthread_join_rpc e c req
  | ABT_MALLOC => handle_malloc_rpc e c req
  | ABT_FREE => handle_free_rpc e c req
  | ABT_GET_LABEL => handle_get_label_rpc e c req
  | ABT_GET_OWNERSHIP => handle_get_ownership_rpc e c req
  | ABT_GET_MEM_LABEL => handle_get_mem_label_rpc e c req
  | ABT_CALLOC => handle_calloc_rpc e c req
  | ABT_REALLOC => handle_realloc_rpc e c req
  | ABT_RPC => handle_rpc e req
  end.

(** [handle_client_rpc] *)
Definition handle_client_rpc (e : env) (req : abt_request) : wm unit :=
  if pkt_size req <=? 0 then mret tt else
  if pkt_size req <? Z.of_nat (wsize rpc_header) then mret tt else
  let hdr := decode (A := rpc_header) (rdata req) in
  if negb (abt_magic hdr =? ABT_RPC_MAGIC) || (msg_len hdr <? Z.of_nat (wsize rpc_header))
  then mret tt else
  abt ← gets w_abt;
  c ← lift (arbiter_lookup_client abt (Some (req_addr req)) (req_addr_len req));
  if c =? 0 then mret tt else
  match opcode_of (opcode hdr) with
  | Some op => dispatch e c req op
  | None => mret tt
  end.

(** One iteration of [server_loop]. *)
Definition server_step (ev : recv_event) (e : env) (req : abt_request) (w : world)
    : outcome (abt_request * world) :=
  let '(req', serial') := wait_client_call ev (w_serial w) req in
  '(_, w') ← handle_client_rpc e req' (set_w_serial serial' w);
  Ret (req', w').

(** * Start-up *)

(** [init_arbiter_thread] (the table) and the zero-initialised globals, over
    the kernel state in which the arbiter took its role. *)
Definition zero_heap : heap :=
  Heap ∅ ∅ ∅ 0 init_linked_list init_linked_list init_linked_list false 0 LIBC_BASE false.
Definition init_arbiter_thread (k : K) : world :=
  World (ArbiterThread init_linked_list ∅) 0 (AbSt zero_heap k) 0 [].

(** [init_first_child]; [junk] is what the allocated structure held, of which
    [memset] clears four bytes. *)
Definition init_first_child (junk : client_desc) (p : Z) : wm unit :=
  c_new ← lab (lh (libc_malloc SIZEOF_CLIENT_DESC));
  if c_new =? 0 then fail Segv else
  let ua := set_client_path (write_at (unix_addr (client_addr junk)) 0 (replicate 4 0)) p in
  put_desc c_new (ClientDesc (ClientKey ua (2 + strlen (GET_PATH ua) + 1)) p (label junk) (ownership junk));;
  insert_client c_new.

(** The states [server_loop] reaches: [reachable e0 s] for a start [e0]. *)
Inductive reachable (start : abt_request * world) : abt_request * world → Prop :=
| reach_start : reachable start start
| reach_step ev e req w req' w' :
    reachable start (req, w) → server_step ev e req w = Ret (req', w') →
    reachable start (req', w').
End Arbiter.

Arguments world K : clear implicits.
Abbreviation wm K := (st (world K)).
