(* ===== verification/LibClient.v ===== *)
(** The client library: [client_module/lib_client.c].

    Each API call fills a request structure, sends it to the arbiter's socket
    and interprets the reply.  The socket is the argument [net]: what [sendto]
    returned for the message and what successive calls of [recvfrom] then
    report.  Where the code leaves members of a structure unset, the value
    found there is an argument. *)

From S2P Require Import Prelude Label Client Protocol.

(** ["/tmp/abt_monitor_socket"] *)
Definition MONITOR_SOCKET : list Z :=
  [47; 116; 109; 112; 47; 97; 98; 116; 95; 109; 111; 110; 105; 116; 111; 114; 95; 115; 111; 99; 107; 101; 116].

(** A [struct sockaddr_un] that was cleared before family and path were set. *)
Definition SOCKADDR_UN : nat := 110.
Definition sockaddr_un (path : list Z) : list Z :=
  write_at (replicate SOCKADDR_UN 0) 0 (le_enc 2 AF_UNIX ++ path).

Record abrpc_client_state := ClientState {
  cs_pid : Z;
  cs_label : list Z;
  cs_ownership : list Z;
  cs_sock_addr : list Z;   (* the address client_sock is bound to *)
  cs_abt_addr : list Z;
}.

(** What one call of [recvfrom] reports: an interruption, another error, or a
    datagram with the contents of the address buffer. *)
Inductive client_recv :=
| CEintr
| CErr
| CPkt (pkt : list Z) (from : list Z).

Definition net : Type := list Z → Z * list client_recv.

(** * Socket IPC *)

(** [init_client_ipc]; the arguments are the outcomes of [socket] and [bind]. *)
Definition init_client_ipc (sock_ok bind_ok : bool) (cs : abrpc_client_state) : outcome abrpc_client_state :=
  assert_ sock_ok;;
  assert_ bind_ok;;
  Ret (ClientState (cs_pid cs) (cs_label cs) (cs_ownership cs)
         (sockaddr_un (client_path (cs_pid cs))) (sockaddr_un MONITOR_SOCKET)).

(** The receive loop of [_client_rpc]: only an interruption is retried.  When
    no event is left the call blocks. *)
Fixpoint recv_reply (evs : list client_recv) : outcome (Z * list Z * list Z) :=
  match evs with
  | [] => Fault Hang
  | CEintr :: evs' => recv_reply evs'
  | CErr :: _ => Ret (-1, [], [])
  | CPkt pkt from :: _ =>
      let got := take (wsize abt_reply_header) pkt in
      Ret (Z.of_nat (length got), got, from)
  end.

(** [_client_rpc] *)
Definition _client_rpc (cs : abrpc_client_state) (n : net) (msg : list Z) : outcome abt_reply_header :=
  let len := msg_len (decode (A := rpc_header) msg) in
  assert_ (0 <=? len);;
  let '(rc, evs) := n (take (Z.to_nat len) msg) in
  assert_ (u32 rc =? len);;
  '(rc, got, from) ← recv_reply evs;
  assert_ (rc =? Z.of_nat (wsize abt_reply_header));;
  assert_ (GET_FAMILY from =? AF_UNIX);;
  assert_ (negb (strncmp_ne (GET_PATH from) (GET_PATH (cs_abt_addr cs)) 108));;
  Ret (decode got).

(** * Client state *)

(** [init_client_state]; [NULL] label and ownership are blank. *)
Definition init_client_state (mmap_ok sock_ok bind_ok : bool) (p : Z) (L O : option (list Z))
    : outcome abrpc_client_state :=
  assert_ mmap_ok;;
  let blank := replicate 8 0 in
  init_client_ipc sock_ok bind_ok (ClientState p (default blank L) (default blank O) [] []).

(** * API wrappers *)

(** The header of a request of type [A]. *)
Definition mkhdr (A : Type) `{Wire A} (op : abt_opcode) : rpc_header :=
  RpcHeader ABT_RPC_MAGIC (Z.of_nat (wsize A)) (opcode_num op).

(** The two assertions every wrapper makes on its reply. *)
Definition checked (r : abt_reply_header) : outcome abt_reply_header :=
  assert_ (abt_reply_magic r =? ABT_RPC_MAGIC);;
  assert_ (rply_msg_len r =? Z.of_nat (wsize abt_reply_header));;
  Ret r.

Definition call {A} `{Wire A} (cs : abrpc_client_state) (n : net) (req : A) : outcome abt_reply_header :=
  r ← _client_rpc cs n (encode req);
  checked r.

(** The request of [ab_fork] and [ab_pthread_create]: -1 unless registered. *)
Definition register_child (cs : abrpc_client_state) (n : net) (p : Z) (L O : list Z) : outcome bool :=
  r ← call cs n (ReqFork (mkhdr abreq_fork ABT_FORK) (pack L) (pack O) (u32 p));
  Ret (return_val r =? 0).

(** [ab_fork] after [fork] returned [p]; the child gets a state of its own. *)
Definition ab_fork (cs : abrpc_client_state) (n : net) (p : Z) (child : outcome abrpc_client_state)
    (L O : list Z) : outcome (Z * option abrpc_client_state) :=
  if p =? 0 then st ← child; Ret (p, Some st)
  else if 0 <? p then
    ok ← register_child cs n p L O;
    if negb ok then Ret (-1, None) else Ret (p, None)
  else Ret (p, None).

(** Stack top and guard page of a new thread in the area mapped at [stack]. *)
Definition ABTHREAD_STACK_SIZE : Z := 4 * 4096.
Definition ALLOC_SIZE : Z := ABTHREAD_STACK_SIZE + 2 * 4096.
Definition stack_high (stack : Z) : Z := u32 (Z.land (u32 (stack + ALLOC_SIZE)) 0xfffff000 - 32).
Definition gdpage_start (stack : Z) : Z :=
  u32 (Z.land (u32 (stack + ALLOC_SIZE)) 0xfffff000 - ABTHREAD_STACK_SIZE - 4096).

(** [_pre_start_routine] up to the call of the start routine. *)
Definition _pre_start_routine (mprotect_rc : Z) (child : outcome abrpc_client_state) : outcome abrpc_client_state :=
  assert_ (mprotect_rc =? 0);;
  child.

(** [ab_pthread_create] in the parent: [stack] is the result of [mmap]
    ([MAP_FAILED] is all ones) and [p] that of [clone].  The result is the
    returned code and the value stored through [thread]. *)
Definition ab_pthread_create (cs : abrpc_client_state) (n : net) (stack p : Z) (L O : list Z)
    : outcome (Z * option Z) :=
  assert_ (negb (stack =? u32 (-1)));;
  if p <? 0 then Ret (-1, None) else
  ok ← register_child cs n p L O;
  Ret (if negb ok then -1 else 0, Some p).

(** [ab_pthread_create_old] in the parent *)
Definition ab_pthread_create_old (cs : abrpc_client_state) (n : net) (p : Z) (L O : list Z)
    : outcome (Z * option Z) :=
  if p <? 0 then Ret (-1, None)
  else if 0 <? p then
    ok ← register_child cs n p L O;
    Ret (if negb ok then -1 else 0, Some p)
  else Ret (0, None).

(** [ab_pthread_join] *)
Definition ab_pthread_join (cs : abrpc_client_state) (n : net) (thread : Z) : outcome Z :=
  r ← call cs n (ReqJoin (mkhdr abreq_pthread_join ABT_PTHREAD_JOIN) (u32 thread));
  Ret (if return_val r =? 0 then 0 else -1).

(** [ab_pthread_self] *)
Definition ab_pthread_self (getpid : Z) : Z := getpid.

(** [ab_free], [ab_malloc], [ab_calloc], [ab_realloc] *)
Definition ab_free (cs : abrpc_client_state) (n : net) (ptr : Z) : outcome unit :=
  _ ← call cs n (ReqFree (mkhdr abreq_free ABT_FREE) (u32 ptr));
  Ret tt.
Definition ab_malloc (cs : abrpc_client_state) (n : net) (size : Z) (L : list Z) : outcome Z :=
  r ← call cs n (ReqMalloc (mkhdr abreq_malloc ABT_MALLOC) (u32 size) (pack L));
  Ret (return_val r).
Definition ab_calloc (cs : abrpc_client_state) (n : net) (nmemb size : Z) (L : list Z) : outcome Z :=
  r ← call cs n (ReqCalloc (mkhdr abreq_calloc ABT_CALLOC) (u32 nmemb) (u32 size) (pack L));
  Ret (return_val r).
Definition ab_realloc (cs : abrpc_client_state) (n : net) (ptr size : Z) : outcome Z :=
  r ← call cs n (ReqRealloc (mkhdr abreq_realloc ABT_REALLOC) (u32 ptr) (u32 size));
  Ret (return_val r).

(** [create_category]; the three bytes behind the type are not set. *)
Definition create_category (cs : abrpc_client_state) (n : net) (pad : list Z) (t : Z) : outcome Z :=
  r ← call cs n (ReqCreateCat (mkhdr abreq_create_cat ABT_CREATE_CAT) (u8 t) pad);
  Ret (u8 (return_val r)).

(** [get_label], [get_ownership] and [get_mem_label] store through a pointer
    and do nothing for [NULL]. *)
Definition get_label (cs : abrpc_client_state) (n : net) (L : option (list Z)) : outcome (option (list Z)) :=
  match L with
  | None => Ret None
  | Some _ =>
      r ← call cs n (ReqLabel (mkhdr abreq_label ABT_GET_LABEL));
      Ret (Some (unpack (return_val_64 r)))
  end.
Definition get_ownership (cs : abrpc_client_state) (n : net) (O : option (list Z)) : outcome (option (list Z)) :=
  match O with
  | None => Ret None
  | Some _ =>
      r ← call cs n (ReqOwnership (mkhdr abreq_ownership ABT_GET_OWNERSHIP));
      Ret (Some (unpack (return_val_64 r)))
  end.
Definition get_mem_label (cs : abrpc_client_state) (n : net) (ptr : Z) (L : option (list Z)) : outcome (option (list Z)) :=
  match L with
  | None => Ret None
  | Some old =>
      if ptr =? 0 then Ret (Some old) else
      r ← call cs n (ReqMemLabel (mkhdr abreq_mem_label ABT_GET_MEM_LABEL) (u32 ptr));
      Ret (Some (unpack (return_val_64 r)))
  end.

(** [ab_RPC] sends a [struct abreq_realloc] of which only the header is set. *)
Definition ab_RPC (cs : abrpc_client_state) (n : net) (junk_addr junk_size : Z) : outcome Z :=
  r ← call cs n (ReqRealloc (mkhdr abreq_realloc ABT_RPC) junk_addr junk_size);
  Ret (return_val r).
