(* ===== verification/Scenario.v ===== *)
(** Concrete runs of the arbiter over the abstract kernel.

    The helpers build request datagrams with the layout of the client library
    and feed them to the server; the scenarios serve as inputs on which the
    theorems are instantiated and the defects of the code are exhibited. *)

From S2P Require Import Prelude LinkedList Label Memory Client Chunk Heap Consolidate Os Malloc Free Protocol Arbiter.

(** The address [recvfrom] reports for the socket of thread [p]. *)
Definition from_addr (p : Z) : list Z := le_enc 2 AF_UNIX ++ client_path p ++ [0].
Definition env0 : env := Env (Reply 0 0 0 0) true.

Definition hdr (op : abt_opcode) (len : nat) : rpc_header :=
  RpcHeader ABT_RPC_MAGIC (Z.of_nat len) (opcode_num op).
Definition pkt_create_cat (t : Z) : list Z :=
  encode (ReqCreateCat (hdr ABT_CREATE_CAT (wsize abreq_create_cat)) t [0; 0; 0]).
Definition pkt_fork (L own p : Z) : list Z := encode (ReqFork (hdr ABT_FORK (wsize abreq_fork)) L own p).
Definition pkt_join (p : Z) : list Z := encode (ReqJoin (hdr ABT_PTHREAD_JOIN (wsize abreq_pthread_join)) p).
Definition pkt_malloc (n L : Z) : list Z := encode (ReqMalloc (hdr ABT_MALLOC (wsize abreq_malloc)) n L).
Definition pkt_free (a : Z) : list Z := encode (ReqFree (hdr ABT_FREE (wsize abreq_free)) a).
Definition pkt_realloc (a n : Z) : list Z :=
  encode (ReqRealloc (hdr ABT_REALLOC (wsize abreq_realloc)) a n).

Abbreviation server := (abt_request * world abkern)%type.

(** The main thread has pid 100; pid 1 is a task outside the group. *)
Definition MAIN : Z := 100.
Definition k_boot : abkern := AbKern [MAIN] [1] AB_HEAP_START ∅.
Definition blank : client_desc := ClientDesc (ClientKey (replicate 256 0) 0) 0 0 0.
Definition w_boot : world abkern :=
  match init_first_child blank MAIN (init_arbiter_thread k_boot) with
  | Ret (_, w) => w
  | Fault _ => init_arbiter_thread k_boot
  end.
Definition boot : server := (zero_request, w_boot).

(** A step of the server for a datagram of thread [p]. *)
Definition send (p : Z) (pkt : list Z) (x : server) : outcome server :=
  server_step (RecvPkt pkt (from_addr p)) env0 x.1 x.2.

(** A new thread, created while no page of the channel is mapped. *)
Definition enter (q : Z) (x : server) : server :=
  let w := x.2 in
  let k := ab_os (w_ab w) in
  (x.1, set_w_ab (AbSt (ab_heap (w_ab w)) (AbKern (q :: k_group k) (k_tasks k) (k_ab_brk k) (k_prot k))) w).

(** The value of the last reply. *)
Definition reply_of (x : server) : option Z :=
  match List.last (w_out x.2) ([], []) with
  | (_, []) => None
  | (_, bs) => Some (return_val (decode (A := abt_reply_header) bs))
  end.
Definition prot_of (x : server) (p a : Z) : option Z := k_prot (ab_os (w_ab x.2)) !! (p, a / PAGESIZE).

(** The main thread creates a secrecy category, starts thread 101 without
    label and ownership, and allocates memory labelled with the category. *)
Definition scenario : outcome server :=
  x ← send MAIN (pkt_create_cat CAT_S) boot;
  x ← send MAIN (pkt_fork 0 0 101) (enter 101 x);
  send MAIN (pkt_malloc 100 1) x.
