(* ===== verification/Defects.v ===== *)
(** Defects of the code, as runs of the model over the abstract kernel.

    The runs are instances of what [Protection.alloc_unit_access],
    [Server.fork_sets_access], [Server.request_stops_arbiter] and
    [Lock.malloc_lock_released] state for all states. *)

From S2P Require Import Prelude LinkedList Label Memory Client Chunk Heap Consolidate Os Malloc Free Frame Lock Protection UnitLookup Protocol Arbiter Scenario.

(** What the theorems observe of a run: the last reply and the protection that
    the main thread and thread 101 have on the first page of the channel. *)
Definition observe (o : outcome server) : (option Z * option Z * option Z) + fault :=
  match o with
  | Ret x => inl (reply_of x, prot_of x MAIN CHANNEL_ADDR, prot_of x 101 CHANNEL_ADDR)
  | Fault f => inr f
  end.

(** The main thread owns the secrecy category 1; thread 101 has neither label
    nor ownership, so the policy gives it no access to memory labelled 1. *)
Definition two_threads : outcome server :=
  x ← send MAIN (pkt_create_cat CAT_S) boot;
  send MAIN (pkt_fork 0 0 101) (enter 101 x).
Definition secret_policy : mem_prot := check_mem_prot (unpack 0) (unpack 0) (unpack 1).

Definition RW : Z := Z.lor PROT_READ PROT_WRITE.

(** A request that fits a unit but not together with a minimal remainder
    adds a unit, fails, and leaves the unit unprotected: the kernel maps new
    units read-write for every child, and the protection update is reached
    only on success.  The next small request of the label is served from that
    unit, and thread 101 can read and write it although the policy gives it no
    access. *)
Example gap_request_unprotected :
  secret_policy = PROT_N ∧
  observe (x ← two_threads; send MAIN (pkt_malloc 40930 1) x) = inl (Some 0, Some RW, Some RW) ∧
  observe (x ← two_threads; x ← send MAIN (pkt_malloc 40930 1) x; send MAIN (pkt_malloc 100 1) x)
    = inl (Some 0x80000008, Some RW, Some RW).
Proof. split_and!; vm_compute; reflexivity. Qed.

(** Access to a unit depends on which thread happened to need it first.
    When thread 101 makes the first allocation of a label it may write but not
    read, it keeps read access to the unit, and the secrets the main thread
    then allocates there are readable for it; in the other order thread 101
    receives a pointer to memory it cannot access at all. *)
Example first_allocator_keeps_access :
  secret_policy = PROT_N ∧
  observe (x ← two_threads; x ← send 101 (pkt_malloc 100 1) x; send MAIN (pkt_malloc 100 1) x)
    = inl (Some 0x80000070, Some RW, Some RW) ∧
  observe (x ← two_threads; x ← send MAIN (pkt_malloc 100 1) x; send 101 (pkt_malloc 100 1) x)
    = inl (Some 0x80000070, Some RW, Some PROT_NONE).
Proof. split_and!; vm_compute; reflexivity. Qed.

(** The pid of a fork request is not checked.  Naming the pid of another
    thread applies the protections of the requested label to that thread's
    pages: thread 101 takes the main thread's access to its own memory away.
    Naming a pid that does not exist makes the kernel dereference a null task
    as soon as there is a unit. *)
Example fork_pid_unchecked :
  observe (x ← two_threads; x ← send MAIN (pkt_malloc 100 1) x; send 101 (pkt_fork 0 0 MAIN) x)
    = inl (Some 0, Some PROT_NONE, Some PROT_NONE) ∧
  observe (x ← two_threads; x ← send MAIN (pkt_malloc 100 1) x; send 101 (pkt_fork 0 0 999) x)
    = inr KernelOops.
Proof. split; vm_compute; reflexivity. Qed.

(** [n] creations of a category by the main thread *)
Fixpoint create_many (n : nat) (x : server) : outcome server :=
  match n with
  | O => Ret x
  | S n' => y ← send MAIN (pkt_create_cat CAT_S) x; create_many n' y
  end.

(** Any registered thread can stop the arbiter: its ninth category finds no
    free entry and fails an assertion, releasing an address outside every unit
    is an invalid access, and an oversized request leaves the allocator's lock
    held, so that the next request of any thread never returns. *)
Example client_stops_arbiter :
  observe (create_many 8 boot) = inl (Some 8, None, None) ∧
  observe (create_many 9 boot) = inr AssertFail ∧
  observe (x ← two_threads; send 101 (pkt_free 8) x) = inr Segv ∧
  observe (x ← two_threads; x ← send 101 (pkt_malloc 0xfffffff0 0) x; send MAIN (pkt_malloc 8 0) x) = inr Deadlock.
Proof. split_and!; vm_compute; reflexivity. Qed.

(** The main thread has allocated memory labelled 1; an oversized request and a
    request of any other thread follow. *)
Definition served : abst abkern := w_ab (match scenario with Ret x => x | Fault _ => boot end).2.
Definition served_av : Z := match lookup_mstate_by_label (unpack 1) (ab_heap served) with Ret (av, _) => av | Fault _ => 0 end.


(** A unit of label 1 at the bottom of the channel and one mapped unit that
    fills the channel above [0x88000000]. *)
Definition nearly_full : heap :=
  let h := demo_heap (unpack 1) in
  set_h_mmapped_ustate_list (single 48)
    (set_h_ustates (<[48 := UnitState 0x88000000 0x88000000 0x38000000 16]> (h_ustates h)) h).

(** [get_unmapped_area] adds the size to a chunk pointer, so the size is
    scaled by 16 and wraps: a request of 256 MB below a channel that has 128 MB
    left is placed at [0x78000000], in front of the channel and across the
    units of other labels. *)
Lemma unmapped_area_overlaps :
  get_unmapped_area 0x10000000 nearly_full = Ret (0x78000000, nearly_full) ∧
  0x78000000 < CHANNEL_ADDR ∧
  ∃ x, h_ustates nearly_full !! 32 = Some x ∧ 0x78000000 < addr x ∧ addr x + length_ x ≤ 0x78000000 + 0x10000000.
Proof.
  split; [vm_compute; reflexivity|]. split; [by vm_compute|].
  eexists. split; [reflexivity|]. split; vm_compute; congruence.
Qed.
