(* ===== verification/Policy.v ===== *)
(** The arbiter enforces the label policy.

    The handlers of [monitor/arbiter.c] keep page protections in line with the
    labels ([winv]), and therefore so does every run of the server loop,
    interleaved with clients that write their memory and create threads. *)

From S2P Require Import Prelude LinkedList Label Memory Client Chunk Heap Consolidate Os Malloc Free Frame Protection Requests UnitLookup Protocol Arbiter Scenario.

Section Policy.
Context {K : Type} `{HK : AbOsLaws K}.
Implicit Types w : world K.

(** * The invariant *)

Definition winv w : Prop := ∃ us avs, safe (w_abt w) (w_ab w) us avs.

(** A request whose buffer holds bytes. *)
Definition req_ok (req : abt_request) : Prop := Forall is_byte (rdata req).

(** Requests in scope: sizes that fit a unit of the channel, and forks that
    name a new thread of the group. *)
Definition in_scope (w : world K) (req : abt_request) (op : abt_opcode) : Prop :=
  match op with
  | ABT_FORK =>
      let p := fk_pid (decode (A := abreq_fork) (rdata req)) in
      os_member (ab_os (w_ab w)) p ∧ ∀ c d, is_client (w_abt w) c d → pid d ≠ p
  | ABT_MALLOC => ma_size (decode (A := abreq_malloc) (rdata req)) ≤ MAX_SMALL
  | ABT_CALLOC =>
      let r := decode (A := abreq_calloc) (rdata req) in u32 (ca_nmemb r * ca_size r) ≤ MAX_SMALL
  | ABT_REALLOC => re_size (decode (A := abreq_realloc) (rdata req)) ≤ MAX_SMALL
  | _ => True
  end.

(** * Steps of a handler *)

Lemma winv_same w w' : w_abt w' = w_abt w → w_ab w' = w_ab w → winv w → winv w'.
Proof. unfold winv. by intros -> ->. Qed.

Lemma lab_inv {A} (m : am K A) w a w' :
  lab m w = Ret (a, w') → m (w_ab w) = Ret (a, w_ab w') ∧ w_abt w' = w_abt w.
Proof. unfold lab. destruct (m (w_ab w)) as [[x s]|]; [|done]. by intros [= <- <-]. Qed.

Lemma get_desc_inv c w d w' : get_desc c w = Ret (d, w') → descs (w_abt w) !! c = Some d ∧ w' = w.
Proof. unfold get_desc, read_desc. destruct (descs (w_abt w) !! c); [|done]. by intros [= <- <-]. Qed.

Lemma send_winv e req r w u w' : winv w → abt_sendreply e req r w = Ret (u, w') → winv w'.
Proof.
  intros I E. unfold abt_sendreply in E. destruct (send_ok e); [|done]. by injection E as _ <-.
Qed.

Lemma field_bound off n buf : Forall is_byte buf → 0 ≤ field off n buf < 2 ^ (8 * Z.of_nat n).
Proof.
  intros Hb. unfold field. assert (Hf : Forall is_byte (take n (drop off buf))) by auto using Forall_take, Forall_drop.
  pose proof (le_dec_bound _ Hf).
  assert (2 ^ (8 * Z.of_nat (length (take n (drop off buf)))) ≤ 2 ^ (8 * Z.of_nat n)); [|lia].
  apply Z.pow_le_mono_r; [lia|]. rewrite length_take. lia.
Qed.

Lemma is_client_in abt ps c : table_ok abt ps → c ∈ ps.*2 → ∃ d, is_client abt c d ∧ desc_ok d.
Proof.
  intros T Hc. destruct (tok_desc _ _ T c Hc) as (d & Hd & Ho). exists d. split; [|done].
  split; [|done]. exists ps. split; [apply T|done].
Qed.

Lemma is_client_table abt ps c d : table_ok abt ps → is_client abt c d → c ∈ ps.*2 ∧ desc_ok d.
Proof.
  intros T [(qs & R & Hin) Hd]. rewrite <-(ll_rep_det _ _ _ (tok_rep _ _ T) R) in Hin. split; [done|].
  destruct (tok_desc _ _ T c Hin) as (e & He & Ho). congruence.
Qed.

Lemma winv_table w : winv w → ∃ ps, table_ok (w_abt w) ps.
Proof. intros (us & avs & S). apply (sf_clients _ _ _ _ S). Qed.

(** A nonzero result of a lookup is an entry of the table. *)
Lemma lookup_is_client abt ps (cmp : Z → outcome bool) c :
  table_ok abt ps → (∀ x, is_Some (descs abt !! x) → ∃ b, cmp x = Ret b) →
  linked_list_lookup (client_list abt) cmp = Ret c → c ≠ 0 → c ∈ ps.*2.
Proof.
  intros T Hcmp E Hne. set (f := λ x, match cmp x with Ret b => b | Fault _ => false end).
  rewrite (linked_list_lookup_rep _ ps _ f (tok_rep _ _ T)) in E.
  2:{ intros x Hx. destruct (tok_desc _ _ T x Hx) as (d & Hd & _).
      destruct (Hcmp x) as [b Hb]; [by eexists|]. unfold f. by rewrite Hb. }
  injection E as <-.
  destruct (find_data_spec f ps.*2) as [[E0 _]|(pre & post & Hds & _)]; [apply (tok_nonnull _ _ T)|done|].
  rewrite Hds at 2. apply elem_of_app. right. by left.
Qed.

Lemma cmp_client_total abt a len x : is_Some (descs abt !! x) → ∃ b, _cmp_client abt (Some a, len) x = Ret b.
Proof.
  intros [d Hd]. unfold _cmp_client, read_desc. rewrite Hd. simpl. repeat case_match; eauto.
Qed.
Lemma cmp_pid_total abt p x : is_Some (descs abt !! x) → ∃ b, _cmp_client_pid abt p x = Ret b.
Proof. intros [d Hd]. unfold _cmp_client_pid, read_desc. rewrite Hd. simpl. eauto. Qed.

(** Memory of the C library *)
Lemma safe_libc abt s us avs n p s' :
  safe abt s us avs → 0 < n → lh (libc_malloc n) s = Ret (p, s') →
  safe abt s' us avs ∧ ab_os s' = ab_os s ∧
  (p ≠ 0 → h_libc_next (ab_heap s) ≤ p < h_libc_next (ab_heap s') ∧ 0 < p < 2 ^ 32).
Proof.
  intros S Hn E. apply lh_inv in E as [E Ek]. destruct s' as [h' k']. simpl in *. subst k'.
  pose proof (sf_heap _ _ _ _ S) as O. pose proof (ho_next _ _ _ _ O) as H0.
  unfold libc_malloc in E. destruct (Z.ltb_spec (h_libc_next (ab_heap s) + n) CHANNEL_ADDR) as [Hlt|].
  2:{ injection E as <- <-. split; [by destruct s|]. done. }
  injection E as <- <-. split; [|split; [done|simpl; unfold CHANNEL_ADDR in *; lia]].
  split; simpl; try solve [apply S].
  - split; simpl; try solve [apply O]; [lia|..].
    + intros u Hu. pose proof (ho_fresh_u _ _ _ _ O u Hu). lia.
    + intros u Hu. pose proof (ho_fresh_s _ _ _ _ O u Hu). lia.
  - intros c d Hc. pose proof (sf_fresh _ _ _ _ S c d Hc). lia.
Qed.

(** * The handlers *)

Section Handler.
Variables (e : env) (c : Z) (d : client_desc) (req : abt_request).
Hypothesis Hreq : req_ok req.

Lemma flow_of_check L : length L = 8%nat →
  negb (check_label (unpack (label d)) (unpack (ownership d)) L None =? 0) = false →
  can_flow (unpack (label d)) (unpack (ownership d)) L.
Proof.
  intros HL Hc. apply negb_false_iff, Z.eqb_eq in Hc. by apply check_label_None in Hc; [|rewrite ?length_unpack..].
Qed.

Lemma malloc_handler_winv w u w' :
  winv w → is_client (w_abt w) c d → in_scope w req ABT_MALLOC →
  handle_malloc_rpc e c req w = Ret (u, w') → winv w'.
Proof.
  intros I Hc Hs E. unfold handle_malloc_rpc in E. bstep E as d0 w0 E0. apply get_desc_inv in E0 as [Hd ->].
  assert (d0 = d) as -> by (destruct Hc; congruence).
  destruct (negb _) eqn:Hck; [by eapply send_winv|].
  bstep E as abt w1 E1. apply gets_inv in E1 as [-> ->]. bstep E as ptr w2 E2.
  eapply send_winv; [|exact E]. apply lab_inv in E2 as [E2 Ea]. destruct I as (us & avs & S).
  unfold winv. rewrite Ea. eapply malloc_safe; [exact S|exact Hc|apply length_unpack| | |exact E2].
  - by apply flow_of_check; [apply length_unpack|].
  - split; [|exact Hs]. apply field_bound, Hreq.
Qed.

Lemma calloc_handler_winv w u w' :
  winv w → is_client (w_abt w) c d → in_scope w req ABT_CALLOC →
  handle_calloc_rpc e c req w = Ret (u, w') → winv w'.
Proof.
  intros I Hc Hs E. unfold handle_calloc_rpc in E. bstep E as d0 w0 E0. apply get_desc_inv in E0 as [Hd ->].
  assert (d0 = d) as -> by (destruct Hc; congruence).
  destruct (negb _) eqn:Hck; [by eapply send_winv|].
  bstep E as abt w1 E1. apply gets_inv in E1 as [-> ->]. bstep E as ptr w2 E2.
  eapply send_winv; [|exact E]. apply lab_inv in E2 as [E2 Ea]. destruct I as (us & avs & S).
  unfold winv. rewrite Ea. eapply calloc_safe; [exact S|exact Hc|apply length_unpack| |exact Hs|exact E2].
  by apply flow_of_check; [apply length_unpack|].
Qed.

(** Looking up the label of a block leaves the world as it is. *)
Lemma target_label_inv w ptr L w' :
  winv w → target_label d ptr w = Ret (L, w') →
  w_abt w' = w_abt w ∧ w_ab w' = w_ab w ∧ length L = 8%nat.
Proof.
  intros (us & avs & S) E. unfold target_label in E.
  destruct (negb _); [|injection E as <- <-; auto using length_unpack].
  bstep E as u w1 E1. apply lab_inv in E1 as [E1 A1]. apply lh_inv in E1 as [E1 K1].
  apply (lookup_ustate_inv (os_brk (ab_os (w_ab w))) _ us avs) in E1 as (H1 & Hu & _); [|apply S|apply (sf_brk _ _ _ _ S)].
  bstep E as x w2 E2. apply lab_inv in E2 as [E2 A2]. apply lh_inv in E2 as [E2 K2]. apply get_unit_inv in E2 as [Hx H2].
  bstep E as t w3 E3. apply lab_inv in E3 as [E3 A3]. apply lh_inv in E3 as [E3 K3]. apply get_av_inv in E3 as [Ht H3].
  injection E as <- <-. split; [congruence|]. split.
  { destruct (w_ab w3), (w_ab w). simpl in *. congruence. }
  rewrite H1 in Hx. destruct (ho_unit _ _ _ _ (sf_heap _ _ _ _ S) u Hu) as (y & Hy & _ & Hav).
  assert (y = x) as -> by congruence. destruct (ho_state _ _ _ _ (sf_heap _ _ _ _ S) _ Hav) as (t' & Ht' & Htu).
  rewrite H2, H1 in Ht. assert (t' = t) as -> by congruence. apply Htu.
Qed.

Lemma free_handler_winv w u w' :
  winv w → is_client (w_abt w) c d → handle_free_rpc e c req w = Ret (u, w') → winv w'.
Proof.
  intros I Hc E. unfold handle_free_rpc in E. bstep E as d0 w0 E0. apply get_desc_inv in E0 as [Hd ->].
  assert (d0 = d) as -> by (destruct Hc; congruence).
  bstep E as L w1 E1. apply target_label_inv in E1 as (A1 & B1 & _); [|done].
  assert (I1 : winv w1) by (by eapply winv_same).
  destruct (negb _); [by eapply send_winv|]. bstep E as x w2 E2.
  eapply send_winv; [|exact E]. apply lab_inv in E2 as [E2 A2]. destruct I1 as (us & avs & S).
  exists us, avs. rewrite A2. by eapply free_safe.
Qed.

Lemma realloc_handler_winv w u w' :
  winv w → is_client (w_abt w) c d → in_scope w req ABT_REALLOC →
  handle_realloc_rpc e c req w = Ret (u, w') → winv w'.
Proof.
  intros I Hc Hs E. unfold handle_realloc_rpc in E. bstep E as d0 w0 E0. apply get_desc_inv in E0 as [Hd ->].
  assert (d0 = d) as -> by (destruct Hc; congruence).
  bstep E as L w1 E1. apply target_label_inv in E1 as (A1 & B1 & HL); [|done].
  assert (I1 : winv w1) by (by eapply winv_same).
  destruct (negb _) eqn:Hck; [by eapply send_winv|].
  bstep E as abt w2 E2. apply gets_inv in E2 as [-> ->]. bstep E as x w3 E3.
  eapply send_winv; [|exact E]. apply lab_inv in E3 as [E3 A3]. destruct I1 as (us & avs & S).
  unfold winv. rewrite A3. eapply realloc_safe; [| | |exact S| |exact E3].
  - by rewrite A1.
  - done.
  - by apply flow_of_check.
  - split; [|exact Hs]. apply field_bound, Hreq.
Qed.

(** A category is created for the client. *)
Lemma own_update_winv w own :
  winv w → is_client (w_abt w) c d → is_cats own → own_le (unpack (ownership d)) own →
  winv (set_w_abt (ArbiterThread (client_list (w_abt w))
    (<[c := ClientDesc (client_addr d) (pid d) (label d) (pack own)]> (descs (w_abt w)))) w).
Proof.
  intros (us & avs & S) Hc Ho Hle. exists us, avs. simpl.
  destruct (co_table _ _ (sf_clients _ _ _ _ S)) as (ps & T).
  destruct (is_client_table _ _ _ _ T Hc) as [Hin Hok]. set (d' := ClientDesc _ _ _ _).
  assert (Hok' : desc_ok d'). { destruct Hok. split; try done. by apply pack_bound. }
  eapply safe_clients; [exact S| |].
  - exists ps. split; simpl; [apply T| |apply T|apply T]. intros x Hx.
    destruct (decide (c = x)) as [<-|]; [exists d'; by rewrite lookup_insert_eq|].
    rewrite lookup_insert_ne by done. by apply (tok_desc _ _ T).
  - intros x dx [Hx Hdx]. simpl in *. destruct (decide (c = x)) as [<-|].
    + rewrite lookup_insert_eq in Hdx. injection Hdx as <-. exists d.
      split; [done|]. split; [done|]. split; [done|]. unfold d'. simpl. by rewrite unpack_pack.
    + rewrite lookup_insert_ne in Hdx by done. exists dx. split; [done|]. auto using own_le_refl.
Qed.

Lemma create_cat_byte t g : is_byte (create_cat t g).1.
Proof. unfold create_cat. simpl. repeat case_match; simpl; apply u8_bound. Qed.

Lemma create_cat_handler_winv w u w' :
  winv w → is_client (w_abt w) c d → handle_create_cat_rpc e c req w = Ret (u, w') → winv w'.
Proof.
  intros I Hc E. unfold handle_create_cat_rpc in E. bstep E as g w0 E0. apply gets_inv in E0 as [-> ->].
  pose proof (create_cat_byte (cc_cat_type (decode (rdata req))) (w_cat_gen w)) as Hb.
  destruct (create_cat _ _) as [cat g']. simpl in Hb.
  bstep E as x w1 E1. apply modify_inv in E1 as ->.
  bstep E as d0 w2 E2. apply get_desc_inv in E2 as [Hd ->]. simpl in Hd.
  assert (d0 = d) as -> by (destruct Hc; congruence).
  destruct (add_onwership _ cat) as [cat' own] eqn:Ea.
  assert (Hown : own = (add_onwership (unpack (ownership d)) cat).2) by (by rewrite Ea).
  bstep E as y w3 E3. apply modify_inv in E3 as ->. bstep E as z w4 E4. apply assertb_inv in E4 as [_ ->].
  eapply send_winv; [|exact E]. apply own_update_winv.
  - by eapply winv_same; [..|exact I].
  - done.
  - pose proof (length_unpack (ownership d)). destruct (unpack_cats (ownership d)) as [_ HB]. rewrite Hown.
    split; [by apply length_add_onwership|by apply bytes_add_onwership].
  - rewrite Hown. apply add_onwership_le, length_unpack.
Qed.

(** A thread is registered. *)
Lemma insert_client_inv w cn u w' :
  insert_client cn w = Ret (u, w') →
  ∃ l', malloc_node (client_list (w_abt w)) ≠ 0 ∧
    list_insert_tail (malloc_node (client_list (w_abt w))) (client_list (w_abt w)) cn = Ret l' ∧
    w' = set_w_abt (ArbiterThread l' (descs (w_abt w))) w.
Proof.
  intros E. unfold insert_client in E. bstep E as abt w1 E1. apply gets_inv in E1 as [-> ->].
  bstep E as l' w2 E2. apply lift_inv in E2 as [E2 ->]. apply modify_inv in E as ->.
  exists l'. split; [|done]. intros H0. by rewrite H0 in E2.
Qed.

Lemma fork_desc_ok lab own p :
  0 ≤ p < 2 ^ 32 → 0 ≤ lab < 2 ^ 64 → 0 ≤ own < 2 ^ 64 →
  let ua := set_client_path (req_addr req) p in
  desc_ok (ClientDesc (ClientKey ua (2 + strlen (GET_PATH ua) + 1)) p lab own).
Proof.
  intros Hp Hl Ho ua. split; [|done..]. destruct (set_client_path_bound (req_addr req) p) as [j Hj].
  exists j. split; [exact Hj|]. cbn [client_addr addr_len pid]. unfold ua. rewrite Hj. unfold GET_PATH.
  rewrite drop_app_length' by (by rewrite length_le_enc).
  rewrite strlen_cstr by apply client_path_nonzero. lia.
Qed.

Lemma fork_handler_winv w u w' :
  winv w → is_client (w_abt w) c d → in_scope w req ABT_FORK →
  handle_fork_rpc e c req w = Ret (u, w') → winv w'.
Proof.
  intros I Hc [Hm Hnew] E. unfold handle_fork_rpc in E. bstep E as d0 w0 E0. apply get_desc_inv in E0 as [Hd ->].
  destruct (negb _); [by eapply send_winv|].
  bstep E as cn w1 E1. apply lab_inv in E1 as [E1 A1]. destruct I as (us & avs & S).
  eapply safe_libc in E1 as (S1 & K1 & Hcn); [|exact S|by unfold SIZEOF_CLIENT_DESC].
  destruct (Z.eqb_spec cn 0) as [|Hne]; [done|]. destruct (Hcn Hne) as [Hfr Hcr]. clear Hcn.
  set (dn := ClientDesc _ _ _ _) in E.
  assert (Hdn : desc_ok dn) by (apply fork_desc_ok; apply field_bound, Hreq).
  bstep E as x w2 E2. apply modify_inv in E2 as ->.
  bstep E as y w3 E3. apply insert_client_inv in E3 as (l' & Hn & Hi & ->). simpl in Hn, Hi.
  bstep E as z w4 E4. apply lab_inv in E4 as [E4 A4]. simpl in E4, A4.
  eapply send_winv; [|exact E]. exists us, avs. rewrite A4.
  destruct (co_table _ _ (sf_clients _ _ _ _ S)) as (ps & T). rewrite A1 in *.
  assert (Hni : cn ∉ ps.*2).
  { intros Hin. destruct (is_client_in _ _ _ T Hin) as (dc & Hdc & _).
    pose proof (sf_fresh _ _ _ _ S _ _ Hdc). lia. }
  destruct (add_client_table _ _ _ _ T Hn Hni Hcr Hdn) as (abt' & Ha & T' & _).
  unfold add_client in Ha. rewrite Hi in Ha. injection Ha as <-.
  eapply (safe_admit (w_abt w) _ (w_ab w1) us avs cn dn); [exact S1|by eexists| | | | |exact E4].
  - intros c' d' Hc'. destruct (is_client_table _ _ _ _ T' Hc') as [Hin _]. rewrite fmap_app in Hin.
    destruct Hc' as [_ Hd']. simpl in Hd'. apply elem_of_app in Hin as [Hin|Hin].
    + left. rewrite lookup_insert_ne in Hd' by (by intros ->). split; [|done]. exists ps. split; [apply T|done].
    + apply list_elem_of_singleton in Hin. simpl in Hin. subst c'. right. rewrite lookup_insert_eq in Hd'. split; congruence.
  - exact Hnew.
  - by rewrite K1.
  - lia.
Qed.

(** A thread is joined. *)
Lemma join_handler_winv w u w' :
  winv w → handle_pthread_join_rpc e c req w = Ret (u, w') → winv w'.
Proof.
  intros I E. unfold handle_pthread_join_rpc in E. bstep E as abt w1 E1. apply gets_inv in E1 as [-> ->].
  bstep E as cj w2 E2. apply lift_inv in E2 as [E2 ->].
  destruct (Z.eqb_spec cj 0) as [|Hne]; [by eapply send_winv|].
  bstep E as d1 w3 E3. apply get_desc_inv in E3 as [_ ->].
  bstep E as d2 w4 E4. apply get_desc_inv in E4 as [_ ->].
  destruct (negb _); [by eapply send_winv|].
  bstep E as r w5 E5. apply lift_inv in E5 as [E5 ->]. destruct I as (us & avs & S).
  destruct (co_table _ _ (sf_clients _ _ _ _ S)) as (ps & T).
  apply (lookup_is_client _ _ _ _ T) in E2; [|apply cmp_pid_total|done].
  destruct (arbiter_del_client_table _ _ _ T E2) as (pre & a & post & abt' & Hps & Hdel & T' & Hds).
  rewrite Hdel in E5. injection E5 as <-. bstep E as x w6 E6. apply modify_inv in E6 as ->.
  eapply send_winv; [|exact E]. exists us, avs. simpl.
  assert (Hsub : ∀ y, y ∈ (pre ++ post).*2 → y ∈ ps.*2 ∧ y ≠ cj).
  { pose proof (tok_nodup _ _ T) as Hnd. rewrite Hps, fmap_app in Hnd. simpl in Hnd.
    rewrite <-Permutation_middle in Hnd. apply NoDup_cons in Hnd as [Hni _]. rewrite <-fmap_app in Hni.
    intros y Hy. split; [|by intros ->]. rewrite Hps. rewrite fmap_app in *. simpl. set_solver. }
  assert (T2 : table_ok (ArbiterThread (client_list abt') (delete cj (descs abt'))) (pre ++ post)).
  { split; simpl; [apply T'| |apply T'|apply T']. intros y Hy. destruct (Hsub y Hy) as [_ Hyn].
    rewrite lookup_delete_ne by done. by apply (tok_desc _ _ T'). }
  eapply safe_clients; [exact S|by eexists|]. intros y dy Hy.
  destruct (is_client_table _ _ _ _ T2 Hy) as [Hin _]. destruct (Hsub y Hin) as [Hin' Hyn].
  exists dy. split; [|auto using own_le_refl]. destruct Hy as [_ Hy]. simpl in Hy.
  rewrite lookup_delete_ne, Hds in Hy by done. split; [|done]. exists ps. split; [apply T|done].
Qed.

Lemma dispatch_winv w op u w' :
  winv w → is_client (w_abt w) c d → in_scope w req op →
  dispatch e c req op w = Ret (u, w') → winv w'.
Proof.
  intros I Hc Hs E. destruct op; cbn [dispatch] in E; try solve [by eapply send_winv].
  - by eapply fork_handler_winv.
  - by eapply join_handler_winv.
  - by eapply malloc_handler_winv.
  - by eapply free_handler_winv.
  - by eapply create_cat_handler_winv.
  - bstep E as d1 w1 E1. apply get_desc_inv in E1 as [_ ->]. by eapply send_winv.
  - bstep E as d1 w1 E1. apply get_desc_inv in E1 as [_ ->]. by eapply send_winv.
  - bstep E as L w1 E1. apply lab_inv in E1 as [E1 A1]. eapply send_winv; [|exact E].
    destruct I as (us & avs & S). exists us, avs. rewrite A1.
    eapply safe_keeps in E1 as (S1 & _); [exact S1| |exact S]. unfold lookup_label_by_mem. keeps.
  - by eapply calloc_handler_winv.
  - by eapply realloc_handler_winv.
Qed.
End Handler.

(** * The server and its environment *)

Lemma rpc_winv e req w u w' :
  winv w → req_ok req →
  (∀ op, opcode_of (opcode (decode (A := rpc_header) (rdata req))) = Some op → in_scope w req op) →
  handle_client_rpc e req w = Ret (u, w') → winv w'.
Proof.
  intros I Hr Hs E. unfold handle_client_rpc in E.
  destruct (_ <=? _); [by injection E as _ <-|]. destruct (_ <? _); [by injection E as _ <-|].
  destruct (_ || _); [by injection E as _ <-|].
  bstep E as abt w1 E1. apply gets_inv in E1 as [-> ->].
  bstep E as c w2 E2. apply lift_inv in E2 as [E2 ->].
  destruct (Z.eqb_spec c 0) as [|Hne]; [by injection E as _ <-|].
  destruct (opcode_of _) as [op|] eqn:Hop; [|by injection E as _ <-].
  destruct (winv_table _ I) as (ps & T).
  apply (lookup_is_client _ _ _ _ T) in E2; [|apply cmp_client_total|done].
  destruct (is_client_in _ _ _ T E2) as (d & Hc & _).
  eapply dispatch_winv; [exact Hr|exact I|exact Hc|by apply Hs|exact E].
Qed.

(** [q] is created by the thread [p]: it joins the control group with a copy
    of the address space of [p]. *)
Record cloned (k : K) (p q : Z) (k' : K) : Prop := {
  cl_parent : os_member k p;
  cl_fresh : ¬ os_member k q;
  cl_member r : os_member k' r ↔ os_member k r ∨ r = q;
  cl_brk : os_brk k' = os_brk k;
  cl_other r g : r ≠ q → os_prot k' r g = os_prot k r g;
  cl_copy g : os_prot k' q g = os_prot k p g;
}.

Definition set_mem (m : memory) (w : world K) : world K :=
  set_w_ab (AbSt (set_h_mem m (ab_heap (w_ab w))) (ab_os (w_ab w))) w.
Definition set_os (k : K) (w : world K) : world K := set_w_ab (AbSt (ab_heap (w_ab w)) k) w.

(** A step of the system: the server handles what [recvfrom] returned, clients
    change memory (any contents, which covers all they may write), or a thread
    is created. *)
Inductive system_step : abt_request * world K → abt_request * world K → Prop :=
| serve ev e req w req' w' :
    server_step ev e req w = Ret (req', w') →
    req_ok req' →
    (∀ op, opcode_of (opcode (decode (A := rpc_header) (rdata req'))) = Some op → in_scope w req' op) →
    system_step (req, w) (req', w')
| client_write m req w : system_step (req, w) (req, set_mem m w)
| clone p q k req w : cloned (ab_os (w_ab w)) p q k → system_step (req, w) (req, set_os k w).

Lemma server_step_inv ev e req w req' w' :
  server_step ev e req w = Ret (req', w') →
  ∃ n, handle_client_rpc e req' (set_w_serial n w) = Ret (tt, w').
Proof.
  unfold server_step. destruct (wait_client_call _ _ _) as [r n].
  destruct (handle_client_rpc e r (set_w_serial n w)) as [[[] w1]|] eqn:E; [|done]. intros [= <- <-]. eauto.
Qed.

Lemma safe_clone abt h k p q k' us avs :
  safe abt (AbSt h k) us avs → cloned k p q k' → safe abt (AbSt h k') us avs.
Proof.
  intros S C. assert (Hpid : ∀ c d, is_client abt c d → pid d ≠ q).
  { intros c d Hc <-. apply (cl_fresh _ _ _ _ C). by eapply (co_member _ _ (sf_clients _ _ _ _ S)). }
  split; simpl; rewrite ?(cl_brk _ _ _ _ C); try solve [apply S].
  - split; try solve [apply (sf_clients _ _ _ _ S)]. intros c d Hc. apply (cl_member _ _ _ _ C). left.
    by eapply (co_member _ _ (sf_clients _ _ _ _ S)).
  - destruct (sf_perm _ _ _ _ S) as [ow Hp]. exists ow.
    intros c d u x L g Hc Hu Hx HL Hg. rewrite (cl_other _ _ _ _ C) by (by eapply Hpid). by eapply Hp.
  - intros r u x g Hr Hu Hx Hg. apply (cl_member _ _ _ _ C) in Hr as [Hr| ->].
    + destruct (decide (r = q)) as [->|]; [by destruct (cl_fresh _ _ _ _ C)|].
      rewrite (cl_other _ _ _ _ C) by done. by eapply (sf_mapped _ _ _ _ S).
    + rewrite (cl_copy _ _ _ _ C). eapply (sf_mapped _ _ _ _ S); [apply C|done..].
Qed.

Lemma system_step_winv a b : system_step a b → winv a.2 → winv b.2.
Proof.
  intros [ev e req w req' w' E Hr Hs|m req w|p q k req w C] I; cbn [snd] in *.
  - apply server_step_inv in E as (n & E). apply (rpc_winv e req' (set_w_serial n w) tt); [|done|exact Hs|done].
    by eapply winv_same; [..|exact I].
  - destruct I as (us & avs & S). exists us, avs. simpl. destruct (w_ab w) as [h k]. simpl in *.
    eapply safe_meta; [|exact S]. by split.
  - destruct I as (us & avs & S). exists us, avs. simpl. destruct (w_ab w) as [h k0]. simpl in *.
    by eapply safe_clone.
Qed.

(** * Start *)

Record boot_ok (k : K) (p : Z) (junk : client_desc) : Prop := {
  bo_brk : page_aligned (os_brk k) = true ∧ AB_HEAP_START ≤ os_brk k ≤ TASK_SIZE;
  bo_member : os_member k p;
  bo_pid : 0 ≤ p < 2 ^ 32;
  bo_label : 0 ≤ label junk < 2 ^ 64;
  bo_own : 0 ≤ ownership junk < 2 ^ 64;
}.

Lemma first_desc_ok junk buf p :
  0 ≤ p < 2 ^ 32 → 0 ≤ label junk < 2 ^ 64 → 0 ≤ ownership junk < 2 ^ 64 →
  let ua := set_client_path buf p in
  desc_ok (ClientDesc (ClientKey ua (2 + strlen (GET_PATH ua) + 1)) p (label junk) (ownership junk)).
Proof. apply (fork_desc_ok (AbtRequest 0 0 [] buf 0)). Qed.

Lemma boot_winv k p junk u w :
  boot_ok k p junk → init_first_child junk p (init_arbiter_thread k) = Ret (u, w) → winv w.
Proof.
  intros B E. unfold init_first_child in E. bstep E as cn w1 E1. injection E1 as <- <-.
  cbn [Z.eqb] in E. change (h_libc_next zero_heap =? 0) with false in E. cbn [negb] in E.
  set (dn := ClientDesc _ _ _ _) in E. set (cn := h_libc_next zero_heap) in *.
  assert (Hdn : desc_ok dn) by (apply first_desc_ok; apply B).
  bstep E as x w2 E2. apply modify_inv in E2 as ->.
  apply insert_client_inv in E as (l' & Hn & Hi & ->).
  change (malloc_node init_linked_list ≠ 0) in Hn.
  change (list_insert_tail (malloc_node init_linked_list) init_linked_list cn = Ret l') in Hi.
  destruct (add_client_table (ArbiterThread init_linked_list ∅) [] cn dn) as (abt' & Ha & T & _);
    [apply table_ok_empty|done|set_solver|by unfold cn|done|].
  unfold add_client in Ha. cbn [client_list descs] in Ha. rewrite Hi in Ha. injection Ha as <-.
  exists [], []. simpl.
  assert (Hcl : ∀ c d, is_client (ArbiterThread l' (<[cn:=dn]> ∅)) c d → c = cn ∧ d = dn).
  { intros c d Hc. destruct (is_client_table _ _ _ _ T Hc) as [Hin%list_elem_of_singleton _]. simpl in Hin. subst c.
    destruct Hc as [_ Hd]. simpl in Hd. rewrite lookup_insert_eq in Hd. split; congruence. }
  split; simpl.
  - split; simpl; try solve [eexists; split; [apply init_linked_list_rep|done]|done|constructor|set_solver].
    + intros v [y Hy]. by rewrite lookup_empty in Hy.
    + intros v [y Hy]. by rewrite lookup_empty in Hy.
  - split; [by eexists| |].
    + intros c1 d1 c2 d2 [-> _]%Hcl [-> _]%Hcl. done.
    + intros c d [-> ->]%Hcl. apply B.
  - by left.
  - apply B.
  - exists (λ _, 0). set_solver.
  - set_solver.
  - intros c d [-> ->]%Hcl. by vm_compute.
Qed.

(** * The policy *)

Definition unit_in (h : heap) (u : Z) : Prop := ∃ ps, ll_rep (h_ustate_list h) ps ∧ u ∈ ps.*2.

(** On every page of every unit, every client of the table has at most the
    access its label and ownership justify for the label of the unit; the one
    exception is the thread on whose behalf the unit was added. *)
Definition enforced (w : world K) : Prop :=
  ∃ ow : Z → Z, ∀ c d u x L g b,
    is_client (w_abt w) c d → unit_in (ab_heap (w_ab w)) u → h_ustates (ab_heap (w_ab w)) !! u = Some x →
    unit_label (ab_heap (w_ab w)) x L → in_pages (addr x) (length_ x) g →
    os_prot (ab_os (w_ab w)) (pid d) g = Some b → access_ok (ow u) d L b.

Lemma winv_enforced w : winv w → enforced w.
Proof.
  intros (us & avs & S). destruct (sf_perm _ _ _ _ S) as [ow Hp]. exists ow.
  intros c d u x L g b Hc (ps & R & Hu) Hx HL Hg Hb.
  destruct (ho_ulist _ _ _ _ (sf_heap _ _ _ _ S)) as (qs & R' & Hus).
  rewrite (ll_rep_det _ _ _ R R'), Hus in Hu.
  destruct (Hp c d u x L g) as (b' & Hb' & Ha); [done..|]. congruence.
Qed.

Lemma run_winv a b : rtc system_step a b → winv a.2 → winv b.2.
Proof. induction 1 as [|a b c Hs _ IH]; [done|]. eauto using system_step_winv. Qed.

(** C2: The label policy over any kernel that satisfies the interface, with one
    exempt thread per unit.  In a run from the start of the arbiter whose steps
    serve datagrams, change the memory of the channel in any way and create
    threads, page protections enforce the policy: on every page of every unit a
    client may read only if information may flow from the label of the unit to
    the client's label under its ownership, and may write only if it may flow
    both ways; at most one thread per unit is exempt from this, and only if it
    may write to the label of the unit.  (It is the thread whose request added
    the unit, see [Protection.alloc_unit_access].)  The runs
    considered are those whose requests ask for at most [MAX_SMALL] bytes and
    whose forks name a new thread of the control group, as far as the handling
    of every datagram returns; it does not where the allocator follows a link
    that a client has corrupted to memory outside the channel ([Wild]). *)
Theorem policy_enforced k p junk w0 req w :
  boot_ok k p junk → init_first_child junk p (init_arbiter_thread k) = Ret (tt, w0) →
  rtc system_step (zero_request, w0) (req, w) → enforced w.
Proof.
  intros B E R. apply winv_enforced. apply (run_winv _ _ R). simpl. by eapply boot_winv.
Qed.
End Policy.

(** The states of the scenario *)
Definition got (o : outcome server) : server := match o with Ret x => x | Fault _ => boot end.
Definition x1 : server := got (send MAIN (pkt_create_cat CAT_S) boot).
Definition x2 : server := got (send MAIN (pkt_fork 0 0 101) (enter 101 x1)).
Definition x3 : server := got (send MAIN (pkt_malloc 100 1) x2).

Definition bytes_ok (bs : list Z) : bool := forallb (λ b, (0 <=? b) && (b <? 256)) bs.

Lemma send_step p pkt (x : server) :
  let y := got (send p pkt x) in
  match send p pkt x with Ret z => bytes_ok (rdata z.1) | Fault _ => false end = true →
  (∀ op, opcode_of (opcode (decode (A := rpc_header) (rdata y.1))) = Some op → in_scope x.2 y.1 op) →
  system_step x y.
Proof.
  intros y. unfold y. clear y. destruct (send p pkt x) as [y|] eqn:E; [|done]. cbn [got]. intros Hb Hs.
  destruct x as [r0 w0], y as [r1 w1]. refine (serve (RecvPkt pkt (from_addr p)) env0 r0 w0 r1 w1 E _ Hs).
  apply Forall_forall. intros z Hz. unfold bytes_ok in Hb. rewrite forallb_forall in Hb.
  specialize (Hb z (proj1 (list_elem_of_In _ _) Hz)).
  apply andb_true_iff in Hb as [?%Z.leb_le ?%Z.ltb_lt]. split; lia.
Qed.

Lemma enter_step q (x : server) :
  let k := ab_os (w_ab x.2) in
  bool_decide (MAIN ∈ k_group k ∧ q ∉ k_group k ∧ k_prot k = ∅) = true → system_step x (enter q x).
Proof.
  intros k (Hm & Hq & H0)%bool_decide_eq_true_1. destruct x as [r w]. apply (clone MAIN q). fold k. simpl in k.
  split; simpl; [done|done| |done|done|].
  - intros p. fold k. rewrite elem_of_cons. tauto.
  - intros g. fold k. by rewrite H0.
Qed.

Lemma scenario_boot : boot_ok k_boot MAIN blank.
Proof. split; try (unfold MAIN; simpl; lia); [by split|by left]. Qed.
Lemma scenario_run : rtc system_step boot x3.
Proof.
  eapply rtc_l with x1.
  { apply (send_step MAIN (pkt_create_cat CAT_S)); [by vm_compute|].
    intros op Hop. vm_compute in Hop. by injection Hop as <-. }
  eapply rtc_l with (enter 101 x1).
  { apply enter_step. by vm_compute. }
  eapply rtc_l with x2.
  { apply (send_step MAIN (pkt_fork 0 0 101)); [by vm_compute|].
    intros op Hop. vm_compute in Hop. injection Hop as <-. split; [by left|].
    intros c d [_ Hd]. revert c d Hd.
    change (map_Forall (λ _ d, pid d ≠ 101) (descs (w_abt x1.2))).
    by apply (bool_decide_eq_true_1 _); vm_compute. }
  eapply rtc_l with x3; [|done].
  apply (send_step MAIN (pkt_malloc 100 1)); [by vm_compute|].
  intros op Hop. vm_compute in Hop. injection Hop as <-. by vm_compute.
Qed.

Lemma policy_enforced_witness :
  enforced x3.2 ∧ reply_of x3 = Some 0x80000008 ∧
  prot_of x3 MAIN 0x80000000 = Some (Z.lor PROT_READ PROT_WRITE) ∧ prot_of x3 101 0x80000000 = Some PROT_NONE.
Proof.
  split; [|by vm_compute].
  refine (policy_enforced k_boot MAIN blank w_boot x3.1 x3.2 scenario_boot _ _); [by vm_compute|].
  rewrite <-surjective_pairing. exact scenario_run.
Defined.
