(* ===== verification/HeapBlocks.v ===== *)
(** What the channel heap promises to the threads that use it.

    From start-up on, requests return blocks that overlap no block in use and
    lie in a unit of the requested label, and a byte keeps the value its holder
    wrote last ([heap_refines_blocks]); which requests are answered
    ([malloc_answers]); and an example of requests and releases after which
    two blocks in use overlap ([slack_overlap]), which the conditions of the
    theorem exclude. *)

From S2P Require Import Prelude LinkedList Label Memory Client Chunk Heap Consolidate Os Malloc Free Frame Lock Protection UnitLookup Requests AllocSpec Blocks BlocksMalloc BlocksSpec Protocol Arbiter Scenario Policy.

Section Heap.
Context {K : Type} `{HK : AbOsLaws K}.

Lemma boot_sim k p junk u w0 :
  boot_ok k p junk → init_first_child junk p (init_arbiter_thread k) = Ret (u, w0) → sim (w_abt w0) (w_ab w0) ∅.
Proof.
  intros B E. destruct (boot_winv k p junk u w0 B E) as (us & avs & S).
  assert (Eh : ∃ n, ab_heap (w_ab w0) = set_h_libc_next n zero_heap).
  { unfold init_first_child in E. bstep E as cn w1 E1. injection E1 as <- <-. change (h_libc_next zero_heap =? 0) with false in E. cbn [negb] in E.
    bstep E as x w2 E2. apply modify_inv in E2 as ->. apply insert_client_inv in E as (l' & _ & _ & ->). eexists. reflexivity. }
  destruct Eh as [n Eh]. pose proof (sf_heap _ _ _ _ S) as O. destruct (ho_ulist _ _ _ _ O) as (ps & R1 & <-), (ho_mlist _ _ _ _ O) as (qs & R2 & <-).
  rewrite Eh in R1, R2. simpl in R1, R2. rewrite (ll_rep_det _ _ _ R1 init_linked_list_rep), (ll_rep_det _ _ _ R2 init_linked_list_rep) in S.
  by apply empty_sim; [|rewrite Eh..].
Qed.

Lemma block_label lim h us avs ck fl r b :
  heap_ok lim h us avs → lim ≤ TASK_SIZE → chunks lim h us avs ck fl → has_block h us ck fl r b →
  lookup_label_by_mem r h = Ret (b_label b, h).
Proof.
  intros O Hlim C [Hl Hc _ (u & x & Hx & s & Hs & HL) _]. destruct Hx as [H1 H2 H3 H4]. set (nb := request2size _) in *.
  pose proof (un_top _ _ (ck_unit _ _ _ _ _ _ C u x H1 H2)) as Ht. destruct (chunk_bounds _ _ _ _ _ _ O Hlim C _ _ Hc) as (_ & _ & H16 & _).
  destruct (unit_bounds O Hlim u x H1 H2) as (_ & He & _). unfold lookup_label_by_mem.
  assert (E : lookup_ustate_by_mem r h = Ret (u, h)).
  { apply (proj1 (lookup_ustate_result _ _ _ _ O Hlim r) u H1). exists x. split; [done|].
    destruct (ho_unit _ _ _ _ O u H1) as (y & Hy & Hok & _). assert (y = x) as -> by congruence. rewrite (uo_len _ _ Hok). lia. }
  rewrite (bind_ret _ _ _ _ _ E). assert (E2 : get_unit u h = Ret (x, h)) by (unfold get_unit; by rewrite H2).
  rewrite (bind_ret _ _ _ _ _ E2), (bind_ret _ _ _ _ _ (get_av_eq _ _ _ Hs)). by rewrite HL.
Qed.


(** ** Which requests are answered *)

Section Answers.
Variable abt : arbiter_thread.
Context (s : abst K) (us avs : list Z) (ck : gmap Z Z) (fl : Z → Z → list Z) (σ : blocks).
Context (R : represents abt s us avs ck fl σ) (av : Z) (t : malloc_state) (L : list Z).
Context (Hlk : lookup_mstate_by_label L (ab_heap s) = Ret (av, ab_heap s)) (Ht : h_mstates (ab_heap s) !! av = Some t).
Let s1 := AbSt (set_h_malloc_lock true (ab_heap s)) (ab_os s).

Lemma answer_state : av ∈ avs ∧ av ≠ 0 ∧ ready abt s1 us avs ck fl av L t.
Proof.
  pose proof (rp_safe _ _ _ _ _ _ _ R) as S. pose proof (sf_heap _ _ _ _ S) as O.
  assert (Hpos : 0 < av) by (apply (ho_fresh_s _ _ _ _ O); eauto).
  destruct (lookup_mstate_spec _ _ _ _ _ _ _ O Hlk) as [_ [->|(Hin & t' & Ht' & HL)]]; [lia|].
  assert (t' = t) as -> by congruence. split; [done|]. split; [lia|]. split; try done.
  - destruct s as [h k]. simpl in *. eapply safe_meta; [|exact S]. by split.
  - by apply (chunks_same _ _ _ _ _ _ (rp_chunks _ _ _ _ _ _ _ R)).
Qed.

(** [ablib_malloc] for a label whose state is known *)
Lemma known_body n q bytes : 0 < bytes ≤ MAX_SMALL →
  ablib_malloc_rec (S n) abt q bytes L s =
    (r ← lh (if negb (have_anychunks (ms_max_fast t)) then init_on_first_use av L;; mret None else malloc_search av (request2size bytes));
     r ← (match r with Some x => mret (Some x) | None => lh (malloc_unit_top av (request2size bytes)) end);
     retval ← (match r with Some x => mret x | None => __malloc_alloc (ablib_malloc_rec n abt) abt q (request2size bytes) av L end);
     lh unlock;; mret retval) s1.
Proof.
  intros Hb. destruct answer_state as (_ & Hne & _). destruct (small_request bytes Hb) as (Hnb & _).
  rewrite malloc_rec_S. unfold malloc_body. rewrite (bind_ret _ _ _ _ _ (lh_intro _ s _ _ Hlk)).
  assert (AbSt (ab_heap s) (ab_os s) = s) as -> by (by destruct s). rewrite (proj2 (Z.eqb_neq bytes 0)) by lia.
  assert (El : lh lock s = Ret (tt, s1)) by (unfold lh, lock; by rewrite (rp_lock _ _ _ _ _ _ _ R)).
  rewrite (bind_ret _ _ _ _ _ El), (proj2 (Z.eqb_neq av 0)) by done.
  rewrite (bind_ret (mret av) _ s1 av s1) by done. rewrite Hnb.
  by rewrite (bind_ret _ _ _ _ _ (lh_intro _ s1 _ _ (get_av_eq av (ab_heap s1) t Ht))).
Qed.

(** The searches find a chunk in the fastbin of the size or nothing. *)
Lemma known_search bytes : plain_request (ab_heap s) bytes L → let nb := request2size bytes in
  let m := if negb (have_anychunks (ms_max_fast t)) then init_on_first_use av L;; mret None else malloc_search av nb in
  (∃ r h', nb ≤ 72 ∧ aget (ms_fastbins t) (fastbin_index nb) ≠ 0 ∧ m (ab_heap s1) = Ret (Some r, h') ∧ r ≠ 0) ∨
  ((72 < nb ∨ aget (ms_fastbins t) (fastbin_index nb) = 0) ∧ m (ab_heap s1) = Ret (None, ab_heap s1)).
Proof.
  intros [Hb Hpl] nb m. destruct answer_state as (Hin & _ & Rd). pose proof (ready_limit _ _ _ _ _ _ _ _ _ Rd) as Hlim.
  destruct Rd as [S1 C1 _ Ht1 HL]. pose proof (sf_heap _ _ _ _ S1) as O1. destruct (small_request bytes Hb) as (_ & H16 & H8 & _). fold nb in H16, H8.
  pose proof (ck_state _ _ _ _ _ _ C1 av t Hin Ht1) as St.
  assert (Hch : nb ≤ 72 → fd_chain (h_mem (ab_heap s1)) (aget (ms_fastbins t) (fastbin_index nb)) (fl av (fastbin_index nb))).
  { intros H72. apply St. apply fastbin_index_range. lia. }
  assert (Hpos : ∀ p l, fl av (fastbin_index nb) = p :: l → 0x80000000 ≤ p).
  { intros p l Hp. destruct (fast_chunk_size _ _ _ _ _ _ O1 Hlim C1 av (fastbin_index nb) p) as (z & Hz & _); [rewrite Hp; by left|].
    apply (chunk_bounds _ _ _ _ _ _ O1 Hlim C1 p z Hz). }
  destruct (sh_fast _ _ _ _ St) as [[Hmf HF]|Hmf]; unfold m; rewrite Hmf.
  - right. split.
    + destruct (decide (72 < nb)) as [|Hle]; [by left|right]. specialize (Hch ltac:(lia)). by rewrite HF in Hch.
    + change (negb (have_anychunks 72)) with true. cbn iota. unfold init_on_first_use. rewrite (bind_ret _ _ (ab_heap s1) tt (ab_heap s1)); [done|].
      rewrite (bind_ret _ _ _ _ _ (get_av_eq _ _ _ Ht1)). by rewrite Hmf.
  - change (negb (have_anychunks 75)) with false. cbn iota.
    assert (Hsm : in_smallbin_range nb = true).
    { destruct Hpl as [|Hpl]; [done|]. specialize (Hpl av t Ht HL). by rewrite Hmf in Hpl. }
    destruct (search_spec _ _ _ _ _ _ O1 Hlim C1 av t Hin Ht1 nb H16 H8 Hmf Hsm) as [(p & l & h' & Hfl & H72 & E & _)|E].
    + left. exists (p + 8), h'. specialize (Hch H72). rewrite Hfl in Hch. destruct Hch as [-> _]. pose proof (Hpos p l Hfl).
      repeat split; [done|lia|done|lia].
    + right. split; [|done]. destruct (decide (72 < nb)) as [|Hle]; [by left|right].
      destruct (fl av (fastbin_index nb)) as [|p l] eqn:Hfl; [exact (Hch ltac:(lia))|exfalso].
      destruct (fastbin_pop _ _ _ _ _ _ O1 Hlim C1 av t Hin Ht1 nb H16 H8 p l ltac:(lia) Hmf Hfl) as (h' & Ef & _).
      unfold malloc_search, orelse in E. rewrite (bind_ret _ _ _ _ _ Ef) in E. done.
Qed.

(** With the fastbins to be merged and the lock held, [__malloc_alloc] blocks
    in its recursive call, unless the merge itself fails. *)
Lemma merge_blocks n q bytes : plain_request (ab_heap s) bytes L → have_fastchunks (ms_max_fast t) = true →
  __malloc_alloc (ablib_malloc_rec (S n) abt) abt q (request2size bytes) av L s1 =
    match __malloc_consolidate av (ab_heap s1) with Ret _ => Fault Deadlock | Fault f => Fault f end.
Proof.
  intros [Hb Hpl] Hf. destruct answer_state as (Hin & _ & Rd). destruct Rd as [S1 C1 _ Ht1 HL].
  destruct (small_request bytes Hb) as (_ & H16 & _ & Hmax & _). set (nb := request2size bytes) in *.
  assert (Hsm : in_smallbin_range nb = true).
  { destruct Hpl as [|Hpl]; [done|]. specialize (Hpl av t Ht HL).
    destruct (sh_fast _ _ _ _ (ck_state _ _ _ _ _ _ C1 av t Hin Ht1)) as [[Hmf _]|Hmf]; rewrite Hmf in Hpl, Hf; done. }
  unfold __malloc_alloc. rewrite (bind_ret _ _ _ _ _ (lh_intro _ s1 _ _ (get_av_eq av (ab_heap s1) t Ht))), Hf, Hsm.
  unfold assertb, lh, mbind, st_bind. cbn [ab_heap ab_os].
  destruct (__malloc_consolidate av (ab_heap s1)) as [[u h2]|] eqn:Ec; [|done].
  assert (M : meta_eq (ab_heap s1) h2) by (eapply consolidate_meta; eauto using have_fastchunks_nonzero).
  rewrite malloc_rec_S. unfold malloc_body, lh, mbind, st_bind. cbn [ab_heap ab_os].
  destruct (lookup_mstate_returns _ _ _ _ L (heap_ok_meta _ _ _ _ _ M (sf_heap _ _ _ _ S1))) as (av2 & ->).
  rewrite (proj2 (Z.eqb_neq _ 0)).
  2:{ rewrite MINSIZE_16 in Hmax. change tsize with 40944 in Hmax. unfold MALLOC_ALIGN_MASK. rewrite u32_small; lia. }
  unfold lock. cbn [ab_heap]. by rewrite (lock_eq_consolidate av _ _ _ Ec).
Qed.
End Answers.

End Heap.

(** * A run *)

(** The main thread of the scenario works on public memory. *)
Definition L0 : list Z := unpack 0.
Definition abt0 : arbiter_thread := w_abt w_boot.
Definition y0 : abst abkern := w_ab w_boot.
Definition d0 : client_desc := default blank (descs abt0 !! LIBC_BASE).

Definition after_malloc (bytes : Z) (s : abst abkern) : abst abkern :=
  match ablib_malloc abt0 MAIN bytes L0 s with Ret (_, s') => s' | Fault _ => s end.
Definition after_free (r : Z) (s : abst abkern) : abst abkern :=
  match ablib_free MAIN r s with Ret (_, s') => s' | Fault _ => s end.

(** Two blocks; the second is released and given out again. *)
Definition A1 : Z := 0x80000008.
Definition A2 : Z := 0x80000020.
Definition y1 := after_malloc 20 y0.
Definition y2 := poke (A1 + 3) 7 y1.
Definition y3 := after_malloc 20 y2.
Definition y4 := after_free A2 y3.
Definition y5 := after_malloc 20 y4.
Definition trace0 : list event := [EMalloc L0 20 A1; EWrite A1 3 7; EMalloc L0 20 A2; EFree A2 20].
Definition trace1 : list event := trace0 ++ [EMalloc L0 20 A2; ERead A1 3 7].

Lemma client0 : is_client abt0 LIBC_BASE d0 ∧ pid d0 = MAIN.
Proof.
  split; [|by vm_compute]. split; [|by vm_compute]. exists [(1, LIBC_BASE)]. split; [|by left].
  assert (client_list abt0 = single LIBC_BASE) as -> by (by vm_compute). apply single_rep.
Qed.

Definition addr_of {A} (o : outcome (Z * A)) : Z := match o with Ret (r, _) => r | Fault _ => 0 end.

Lemma malloc_step s r : r ≠ 0 → addr_of (ablib_malloc abt0 MAIN 20 L0 s) = r → cstep abt0 s (EMalloc L0 20 r) (after_malloc 20 s).
Proof.
  intros Hr E. destruct client0 as [Hc Hp]. apply (c_malloc abt0 s _ LIBC_BASE d0); [done|done| | |].
  - apply check_label_None; by vm_compute.
  - split; [unfold MAX_SMALL; lia|]. left. by vm_compute.
  - rewrite Hp. unfold after_malloc. destruct (ablib_malloc abt0 MAIN 20 L0 s) as [[r' s']|]; simpl in E; congruence.
Qed.

Definition returned {A} (o : outcome A) : bool := match o with Ret _ => true | Fault _ => false end.

Lemma run0 : csteps abt0 y0 trace0 abt0 y4.
Proof.
  apply csteps_cons with y1; [apply malloc_step; by vm_compute|].
  apply csteps_cons with y2; [apply (c_write abt0 y1 A1 3 7)|].
  apply csteps_cons with y3; [apply malloc_step; by vm_compute|].
  apply csteps_cons with y4; [|constructor].
  apply (c_free abt0 y3 y4 MAIN A2 20); [by vm_compute|by vm_compute|].
  assert (H : returned (ablib_free MAIN A2 y3) = true) by (by vm_compute).
  unfold y4, after_free. by destruct (ablib_free MAIN A2 y3) as [[[] s']|].
Qed.
Lemma run1 : csteps abt0 y0 trace1 abt0 y5.
Proof.
  apply (csteps_app abt0 y0 trace0 abt0 y4); [apply run0|]. apply csteps_cons with y5; [apply malloc_step; by vm_compute|].
  apply csteps_cons with y5; [|constructor].
  assert (load8 (h_mem (ab_heap y5)) (A1 + Z.of_nat 3) = 7) as <- by (by vm_compute). constructor.
Qed.



(** The other case: a unit that is nearly full, a released block of 20 bytes
    and a request of 200, for which the merge ends and the arbiter blocks. *)
Definition v1 := after_malloc 40800 y0.
Definition v2 := after_free (addr_of (ablib_malloc abt0 MAIN 20 L0 v1)) (after_malloc 20 v1).
Example full_label_blocks : match ablib_malloc abt0 MAIN 200 L0 v2 with Ret _ => None | Fault f => Some f end = Some Deadlock.
Proof. by vm_compute. Qed.

(** * Slack at the end of a unit *)

(** The unit has 24 bytes left.  A request for 12 bytes takes a chunk of 16 of
    them, with a header that says 24, and the unit's top stays inside the
    chunk; the chunk is released and given to a request for 20 bytes, whose
    holder writes bytes 12 to 15: the size word of the top. *)
Definition z1 := after_malloc 40916 y0.
Definition z2 := after_malloc 12 z1.
Definition B1 : Z := addr_of (ablib_malloc abt0 MAIN 12 L0 z1).
Definition z3 := after_free B1 z2.
Definition B2 : Z := addr_of (ablib_malloc abt0 MAIN 20 L0 z3).
Definition z4 := poke (B2 + 13) 0x10 (after_malloc 20 z3).
Definition B3 : Z := addr_of (ablib_malloc abt0 MAIN 20 L0 z4).

(** Blocks in use can overlap when a chunk is longer than the request that
    got it, which [heap_refines_blocks] excludes for chunks that are released.
    After a request that leaves 8 bytes of a unit, the release of its chunk and
    a request of 20 bytes that gets it again, a write to byte 13 of those 20
    bytes makes the next request of 20 bytes return an address 16 bytes into
    the same block, and its chunk reaches over the end of the unit. *)
Example slack_overlap :
  B1 ≠ 0 ∧ B2 = B1 ∧ B3 = B2 + 16 ∧ B2 < B3 < B2 + 20 ∧ AB_HEAP_START + tsize < B3 + 20.
Proof. vm_compute. repeat split. discriminate. Qed.
