(* ===== verification/Server.v ===== *)
(** What the request handlers of [monitor/arbiter.c] do to the client table,
    which requests have no effect, which ones stop the arbiter, and the access
    that a fork request sets. *)

From S2P Require Import Prelude LinkedList Label Memory Client Chunk Heap Consolidate Os Malloc Free Frame Protection Requests UnitLookup Protocol Arbiter Scenario Policy.

Section Server.
Context {K : Type} `{AbOs K}.
Implicit Types w : world K.

(** * Requests that are dropped *)

Lemma lookup_client_total abt ps a len :
  table_ok abt ps → ∃ c, arbiter_lookup_client abt (Some a) len = Ret c.
Proof.
  intros T. set (f := λ x, match _cmp_client abt (Some a, len) x with Ret b => b | Fault _ => false end).
  exists (find_data f ps.*2). apply linked_list_lookup_rep; [apply T|]. intros x Hx.
  destruct (tok_desc _ _ T x Hx) as (d & Hd & _).
  destruct (cmp_client_total abt a len x) as [b Hb]; [by eexists|]. unfold f. by rewrite Hb.
Qed.

Lemma lookup_stranger abt ps p a len :
  table_ok abt ps → 0 ≤ p < 2 ^ 32 → bound_addr p a len →
  (∀ c d, c ∈ ps.*2 → descs abt !! c = Some d → pid d ≠ p) →
  arbiter_lookup_client abt (Some a) len = Ret 0.
Proof.
  intros T Hp Hb Hn. rewrite (lookup_addr_table _ _ _ _ _ T Hp Hb).
  destruct (find_data_spec (has_pid abt p) ps.*2) as [[-> _]|(pre & post & Hds & Hf & _)]; [apply T|done|].
  exfalso. set (x := find_data _ _) in *. assert (Hx : x ∈ ps.*2) by (rewrite Hds; apply elem_of_app; right; by left).
  destruct (tok_desc _ _ T x Hx) as (d & Hd & _). unfold has_pid in Hf. rewrite Hd in Hf.
  apply Z.eqb_eq in Hf. by apply (Hn x d).
Qed.

(** A datagram is dropped, with no reply and no effect on the table, the
    allocator or the kernel, when [recvfrom] failed, when it is shorter than a
    header, when its magic or length field is wrong, when its opcode is
    unknown, or when the socket it came from is not that of a registered
    thread. *)
Theorem bad_requests_dropped e req w ps :
  table_ok (w_abt w) ps →
  let h := decode (A := rpc_header) (rdata req) in
  pkt_size req < Z.of_nat (wsize rpc_header) ∨ abt_magic h ≠ ABT_RPC_MAGIC ∨
  msg_len h < Z.of_nat (wsize rpc_header) ∨ opcode_of (opcode h) = None ∨
  (∃ p, 0 ≤ p < 2 ^ 32 ∧ bound_addr p (req_addr req) (req_addr_len req) ∧
     ∀ c d, c ∈ ps.*2 → descs (w_abt w) !! c = Some d → pid d ≠ p) →
  handle_client_rpc e req w = Ret (tt, w).
Proof.
  intros T h Hbad. unfold handle_client_rpc. destruct (_ <=? 0); [done|].
  destruct (Z.ltb_spec (pkt_size req) (Z.of_nat (wsize rpc_header))) as [|Hsz]; [done|]. fold h.
  destruct (Z.eqb_spec (abt_magic h) ABT_RPC_MAGIC) as [Hmag|]; [|done].
  destruct (Z.ltb_spec (msg_len h) (Z.of_nat (wsize rpc_header))) as [|Hlen]; [done|]. cbn [negb orb].
  unfold mbind, st_bind, gets, lift. cbv beta iota.
  destruct Hbad as [?|[?|[?|[Hop|(p & Hp & Hb & Hn)]]]]; [lia|done|lia| |].
  - destruct (lookup_client_total _ _ (req_addr req) (req_addr_len req) T) as [c ->].
    destruct (c =? 0); [done|]. by rewrite Hop.
  - by rewrite (lookup_stranger _ _ _ _ _ T Hp Hb Hn).
Qed.

(** * Requests that are denied *)

(** The world after the reply [r]. *)
Definition replied (req : abt_request) (r : abt_reply_header) (w : world K) : world K :=
  set_w_out (w_out w ++ [(take (Z.to_nat (req_addr_len req)) (req_addr req), encode r)]) w.

Lemma send_ok_eq e req r w : send_ok e = true → abt_sendreply e req r w = Ret (tt, replied req r w).
Proof. intros He. unfold abt_sendreply. by rewrite He. Qed.

Lemma get_desc_eq c d w : descs (w_abt w) !! c = Some d → get_desc c w = Ret (d, w).
Proof. intros Hd. unfold get_desc, read_desc. by rewrite Hd. Qed.

Lemma check_denied d L :
  length L = 8%nat → ¬ can_flow (unpack (label d)) (unpack (ownership d)) L →
  negb (check_label (unpack (label d)) (unpack (ownership d)) L None =? 0) = true.
Proof.
  intros HL Hf. apply negb_true_iff, Z.eqb_neq. intros E.
  apply Hf. by apply check_label_None in E; rewrite ?length_unpack.
Qed.

Lemma malloc_denied e c d req w :
  descs (w_abt w) !! c = Some d → send_ok e = true →
  ¬ can_flow (unpack (label d)) (unpack (ownership d)) (unpack (ma_label (decode (A := abreq_malloc) (rdata req)))) →
  handle_malloc_rpc e c req w = Ret (tt, replied req (reply_val e 0) w).
Proof.
  intros Hd He Hf. unfold handle_malloc_rpc. rewrite (bind_ret _ _ _ _ _ (get_desc_eq _ _ _ Hd)).
  rewrite check_denied by auto using length_unpack. by apply send_ok_eq.
Qed.

(** The privileges of [d] dominate the label [l] and the ownership [o]. *)
Definition dominates (d : client_desc) (l o : Z) : Prop :=
  can_flow (unpack (label d)) (unpack (ownership d)) (unpack l) ∧ own_le (unpack o) (unpack (ownership d)).

Lemma check_dominates d' l o :
  check_label (unpack (label d')) (unpack (ownership d')) (unpack l) (Some (unpack o)) = 0 ↔ dominates d' l o.
Proof. by apply check_label_Some; rewrite length_unpack. Qed.

(** The memory [ptr] lies in a unit of label [L]. *)
Definition in_unit_of (h : heap) (us : list Z) (ptr : Z) (L : list Z) : Prop :=
  ∃ u x t, u ∈ us ∧ h_ustates h !! u = Some x ∧ addr x ≤ ptr < addr x + length_ x ∧
    h_mstates h !! unit_av x = Some t ∧ ms_label t = L.

Lemma target_label_unit lim d ptr L us avs w :
  heap_ok lim (ab_heap (w_ab w)) us avs → lim ≤ TASK_SIZE → in_unit_of (ab_heap (w_ab w)) us ptr L →
  target_label d ptr w = Ret (L, w) ∧ length L = 8%nat.
Proof.
  intros O Hlim (u & x & t & Hu & Hx & Hp & Ht & <-).
  destruct (ho_unit _ _ _ _ O u Hu) as (y & Hy & Hok & Hav). assert (y = x) as -> by congruence.
  destruct (ho_state _ _ _ _ O _ Hav) as (t' & Ht' & Htu). assert (t' = t) as -> by congruence.
  split; [|apply Htu]. unfold target_label. pose proof (uo_low _ _ Hok) as Hl. unfold AB_HEAP_START in Hl.
  destruct (Z.eqb_spec ptr 0) as [|_]; [lia|]. cbn [negb].
  destruct (lookup_ustate_result lim _ us avs O Hlim ptr) as [H1 _].
  assert (El : lookup_ustate_by_mem ptr (ab_heap (w_ab w)) = Ret (u, ab_heap (w_ab w))) by (apply H1; [done|by exists x]).
  destruct w as [abt cg [h k] sn out]. simpl in *. unfold mbind, st_bind, lab, lh. simpl. rewrite El. simpl.
  unfold get_unit. rewrite Hx. simpl. unfold get_av. by rewrite Ht.
Qed.

Lemma join_denied e c d req w ps :
  descs (w_abt w) !! c = Some d → send_ok e = true → table_ok (w_abt w) ps →
  (∀ cj dj, is_client (w_abt w) cj dj → pid dj = pj_pid (decode (A := abreq_pthread_join) (rdata req)) →
     ¬ dominates d (label dj) (ownership dj)) →
  handle_pthread_join_rpc e c req w = Ret (tt, replied req (reply_val e (-1)) w).
Proof.
  intros Hd He T Hf. unfold handle_pthread_join_rpc. set (p := pj_pid _) in *.
  rewrite (bind_ret (gets w_abt) _ w _ _ eq_refl), (lookup_pid_table _ _ _ T), (bind_ret (lift (Ret _)) _ w _ _ eq_refl).
  destruct (find_data_spec (has_pid (w_abt w) p) ps.*2) as [[-> _]|(pre & post & Hds & Hp & _)];
    [apply T|by apply send_ok_eq|].
  set (cj := find_data _ _) in *. assert (Hin : cj ∈ ps.*2) by (rewrite Hds; set_solver).
  destruct (is_client_in _ _ _ T Hin) as (dj & Hcj & _). pose proof (tok_nonnull _ _ T _ Hin) as H0.
  destruct (Z.eqb_spec cj 0) as [|_]; [lia|]. rewrite (bind_ret _ _ _ _ _ (get_desc_eq _ _ _ Hd)).
  rewrite (bind_ret _ _ _ _ _ (get_desc_eq _ _ _ (proj2 Hcj))).
  rewrite (proj2 (negb_true_iff _)); [by apply send_ok_eq|]. apply Z.eqb_neq. rewrite check_dominates.
  apply (Hf cj); [done|]. unfold has_pid in Hp. rewrite (proj2 Hcj) in Hp. by apply Z.eqb_eq.
Qed.

(** C25: A request that the label check rejects is answered and nothing else,
    for each of the six requests that are checked: [malloc] and [calloc] with
    a label the client may not write get [NULL]; a fork whose label or
    ownership the client may not give, and a join of a thread whose label or
    ownership it does not dominate (or of no thread at all), get -1; [free] and
    [realloc] of memory in a unit whose label the client may not write get a
    reply without a value.  Table, allocator, memory, kernel and the category
    counter are what they were. *)
Theorem denied_requests_harmless e c d req w ps lim us avs :
  descs (w_abt w) !! c = Some d → send_ok e = true →
  table_ok (w_abt w) ps → heap_ok lim (ab_heap (w_ab w)) us avs → lim ≤ TASK_SIZE →
  let L1 := unpack (label d) in let O1 := unpack (ownership d) in
  (let r := decode (A := abreq_malloc) (rdata req) in
   ¬ can_flow L1 O1 (unpack (ma_label r)) →
   handle_malloc_rpc e c req w = Ret (tt, replied req (reply_val e 0) w)) ∧
  (let r := decode (A := abreq_calloc) (rdata req) in
   ¬ can_flow L1 O1 (unpack (ca_label r)) →
   handle_calloc_rpc e c req w = Ret (tt, replied req (reply_val e 0) w)) ∧
  (let r := decode (A := abreq_fork) (rdata req) in
   ¬ dominates d (fk_label r) (fk_ownership r) →
   handle_fork_rpc e c req w = Ret (tt, replied req (reply_val e (-1)) w)) ∧
  (let r := decode (A := abreq_pthread_join) (rdata req) in
   (∀ cj dj, is_client (w_abt w) cj dj → pid dj = pj_pid r → ¬ dominates d (label dj) (ownership dj)) →
   handle_pthread_join_rpc e c req w = Ret (tt, replied req (reply_val e (-1)) w)) ∧
  (let r := decode (A := abreq_free) (rdata req) in
   ∀ L, in_unit_of (ab_heap (w_ab w)) us (fr_addr r) L → ¬ can_flow L1 O1 L →
   handle_free_rpc e c req w = Ret (tt, replied req (reply_init e) w)) ∧
  (let r := decode (A := abreq_realloc) (rdata req) in
   ∀ L, in_unit_of (ab_heap (w_ab w)) us (re_addr r) L → ¬ can_flow L1 O1 L →
   handle_realloc_rpc e c req w = Ret (tt, replied req (reply_init e) w)).
Proof.
  intros Hd He T O Hlim L1 O1. split_and!; intros r.
  - intros Hf. by eapply malloc_denied.
  - intros Hf. unfold handle_calloc_rpc. rewrite (bind_ret _ _ _ _ _ (get_desc_eq _ _ _ Hd)).
    rewrite check_denied by auto using length_unpack. by apply send_ok_eq.
  - intros Hf. unfold handle_fork_rpc. rewrite (bind_ret _ _ _ _ _ (get_desc_eq _ _ _ Hd)).
    rewrite (proj2 (negb_true_iff _)); [by apply send_ok_eq|]. apply Z.eqb_neq. by rewrite check_dominates.
  - intros Hf. by eapply join_denied.
  - intros L HL Hf. destruct (target_label_unit lim d _ _ _ _ _ O Hlim HL) as [Et Hl].
    unfold handle_free_rpc. rewrite (bind_ret _ _ _ _ _ (get_desc_eq _ _ _ Hd)). fold r.
    rewrite (bind_ret _ _ _ _ _ Et), check_denied by done. by apply send_ok_eq.
  - intros L HL Hf. destruct (target_label_unit lim d _ _ _ _ _ O Hlim HL) as [Et Hl].
    unfold handle_realloc_rpc. rewrite (bind_ret _ _ _ _ _ (get_desc_eq _ _ _ Hd)). fold r.
    rewrite (bind_ret _ _ _ _ _ Et), check_denied by done. by apply send_ok_eq.
Qed.

(** * Requests that stop the arbiter *)

(** C32: Two requests that any client can make stop the arbiter, for all
    clients.  A client whose ownership has no blank entry left, which it can
    fill up by creating categories, creates one more: the assertion of the
    handler fails.  A client releases or resizes an address that is not [NULL]
    and lies in no unit: the search for its unit runs off the end of the list
    and dereferences [NULL]; the label check, which comes after it, does not
    protect. *)
Theorem request_stops_arbiter e c d req w lim us avs :
  descs (w_abt w) !! c = Some d → heap_ok lim (ab_heap (w_ab w)) us avs → lim ≤ TASK_SIZE →
  ((∀ i, (i < 8)%nat → at_ (unpack (ownership d)) i ≠ 0) → handle_create_cat_rpc e c req w = Fault AssertFail) ∧
  (∀ ptr, ptr ≠ 0 → (∀ u x, u ∈ us → h_ustates (ab_heap (w_ab w)) !! u = Some x → ¬ addr x ≤ ptr < addr x + length_ x) →
     (fr_addr (decode (A := abreq_free) (rdata req)) = ptr → handle_free_rpc e c req w = Fault Segv) ∧
     (re_addr (decode (A := abreq_realloc) (rdata req)) = ptr → handle_realloc_rpc e c req w = Fault Segv)).
Proof.
  intros Hd O Hlim. split.
  - intros Hfull. unfold handle_create_cat_rpc. rewrite (bind_ret (gets w_cat_gen) _ _ _ _ eq_refl).
    destruct (create_cat _ _) as [cat g]. rewrite (bind_ret (modify _) _ _ tt (set_w_cat_gen g w)) by done.
    rewrite (bind_ret _ _ _ _ _ (get_desc_eq c d (set_w_cat_gen g w) Hd)).
    destruct (add_onwership_cases (unpack (ownership d)) cat (length_unpack _)) as [(i & Hi & Hz & _)|[_ E]].
    + by apply Hfull in Hz.
    + rewrite E. by unfold mbind, st_bind.
  - intros ptr Hp Hout. destruct (lookup_ustate_result lim _ us avs O Hlim ptr) as [_ H2].
    assert (El : lookup_ustate_by_mem ptr (ab_heap (w_ab w)) = Fault Segv).
    { apply H2. intros u Hu (x & Hx & Hin). by apply (Hout u x). }
    assert (Et : target_label d ptr w = Fault Segv).
    { unfold target_label. rewrite (proj2 (Z.eqb_neq ptr 0)) by done. cbn [negb].
      unfold mbind at 1, st_bind at 1, lab, lh. by rewrite El. }
    split; intros <-.
    + unfold handle_free_rpc. rewrite (bind_ret _ _ _ _ _ (get_desc_eq _ _ _ Hd)).
      unfold mbind at 1, st_bind at 1. by rewrite Et.
    + unfold handle_realloc_rpc. rewrite (bind_ret _ _ _ _ _ (get_desc_eq _ _ _ Hd)).
      unfold mbind at 1, st_bind at 1. by rewrite Et.
Qed.

(** * Changes of the client table *)

(** The client table as a set of entries. *)
Abbreviation entries w := (is_client (w_abt w)).
Definition same_entries w w' : Prop := ∀ c' d', entries w' c' d' ↔ entries w c' d'.

(** The entry a fork request describes: the thread with the pid, the label and
    the ownership of the request, at the socket address of that pid. *)
Definition fork_entry (req : abt_request) : client_desc :=
  let r := decode (A := abreq_fork) (rdata req) in
  let ua := set_client_path (req_addr req) (fk_pid r) in
  ClientDesc (ClientKey ua (2 + strlen (GET_PATH ua) + 1)) (fk_pid r) (fk_label r) (fk_ownership r).

(** What a request [op] of the client [c] with the description [d] does to the
    table. *)
Definition table_step w (c : Z) (d : client_desc) (req : abt_request) (op : abt_opcode) w' : Prop :=
  match op with
  | ABT_CREATE_CAT =>
      let cat := (create_cat (cc_cat_type (decode (A := abreq_create_cat) (rdata req))) (w_cat_gen w)).1 in
      ∀ c' d', entries w' c' d' ↔
        (c' ≠ c ∧ entries w c' d') ∨
        (c' = c ∧ d' = ClientDesc (client_addr d) (pid d) (label d) (pack (add_onwership (unpack (ownership d)) cat).2))
  | ABT_FORK =>
      let r := decode (A := abreq_fork) (rdata req) in
      (¬ dominates d (fk_label r) (fk_ownership r) ∧ same_entries w w') ∨
      (dominates d (fk_label r) (fk_ownership r) ∧
       ∃ cn, (∀ d0, ¬ entries w cn d0) ∧
         ∀ c' d', entries w' c' d' ↔ entries w c' d' ∨ (c' = cn ∧ d' = fork_entry req))
  | ABT_PTHREAD_JOIN =>
      let p := pj_pid (decode (A := abreq_pthread_join) (rdata req)) in
      (same_entries w w' ∧
       ((∀ cj dj, entries w cj dj → pid dj ≠ p) ∨
        ∃ cj dj, entries w cj dj ∧ pid dj = p ∧ ¬ dominates d (label dj) (ownership dj))) ∨
      (∃ cj dj, entries w cj dj ∧ pid dj = p ∧ dominates d (label dj) (ownership dj) ∧
         ∀ c' d', entries w' c' d' ↔ entries w c' d' ∧ c' ≠ cj)
  | _ => same_entries w w'
  end.

Lemma send_abt e req r w u w' : abt_sendreply e req r w = Ret (u, w') → w_abt w' = w_abt w.
Proof. unfold abt_sendreply. destruct (send_ok e); [|done]. by intros [= _ <-]. Qed.

(** The handlers that leave the table alone *)
Lemma handler_abt e c req op w u w' :
  op ≠ ABT_CREATE_CAT → op ≠ ABT_FORK → op ≠ ABT_PTHREAD_JOIN →
  dispatch e c req op w = Ret (u, w') → w_abt w' = w_abt w.
Proof.
  assert (Ht : ∀ d ptr w L w1, target_label d ptr w = Ret (L, w1) → w_abt w1 = w_abt w).
  { intros d ptr w0 L w1 E. unfold target_label in E. destruct (negb _); [|by injection E as _ <-].
    bstep E as x w2 E2. apply lab_inv in E2 as [_ E2]. bstep E as y w3 E3. apply lab_inv in E3 as [_ E3].
    bstep E as z w4 E4. apply lab_inv in E4 as [_ E4]. injection E as _ <-. congruence. }
  intros H1 H2 H3 E. destruct op; try done; cbn [dispatch] in E.
  - unfold handle_malloc_rpc in E. bstep E as d w1 E1. apply get_desc_inv in E1 as [_ ->].
    destruct (negb _); [by apply send_abt in E|]. bstep E as a w2 E2. apply gets_inv in E2 as [-> ->].
    bstep E as x w3 E3. apply lab_inv in E3 as [_ E3]. apply send_abt in E. congruence.
  - unfold handle_free_rpc in E. bstep E as d w1 E1. apply get_desc_inv in E1 as [_ ->].
    bstep E as L w2 E2. apply Ht in E2. destruct (negb _); [apply send_abt in E; congruence|].
    bstep E as x w3 E3. apply lab_inv in E3 as [_ E3]. apply send_abt in E. congruence.
  - unfold handle_get_label_rpc in E. bstep E as d w1 E1. apply get_desc_inv in E1 as [_ ->]. by apply send_abt in E.
  - unfold handle_get_ownership_rpc in E. bstep E as d w1 E1. apply get_desc_inv in E1 as [_ ->]. by apply send_abt in E.
  - unfold handle_get_mem_label_rpc in E. bstep E as x w3 E3. apply lab_inv in E3 as [_ E3]. apply send_abt in E. congruence.
  - unfold handle_calloc_rpc in E. bstep E as d w1 E1. apply get_desc_inv in E1 as [_ ->].
    destruct (negb _); [by apply send_abt in E|]. bstep E as a w2 E2. apply gets_inv in E2 as [-> ->].
    bstep E as x w3 E3. apply lab_inv in E3 as [_ E3]. apply send_abt in E. congruence.
  - unfold handle_realloc_rpc in E. bstep E as d w1 E1. apply get_desc_inv in E1 as [_ ->].
    bstep E as L w2 E2. apply Ht in E2. destruct (negb _); [apply send_abt in E; congruence|].
    bstep E as a w4 E4. apply gets_inv in E4 as [-> ->].
    bstep E as x w3 E3. apply lab_inv in E3 as [_ E3]. apply send_abt in E. congruence.
  - by apply send_abt in E.
Qed.

Section Table.
Variables (e : env) (c : Z) (d : client_desc) (req : abt_request) (w : world K) (ps : list (Z * Z)).
Hypotheses (T : table_ok (w_abt w) ps) (Hc : is_client (w_abt w) c d).

Lemma same_table w' : w_abt w' = w_abt w → same_entries w w'.
Proof. intros E c' d'. by rewrite E. Qed.

Lemma create_cat_table u w' :
  handle_create_cat_rpc e c req w = Ret (u, w') → table_step w c d req ABT_CREATE_CAT w'.
Proof.
  intros E. unfold handle_create_cat_rpc in E. bstep E as g w0 E0. apply gets_inv in E0 as [-> ->].
  cbn [table_step]. destruct (create_cat _ _) as [cat g'] eqn:Ecat. bstep E as x w1 E1. apply modify_inv in E1 as ->.
  bstep E as d0 w2 E2. apply get_desc_inv in E2 as [Hd ->]. simpl in Hd.
  assert (d0 = d) as -> by (destruct Hc; congruence).
  destruct (add_onwership _ cat) as [cat' own] eqn:Ea.
  bstep E as y w3 E3. apply modify_inv in E3 as ->. bstep E as z w4 E4. apply assertb_inv in E4 as [_ ->].
  apply send_abt in E. intros c' d'. rewrite E. unfold is_client. simpl. rewrite Ea. simpl.
  destruct (decide (c = c')) as [<-|Hne].
  - rewrite lookup_insert_eq. destruct Hc as [Hin _]. split.
    + intros [_ [= <-]]. by right.
    + intros [[? _]|[_ ->]]; done.
  - rewrite lookup_insert_ne by done. split; [by left|]. intros [[_ ?]|[? _]]; done.
Qed.

Lemma fork_table u w' :
  (∀ c d, is_client (w_abt w) c d → c < h_libc_next (ab_heap (w_ab w))) →
  handle_fork_rpc e c req w = Ret (u, w') → table_step w c d req ABT_FORK w'.
Proof.
  intros Hfr E. unfold handle_fork_rpc in E. bstep E as d0 w0 E0. apply get_desc_inv in E0 as [Hd ->].
  assert (d0 = d) as -> by (destruct Hc; congruence). cbn [table_step].
  destruct (negb _) eqn:Hck.
  { left. split; [|by eapply same_table, send_abt]. rewrite <-check_dominates. by apply negb_true_iff, Z.eqb_neq in Hck. }
  apply negb_false_iff, Z.eqb_eq, check_dominates in Hck. right. split; [done|].
  bstep E as cn w1 E1. apply lab_inv in E1 as [E1 A1]. apply lh_inv in E1 as [E1 _].
  apply libc_malloc_inv in E1 as [[-> _]|[-> _]]; [done| |done]. set (cn := h_libc_next _) in *.
  destruct (cn =? 0); [done|].
  bstep E as x w2 E2. apply modify_inv in E2 as ->.
  bstep E as y w3 E3. apply insert_client_inv in E3 as (l' & Hn & Hi & ->). simpl in Hn, Hi.
  bstep E as z w4 E4. apply lab_inv in E4 as [_ A4]. simpl in A4. apply send_abt in E.
  assert (Hni : ∀ d0, ¬ is_client (w_abt w) cn d0) by (intros d0 H0; apply Hfr in H0; unfold cn in *; lia).
  exists cn. split; [done|]. intros c' d'. rewrite E, A4. unfold is_client at 1. simpl. rewrite A1 in *.
  destruct (list_insert_tail_alloc _ _ cn (tok_rep _ _ T) Hn) as (l2 & Hi2 & R2).
  assert (l2 = l') as -> by congruence. split.
  - intros [(qs & R & Hin) Hd']. rewrite <-(ll_rep_det _ _ _ R2 R), fmap_app in Hin.
    destruct (decide (cn = c')) as [<-|Hne].
    + rewrite lookup_insert_eq in Hd'. injection Hd' as <-. by right.
    + rewrite lookup_insert_ne in Hd' by done. left. split; [|done]. exists ps. split; [apply T|].
      apply elem_of_app in Hin as [|Hin%list_elem_of_singleton]; [done|]. by simpl in Hin.
  - intros [Hc'|[-> ->]].
    + destruct (is_client_table _ _ _ _ T Hc') as [Hin _]. split.
      * eexists. split; [exact R2|]. rewrite fmap_app. set_solver.
      * rewrite lookup_insert_ne; [by apply Hc'|]. intros <-. by apply (Hni d').
    + split; [|by rewrite lookup_insert_eq]. eexists. split; [exact R2|]. rewrite fmap_app. set_solver.
Qed.

Lemma join_table u w' :
  handle_pthread_join_rpc e c req w = Ret (u, w') → table_step w c d req ABT_PTHREAD_JOIN w'.
Proof.
  intros E. unfold handle_pthread_join_rpc in E. bstep E as abt w1 E1. apply gets_inv in E1 as [-> ->].
  set (p := pj_pid _) in E. cbn [table_step]. fold p. rewrite (lookup_pid_table _ _ _ T) in E.
  bstep E as cj w2 E2. apply lift_inv in E2 as [[= <-] ->].
  destruct (find_data_spec (has_pid (w_abt w) p) ps.*2) as [[H0 Hno]|(pre & post & Hds & Hf & _)]; [apply T|..].
  { rewrite H0 in E. cbn [Z.eqb] in E. left. split; [by eapply same_table, send_abt|left]. intros cj dj Hcj.
    destruct (is_client_table _ _ _ _ T Hcj) as [Hin _]. apply Hno in Hin. unfold has_pid in Hin.
    destruct Hcj as [_ Hd]. rewrite Hd in Hin. by apply Z.eqb_neq in Hin. }
  set (cj := find_data _ _) in *. assert (Hin : cj ∈ ps.*2) by (rewrite Hds; set_solver).
  destruct (is_client_in _ _ _ T Hin) as (dj & Hcj & _). pose proof (tok_nonnull _ _ T _ Hin) as H0.
  assert (Hp : pid dj = p). { unfold has_pid in Hf. destruct Hcj as [_ Hd]. rewrite Hd in Hf. by apply Z.eqb_eq. }
  destruct (Z.eqb_spec cj 0) as [|_]; [lia|].
  bstep E as d1 w3 E3. apply get_desc_inv in E3 as [Hd1 ->]. assert (d1 = d) as -> by (destruct Hc; congruence).
  bstep E as d2 w4 E4. apply get_desc_inv in E4 as [Hd2 ->]. assert (d2 = dj) as -> by (destruct Hcj; congruence).
  destruct (negb _) eqn:Hck.
  { left. split; [by eapply same_table, send_abt|right]. exists cj, dj. split; [done|]. split; [done|].
    rewrite <-check_dominates. by apply negb_true_iff, Z.eqb_neq in Hck. }
  apply negb_false_iff, Z.eqb_eq, check_dominates in Hck. right. exists cj, dj. do 3 (split; [done|]).
  bstep E as r w5 E5. apply lift_inv in E5 as [E5 ->].
  destruct (arbiter_del_client_table _ _ _ T Hin) as (pre' & a & post' & abt' & Hps & Hdel & T' & Ht).
  rewrite Hdel in E5. injection E5 as <-. bstep E as x w6 E6. apply modify_inv in E6 as ->.
  apply send_abt in E. intros c' d'. rewrite E. unfold is_client at 1. simpl. rewrite Ht.
  assert (Hmem : ∀ y, y ∈ (pre' ++ post').*2 ↔ y ∈ ps.*2 ∧ y ≠ cj).
  { intros y. pose proof (tok_nodup _ _ T) as Hnd. rewrite Hps, fmap_app in Hnd. simpl in Hnd.
    rewrite <-Permutation_middle in Hnd. apply NoDup_cons in Hnd as [Hni _]. rewrite <-fmap_app in Hni.
    rewrite Hps, !fmap_app. rewrite fmap_app in Hni. simpl. set_solver. }
  split.
  - intros [(qs & R & Hq) Hd']. apply lookup_delete_Some in Hd' as [Hne Hd'].
    rewrite <-(ll_rep_det _ _ _ (tok_rep _ _ T') R), Hmem in Hq. split; [|by intros ->]. split; [|done].
    exists ps. split; [apply T|apply Hq].
  - intros [Hc' Hne]. destruct (is_client_table _ _ _ _ T Hc') as [Hq _]. split.
    + exists (pre' ++ post'). split; [apply T'|]. by apply Hmem.
    + rewrite lookup_delete_ne by done. apply Hc'.
Qed.
End Table.

(** C7: What a request does to the client table, exactly, when it returns and
    entries were placed below the C heap's next address: [create_cat] replaces
    the requester's ownership by itself with the one created category added;
    a fork whose label information may flow to from the requester and whose
    ownership is part of the requester's adds one new entry, with the pid, the
    label, the ownership and the address of the request, and any other fork
    changes nothing; a join removes one entry with the given pid, whose label
    and ownership the requester covers in the same sense, or changes nothing,
    and then no entry has that pid or one that has is not covered; every other
    request leaves the table as it is. *)
Theorem privileges_confined e c d req op w u w' ps :
  table_ok (w_abt w) ps → is_client (w_abt w) c d →
  (∀ c d, is_client (w_abt w) c d → c < h_libc_next (ab_heap (w_ab w))) →
  dispatch e c req op w = Ret (u, w') → table_step w c d req op w'.
Proof.
  intros T Hc Hfr E.
  destruct op; try solve [apply same_table; eapply handler_abt; [| | |exact E]; done].
  - eapply fork_table; [exact T|exact Hc|exact Hfr|exact E].
  - eapply join_table; [exact T|exact Hc|exact E].
  - eapply create_cat_table; [exact Hc|exact E].
Qed.
End Server.

Section Fork.
Context {K : Type} `{HK : AbOsLaws K}.
Implicit Types w : world K.

End Fork.

Lemma bad_requests_dropped_witness :
  handle_client_rpc env0 (AbtRequest 0 24 (pkt_malloc 100 0) (from_addr 99) 21) w_boot = Ret (tt, w_boot).
Proof.
  destruct (winv_table w_boot) as [ps T].
  { eapply boot_winv; [exact scenario_boot|]. by vm_compute. }
  apply (bad_requests_dropped env0 _ w_boot ps T). right; right; right; right. exists 99. split; [lia|].
  split; [by exists []|]. intros c d _ Hd. revert c d Hd.
  change (map_Forall (λ _ d, pid d ≠ 99) (descs (w_abt w_boot))). by apply (bool_decide_eq_true_1 _); vm_compute.
Defined.

Lemma x3_winv : winv x3.2.
Proof.
  apply (run_winv _ _ scenario_run). eapply boot_winv; [exact scenario_boot|]. by vm_compute.
Qed.

Definition C101 : Z := LIBC_BASE + 288.
Lemma x3_client :
  is_Some (descs (w_abt x3.2) !! C101) → is_client (w_abt x3.2) C101 (default blank (descs (w_abt x3.2) !! C101)).
Proof.
  intros [d Hd]. split; [|by rewrite Hd]. destruct x3_winv as (us & avs & S).
  destruct (co_table _ _ (sf_clients _ _ _ _ S)) as (ps & T). exists ps. split; [apply T|].
  assert (Hl : linked_list_locate (client_list (w_abt x3.2)) C101 = Ret 2) by (by vm_compute).
  pose proof (tok_rep _ _ T) as R. rewrite (linked_list_locate_rep _ _ _ R) in Hl. injection Hl as Hl.
  destruct (find_node_split C101 ps (rep_nodup _ _ R) (rep_ptr _ _ R)) as (pre & post & -> & _); [by rewrite Hl|].
  rewrite fmap_app. apply elem_of_app. right. by left.
Qed.

(** Thread 101 may not join the main thread, which owns a category, and may
    not allocate memory that vouches for a category it does not own. *)
Lemma denied_requests_harmless_witness :
  let join := AbtRequest 0 16 (pkt_join MAIN) (from_addr 101) 22 in
  let alloc := AbtRequest 0 24 (pkt_malloc 100 t_aw) (from_addr 101) 22 in
  handle_pthread_join_rpc env0 C101 join x3.2 = Ret (tt, replied join (reply_val env0 (-1)) x3.2) ∧
  handle_malloc_rpc env0 C101 alloc x3.2 = Ret (tt, replied alloc (reply_val env0 0) x3.2).
Proof.
  intros join alloc. destruct x3_winv as (us & avs & S).
  destruct (co_table _ _ (sf_clients _ _ _ _ S)) as (ps & T).
  destruct (descs (w_abt x3.2) !! C101) as [d|] eqn:Hd; [|by vm_compute in Hd].
  assert (El : label d = 0 ∧ ownership d = 0) by (vm_compute in Hd; by injection Hd as <-).
  pose proof (proj2 (proj2 (sf_brk _ _ _ _ S))) as Hb. split.
  - destruct (denied_requests_harmless env0 C101 d join x3.2 ps _ us avs Hd eq_refl T (sf_heap _ _ _ _ S) Hb)
      as (_ & _ & _ & H & _). apply H. clear H.
    intros cj dj [_ Hdj] Hp. rewrite <-check_dominates. destruct El as [-> ->].
    assert (H1 : map_Forall (λ _ d, pid d = 100 → label d = 0 ∧ ownership d = 1) (descs (w_abt x3.2)))
      by (by apply (bool_decide_eq_true_1 _); vm_compute).
    destruct (H1 cj dj Hdj) as [-> ->]; [by vm_compute in Hp|]. by vm_compute.
  - destruct (denied_requests_harmless env0 C101 d alloc x3.2 ps _ us avs Hd eq_refl T (sf_heap _ _ _ _ S) Hb)
      as [H _]. apply H. clear H.
    rewrite <-check_label_None by apply length_unpack. destruct El as [-> ->]. by vm_compute.
Defined.

(** Thread 101 releases address 8. *)
Lemma request_stops_arbiter_witness :
  handle_free_rpc env0 C101 (AbtRequest 0 16 (pkt_free 8) (from_addr 101) 22) x3.2 = Fault Segv.
Proof.
  destruct x3_winv as (us & avs & S).
  destruct (descs (w_abt x3.2) !! C101) as [d|] eqn:Hd; [|by vm_compute in Hd].
  destruct (request_stops_arbiter env0 C101 d (AbtRequest 0 16 (pkt_free 8) (from_addr 101) 22) x3.2 _ us avs Hd
    (sf_heap _ _ _ _ S) (proj2 (proj2 (sf_brk _ _ _ _ S)))) as [_ H].
  apply (H 8); [lia| |by vm_compute].
  intros u x Hu Hx. destruct (ho_unit _ _ _ _ (sf_heap _ _ _ _ S) u Hu) as (y & Hy & Hok & _).
  assert (y = x) as -> by congruence. pose proof (uo_low _ _ Hok) as Hl. unfold AB_HEAP_START in Hl. lia.
Defined.

Definition U1 : Z := LIBC_BASE + 1488.

(** The thread 101, which may write but not read memory of label 1, needs a
    unit of that label: it can read and write the unit. *)
Definition AV1 : Z := LIBC_BASE + 576.
Definition got_unit (nb : Z) : outcome (Z * abst abkern) := alloc_unit (w_abt x3.2) 101 nb AV1 (unpack 1) (w_ab x3.2).
Lemma alloc_unit_access_witness :
  ∃ s1 s2, got_unit 24 = Ret (0x8000a008, s1) ∧ got_unit 40936 = Ret (0, s2) ∧
    check_mem_prot (unpack 0) (unpack 0) (unpack 1) = PROT_N ∧
    k_prot (ab_os s1) !! (101, 0x8000a) = Some 3 ∧ k_prot (ab_os s2) !! (101, 0x8000a) = Some 3.
Proof.
  destruct x3_winv as (us & avs & S).
  set (d := default blank (descs (w_abt x3.2) !! C101)). assert (Hp : pid d = 101) by (by vm_compute).
  assert (Hc : is_client (w_abt x3.2) C101 d) by (apply x3_client; by eexists; vm_compute).
  assert (Hav : AV1 ∈ avs).
  { destruct (ho_mlist _ _ _ _ (sf_heap _ _ _ _ S)) as (qs & R & <-).
    assert (El : h_mstate_list (ab_heap (w_ab x3.2)) = single AV1) by (by vm_compute). rewrite El in R.
    rewrite <-(ll_rep_det _ _ _ (single_rep AV1) R). by left. }
  assert (Ht : ∃ t, h_mstates (ab_heap (w_ab x3.2)) !! AV1 = Some t ∧ ms_label t = unpack 1) by (eexists; split; by vm_compute).
  destruct Ht as (t & Ht & HtL).
  assert (Hg : in_pages (os_brk (ab_os (w_ab x3.2))) UNIT_SIZE 0x8000a).
  { change (os_brk (ab_os (w_ab x3.2))) with (k_ab_brk (ab_os (w_ab x3.2))).
    assert (k_ab_brk (ab_os (w_ab x3.2)) = 0x8000a000) as -> by (by vm_compute).
    unfold in_pages, UNIT_SIZE, PAGE_PER_UNIT, PAGESIZE. lia. }
  assert (E : ∀ nb r, match got_unit nb with Ret (x, _) => Some x | Fault _ => None end = Some r → ∃ s, got_unit nb = Ret (r, s)).
  { intros nb r. destruct (got_unit nb) as [[x s]|]; [|done]. intros [= ->]. eauto. }
  destruct (E 24 0x8000a008) as [s1 E1]; [by vm_compute|]. destruct (E 40936 0) as [s2 E2]; [by vm_compute|].
  exists s1, s2. split; [exact E1|]. split; [exact E2|]. split; [by vm_compute|]. unfold got_unit in E1, E2. rewrite <-Hp in E1, E2 |- *.
  pose proof (MINSIZE_16) as H16.
  split.
  - destruct (alloc_unit_access (w_abt x3.2) (w_ab x3.2) us avs C101 d 24 AV1 t (unpack 1) _ s1 S Hc eq_refl Hav Ht HtL ltac:(lia) E1)
      as (_ & _ & H & _). exact (H _ Hg).
  - destruct (alloc_unit_access (w_abt x3.2) (w_ab x3.2) us avs C101 d 40936 AV1 t (unpack 1) _ s2 S Hc eq_refl Hav Ht HtL ltac:(lia) E2)
      as (_ & _ & H & _). exact (H _ Hg).
Defined.

(** The only client before and after the main thread created a category *)
Lemma only_client (w : world abkern) :
  client_list (w_abt w) = single LIBC_BASE → bool_decide (is_Some (descs (w_abt w) !! LIBC_BASE)) = true →
  is_client (w_abt w) LIBC_BASE (default blank (descs (w_abt w) !! LIBC_BASE)).
Proof.
  intros Hl [d Hd]%bool_decide_eq_true_1. split; [|by rewrite Hd]. exists [(1, LIBC_BASE)]. split; [|by left].
  rewrite Hl. apply single_rep.
Qed.

(** The main thread owns what it just created, and is the only entry still. *)
Lemma privileges_confined_witness :
  table_step (set_w_serial 1 w_boot) LIBC_BASE (default blank (descs (w_abt w_boot) !! LIBC_BASE)) x1.1
    ABT_CREATE_CAT x1.2.
Proof.
  pose proof (boot_winv k_boot MAIN blank tt w_boot scenario_boot ltac:(by vm_compute)) as I.
  destruct (winv_table w_boot I) as [ps T].
  eapply (privileges_confined env0 LIBC_BASE _ x1.1 ABT_CREATE_CAT (set_w_serial 1 w_boot) tt x1.2 ps T).
  - apply (only_client (set_w_serial 1 w_boot)); by vm_compute.
  - destruct I as (us & avs & S). exact (sf_fresh _ _ _ _ S).
  - by vm_compute.
Defined.
