(* ===== verification/Rpc.v ===== *)
(** Remote calls end to end: the stubs of [client_module/lib_client.c]
    composed with the server loop of [monitor/arbiter.c]. *)

From S2P Require Import Prelude LinkedList Label Memory Client Chunk Heap Consolidate Os Malloc Free Frame Protection Requests UnitLookup Protocol Arbiter LibClient Scenario Policy Server.

Section Rpc.
Context {K : Type} `{AbOs K}.

(** The network of thread [p]: a message is handed to the server, and the
    datagram the server sends comes back from its socket. *)
Definition connect (p : Z) (e : env) (req : abt_request) (w : world K) : net := λ msg,
  (Z.of_nat (length msg),
   match server_step (RecvPkt msg (from_addr p)) e req w with
   | Ret (_, w') =>
       match rev (w_out w') with
       | (_, bs) :: _ => [CPkt bs (sockaddr_un MONITOR_SOCKET)]
       | [] => []
       end
   | Fault _ => []
   end).

(** * Delivery of a request *)

Lemma write_at_0 buf bs : (length bs ≤ length buf)%nat → write_at buf 0 bs = bs ++ drop (length bs) buf.
Proof. intros Hl. unfold write_at. by rewrite take_0, app_nil_l. Qed.

(** The request buffer after a datagram of [p] *)
Definition received (p : Z) (msg : list Z) (req : abt_request) (serial : Z) : abt_request :=
  AbtRequest serial (Z.of_nat (length msg)) (msg ++ drop (length msg) (rdata req))
    (from_addr p ++ drop (length (from_addr p)) (req_addr req)) (Z.of_nat (length (from_addr p))).

Lemma length_from_addr p : (length (from_addr p) ≤ 30)%nat.
Proof.
  unfold from_addr. rewrite !length_app, length_le_enc. pose proof (client_path_length p). change (length [0]) with 1%nat. lia.
Qed.

Lemma received_eq p msg req serial :
  length (rdata req) = RPC_DATA_LEN → length (req_addr req) = 256%nat → (length msg ≤ RPC_DATA_LEN)%nat →
  wait_client_call (RecvPkt msg (from_addr p)) serial req = (received p msg req serial, u32 (serial + 1)).
Proof.
  intros Hr Ha Hm. pose proof (length_from_addr p). unfold wait_client_call, received.
  rewrite !(take_ge msg), !(take_ge (from_addr p)) by lia. rewrite !write_at_0 by lia. done.
Qed.

Lemma received_bound p msg req serial :
  bound_addr p (req_addr (received p msg req serial)) (req_addr_len (received p msg req serial)).
Proof.
  exists (drop (length (from_addr p)) (req_addr req)). unfold received. cbn [req_addr req_addr_len].
  unfold from_addr at 1. rewrite <-!app_assoc. split; [done|].
  unfold from_addr. rewrite !length_app, length_le_enc. change (length [0]) with 1%nat. lia.
Qed.

(** The socket of a registered thread is recognised. *)
Lemma lookup_registered abt ps c d a len :
  table_ok abt ps → is_client abt c d → bound_addr (pid d) a len →
  (∀ c1 d1, is_client abt c1 d1 → pid d1 = pid d → c1 = c) →
  arbiter_lookup_client abt (Some a) len = Ret c.
Proof.
  intros T Hc Hb Hu. destruct (is_client_table _ _ _ _ T Hc) as [Hin Hok].
  rewrite (lookup_addr_table _ _ (pid d) _ _ T); [|apply Hok|done]. f_equal.
  destruct (find_data_spec (has_pid abt (pid d)) ps.*2) as [[_ Hn]|(pre & post & Hds & Hf & _)]; [apply T| |].
  - specialize (Hn c Hin). unfold has_pid in Hn. destruct Hc as [_ Hd]. rewrite Hd, Z.eqb_refl in Hn. done.
  - set (x := find_data _ _) in *. assert (Hx : x ∈ ps.*2) by (rewrite Hds; apply elem_of_app; right; by left).
    destruct (is_client_in _ _ _ T Hx) as (dx & Hdx & _). apply (Hu x dx Hdx).
    unfold has_pid in Hf. destruct Hdx as [_ Hdx]. rewrite Hdx in Hf. by apply Z.eqb_eq.
Qed.

(** A call that [p] makes: thread [p] is the client [c] of the table. *)
Record caller (w : world K) (p c : Z) (d : client_desc) (req : abt_request) : Prop := {
  ca_table : ∃ ps, table_ok (w_abt w) ps;
  ca_client : is_client (w_abt w) c d;
  ca_pid : pid d = p;
  ca_unique c1 d1 : is_client (w_abt w) c1 d1 → pid d1 = pid d → c1 = c;
  ca_rdata : length (rdata req) = RPC_DATA_LEN;
  ca_addr : length (req_addr req) = 256%nat;
}.

Lemma rpc_dispatched e req w c op :
  let h := decode (A := rpc_header) (rdata req) in
  12 ≤ pkt_size req → abt_magic h = ABT_RPC_MAGIC → 12 ≤ msg_len h → opcode_of (opcode h) = Some op →
  arbiter_lookup_client (w_abt w) (Some (req_addr req)) (req_addr_len req) = Ret c → c ≠ 0 →
  handle_client_rpc e req w = dispatch e c req op w.
Proof.
  intros h Hs Hm Hl Ho Hc Hne. unfold handle_client_rpc. fold h.
  change (Z.of_nat (wsize rpc_header)) with 12. rewrite (proj2 (Z.leb_gt (pkt_size req) 0)) by lia.
  rewrite (proj2 (Z.ltb_ge (pkt_size req) 12)), Hm, Z.eqb_refl, (proj2 (Z.ltb_ge (msg_len h) 12)) by done.
  cbn [negb orb]. unfold mbind, st_bind, gets, lift. cbv beta iota. rewrite Hc, (proj2 (Z.eqb_neq c 0)) by done. by rewrite Ho.
Qed.

Lemma request_delivered {A} `{WireLaws A} (r : A) op body w p c d req e :
  caller w p c d req → wvalid r → encode r = enc_hdr (mkhdr A op) ++ body →
  (12 ≤ wsize A ≤ RPC_DATA_LEN)%nat →
  let req' := received p (encode r) req (w_serial w) in
  decode (rdata req') = r ∧
  server_step (RecvPkt (encode r) (from_addr p)) e req w =
    match dispatch e c req' op (set_w_serial (u32 (w_serial w + 1)) w) with
    | Ret (_, w') => Ret (req', w')
    | Fault f => Fault f
    end.
Proof.
  intros C Hv He Hsz req'. pose proof (encode_length _ Hv) as Hl.
  split; [by apply decode_encode|]. unfold server_step.
  rewrite received_eq; [|apply C|apply C|lia]. fold req'.
  assert (Hp : pkt_size req' = Z.of_nat (wsize A)) by (unfold req'; simpl; by rewrite Hl).
  assert (Hh : hdr_ok (mkhdr A op)).
  { unfold mkhdr, hdr_ok, w32, ABT_RPC_MAGIC. simpl. unfold RPC_DATA_LEN in Hsz. pose proof (opcode_num_w32 op).
    unfold w32 in *. lia. }
  assert (Hd : decode (A := rpc_header) (rdata req') = mkhdr A op).
  { unfold req'. cbn [rdata received]. rewrite He, <-app_assoc. by apply dec_enc_hdr. }
  destruct (ca_table _ _ _ _ _ C) as [ps T].
  pose proof (is_client_table _ _ _ _ T (ca_client _ _ _ _ _ C)) as [Hin _].
  pose proof (tok_nonnull _ _ T c Hin).
  rewrite (rpc_dispatched e req' _ c op); rewrite ?Hd, ?Hp; cbn [abt_magic msg_len opcode mkhdr]; try lia; try done.
  - apply opcode_of_num.
  - apply (lookup_registered _ _ _ _ _ _ T (ca_client _ _ _ _ _ C)); [|apply C].
    rewrite (ca_pid _ _ _ _ _ C). apply received_bound.
Qed.

(** * The reply *)

Lemma call_replied {A} `{WireLaws A} (r : A) op body w p c d req e cs w1 rp :
  caller w p c d req → wvalid r → encode r = enc_hdr (mkhdr A op) ++ body →
  (12 ≤ wsize A ≤ RPC_DATA_LEN)%nat → cs_abt_addr cs = sockaddr_un MONITOR_SOCKET →
  wvalid rp → abt_reply_magic rp = ABT_RPC_MAGIC → rply_msg_len rp = Z.of_nat (wsize abt_reply_header) →
  let req' := received p (encode r) req (w_serial w) in
  dispatch e c req' op (set_w_serial (u32 (w_serial w + 1)) w) = Ret (tt, replied req' rp w1) →
  call cs (connect p e req w) r = Ret rp.
Proof.
  intros C Hv He Hsz Hcs Hrp Hmag Hlen req' Hd. pose proof (encode_length _ Hv) as Hl.
  destruct (request_delivered r op body w p c d req e C Hv He Hsz) as [_ Hstep]. fold req' in Hstep.
  rewrite Hd in Hstep. unfold call, _client_rpc.
  assert (Hh : hdr_ok (mkhdr A op)).
  { unfold mkhdr, hdr_ok, w32, ABT_RPC_MAGIC. simpl. unfold RPC_DATA_LEN in Hsz. pose proof (opcode_num_w32 op).
    unfold w32 in *. lia. }
  assert (Hml : msg_len (decode (A := rpc_header) (encode r)) = Z.of_nat (wsize A)).
  { rewrite He. change (decode (enc_hdr ?h ++ ?b)) with (dec_hdr (enc_hdr h ++ b)). by rewrite dec_enc_hdr. }
  rewrite Hml, Nat2Z.id, (take_ge (encode r)) by lia. rewrite (proj2 (Z.leb_le _ _)) by lia.
  cbn [mbind outcome_bind assert_]. unfold connect. rewrite Hstep. unfold replied. cbn [w_out set_w_out].
  rewrite rev_app_distr. cbn [rev app mbind outcome_bind].
  rewrite Hl, u32_small, Z.eqb_refl by (unfold RPC_DATA_LEN in Hsz; lia).
  pose proof (encode_length rp Hrp) as Hrl.
  cbn [mbind outcome_bind assert_ recv_reply]. rewrite (take_ge (encode rp)) by lia.
  rewrite Hrl, Z.eqb_refl. cbn [mbind outcome_bind assert_]. rewrite Hcs.
  change (GET_FAMILY (sockaddr_un MONITOR_SOCKET) =? AF_UNIX) with true.
  cbn [mbind outcome_bind assert_].
  change (strncmp_ne (GET_PATH (sockaddr_un MONITOR_SOCKET)) (GET_PATH (sockaddr_un MONITOR_SOCKET)) 108) with false.
  cbn [negb mbind outcome_bind assert_]. rewrite <-(app_nil_r (encode rp)), decode_encode by done.
  rewrite ?Z.eqb_refl. cbn [mbind outcome_bind assert_]. unfold checked. by rewrite Hmag, Hlen, !Z.eqb_refl.
Qed.

(** A state of the stack that fits its structure. *)
Definition env_ok (e : env) : Prop := send_ok e = true ∧ wvalid (stack e).

Lemma reply_val_valid e v : env_ok e → wvalid (reply_val e v).
Proof.
  intros [_ (Hm & Hl & Hr & Hr64)]. split; [by unfold w32, reply_val|]. split; [by unfold w32, reply_val|].
  split; [|done]. simpl. apply u32_bound.
Qed.
Lemma reply_val_64_valid e v : env_ok e → 0 ≤ v < 2 ^ 64 → wvalid (reply_val_64 e v).
Proof.
  intros [_ (Hm & Hl & Hr & Hr64)] Hv. split; [by unfold w32, reply_val_64|]. split; [by unfold w32, reply_val_64|].
  by split.
Qed.

Lemma hdr_ok_mk A `{Wire A} op : (12 ≤ wsize A ≤ RPC_DATA_LEN)%nat → hdr_ok (mkhdr A op).
Proof.
  intros Hsz. unfold mkhdr, hdr_ok, w32, ABT_RPC_MAGIC. simpl. unfold RPC_DATA_LEN in Hsz.
  pose proof (opcode_num_w32 op). unfold w32 in *. lia.
Qed.

Lemma malloc_dispatch e c d req w ptr s' :
  descs (w_abt w) !! c = Some d → send_ok e = true →
  let r := decode (A := abreq_malloc) (rdata req) in
  can_flow (unpack (label d)) (unpack (ownership d)) (unpack (ma_label r)) →
  ablib_malloc (w_abt w) (pid d) (ma_size r) (unpack (ma_label r)) (w_ab w) = Ret (ptr, s') →
  dispatch e c req ABT_MALLOC w = Ret (tt, replied req (reply_val e ptr) (set_w_ab s' w)).
Proof.
  intros Hd He r Hf Hm. cbn [dispatch]. unfold handle_malloc_rpc. fold r.
  rewrite (bind_ret _ _ _ _ _ (get_desc_eq _ _ _ Hd)).
  apply check_label_None in Hf; [|by rewrite length_unpack..]. rewrite Hf. cbn [Z.eqb negb].
  rewrite (bind_ret _ _ w (w_abt w) w) by done.
  rewrite (bind_ret _ _ _ ptr (set_w_ab s' w)) by (unfold lab; by rewrite Hm). by apply send_ok_eq.
Qed.

(** C9: [ab_malloc] end to end.  The stub of a registered thread sends its
    request to the server; if the thread's label may flow to the requested
    one, the call returns exactly the pointer [ablib_malloc] computes for the
    thread's pid, the requested size and label, on the server's allocator and
    kernel; if not, it returns [NULL] and the allocator and the kernel are
    untouched.  Marshalling, the recognition of the sender and the
    interpretation of the reply lose and confuse nothing. *)
Theorem ab_malloc_end_to_end cs w p c d req e size L :
  caller w p c d req → cs_abt_addr cs = sockaddr_un MONITOR_SOCKET → env_ok e →
  is_cats L → 0 ≤ size < 2 ^ 32 →
  (can_flow (unpack (label d)) (unpack (ownership d)) L → ∀ ptr s',
     ablib_malloc (w_abt w) p size L (w_ab w) = Ret (ptr, s') →
     ab_malloc cs (connect p e req w) size L = Ret (u32 ptr)) ∧
  (¬ can_flow (unpack (label d)) (unpack (ownership d)) L →
     ab_malloc cs (connect p e req w) size L = Ret 0).
Proof.
  intros C Hcs He HL Hsz. set (r := ReqMalloc (mkhdr abreq_malloc ABT_MALLOC) size (pack L)).
  assert (Hv : wvalid r).
  { split; [by apply hdr_ok_mk; simpl; unfold RPC_DATA_LEN; lia|]. split; [done|]. by apply pack_bound. }
  assert (Hd0 : descs (w_abt (set_w_serial (u32 (w_serial w + 1)) w)) !! c = Some d) by apply (ca_client _ _ _ _ _ C).
  set (req' := received p (encode r) req (w_serial w)).
  assert (Hdec : decode (A := abreq_malloc) (rdata req') = r) by (by apply decode_encode).
  assert (Hcall : ∀ v w1, dispatch e c req' ABT_MALLOC (set_w_serial (u32 (w_serial w + 1)) w) =
            Ret (tt, replied req' (reply_val e v) w1) → ab_malloc cs (connect p e req w) size L = Ret (u32 v)).
  { intros v w1 Hdis. unfold ab_malloc. rewrite u32_small by done. fold r.
    rewrite (call_replied r ABT_MALLOC (le_enc 4 size ++ le_enc 8 (pack L)) w p c d req e cs w1 (reply_val e v));
      try done. { simpl. unfold RPC_DATA_LEN. lia. } by apply reply_val_valid. }
  split; intros Hf.
  - intros ptr s' Hm. eapply Hcall, malloc_dispatch; [exact Hd0|apply He| |]; rewrite Hdec; cbn [ma_label ma_size r];
      rewrite unpack_pack by done; [done|]. rewrite (ca_pid _ _ _ _ _ C). exact Hm.
  - change 0 with (u32 0). eapply Hcall. cbn [dispatch].
    apply (malloc_denied e c d req' _ Hd0 (proj1 He)). rewrite Hdec. cbn [ma_label r]. by rewrite unpack_pack.
Qed.
End Rpc.

(** The main thread after start-up *)
Definition main_desc : client_desc := default blank (descs (w_abt w_boot) !! LIBC_BASE).
Definition main_state : abrpc_client_state :=
  ClientState MAIN (replicate 8 0) (replicate 8 0) (sockaddr_un (client_path MAIN)) (sockaddr_un MONITOR_SOCKET).

Lemma boot_clients c d : is_client (w_abt w_boot) c d → c = LIBC_BASE ∧ d = main_desc.
Proof.
  intros [(qs & R & Hin) Hd]. replace (client_list (w_abt w_boot)) with (single LIBC_BASE) in R by (by vm_compute).
  rewrite <-(ll_rep_det _ _ _ (single_rep LIBC_BASE) R) in Hin. apply list_elem_of_singleton in Hin. simpl in Hin.
  subst c. split; [done|]. unfold main_desc. by rewrite Hd.
Qed.
Lemma boot_main : is_client (w_abt w_boot) LIBC_BASE main_desc.
Proof.
  split; [|by vm_compute]. exists [(1, LIBC_BASE)]. split; [|by left].
  replace (client_list (w_abt w_boot)) with (single LIBC_BASE) by (by vm_compute). apply single_rep.
Qed.
Lemma boot_caller : caller w_boot MAIN LIBC_BASE main_desc zero_request.
Proof.
  split; [|apply boot_main|by vm_compute| |done|done].
  - apply winv_table. eapply boot_winv; [exact scenario_boot|]. by vm_compute.
  - by intros c1 d1 [-> _]%boot_clients.
Qed.

Lemma ab_malloc_end_to_end_witness :
  ab_malloc main_state (connect MAIN env0 zero_request w_boot) 100 (unpack 0) = Ret 0x80000008 ∧
  ab_malloc main_state (connect MAIN env0 zero_request w_boot) 100 (unpack t_aw) = Ret 0.
Proof.
  assert (Hs : 0 ≤ 100 < 2 ^ 32) by lia. assert (He : env_ok env0) by (by split).
  destruct (ab_malloc_end_to_end main_state w_boot MAIN LIBC_BASE main_desc zero_request env0 100 (unpack 0)
    boot_caller eq_refl He (unpack_cats 0) Hs) as [H1 _].
  destruct (ab_malloc_end_to_end main_state w_boot MAIN LIBC_BASE main_desc zero_request env0 100 (unpack t_aw)
    boot_caller eq_refl He (unpack_cats t_aw) Hs) as [_ H2]. split.
  - destruct (ablib_malloc (w_abt w_boot) MAIN 100 (unpack 0) (w_ab w_boot)) as [[ptr s']|] eqn:E;
      [|by vm_compute in E].
    assert (Hp : match ablib_malloc (w_abt w_boot) MAIN 100 (unpack 0) (w_ab w_boot) with
                 | Ret (q, _) => q =? 0x80000008 | Fault _ => false end = true) by (by vm_compute).
    rewrite E in Hp. apply Z.eqb_eq in Hp. subst ptr. refine (H1 _ _ s' eq_refl). by rewrite <-check_label_None.
  - apply H2. rewrite <-check_label_None by (by vm_compute). by vm_compute.
Defined.
