(* ===== verification/Pte.v ===== *)
(** Page table entries and frames: [arch/x86/include/asm/pgtable_types.h],
    [arch/x86/include/asm/pgtable.h], and the loops over entries of
    [mm/mprotect.c] and [mm/memory.c].

    The configuration is i386 with two-level tables and no execute-disable bit.
    A table is a finite map from page numbers to entries; [pte_none] is absence.
    Pages are not reclaimed in the model, so there are no swap, migration or
    file entries: what is in the map is [pte_present], perhaps without access
    ([_PAGE_PROTNONE]).  Upper levels of the table only show as allocations. *)

From S2P Require Import Prelude Chunk Os.

(** * Entries *)

Definition _PAGE_PRESENT : Z := 0x1.
Definition _PAGE_RW : Z := 0x2.
Definition _PAGE_USER : Z := 0x4.
Definition _PAGE_PWT : Z := 0x8.
Definition _PAGE_PCD : Z := 0x10.
Definition _PAGE_ACCESSED : Z := 0x20.
Definition _PAGE_DIRTY : Z := 0x40.
Definition _PAGE_SPECIAL : Z := 0x200.
Definition _PAGE_PROTNONE : Z := 0x100.
(** The bits besides the frame number that [pte_modify] keeps *)
Definition _PAGE_CHG_MASK : Z :=
  Z.lor _PAGE_PCD (Z.lor _PAGE_PWT (Z.lor _PAGE_SPECIAL (Z.lor _PAGE_ACCESSED _PAGE_DIRTY))).

Definition PAGE_NONE : Z := Z.lor _PAGE_PROTNONE _PAGE_ACCESSED.
Definition PAGE_SHARED : Z := Z.lor _PAGE_PRESENT (Z.lor _PAGE_RW (Z.lor _PAGE_USER _PAGE_ACCESSED)).
Definition PAGE_COPY : Z := Z.lor _PAGE_PRESENT (Z.lor _PAGE_USER _PAGE_ACCESSED).
Definition PAGE_READONLY : Z := Z.lor _PAGE_PRESENT (Z.lor _PAGE_USER _PAGE_ACCESSED).
(** [__P000] to [__P111] and [__S000] to [__S111]; without the execute-disable
    bit the executable variants are the others. *)
Definition protection_map : list Z :=
  [PAGE_NONE; PAGE_READONLY; PAGE_COPY; PAGE_COPY; PAGE_READONLY; PAGE_READONLY; PAGE_COPY; PAGE_COPY;
   PAGE_NONE; PAGE_READONLY; PAGE_SHARED; PAGE_SHARED; PAGE_READONLY; PAGE_READONLY; PAGE_SHARED; PAGE_SHARED].
Definition vm_get_page_prot (vm_flags : Z) : Z :=
  nth (Z.to_nat (Z.land vm_flags 0xf)) protection_map PAGE_NONE.

(** A frame number and the flags of the low bits *)
Record pte_t := Pte { pte_pfn : Z; pte_flags : Z }.
#[export] Instance pte_eq_dec : EqDecision pte_t.
Proof. solve_decision. Defined.

Definition pte_is (e : pte_t) (b : Z) : bool := negb (Z.land (pte_flags e) b =? 0).
Definition pte_set_flags (b : Z) (e : pte_t) : pte_t := Pte (pte_pfn e) (Z.lor (pte_flags e) b).
Definition pte_clear_flags (b : Z) (e : pte_t) : pte_t := Pte (pte_pfn e) (Z.land (pte_flags e) (not32 b)).
Definition pte_present (e : pte_t) : bool := pte_is e (Z.lor _PAGE_PRESENT _PAGE_PROTNONE).
Definition pte_write (e : pte_t) : bool := pte_is e _PAGE_RW.
Definition pte_dirty (e : pte_t) : bool := pte_is e _PAGE_DIRTY.
Definition pte_special (e : pte_t) : bool := pte_is e _PAGE_SPECIAL.
Definition pte_mkwrite : pte_t → pte_t := pte_set_flags _PAGE_RW.
Definition pte_mkdirty : pte_t → pte_t := pte_set_flags _PAGE_DIRTY.
Definition pte_mkyoung : pte_t → pte_t := pte_set_flags _PAGE_ACCESSED.
Definition pte_mkspecial : pte_t → pte_t := pte_set_flags _PAGE_SPECIAL.
Definition pte_wrprotect : pte_t → pte_t := pte_clear_flags _PAGE_RW.
Definition pte_mkclean : pte_t → pte_t := pte_clear_flags _PAGE_DIRTY.
Definition pte_mkold : pte_t → pte_t := pte_clear_flags _PAGE_ACCESSED.
Definition mk_pte (page pgprot : Z) : pte_t := Pte page pgprot.
Definition pte_modify (e : pte_t) (newprot : Z) : pte_t :=
  Pte (pte_pfn e) (Z.lor (Z.land (pte_flags e) _PAGE_CHG_MASK) (Z.land newprot (not32 _PAGE_CHG_MASK))).

(** What the processor lets a user program do through an entry *)
Definition mmu_allows (e : pte_t) (write : bool) : bool :=
  pte_is e _PAGE_PRESENT && pte_is e _PAGE_USER && (negb write || pte_is e _PAGE_RW).

(** * Tables *)

Abbreviation pgd_t := (gmap Z pte_t).
Definition in_range (start end_ i : Z) : Prop := start ≤ i * PAGESIZE < end_.
#[export] Instance in_range_dec s e i : Decision (in_range s e i).
Proof. unfold in_range. apply _. Defined.

(** [change_protection] with [change_pte_range] *)
Definition change_pte (newprot : Z) (dirty_accountable : bool) (oldpte : pte_t) : pte_t :=
  if pte_present oldpte then
    let ptent := pte_modify oldpte newprot in
    if dirty_accountable && pte_dirty ptent then pte_mkwrite ptent else ptent
  else oldpte.
Definition change_protection (start end_ newprot : Z) (dirty_accountable : bool) (g : pgd_t) : pgd_t :=
  map_imap (λ i e, Some (if decide (in_range start end_ i) then change_pte newprot dirty_accountable e else e)) g.

(** [zap_pte_range] over a range, without details *)
Definition zap_page_range (start end_ : Z) (g : pgd_t) : pgd_t :=
  filter (λ ie, ¬ in_range start end_ ie.1) g.

(** * Frames *)

(** [struct page] with the bytes of the frame, by offset; those never written
    are 0.  The number of entries that map a frame ([_mapcount]) is counted in
    the tables. *)
Record page := Page { PageAnon : bool; content : gmap Z Z }.

(** Frame 0 is the page of zeroes that read faults on private memory map. *)
Definition zero_pfn : Z := 0.
Record phys := Phys {
  mem_map : gmap Z page;
  next_pfn : Z;                 (* frames from here on are free *)
  page_cache : gmap (Z * Z) Z;  (* the frame of a page of a shared memory object *)
  i_size : gmap Z Z;            (* the shared memory objects and their sizes *)
  next_anon : Z;                (* the next anonymous list to be allocated *)
}.
Definition set_mem_map (m : gmap Z page) (x : phys) : phys :=
  Phys m (next_pfn x) (page_cache x) (i_size x) (next_anon x).
Definition get_frame (x : phys) (pfn : Z) : page := default (Page false ∅) (mem_map x !! pfn).
(** A fresh frame with the given contents *)
Definition add_frame (p : page) (x : phys) : phys :=
  Phys (<[next_pfn x := p]> (mem_map x)) (next_pfn x + 1) (page_cache x) (i_size x) (next_anon x).
Definition add_cache (file idx pfn : Z) (x : phys) : phys :=
  Phys (mem_map x) (next_pfn x) (<[(file, idx) := pfn]> (page_cache x)) (i_size x) (next_anon x).
Definition add_anon (x : phys) : phys :=
  Phys (mem_map x) (next_pfn x) (page_cache x) (i_size x) (next_anon x + 1).
Definition phys0 : phys := Phys ∅ 1 ∅ ∅ 1.

(** * What an entry grants *)

(** An entry that lets a program do no more than the access bits [w] of an
    area: bit 1 is writing. *)
Definition entry_ok (w : Z) (e : pte_t) : Prop :=
  pte_present e = true ∧ ∀ write, mmu_allows e write = true → w ≠ 0 ∧ (write = true → Z.testbit w 1 = true).

Lemma pte_is_bit e n : 0 ≤ n → pte_is e (2 ^ n) = Z.testbit (pte_flags e) n.
Proof.
  intros Hn. unfold pte_is. destruct (Z.testbit (pte_flags e) n) eqn:E.
  - apply negb_true_iff, Z.eqb_neq. intros H. assert (Hb : Z.testbit (Z.land (pte_flags e) (2 ^ n)) n = false) by (by rewrite H, Z.bits_0).
    by rewrite Z.land_spec, E, Z.pow2_bits_true in Hb.
  - apply negb_false_iff, Z.eqb_eq, Z.bits_inj'. intros m Hm. rewrite Z.land_spec, Z.bits_0, Z.pow2_bits_eqb by done.
    destruct (Z.eqb_spec n m) as [->|]; [by rewrite E|apply andb_false_r].
Qed.
Lemma mmu_allows_bits e write :
  mmu_allows e write = Z.testbit (pte_flags e) 0 && Z.testbit (pte_flags e) 2 && (negb write || Z.testbit (pte_flags e) 1).
Proof.
  unfold mmu_allows. change _PAGE_PRESENT with (2 ^ 0). change _PAGE_USER with (2 ^ 2). change _PAGE_RW with (2 ^ 1).
  by rewrite !pte_is_bit by lia.
Qed.
Lemma pte_present_bits e : pte_present e = Z.testbit (pte_flags e) 0 || Z.testbit (pte_flags e) 8.
Proof.
  rewrite <-!(pte_is_bit e) by lia. unfold pte_present, pte_is. rewrite Z.land_lor_distr_r. change _PAGE_PRESENT with (2 ^ 0).
  change _PAGE_PROTNONE with (2 ^ 8). set (x := Z.land _ (2 ^ 0)). set (y := Z.land _ (2 ^ 8)).
  destruct (Z.eqb_spec x 0) as [->|Hx]; [done|]. cbn [negb orb]. apply negb_true_iff, Z.eqb_neq. rewrite Z.lor_eq_0_iff. tauto.
Qed.

(** Only the bits 0, 1, 2 and 8 matter. *)
Lemma entry_ok_weaken w e e' :
  (∀ i, i = 0 ∨ i = 2 ∨ i = 8 → Z.testbit (pte_flags e') i = Z.testbit (pte_flags e) i) →
  (Z.testbit (pte_flags e') 1 = true → Z.testbit (pte_flags e) 1 = true ∨ Z.testbit w 1 = true) →
  entry_ok w e → entry_ok w e'.
Proof.
  intros Hb H1 [Hp Ha]. split; [rewrite pte_present_bits in Hp |- *; by rewrite !Hb by auto|]. intros write. rewrite mmu_allows_bits, !Hb by auto.
  rewrite !andb_true_iff. intros [[B0 B2] Hw]. destruct (Ha false) as [Hw0 _]; [by rewrite mmu_allows_bits, B0, B2|].
  split; [done|]. intros ->. destruct (H1 Hw) as [B1|]; [|done]. apply (Ha true); [|done]. by rewrite mmu_allows_bits, B0, B1, B2.
Qed.
Lemma set_flags_ok w b e :
  b = _PAGE_DIRTY ∨ b = _PAGE_ACCESSED ∨ b = _PAGE_SPECIAL ∨ b = _PAGE_RW ∧ Z.testbit w 1 = true →
  entry_ok w e → entry_ok w (pte_set_flags b e).
Proof.
  intros Hb. apply entry_ok_weaken; cbn [pte_flags pte_set_flags pte_clear_flags pte_modify mk_pte].
  - intros i Hi. rewrite Z.lor_spec.
    destruct Hb as [->|[->|[->|[-> _]]]], Hi as [->|[->| ->]]; by rewrite orb_false_r.
  - rewrite Z.lor_spec. destruct Hb as [->|[->|[->|[-> Hw]]]]; [rewrite orb_false_r; auto..|]. auto.
Qed.
Lemma clear_flags_ok w b e : b = _PAGE_DIRTY ∨ b = _PAGE_ACCESSED ∨ b = _PAGE_RW → entry_ok w e → entry_ok w (pte_clear_flags b e).
Proof.
  intros Hb. apply entry_ok_weaken; cbn [pte_flags pte_set_flags pte_clear_flags pte_modify mk_pte].
  - intros i Hi. rewrite Z.land_spec. destruct Hb as [->|[->| ->]], Hi as [->|[->| ->]]; by rewrite andb_true_r.
  - rewrite Z.land_spec, andb_true_iff. tauto.
Qed.

(** A new entry with the protection of an area *)
Lemma prot_entry f pfn : entry_ok (Z.land f 7) (mk_pte pfn (vm_get_page_prot f)).
Proof.
  unfold vm_get_page_prot. assert (Z.land f 7 = Z.land (Z.land f 0xf) 7) as -> by (by rewrite <-Z.land_assoc).
  assert (Hx : 0 ≤ Z.land f 0xf < 16) by (change 0xf with (Z.ones 4); rewrite Z.land_ones by lia; by apply Z.mod_pos_bound).
  generalize dependent (Z.land f 0xf). intros x Hx.
  assert (x = 0 ∨ x = 1 ∨ x = 2 ∨ x = 3 ∨ x = 4 ∨ x = 5 ∨ x = 6 ∨ x = 7 ∨ x = 8 ∨ x = 9 ∨ x = 10 ∨ x = 11 ∨ x = 12 ∨ x = 13 ∨
    x = 14 ∨ x = 15) as Hc by lia.
  destruct_or! Hc; subst x; (split; [done|]); intros []; vm_compute; intuition congruence.
Qed.
Lemma modify_ok w e p : entry_ok w (mk_pte (pte_pfn e) p) → entry_ok w (pte_modify e p).
Proof.
  apply entry_ok_weaken; cbn [pte_flags pte_set_flags pte_clear_flags pte_modify mk_pte].
  - intros i Hi. rewrite Z.lor_spec, !Z.land_spec. destruct Hi as [->|[->| ->]]; by rewrite andb_false_r, andb_true_r.
  - rewrite Z.lor_spec, !Z.land_spec. change (Z.testbit _PAGE_CHG_MASK 1) with false. change (Z.testbit (not32 _PAGE_CHG_MASK) 1) with true.
    rewrite andb_false_r, andb_true_r. by left.
Qed.
Lemma change_pte_ok w e p (da : bool) :
  entry_ok w (mk_pte (pte_pfn e) p) → (da = true → Z.testbit w 1 = true) → pte_present e = true → entry_ok w (change_pte p da e).
Proof.
  intros Hp Hd Hpr. unfold change_pte. rewrite Hpr. destruct da; [|by apply modify_ok]. cbn [andb].
  destruct (pte_dirty _); [|by apply modify_ok]. apply set_flags_ok; [do 3 right; auto|by apply modify_ok].
Qed.

Lemma lookup_change s e p da g i :
  change_protection s e p da g !! i = (λ x, if decide (in_range s e i) then change_pte p da x else x) <$> g !! i.
Proof. unfold change_protection. rewrite map_lookup_imap. by destruct (g !! i). Qed.
Lemma lookup_zap s e g i x : zap_page_range s e g !! i = Some x → g !! i = Some x ∧ ¬ in_range s e i.
Proof. unfold zap_page_range. by rewrite map_lookup_filter_Some. Qed.
