(* ===== verification/Vma.v ===== *)
(** The memory areas of an address space: the part of [mm/mmap.c] and
    [mm/mprotect.c] of the modified Linux kernel that the calls of the arbiter
    rest on.

    An [mm_struct] keeps its areas in address order.  The kernel links them in
    a list and, for searching, in a red-black tree; both hold the same areas in
    the same order, so the model has the list.  A pointer to an area is a
    position in the list: the areas in front of it, nearest first, and the
    areas from it on.  The configuration is the one of [kernelconfig]: i386
    with three gigabytes of user space, one NUMA node, no integrity
    measurement.  Huge pages have no entries in the model,
    so [hugetlb_change_protection] and the like have nothing to do. *)

From S2P Require Import Prelude Chunk Os Pte.

(** * Constants of [linux/mm.h], [asm-generic/mman.h] and [errno-base.h] *)

Definition PAGE_SHIFT : Z := 12.
Definition VM_READ : Z := 0x1.
Definition VM_WRITE : Z := 0x2.
Definition VM_EXEC : Z := 0x4.
Definition VM_SHARED : Z := 0x8.
Definition VM_MAYREAD : Z := 0x10.
Definition VM_MAYWRITE : Z := 0x20.
Definition VM_MAYEXEC : Z := 0x40.
Definition VM_MAYSHARE : Z := 0x80.
Definition VM_GROWSDOWN : Z := 0x100.
Definition VM_GROWSUP : Z := 0x200.
Definition VM_PFNMAP : Z := 0x400.
Definition VM_DENYWRITE : Z := 0x800.
Definition VM_EXECUTABLE : Z := 0x1000.
Definition VM_LOCKED : Z := 0x2000.
Definition VM_IO : Z := 0x4000.
Definition VM_DONTCOPY : Z := 0x20000.
Definition VM_DONTEXPAND : Z := 0x40000.
Definition VM_RESERVED : Z := 0x80000.
Definition VM_ACCOUNT : Z := 0x100000.
Definition VM_NORESERVE : Z := 0x200000.
Definition VM_HUGETLB : Z := 0x400000.
Definition VM_NONLINEAR : Z := 0x800000.
Definition VM_INSERTPAGE : Z := 0x2000000.
Definition VM_CAN_NONLINEAR : Z := 0x8000000.
Definition VM_MIXEDMAP : Z := 0x10000000.
Definition VM_SAO : Z := 0x20000000.
Definition VM_SPECIAL : Z := Z.lor VM_IO (Z.lor VM_DONTEXPAND (Z.lor VM_RESERVED VM_PFNMAP)).
Definition VM_ACCESS : Z := Z.lor VM_READ (Z.lor VM_WRITE VM_EXEC).
Definition HPAGE_SIZE : Z := 0x400000.

Definition MAP_FIXED : Z := 0x10.

(** Areas that belong to the arbiter *)
Definition VM_AB_CONTROL : Z := VM_SAO.

Definition EPERM : Z := 1.
Definition EAGAIN : Z := 11.
Definition ENOMEM : Z := 12.
Definition EACCES : Z := 13.
Definition EINVAL : Z := 22.
Definition EOVERFLOW : Z := 75.

(** [f & b] as a condition *)
Definition flag (f b : Z) : bool := negb (Z.land f b =? 0).

(** * Areas and address spaces *)

Record vm_area_struct := VmArea {
  vm_start : Z;
  vm_end : Z;
  vm_flags : Z;
  vm_pgoff : Z;
  vm_file : Z;      (* the mapped file, 0 for none *)
  anon_vma : Z;     (* the list of its anonymous pages, 0 for none *)
  vm_close : bool;  (* the operations of the area include [close] *)
}.
Definition set_range (s e pg : Z) (v : vm_area_struct) : vm_area_struct :=
  VmArea s e (vm_flags v) pg (vm_file v) (anon_vma v) (vm_close v).
Definition set_vm_flags (f : Z) (v : vm_area_struct) : vm_area_struct :=
  VmArea (vm_start v) (vm_end v) f (vm_pgoff v) (vm_file v) (anon_vma v) (vm_close v).
Definition import_anon (a : Z) (v : vm_area_struct) : vm_area_struct :=
  VmArea (vm_start v) (vm_end v) (vm_flags v) (vm_pgoff v) (vm_file v)
    (if anon_vma v =? 0 then a else anon_vma v) (vm_close v).
Definition vma_pages (v : vm_area_struct) : Z := Z.shiftr (vm_end v - vm_start v) PAGE_SHIFT.
Definition is_abt_vma (v : vm_area_struct) : bool := flag (vm_flags v) VM_AB_CONTROL.

Record mm_struct := Mm {
  mmap : list vm_area_struct;
  total_vm : Z;       (* pages *)
  locked_vm : Z;      (* pages *)
  def_flags : Z;
  start_ab_brk : Z;
  ab_brk : Z;
  start_data : Z;
  start_brk : Z;
  pgd : pgd_t;
}.
Definition set_mmap (l : list vm_area_struct) (m : mm_struct) : mm_struct :=
  Mm l (total_vm m) (locked_vm m) (def_flags m) (start_ab_brk m) (ab_brk m) (start_data m) (start_brk m) (pgd m).
Definition set_usage (t lk : Z) (m : mm_struct) : mm_struct :=
  Mm (mmap m) t lk (def_flags m) (start_ab_brk m) (ab_brk m) (start_data m) (start_brk m) (pgd m).
Definition set_ab_brks (s b : Z) (m : mm_struct) : mm_struct :=
  Mm (mmap m) (total_vm m) (locked_vm m) (def_flags m) s b (start_data m) (start_brk m) (pgd m).
Definition set_pgd (g : pgd_t) (m : mm_struct) : mm_struct :=
  Mm (mmap m) (total_vm m) (locked_vm m) (def_flags m) (start_ab_brk m) (ab_brk m) (start_data m) (start_brk m) g.
(** [map_count] is kept equal to the number of linked areas. *)
Definition map_count (m : mm_struct) : Z := Z.of_nat (length (mmap m)).

(** The fields of the address space with which the search for a free range
    remembers where it stopped: whether areas are placed from the bottom up (the
    legacy layout), the base of the area of mappings, the address to search from
    and the largest hole it has passed.  They steer no other operation and are
    kept apart from the areas. *)
Record area_cache := Cache {
  legacy_layout : bool;
  cache_base : Z;        (* mmap_base *)
  free_area_cache : Z;
  cached_hole_size : Z;
}.

(** What the calls consult besides the areas: limits, the hooks of the security
    module, and what the search for a free range finds in the fields above when
    [mmap] or [mremap] calls it. *)
Record kconf := Conf {
  sysctl_max_map_count : Z;
  rlim_as : Z;          (* RLIMIT_AS of the caller, in pages *)
  rlim_memlock : Z;     (* RLIMIT_MEMLOCK, in pages *)
  rlim_stack : Z;       (* RLIMIT_STACK, in bytes *)
  cap_ipc_lock : bool;  (* the caller may lock memory *)
  mmap_min_addr : Z;
  security_file_mmap : Z → Z;                              (* by address *)
  security_file_mprotect : vm_area_struct → Z → Z → Z;
  k_cache : area_cache;
  page_mkwrite : Z → bool;       (* the operations of the file include it *)
  cap_account_dirty : Z → bool;  (* the file's mapping tracks dirty pages *)
}.

(** A computation on one address space.  [m_res] is the schedule of the
    allocator and the commit accounting: every request for an area structure
    or for committed memory takes its outcome from it, and succeeds when the
    schedule is exhausted. *)
Record mst := Mst { m_mm : mm_struct; m_res : list bool }.
Abbreviation mmm := (st mst).
Definition set_m_mm (m : mm_struct) (s : mst) : mst := Mst m (m_res s).
Definition upd_mm (f : mm_struct → mm_struct) : mmm unit := modify (λ s, set_m_mm (f (m_mm s)) s).
Definition take_resource : mmm bool := λ s,
  match m_res s with
  | [] => Ret (true, s)
  | b :: r => Ret (b, Mst (m_mm s) r)
  end.

(** * Searching *)

(** [find_vma]: the first area that ends behind [addr] *)
Fixpoint find_vma (l : list vm_area_struct) (addr : Z) : option vm_area_struct :=
  match l with
  | [] => None
  | v :: l' => if addr <? vm_end v then Some v else find_vma l' addr
  end.

(** [find_vma_prev] and [find_vma_prepare]: the same area as a position *)
Fixpoint find_vma_prev (rpre l : list vm_area_struct) (addr : Z) : list vm_area_struct * list vm_area_struct :=
  match l with
  | [] => (rpre, [])
  | v :: l' => if addr <? vm_end v then (rpre, l) else find_vma_prev (v :: rpre) l' addr
  end.

Definition find_vma_intersection (l : list vm_area_struct) (start_addr end_addr : Z) : option vm_area_struct :=
  match find_vma l start_addr with
  | Some v => if end_addr <=? vm_start v then None else Some v
  | None => None
  end.

(** * Merging *)

Section Merge.
Variable (file flags : Z).

Definition is_mergeable_vma (v : vm_area_struct) : bool :=
  (Z.land (Z.lxor (vm_flags v) flags) (not32 VM_CAN_NONLINEAR) =? 0) && (vm_file v =? file) && negb (vm_close v).
Definition is_mergeable_anon_vma (a b : Z) : bool := (a =? 0) || (b =? 0) || (a =? b).
Definition can_vma_merge_before (v : vm_area_struct) (anon pgoff : Z) : bool :=
  is_mergeable_vma v && is_mergeable_anon_vma anon (anon_vma v) && (vm_pgoff v =? pgoff).
Definition can_vma_merge_after (v : vm_area_struct) (anon pgoff : Z) : bool :=
  is_mergeable_vma v && is_mergeable_anon_vma anon (anon_vma v) && (u32 (vm_pgoff v + vma_pages v) =? pgoff).
End Merge.

(** [vma_adjust] without an area to insert: [v] gets a new range, and the area
    behind it is removed (perhaps with the one after it) or its boundary
    shifted. *)
Fixpoint vma_absorb (end_ anon : Z) (rest : list vm_area_struct) : outcome (Z * Z * list vm_area_struct) :=
  match rest with
  | [] => Fault KernelOops
  | next :: rest' =>
      let anon := if anon =? 0 then anon_vma next else anon in
      if vm_end next <? end_ then vma_absorb (vm_end next) anon rest'
      else Ret (vm_end next, anon, rest')
  end.
Definition shift_start (pages : Z) (v : vm_area_struct) : vm_area_struct :=
  set_range (vm_start v + Z.shiftl pages PAGE_SHIFT) (vm_end v) (u32 (vm_pgoff v + pages)) v.
Definition vma_adjust (v : vm_area_struct) (rest : list vm_area_struct) (start end_ pgoff : Z) :
    outcome (vm_area_struct * list vm_area_struct) :=
  match rest with
  | [] => Ret (set_range start end_ pgoff v, [])
  | next :: rest' =>
      let anon := if anon_vma v =? 0 then anon_vma next else anon_vma v in
      if vm_end next <=? end_ then
        '(e, a, rest'') ← vma_absorb end_ (anon_vma v) rest;
        Ret (import_anon a (set_range start e pgoff v), rest'')
      else if vm_start next <? end_ then
        Ret (import_anon anon (set_range start end_ pgoff v),
             shift_start (Z.shiftr (end_ - vm_start next) PAGE_SHIFT) next :: rest')
      else if end_ <? vm_end v then
        Ret (set_range start end_ pgoff v,
             import_anon anon (shift_start (- Z.shiftr (vm_end v - end_) PAGE_SHIFT) next) :: rest')
      else Ret (set_range start end_ pgoff v, rest)
  end.

(** [vma_merge]: the result is the position of the area that now covers the
    range, or nothing when no neighbour fits. *)
Definition position : Type := list vm_area_struct * vm_area_struct * list vm_area_struct.
Definition next_area (rest : list vm_area_struct) (end_ : Z) : option vm_area_struct :=
  match rest with
  | area :: rest' => if vm_end area =? end_ then head rest' else Some area
  | [] => None
  end.
(** The request in front of [next]: cases 4, 3 and 8 of the code's comment *)
Definition merge_in_front (rpre rest : list vm_area_struct) (n : vm_area_struct) (addr pglen : Z) :
    outcome (option position) :=
  match rpre, rest with
  | _, [] => Ret None
  | prev :: rpre', area :: rest' =>
      if addr <? vm_end prev then
        '(prev', r) ← vma_adjust prev rest (vm_start prev) addr (vm_pgoff prev);
        match r with
        | a :: r' => Ret (Some (prev' :: rpre', a, r'))
        | [] => Fault KernelOops
        end
      else
        '(a, r) ← vma_adjust area rest' addr (vm_end n) (u32 (vm_pgoff n - pglen));
        Ret (Some (rpre, a, r))
  | [], area :: rest' =>
      '(a, r) ← vma_adjust area rest' addr (vm_end n) (u32 (vm_pgoff n - pglen));
      Ret (Some (rpre, a, r))
  end.
Definition vma_merge (rpre rest : list vm_area_struct) (addr end_ flags anon file pgoff : Z) :
    outcome (option position) :=
  let pglen := Z.shiftr (end_ - addr) PAGE_SHIFT in
  if flag flags VM_SPECIAL then Ret None else
  (* the area behind, if the request touches it and fits in front of it *)
  let behind :=
    match next_area rest end_ with
    | Some n => if (end_ =? vm_start n) && can_vma_merge_before file flags n anon (u32 (pgoff + pglen))
                then Some n else None
    | None => None
    end in
  match rpre, behind with
  | prev :: rpre', _ =>
      if (vm_end prev =? addr) && can_vma_merge_after file flags prev anon pgoff then
        let e := match behind with
                 | Some n => if is_mergeable_anon_vma (anon_vma prev) (anon_vma n) then vm_end n else end_
                 | None => end_
                 end in
        '(prev', r) ← vma_adjust prev rest (vm_start prev) e (vm_pgoff prev);
        Ret (Some (rpre', prev', r))
      else match behind with Some n => merge_in_front rpre rest n addr pglen | None => Ret None end
  | [], Some n => merge_in_front rpre rest n addr pglen
  | [], None => Ret None
  end.

Definition position_list (x : position) : list vm_area_struct :=
  let '(rpre, v, rest) := x in rev_append rpre (v :: rest).

Section Ops.
Variable c : kconf.

(** * Splitting and unmapping *)

(** [split_vma] of the area at a position.  Whether the lower or the upper part
    keeps the old structure makes no difference to the list. *)
Definition split_parts (v : vm_area_struct) (addr : Z) : vm_area_struct * vm_area_struct :=
  (set_range (vm_start v) addr (vm_pgoff v) v,
   set_range addr (vm_end v) (u32 (vm_pgoff v + Z.shiftr (addr - vm_start v) PAGE_SHIFT)) v).
Definition split_vma (x : position) (addr : Z) : mmm Z :=
  let '(rpre, v, rest) := x in
  mm ← gets m_mm;
  if flag (vm_flags v) VM_HUGETLB && negb (Z.land addr (HPAGE_SIZE - 1) =? 0) then mret (- EINVAL) else
  if sysctl_max_map_count c <=? map_count mm then mret (- ENOMEM) else
  ok ← take_resource;
  if negb ok then mret (- ENOMEM) else
  let '(lo, hi) := split_parts v addr in
  upd_mm (set_mmap (rev_append rpre (lo :: hi :: rest)));;
  mret 0.

(** [detach_vmas_to_be_unmapped]: the areas that start in front of [end_] *)
Fixpoint detach_vmas (end_ : Z) (l : list vm_area_struct) : list vm_area_struct * list vm_area_struct :=
  match l with
  | [] => ([], [])
  | v :: l' =>
      if vm_start v <? end_ then let r := detach_vmas end_ l' in (v :: r.1, r.2)
      else ([], l)
  end.
Definition sum_pages (l : list vm_area_struct) : Z := foldr Z.add 0 (vma_pages <$> l).

(** [unmap_vmas]: the entries of the areas are cleared, as far as they lie in
    the range. *)
Definition unmap_vmas (start end_ : Z) (gone : list vm_area_struct) (g : pgd_t) : pgd_t :=
  foldl (λ g v, zap_page_range (Z.max (vm_start v) start) (Z.min (vm_end v) end_) g) g gone.

(** The range is removed once no area crosses its ends. *)
Definition unmap_areas (start end_ : Z) : mmm unit :=
  upd_mm (λ mm,
    let '(rpre, rest) := find_vma_prev [] (mmap mm) start in
    let '(gone, rest') := detach_vmas end_ rest in
    set_pgd (unmap_vmas start end_ gone (pgd mm)) (set_mmap (rev_append rpre rest')
      (set_usage (total_vm mm - sum_pages gone)
         (locked_vm mm - sum_pages (filter (λ v, flag (vm_flags v) VM_LOCKED = true) gone)) mm))).

Definition do_munmap (start len : Z) : mmm Z :=
  if negb (page_aligned start) || (TASK_SIZE <? start) || (TASK_SIZE - start <? len) then mret (- EINVAL) else
  let len := PAGE_ALIGN len in
  if len =? 0 then mret (- EINVAL) else
  mm ← gets m_mm;
  match find_vma_prev [] (mmap mm) start with
  | (_, []) => mret 0
  | (rpre, vma :: rest) =>
      let end_ := start + len in
      if end_ <=? vm_start vma then mret 0 else
      r ← (if vm_start vma <? start then split_vma (rpre, vma, rest) start else mret 0);
      if negb (r =? 0) then mret r else
      mm ← gets m_mm;
      r ← (match find_vma_prev [] (mmap mm) end_ with
           | (rpre, last :: rest) =>
               if vm_start last <? end_ then split_vma (rpre, last, rest) end_ else mret 0
           | (_, []) => mret 0
           end);
      if negb (r =? 0) then mret r else
      unmap_areas start end_;;
      mret 0
  end.

(** * New areas *)

Definition may_expand_vm (mm : mm_struct) (npages : Z) : bool := u32 (total_vm mm + npages) <=? rlim_as c.

(** The loop [munmap_back]: two rounds suffice, since a successful [do_munmap]
    leaves no area in the range.  [None] reports its failure. *)
Fixpoint munmap_back (n : nat) (addr len : Z) : mmm (option (list vm_area_struct * list vm_area_struct)) :=
  match n with
  | O => fail Hang
  | S n' =>
      mm ← gets m_mm;
      let '(rpre, rest) := find_vma_prev [] (mmap mm) addr in
      match rest with
      | vma :: _ =>
          if vm_start vma <? u32 (addr + len) then
            r ← do_munmap addr len;
            if negb (r =? 0) then mret None else munmap_back n' addr len
          else mret (Some (rpre, rest))
      | [] => mret (Some (rpre, []))
      end
  end.

(** The end of [absys_mmap_region], [propagate_region] and [do_absys_brk]: the
    range is added to a neighbour or gets an area of its own, with the
    operations [ab_vm_ops], which are empty. *)
Definition link_area (rpre rest : list vm_area_struct) (addr len flags pgoff : Z) : mmm Z :=
  m ← lift (vma_merge rpre rest addr (addr + len) flags 0 0 pgoff);
  r ← (match m with
       | Some x => upd_mm (set_mmap (position_list x));; mret 0
       | None =>
           ok ← take_resource;
           if negb ok then mret (- ENOMEM) else
           (if flag flags VM_AB_CONTROL then mret tt else fail KernelOops);;
           upd_mm (set_mmap (rev_append rpre (VmArea addr (addr + len) flags pgoff 0 0 false :: rest)));;
           mret 0
       end);
  if negb (r =? 0) then mret (u32 r) else
  upd_mm (λ mm, set_usage (total_vm mm + Z.shiftr len PAGE_SHIFT)
                  (if flag flags VM_LOCKED then locked_vm mm + Z.shiftr len PAGE_SHIFT else locked_vm mm) mm);;
  mret addr.

(** * Changing protections *)

(** The part from [start] to [end_] of the area at a position becomes an area
    of its own: the two splits of [mprotect_fixup]. *)
Definition isolate (x : position) (start end_ : Z) : mmm (Z + position) :=
  let '(rpre, vma, rest) := x in
  r ← (if negb (start =? vm_start vma) then split_vma x start else mret 0);
  if negb (r =? 0) then mret (inl r) else
  let '(rpre, vma) := if negb (start =? vm_start vma)
                      then ((split_parts vma start).1 :: rpre, (split_parts vma start).2) else (rpre, vma) in
  r ← (if negb (end_ =? vm_end vma) then split_vma (rpre, vma, rest) end_ else mret 0);
  if negb (r =? 0) then mret (inl r) else
  mret (inr (if negb (end_ =? vm_end vma)
             then (rpre, (split_parts vma end_).1, (split_parts vma end_).2 :: rest) else (rpre, vma, rest))).

(** [vma_wants_writenotify] and the [vm_page_prot] an area has: nothing but
    these calls sets the latter for the areas of the model. *)
Definition vma_wants_writenotify (v : vm_area_struct) : bool :=
  (Z.land (vm_flags v) (Z.lor VM_WRITE VM_SHARED) =? Z.lor VM_WRITE VM_SHARED) &&
  (negb (vm_file v =? 0) && page_mkwrite c (vm_file v) ||
   negb (flag (vm_flags v) (Z.lor VM_PFNMAP VM_INSERTPAGE)) && negb (vm_file v =? 0) && cap_account_dirty c (vm_file v)).
Definition vm_page_prot (v : vm_area_struct) : Z :=
  vm_get_page_prot (if vma_wants_writenotify v then Z.land (vm_flags v) (not32 VM_SHARED) else vm_flags v).

(** [mprotect_fixup] of the part from [start] to [end_] of the area at a
    position: an error, or the position of the area that covers it now. *)
Definition mprotect_fixup (x : position) (start end_ newflags : Z) : mmm (Z + position) :=
  let '(rpre, vma, rest) := x in
  if newflags =? vm_flags vma then mret (inr x) else
  let charge := flag newflags VM_WRITE &&
    negb (flag (vm_flags vma) (Z.lor VM_ACCOUNT (Z.lor VM_WRITE (Z.lor VM_HUGETLB (Z.lor VM_SHARED VM_NORESERVE))))) in
  ok ← (if charge then take_resource else mret true);
  if negb ok then mret (inl (- ENOMEM)) else
  let newflags := if charge then Z.lor newflags VM_ACCOUNT else newflags in
  let pgoff := u32 (vm_pgoff vma + Z.shiftr (start - vm_start vma) PAGE_SHIFT) in
  let inside := vm_start vma <? start in
  m ← lift (vma_merge (if inside then vma :: rpre else rpre) (if inside then rest else vma :: rest)
              start end_ newflags (anon_vma vma) (vm_file vma) pgoff);
  y ← (match m with Some y => mret (inr y) | None => isolate x start end_ end);
  match y with
  | inl e => mret (inl e)
  | inr (rp, v, rs) =>
      let v := set_vm_flags newflags v in
      let y := (rp, v, rs) in
      upd_mm (set_mmap (position_list y));;
      upd_mm (λ mm, set_pgd (change_protection start end_ (vm_page_prot v) (vma_wants_writenotify v) (pgd mm)) mm);;
      mret (inr y)
  end.

(** The loop of [mprotect] over the areas of the range, shared by the system
    call of the clients and that of the arbiter; [guard] is the test with which
    the former refuses areas of the arbiter. *)
Definition mprotect_round (guard : vm_area_struct → bool) (reqprot prot flags end_ : Z) (x : Z * position) :
    mmm (Z * position + Z) :=
  let '(nstart, (rpre, vma, rest)) := x in
  if guard vma then mret (inr (- EACCES)) else
  let newflags := Z.lor flags (Z.land (vm_flags vma) (not32 VM_ACCESS)) in
  if flag (Z.land newflags (not32 (Z.shiftr newflags 4))) VM_ACCESS then mret (inr (- EACCES)) else
  let e := security_file_mprotect c vma reqprot prot in
  if negb (e =? 0) then mret (inr e) else
  let tmp := Z.min (vm_end vma) end_ in
  r ← mprotect_fixup (rpre, vma, rest) nstart tmp newflags;
  match r with
  | inl e => mret (inr e)
  | inr (rpre, prev, rest) =>
      let nstart := Z.max tmp (vm_end prev) in
      if end_ <=? nstart then mret (inr 0) else
      match rest with
      | vma :: rest' =>
          if negb (vm_start vma =? nstart) then mret (inr (- ENOMEM))
          else mret (inl (nstart, (prev :: rpre, vma, rest')))
      | [] => mret (inr (- ENOMEM))
      end
  end.
Definition mprotect_loop (guard : vm_area_struct → bool) (reqprot prot flags end_ nstart : Z) (x : position) : mmm Z :=
  loopM (mprotect_round guard reqprot prot flags end_) (nstart, x).
End Ops.
