(* ===== verification/VmaSpec.v ===== *)
(** Invariant and behaviour of the operations on memory areas.

    [seg lo l hi]: the areas of [l] are in order, apart, made of whole pages
    and between [lo] and [hi].  [view_at l x]: whether the area at address [x]
    is the arbiter's, and its access bits.  Every operation keeps the first and
    changes the second only where it should. *)

From S2P Require Import Prelude Chunk Os Pte Vma.

(** * Bits *)

Lemma testbit_not32 z i : 0 ≤ i < 32 → 0 ≤ z < 2 ^ 32 → Z.testbit (not32 z) i = negb (Z.testbit z i).
Proof.
  intros Hi Hz. unfold not32. rewrite u32_small by done.
  change (2 ^ 32 - 1) with (Z.ones 32). rewrite Z.sub_nocarry_ldiff.
  - by rewrite Z.ldiff_spec, Z.ones_spec_low by lia.
  - apply Z.bits_inj'. intros n Hn. rewrite Z.ldiff_spec, Z.bits_0.
    destruct (Z.lt_ge_cases n 32); [rewrite Z.ones_spec_low by lia; by rewrite andb_false_r|].
    rewrite (Z.bits_above_log2 z n); [done|lia|].
    destruct (decide (z = 0)) as [->|]; [simpl; lia|]. apply Z.log2_lt_pow2; [lia|].
    eapply Z.lt_le_trans; [apply Hz|]. apply Z.pow_le_mono_r; lia.
Qed.

(** A flag word is tested bit by bit. *)
Lemma flag_bit f i : 0 ≤ i → flag f (2 ^ i) = Z.testbit f i.
Proof.
  intros Hi. unfold flag. destruct (Z.testbit f i) eqn:E.
  - apply negb_true_iff, Z.eqb_neq. intros H0. apply (f_equal (λ z, Z.testbit z i)) in H0.
    rewrite Z.land_spec, E, Z.pow2_bits_true, Z.bits_0 in H0 by done. done.
  - apply negb_false_iff, Z.eqb_eq, Z.bits_inj'. intros n Hn. rewrite Z.land_spec, Z.bits_0.
    destruct (decide (n = i)) as [->|]; [by rewrite E|]. by rewrite Z.pow2_bits_false, andb_false_r by lia.
Qed.

Definition view (f : Z) : bool * Z := (flag f VM_AB_CONTROL, Z.land f VM_ACCESS).

Lemma low3_eq a b : (∀ i, 0 ≤ i < 3 → Z.testbit a i = Z.testbit b i) → Z.land a VM_ACCESS = Z.land b VM_ACCESS.
Proof.
  intros Hb. change VM_ACCESS with (Z.ones 3). apply Z.bits_inj'. intros n Hn. rewrite !Z.land_spec.
  destruct (Z.lt_ge_cases n 3); [by rewrite Hb by lia|]. by rewrite Z.ones_spec_high, !andb_false_r by lia.
Qed.
Lemma view_eq a b :
  Z.testbit a 29 = Z.testbit b 29 → (∀ i, 0 ≤ i < 3 → Z.testbit a i = Z.testbit b i) → view a = view b.
Proof.
  intros H29 Hl. unfold view. f_equal; [|by apply low3_eq].
  change VM_AB_CONTROL with (2 ^ 29). by rewrite !flag_bit by lia.
Qed.

Definition word (f : Z) : Prop := 0 ≤ f < 2 ^ 32.

Lemma mergeable_view file flags v : is_mergeable_vma file flags v = true → view (vm_flags v) = view flags.
Proof.
  unfold is_mergeable_vma. rewrite !andb_true_iff, Z.eqb_eq. intros [[H0 _] _].
  assert (Hb : ∀ i, 0 ≤ i < 32 → i ≠ 27 → Z.testbit (vm_flags v) i = Z.testbit flags i).
  { intros i Hi Hn. apply (f_equal (λ z, Z.testbit z i)) in H0.
    rewrite Z.land_spec, Z.lxor_spec, Z.bits_0, testbit_not32 in H0 by (done || (unfold VM_CAN_NONLINEAR; lia)).
    change VM_CAN_NONLINEAR with (2 ^ 27) in H0. rewrite Z.pow2_bits_false in H0 by lia.
    by destruct (Z.testbit (vm_flags v) i), (Z.testbit flags i). }
  apply view_eq; [apply Hb; lia|]. intros i Hi. apply Hb; lia.
Qed.

(** Areas of the arbiter may get every access, are copied to new tasks, are
    made of ordinary pages and do not grow like a stack. *)
Definition flags_ok (f : Z) : Prop :=
  word f ∧ (Z.testbit f 29 = true →
    Z.testbit f 4 = true ∧ Z.testbit f 5 = true ∧ Z.testbit f 6 = true ∧ Z.testbit f 17 = false ∧ Z.testbit f 22 = false ∧
    Z.testbit f 8 = false).

Lemma word_testbit_high f i : word f → 32 ≤ i → Z.testbit f i = false.
Proof.
  intros Hf Hi. destruct (decide (f = 0)) as [->|]; [apply Z.bits_0|].
  apply Z.bits_above_log2; [apply Hf|]. apply Z.log2_lt_pow2; [unfold word in Hf; lia|].
  eapply Z.lt_le_trans; [apply Hf|]. apply Z.pow_le_mono_r; lia.
Qed.
Lemma word_bits f : 0 ≤ f → (∀ i, 32 ≤ i → Z.testbit f i = false) → word f.
Proof.
  intros H0 Hb. split; [done|]. destruct (Z.lt_ge_cases f (2 ^ 32)) as [|Hge]; [done|].
  assert (32 ≤ Z.log2 f) by (apply Z.log2_le_pow2; lia).
  assert (Z.testbit f (Z.log2 f) = true) by (apply Z.bit_log2; lia). rewrite Hb in *; [done|lia].
Qed.
Lemma word_lor a b : word a → word b → word (Z.lor a b).
Proof.
  intros Ha Hb. apply word_bits; [apply Z.lor_nonneg; unfold word in *; lia|].
  intros i Hi. by rewrite Z.lor_spec, !word_testbit_high.
Qed.
Lemma word_land a b : word a → 0 ≤ b → word (Z.land a b).
Proof.
  intros Ha Hb. apply word_bits; [apply Z.land_nonneg; unfold word in *; lia|].
  intros i Hi. by rewrite Z.land_spec, word_testbit_high.
Qed.
Lemma not32_nonneg z : 0 ≤ not32 z.
Proof. unfold not32. pose proof (u32_bound z). lia. Qed.

(** The flags [mprotect] computes from the requested bits and the old flags *)
Definition protect_flags (flags old : Z) : Z := Z.lor flags (Z.land old (not32 VM_ACCESS)).

Lemma testbit_protect flags old i :
  0 ≤ flags < 8 → word old → 0 ≤ i < 32 →
  Z.testbit (protect_flags flags old) i = if decide (i < 3) then Z.testbit flags i else Z.testbit old i.
Proof.
  intros Hf Ho Hi. unfold protect_flags. rewrite Z.lor_spec, Z.land_spec, testbit_not32 by (done || (vm_compute; lia)).
  change VM_ACCESS with (Z.ones 3). case_decide.
  - rewrite Z.ones_spec_low by lia. by rewrite andb_false_r, orb_false_r.
  - rewrite Z.ones_spec_high by lia. cbn [negb]. rewrite andb_true_r.
    replace (Z.testbit flags i) with false; [done|]. symmetry.
    destruct (decide (flags = 0)) as [->|]; [apply Z.bits_0|]. apply Z.bits_above_log2; [lia|].
    apply Z.log2_lt_pow2; [lia|]. eapply Z.lt_le_trans; [apply Hf|].
    change 8 with (2 ^ 3). apply Z.pow_le_mono_r; lia.
Qed.
Lemma protect_word flags old : 0 ≤ flags < 8 → word old → word (protect_flags flags old).
Proof.
  intros Hf Ho. apply word_lor; [unfold word; lia|]. apply word_land; [done|apply not32_nonneg].
Qed.
Lemma protect_ok flags old : 0 ≤ flags < 8 → flags_ok old → flags_ok (protect_flags flags old).
Proof.
  intros Hf [Hw Ho]. split; [by apply protect_word|].
  rewrite !testbit_protect by (done || lia). rewrite !decide_False by lia. done.
Qed.
Lemma protect_view flags old :
  0 ≤ flags < 8 → word old → view (protect_flags flags old) = ((view old).1, flags).
Proof.
  intros Hf Hw. unfold view. cbn [fst]. f_equal.
  - change VM_AB_CONTROL with (2 ^ 29). rewrite !flag_bit, testbit_protect by (done || lia). done.
  - transitivity (Z.land flags VM_ACCESS).
    + apply low3_eq. intros i Hi. rewrite testbit_protect by (done || lia). by rewrite decide_True by lia.
    + change VM_ACCESS with (Z.ones 3). rewrite Z.land_ones, Z.mod_small; lia.
Qed.

(** The test of the [VM_MAY...] bits passes on areas of the arbiter. *)
Lemma protect_allowed flags old :
  0 ≤ flags < 8 → flags_ok old → Z.testbit old 29 = true →
  flag (Z.land (protect_flags flags old) (not32 (Z.shiftr (protect_flags flags old) 4))) VM_ACCESS = false.
Proof.
  intros Hf [Hw Ho] Hab. destruct (Ho Hab) as (H4 & H5 & H6 & _ & _). set (n := protect_flags flags old).
  assert (Hn : word n) by (by apply protect_word).
  unfold flag. apply negb_false_iff, Z.eqb_eq. apply Z.bits_inj'. intros i Hi.
  rewrite !Z.land_spec, Z.bits_0. destruct (Z.lt_ge_cases i 3).
  - rewrite testbit_not32; [|lia|].
    + rewrite Z.shiftr_spec by lia. unfold n. rewrite (testbit_protect _ _ (i + 4)) by (done || lia).
      rewrite decide_False by lia. replace (Z.testbit old (i + 4)) with true; [by rewrite andb_false_r|].
      assert (i = 0 ∨ i = 1 ∨ i = 2) as [-> | [-> | ->]] by lia; done.
    + unfold word in Hn. rewrite Z.shiftr_div_pow2 by lia. split; [apply Z.div_pos; lia|].
      eapply Z.le_lt_trans; [apply Z.div_le_upper_bound with (q := n); lia|lia].
  - change VM_ACCESS with (Z.ones 3). by rewrite Z.ones_spec_high, andb_false_r by lia.
Qed.

(** Flags without one of the bits that matter neither to the owner nor to the
    access *)
Lemma without_bit f n i : 0 ≤ n < 32 → 0 ≤ i < 32 → i ≠ n → Z.testbit (Z.land f (not32 (2 ^ n))) i = Z.testbit f i.
Proof.
  intros Hn Hi Hne. assert (0 < 2 ^ n < 2 ^ 32) by (split; [lia|apply Z.pow_lt_mono_r; lia]).
  rewrite Z.land_spec, testbit_not32 by lia. by rewrite Z.pow2_bits_false, andb_true_r by lia.
Qed.
Lemma without_view f n : 6 < n < 29 → view (Z.land f (not32 (2 ^ n))) = view f.
Proof. intros Hn. apply view_eq; [|intros i Hi]; apply without_bit; lia. Qed.
Lemma without_ok f n : 6 < n < 29 → flags_ok f → flags_ok (Z.land f (not32 (2 ^ n))).
Proof.
  intros Hn [Hw Hf]. split; [by apply word_land, not32_nonneg|]. rewrite !without_bit by lia. intros H29.
  destruct (Hf H29) as (H4 & H5 & H6 & H7 & H8 & H9). split_and!; try done; rewrite Z.land_spec; [by rewrite H7|by rewrite H8|by rewrite H9].
Qed.

(** * Ordered areas *)

Definition area_ok (v : vm_area_struct) : Prop :=
  vm_start v < vm_end v ∧ (PAGESIZE | vm_start v) ∧ (PAGESIZE | vm_end v) ∧ flags_ok (vm_flags v).

Fixpoint seg (lo : Z) (l : list vm_area_struct) (hi : Z) : Prop :=
  match l with
  | [] => lo ≤ hi
  | v :: l' => lo ≤ vm_start v ∧ area_ok v ∧ seg (vm_end v) l' hi
  end.
Definition wf_mmap (l : list vm_area_struct) : Prop := seg 0 l TASK_SIZE.

Fixpoint view_at (l : list vm_area_struct) (x : Z) : option (bool * Z) :=
  match l with
  | [] => None
  | v :: l' =>
      if x <? vm_end v then (if vm_start v <=? x then Some (view (vm_flags v)) else None) else view_at l' x
  end.

Lemma seg_le lo l hi : seg lo l hi → lo ≤ hi.
Proof.
  revert lo. induction l as [|v l IH]; intros lo; simpl; [done|].
  intros (H1 & (H2 & _) & H3%IH). lia.
Qed.
Lemma seg_areas_app lo l1 l2 hi : seg lo (l1 ++ l2) hi ↔ ∃ m, seg lo l1 m ∧ seg m l2 hi.
Proof.
  revert lo. induction l1 as [|v l1 IH]; intros lo; simpl.
  - split; [intros H; exists lo; split; [lia|done]|]. intros (m & H1 & H2). revert H2. destruct l2; simpl; [lia|].
    intros (H2 & H3). split; [lia|done].
  - rewrite IH. naive_solver.
Qed.
Lemma seg_weaken lo l hi lo' hi' : seg lo l hi → lo' ≤ lo → hi ≤ hi' → seg lo' l hi'.
Proof.
  revert lo lo'. induction l as [|v l IH]; intros lo lo'; simpl; [lia|].
  intros (H1 & H2 & H3) Hl Hh. split; [lia|]. split; [done|]. by apply (IH (vm_end v)).
Qed.
Lemma seg_ends lo l hi : seg lo l hi → Forall (λ v, vm_end v ≤ hi) l.
Proof.
  revert lo. induction l as [|v l IH]; intros lo; simpl; [constructor|].
  intros (H1 & H2 & H3). constructor; [by apply seg_le in H3|by eapply IH].
Qed.

(** [upd] applies on [[s, e)], the rest is unchanged. *)
Definition changed (f g : Z → option (bool * Z)) (s e : Z) (upd : option (bool * Z)) : Prop :=
  ∀ x, f x = if decide (s ≤ x < e) then upd else g x.

Lemma changed_pre pre l1 l2 s e upd :
  Forall (λ v, vm_end v ≤ s) pre → changed (view_at l1) (view_at l2) s e upd →
  changed (view_at (pre ++ l1)) (view_at (pre ++ l2)) s e upd.
Proof.
  intros Hp Hc. induction Hp as [|v pre Hv _ IH]; [done|]. intros x. simpl.
  destruct (Z.ltb_spec x (vm_end v)); [|apply IH]. rewrite decide_False by lia. done.
Qed.
Lemma unchanged_pre pre l1 l2 : (∀ x, view_at l1 x = view_at l2 x) →
  ∀ x, view_at (pre ++ l1) x = view_at (pre ++ l2) x.
Proof. intros Hc. induction pre as [|v pre IH]; [done|]. intros x. simpl. by rewrite IH. Qed.

(** Case analysis on the comparisons of a goal about [view_at] *)
Ltac cmp_step :=
  match goal with
  | |- context [?a <? ?b] => destruct (Z.ltb_spec a b); try lia
  | |- context [?a <=? ?b] => destruct (Z.leb_spec a b); try lia
  | |- context [decide (?a ≤ ?x < ?b)] => destruct (decide (a ≤ x < b)); try lia
  end.
Ltac cmps := repeat cmp_step; try done; try congruence.

Lemma page_shift x : (PAGESIZE | x) → Z.shiftl (Z.shiftr x PAGE_SHIFT) PAGE_SHIFT = x.
Proof.
  intros [k ->]. unfold PAGE_SHIFT, PAGESIZE. rewrite Z.shiftr_div_pow2, Z.shiftl_mul_pow2 by lia.
  change (2 ^ 12) with 4096. by rewrite Z.div_mul by lia.
Qed.
Lemma page_shift_opp x : (PAGESIZE | x) → Z.shiftl (- Z.shiftr x PAGE_SHIFT) PAGE_SHIFT = - x.
Proof.
  intros [k ->]. unfold PAGE_SHIFT, PAGESIZE. rewrite Z.shiftr_div_pow2, Z.shiftl_mul_pow2 by lia.
  change (2 ^ 12) with 4096. rewrite Z.div_mul by lia. lia.
Qed.

(** * Searching *)

Lemma find_vma_prev_spec rp l a rp' rest :
  find_vma_prev rp l a = (rp', rest) → Forall (λ v, vm_end v ≤ a) rp →
  rev_append rp' rest = rev_append rp l ∧ Forall (λ v, vm_end v ≤ a) rp' ∧
  match rest with v :: _ => a < vm_end v | [] => True end.
Proof.
  revert rp. induction l as [|v l IH]; intros rp; simpl; [by intros [= <- <-]|].
  destruct (Z.ltb_spec a (vm_end v)).
  - intros [= <- <-]. done.
  - intros E Hf. apply (IH (v :: rp)); [done|]. by constructor.
Qed.

(** A position in an ordered list: the areas in front, and those from it on. *)
Lemma position_seg rp rest hi :
  seg 0 (rev_append rp rest) hi ↔ ∃ m, seg 0 (rev rp) m ∧ seg m rest hi.
Proof. rewrite rev_append_rev. apply seg_areas_app. Qed.
Lemma rev_front rp m : seg 0 (rev rp) m → Forall (λ v, vm_end v ≤ m) (rev rp).
Proof. apply seg_ends. Qed.

Lemma find_vma_prev_wf l a rp rest :
  wf_mmap l → find_vma_prev [] l a = (rp, rest) →
  l = rev_append rp rest ∧
  (∃ m, m ≤ Z.max 0 a ∧ seg 0 (rev rp) m ∧ seg m rest TASK_SIZE) ∧
  match rest with v :: _ => a < vm_end v | [] => True end.
Proof.
  intros W E. apply find_vma_prev_spec in E as (E & Hf & Hr); [|constructor]. simpl in E. split; [done|]. split; [|done].
  unfold wf_mmap in W. rewrite <-E, rev_append_rev in W.
  clear E Hr. revert W. generalize 0 as lo. assert (Hf' : Forall (λ v, vm_end v ≤ a) (rev rp)) by (by apply Forall_rev).
  clear Hf. induction Hf' as [|v l' Hv _ IH]; intros lo W; simpl in *.
  - exists lo. split; [lia|]. split; [lia|done].
  - destruct W as (H1 & H2 & W). destruct (IH (vm_end v) W) as (m & Hm & Hs & Hr).
    exists m. destruct H2 as [H2 H2']. split; [lia|]. split; [|done]. split; [done|]. split; [by split|done].
Qed.

(** * Merging *)

Lemma vma_adjust_free v rest start e pgoff hi :
  seg e rest hi → vm_end v ≤ e → vma_adjust v rest start e pgoff = Ret (set_range start e pgoff v, rest).
Proof.
  intros Hr Hv. destruct rest as [|n r]; [done|]. simpl in *. destruct Hr as (H1 & (H2 & _) & _).
  rewrite (proj2 (Z.leb_gt _ _)), (proj2 (Z.ltb_ge (vm_start n) _)), (proj2 (Z.ltb_ge e _)) by lia. done.
Qed.
Lemma vma_adjust_absorb v n r start pgoff :
  vma_adjust v (n :: r) start (vm_end n) pgoff =
    Ret (import_anon (if anon_vma v =? 0 then anon_vma n else anon_vma v) (set_range start (vm_end n) pgoff v), r).
Proof. simpl. by rewrite Z.leb_refl, Z.ltb_irrefl. Qed.

(** The area [vma_merge] may merge with behind the request *)
Definition behind_of (rest : list vm_area_struct) (end_ flags anon file pgoff : Z) : option vm_area_struct :=
  match next_area rest end_ with
  | Some n => if (end_ =? vm_start n) && can_vma_merge_before file flags n anon pgoff then Some n else None
  | None => None
  end.
Lemma behind_spec rest end_ flags anon file pgoff n :
  behind_of rest end_ flags anon file pgoff = Some n →
  next_area rest end_ = Some n ∧ vm_start n = end_ ∧ view (vm_flags n) = view flags.
Proof.
  unfold behind_of. destruct (next_area rest end_) as [n'|]; [|done]. destruct (_ && _) eqn:E; [|done]. intros [= ->].
  apply andb_true_iff in E as [E1%Z.eqb_eq E2]. split; [done|]. split; [done|].
  unfold can_vma_merge_before in E2. rewrite !andb_true_iff in E2. eapply mergeable_view, E2.
Qed.
Lemma after_view file flags v anon pgoff :
  can_vma_merge_after file flags v anon pgoff = true → view (vm_flags v) = view flags.
Proof. unfold can_vma_merge_after. rewrite !andb_true_iff. intros [[Hm _] _]. by eapply mergeable_view. Qed.

(** Close a goal [seg] about areas given field by field. *)
Ltac seg_solve :=
  simpl in *; unfold area_ok in *; simpl in *; split_and?; try done; try lia; try tauto.

(** A change behind a position is a change of the whole list. *)
Lemma at_position rp m l1 l2 s e upd :
  seg 0 (rev rp) m → m ≤ s → seg m l1 TASK_SIZE → changed (view_at l1) (view_at l2) s e upd →
  wf_mmap (rev_append rp l1) ∧ changed (view_at (rev_append rp l1)) (view_at (rev_append rp l2)) s e upd.
Proof.
  intros Hp Hm Hs Hc. split; [apply position_seg; eauto|].
  rewrite !rev_append_rev. apply changed_pre; [|done].
  eapply Forall_impl; [by apply rev_front|]. simpl. lia.
Qed.

(** [[addr, end_)] is a free range of whole pages at a position. *)
Definition gap (rp rest : list vm_area_struct) (addr end_ : Z) : Prop :=
  (∃ m, seg 0 (rev rp) m ∧ m ≤ addr) ∧ addr < end_ ∧ (PAGESIZE | addr) ∧ (PAGESIZE | end_) ∧ seg end_ rest TASK_SIZE.
Definition maps_new (rp rest : list vm_area_struct) (addr end_ flags : Z) (l : list vm_area_struct) : Prop :=
  wf_mmap l ∧ changed (view_at l) (view_at (rev_append rp rest)) addr end_ (Some (view flags)).
Definition maps_new_if (rp rest : list vm_area_struct) (addr end_ flags : Z) (o : outcome (option position)) : Prop :=
  match o with
  | Ret (Some y) => maps_new rp rest addr end_ flags (position_list y)
  | Ret None => True
  | Fault _ => False
  end.

Lemma next_area_gap rp rest addr end_ : gap rp rest addr end_ → next_area rest end_ = head rest.
Proof.
  intros (_ & _ & _ & _ & Hr). destruct rest as [|a r]; [done|]. simpl in *. destruct Hr as (H1 & (H2 & _) & _).
  by rewrite (proj2 (Z.eqb_neq _ _)) by lia.
Qed.

Lemma merge_front_new rp n r addr flags pglen :
  gap rp (n :: r) addr (vm_start n) → view (vm_flags n) = view flags →
  maps_new_if rp (n :: r) addr (vm_start n) flags (merge_in_front rp (n :: r) n addr pglen).
Proof.
  intros ((m & Hp & Hm) & Hlt & Ha & He & _ & (H1 & H2 & H3 & H4) & Hr) Hv.
  assert (Hn : maps_new rp (n :: r) addr (vm_start n) flags
    (rev_append rp (set_range addr (vm_end n) (u32 (vm_pgoff n - pglen)) n :: r))).
  { eapply at_position; [done..| |]; [seg_solve|]. intros x. simpl. rewrite Hv. cmps. }
  unfold merge_in_front. rewrite (vma_adjust_free _ _ _ _ _ TASK_SIZE) by (done || lia).
  destruct rp as [|prev rp]; [done|]. simpl in Hp. apply seg_areas_app in Hp as (m' & _ & Hp). simpl in Hp.
  by rewrite (proj2 (Z.ltb_ge addr _)) by lia.
Qed.

(** The predecessor grows over the range, up to the area behind it or over
    that area too. *)
Lemma merge_prev_new prev rp rest addr end_ flags e pgoff :
  gap (prev :: rp) rest addr end_ → vm_end prev = addr → view (vm_flags prev) = view flags →
  e = end_ ∨ (∃ n r, rest = n :: r ∧ vm_start n = end_ ∧ view (vm_flags n) = view flags ∧ e = vm_end n) →
  maps_new_if (prev :: rp) rest addr end_ flags
    ('(prev', r) ← vma_adjust prev rest (vm_start prev) e pgoff; Ret (Some (rp, prev', r))).
Proof.
  intros ((m & Hp & Hm) & Hlt & Ha & He & Hr) Ea Ev Hor. simpl in Hp.
  apply seg_areas_app in Hp as (m' & Hp & Hl & (Hl1 & Hl2 & Hl3 & Hl4) & Hl').
  cut (∃ p' r', vma_adjust prev rest (vm_start prev) e pgoff = Ret (p', r') ∧
    seg m' (p' :: r') TASK_SIZE ∧ changed (view_at (p' :: r')) (view_at (prev :: rest)) addr end_ (Some (view flags))).
  { intros (p' & r' & -> & Hs & Hc). eapply (at_position rp m'); [done| |done|done]. lia. }
  destruct Hor as [->|(n & r & -> & Hs & Hv & ->)].
  - rewrite (vma_adjust_free _ _ _ _ _ TASK_SIZE) by (done || lia). eexists _, _. split; [done|]. split; [seg_solve|].
    intros x. destruct rest as [|n r]; simpl in *; rewrite Ev; cmps.
  - rewrite vma_adjust_absorb. eexists _, _. split; [done|]. destruct Hr as (_ & (H1 & H2 & H3 & H4) & Hr).
    split; [seg_solve|]. intros x. simpl. rewrite Ev, Hv. cmps.
Qed.

Lemma vma_merge_new rp rest addr end_ flags anon file pgoff :
  gap rp rest addr end_ → maps_new_if rp rest addr end_ flags (vma_merge rp rest addr end_ flags anon file pgoff).
Proof.
  intros G. unfold vma_merge. destruct (flag flags VM_SPECIAL); [done|].
  fold (behind_of rest end_ flags anon file (u32 (pgoff + Z.shiftr (end_ - addr) PAGE_SHIFT))).
  destruct (behind_of _ _ _ _ _ _) as [n|] eqn:Eb.
  - apply behind_spec in Eb as (En & Hs & Hv). rewrite (next_area_gap _ _ _ _ G) in En.
    destruct rest as [|n' r]; [done|]. injection En as ->. subst end_.
    pose proof (merge_front_new rp n r addr flags (Z.shiftr (vm_start n - addr) PAGE_SHIFT) G Hv) as Hf.
    destruct rp as [|prev rp]; [done|].
    destruct (_ && _) eqn:E; [|done]. apply andb_true_iff in E as [Ea%Z.eqb_eq Ev%after_view].
    apply merge_prev_new; [done..|]. destruct (is_mergeable_anon_vma _ _); [right; eauto 10|by left].
  - destruct rp as [|prev rp]; [done|].
    destruct (_ && _) eqn:E; [|done]. apply andb_true_iff in E as [Ea%Z.eqb_eq Ev%after_view].
    apply merge_prev_new; [done..|]. by left.
Qed.

(** ** Merging a part of a mapped area *)

(** The part [[s, e)] of the area [v] at a position gets the flags [nf]. *)
Definition part (rp : list vm_area_struct) (v : vm_area_struct) (rest : list vm_area_struct) (s e : Z) : Prop :=
  (∃ m, seg 0 (rev rp) m ∧ m ≤ vm_start v) ∧ area_ok v ∧ seg (vm_end v) rest TASK_SIZE ∧
  vm_start v ≤ s ∧ s < e ∧ e ≤ vm_end v ∧ (PAGESIZE | s) ∧ (PAGESIZE | e).
(** A position whose area covers the part, after the flags have been set *)
Definition reflags (rp : list vm_area_struct) (v : vm_area_struct) (rest : list vm_area_struct) (s e nf : Z)
    (y : position) : Prop :=
  let '(rp', v', rest') := y in
  let l := position_list (rp', set_vm_flags nf v', rest') in
  wf_mmap l ∧ changed (view_at l) (view_at (rev_append rp (v :: rest))) s e (Some (view nf)) ∧
  vm_start v' ≤ s ∧ e ≤ vm_end v'.
Definition reflags_if rp v rest s e nf (o : outcome (option position)) : Prop :=
  match o with
  | Ret (Some y) => reflags rp v rest s e nf y
  | Ret None => True
  | Fault _ => False
  end.

Lemma reflags_local rp m v rest s e nf v' rest' :
  seg 0 (rev rp) m → m ≤ s → seg m (set_vm_flags nf v' :: rest') TASK_SIZE →
  changed (view_at (set_vm_flags nf v' :: rest')) (view_at (v :: rest)) s e (Some (view nf)) →
  vm_start v' ≤ s → e ≤ vm_end v' → reflags rp v rest s e nf (rp, v', rest').
Proof. intros Hp Hm Hs Hc H1 H2. destruct (at_position rp m _ _ _ _ _ Hp Hm Hs Hc). done. Qed.

(** The part in front of the next area moves to it: case 4. *)
Lemma merge_case4 rp v n r s nf :
  part rp v (n :: r) s (vm_end v) → vm_start v < s → vm_start n = vm_end v → view (vm_flags n) = view nf →
  flags_ok nf → ∀ pglen, reflags_if rp v (n :: r) s (vm_end v) nf (merge_in_front (v :: rp) (n :: r) n s pglen).
Proof.
  intros ((m & Hp & Hm) & (V1 & V2 & V3 & V4) & (N0 & (N1 & N2 & N3 & N4) & Hr) & Hs & Hlt & He & Hps & Hpe)
    Hin Hn Hv Hnf pglen.
  unfold merge_in_front. rewrite (proj2 (Z.ltb_lt _ _)) by lia. unfold vma_adjust.
  rewrite (proj2 (Z.leb_gt _ _)), (proj2 (Z.ltb_ge (vm_start n) _)), (proj2 (Z.ltb_lt s _)) by lia.
  unfold shift_start. rewrite page_shift_opp by (by apply Z.divide_sub_r). simpl.
  replace (vm_start n + - (vm_end v - s)) with s by lia.
  unfold reflags. cbn [position_list rev_append].
  cut (wf_mmap (rev_append rp (set_range (vm_start v) s (vm_pgoff v) v ::
      set_vm_flags nf (import_anon (if anon_vma v =? 0 then anon_vma n else anon_vma v)
        (set_range s (vm_end n) (u32 (vm_pgoff n + - Z.shiftr (vm_end v - s) PAGE_SHIFT)) n)) :: r)) ∧
    changed (view_at (rev_append rp (set_range (vm_start v) s (vm_pgoff v) v ::
      set_vm_flags nf (import_anon (if anon_vma v =? 0 then anon_vma n else anon_vma v)
        (set_range s (vm_end n) (u32 (vm_pgoff n + - Z.shiftr (vm_end v - s) PAGE_SHIFT)) n)) :: r)))
      (view_at (rev_append rp (v :: n :: r))) s (vm_end v) (Some (view nf))).
  { intros [H1 H2]. split; [done|]. split; [done|]. simpl. lia. }
  apply (at_position rp m); [done|lia|seg_solve|]. intros x. simpl. rewrite Hv. cmps.
Qed.

(** The part at the start of the area joins the predecessor: cases 5, 6 and 7;
    [e'] is the end of the part or of the mergeable area behind it. *)
Lemma merge_cases567 prev rp v rest s e nf e' pgoff :
  part (prev :: rp) v rest s e → vm_start v = s → vm_end prev = s → view (vm_flags prev) = view nf → flags_ok nf →
  e' = e ∨ (e = vm_end v ∧ ∃ n r, rest = n :: r ∧ vm_start n = e ∧ view (vm_flags n) = view nf ∧ e' = vm_end n) →
  reflags_if (prev :: rp) v rest s e nf
    ('(prev', r) ← vma_adjust prev (v :: rest) (vm_start prev) e' pgoff; Ret (Some (rp, prev', r))).
Proof.
  intros ((m & Hp & Hm) & (V1 & V2 & V3 & V4) & Hr & Hs & Hlt & He & Hps & Hpe) Hst Hpv Hv Hnf Hor.
  simpl in Hp. apply seg_areas_app in Hp as (m' & Hp & Hl & (Hl1 & Hl2 & Hl3 & Hl4) & Hl').
  cut (∃ p' r', vma_adjust prev (v :: rest) (vm_start prev) e' pgoff = Ret (p', r') ∧
    seg m' (set_vm_flags nf p' :: r') TASK_SIZE ∧
    changed (view_at (set_vm_flags nf p' :: r')) (view_at (prev :: v :: rest)) s e (Some (view nf)) ∧
    vm_start p' ≤ s ∧ e ≤ vm_end p').
  { intros (p' & r' & -> & Hsg & Hc & H1 & H2). unfold reflags_if, reflags.
    assert (Hms : m' ≤ s) by lia. destruct (at_position rp m' _ _ _ _ _ Hp Hms Hsg Hc). done. }
  assert (Hpe2 : e' = e ∧ e < vm_end v ∨ e' = e ∧ e = vm_end v ∨
    e = vm_end v ∧ ∃ n r, rest = n :: r ∧ vm_start n = e ∧ view (vm_flags n) = view nf ∧ e' = vm_end n)
    by (destruct Hor as [->|]; [lia|by right; right]).
  destruct Hpe2 as [[-> Hlt2]|[[-> ->]|(-> & n & r & -> & Hns & Hnv & ->)]].
  - unfold vma_adjust. rewrite (proj2 (Z.leb_gt _ _)), (proj2 (Z.ltb_lt (vm_start v) _)) by lia.
    unfold shift_start. rewrite Hst, page_shift by (by apply Z.divide_sub_r). replace (s + (e - s)) with e by lia.
    eexists _, _. split; [done|]. split_and!; [seg_solve| |simpl; lia..].
    intros x. simpl. rewrite Hv. cmps.
  - rewrite vma_adjust_absorb. eexists _, _. split; [done|]. split_and!; [seg_solve| |simpl; lia..].
    intros x. simpl. rewrite Hv. cmps.
  - destruct Hr as (N0 & (N1 & N2 & N3 & N4) & Hr). unfold vma_adjust.
    rewrite (proj2 (Z.leb_le _ _)) by lia. cbn [vma_absorb].
    rewrite (proj2 (Z.ltb_lt (vm_end v) _)), (proj2 (Z.ltb_ge (vm_end n) _)) by lia.
    eexists _, _. split; [done|]. split_and!; [seg_solve| |simpl; lia..].
    intros x. simpl. rewrite Hv, Hnv. cmps.
Qed.

(** The whole area is joined with the one behind it: case 8. *)
Lemma merge_case8 rp v n r nf :
  part rp v (n :: r) (vm_start v) (vm_end v) → vm_start n = vm_end v → view (vm_flags n) = view nf → flags_ok nf →
  ∀ pglen, reflags_if rp v (n :: r) (vm_start v) (vm_end v) nf (merge_in_front rp (v :: n :: r) n (vm_start v) pglen).
Proof.
  intros ((m & Hp & Hm) & (V1 & V2 & V3 & V4) & (N0 & (N1 & N2 & N3 & N4) & Hr) & Hs & Hlt & He & Hps & Hpe)
    Hn Hv Hnf pglen.
  cut (∃ v' r', vma_adjust v (n :: r) (vm_start v) (vm_end n) (u32 (vm_pgoff n - pglen)) = Ret (v', r') ∧
    reflags rp v (n :: r) (vm_start v) (vm_end v) nf (rp, v', r')).
  { intros (v' & r' & E & Hf). unfold merge_in_front. rewrite E. destruct rp as [|prev rp]; [done|].
    simpl in Hp. apply seg_areas_app in Hp as (m' & _ & Hp). simpl in Hp.
    by rewrite (proj2 (Z.ltb_ge _ _)) by lia. }
  rewrite vma_adjust_absorb. eexists _, _. split; [done|].
  apply (reflags_local rp m); [done|lia|seg_solve| |simpl; lia..]. intros x. simpl. rewrite Hv. cmps.
Qed.

Lemma vma_merge_part rp v rest s e nf anon file pgoff :
  part rp v rest s e → flags_ok nf →
  reflags_if rp v rest s e nf
    (vma_merge (if vm_start v <? s then v :: rp else rp) (if vm_start v <? s then rest else v :: rest)
       s e nf anon file pgoff).
Proof.
  intros P Hnf. pose proof P as ((m & Hp & Hm) & (V1 & _) & Hr & Hs & Hlt & He & _).
  unfold vma_merge. destruct (flag nf VM_SPECIAL); [done|]. destruct (Z.ltb_spec (vm_start v) s) as [Hin|Hst].
  - rewrite (proj2 (Z.eqb_neq (vm_end v) s)) by lia. cbn [andb].
    fold (behind_of rest e nf anon file (u32 (pgoff + Z.shiftr (e - s) PAGE_SHIFT))).
    destruct (behind_of _ _ _ _ _ _) as [n|] eqn:Eb; [|done]. apply behind_spec in Eb as (En & Hn & Hv).
    destruct rest as [|a r]; [done|]. simpl in En, Hr. destruct Hr as (N0 & (N1 & _) & _).
    rewrite (proj2 (Z.eqb_neq _ _)) in En by lia. injection En as ->.
    assert (e = vm_end v) as -> by lia. by apply merge_case4.
  - assert (vm_start v = s) by lia.
    fold (behind_of (v :: rest) e nf anon file (u32 (pgoff + Z.shiftr (e - s) PAGE_SHIFT))).
    destruct (behind_of _ _ _ _ _ _) as [n|] eqn:Eb.
    + apply behind_spec in Eb as (En & Hn & Hv). simpl in En.
      destruct (Z.eqb_spec (vm_end v) e) as [<-|]; [|injection En as <-; lia].
      destruct rest as [|n' r]; [done|]. injection En as ->. subst s.
      pose proof (merge_case8 rp v n r nf P Hn Hv Hnf (Z.shiftr (vm_end v - vm_start v) PAGE_SHIFT)) as H8.
      destruct rp as [|prev rp]; [done|].
      destruct (_ && _) eqn:E; [|done]. apply andb_true_iff in E as [Ea%Z.eqb_eq Ev%after_view].
      apply merge_cases567; [done..|]. destruct (is_mergeable_anon_vma _ _); [right; eauto 10|by left].
    + destruct rp as [|prev rp]; [done|].
      destruct (_ && _) eqn:E; [|done]. apply andb_true_iff in E as [Ea%Z.eqb_eq Ev%after_view].
      apply merge_cases567; [done..|]. by left.
Qed.

(** * Splitting *)

Lemma seg_length lo l hi : seg lo l hi → (PAGESIZE | lo) → PAGESIZE * Z.of_nat (length l) ≤ hi - lo.
Proof.
  revert lo. induction l as [|v l IH]; intros lo; simpl; [lia|]. intros (H1 & (H2 & H3 & H4 & _) & H5) Hlo.
  specialize (IH _ H5 H4). destruct H3 as [a Ha], H4 as [b Hb]. unfold PAGESIZE in *. lia.
Qed.
(** The largest number of areas an address space can have *)
Definition MAX_AREAS : Z := 786432.
Lemma wf_count mm : wf_mmap (mmap mm) → map_count mm ≤ MAX_AREAS.
Proof.
  intros W. pose proof (seg_length _ _ _ W (Z.divide_0_r _)) as Hl. unfold map_count.
  unfold PAGESIZE, TASK_SIZE, MAX_AREAS in *. lia.
Qed.

Section Split.
Variable c : kconf.

(** No allocation fails and the number of areas is not limited. *)
Definition roomy (s : mst) : Prop := m_res s = [] ∧ MAX_AREAS < sysctl_max_map_count c.

Lemma split_list rp v rest a :
  wf_mmap (rev_append rp (v :: rest)) → vm_start v < a < vm_end v → (PAGESIZE | a) →
  let '(lo, hi) := split_parts v a in
  wf_mmap (rev_append rp (lo :: hi :: rest)) ∧
  ∀ x, view_at (rev_append rp (lo :: hi :: rest)) x = view_at (rev_append rp (v :: rest)) x.
Proof.
  intros W Ha Hp. simpl. apply position_seg in W as (m & Hm & Hs & (V1 & V2 & V3 & V4) & Hr). split.
  - apply position_seg. exists m. split; [done|]. seg_solve.
  - rewrite !rev_append_rev. apply unchanged_pre. intros x. simpl. cmps.
Qed.

Lemma split_vma_spec rp v rest a s :
  mmap (m_mm s) = rev_append rp (v :: rest) → wf_mmap (mmap (m_mm s)) → vm_start v < a < vm_end v → (PAGESIZE | a) →
  ∃ r s', split_vma c (rp, v, rest) a s = Ret (r, s') ∧ -4095 ≤ r ≤ 0 ∧
    (if decide (r = 0)
     then s' = Mst (set_mmap (rev_append rp ((split_parts v a).1 :: (split_parts v a).2 :: rest)) (m_mm s)) (m_res s')
     else m_mm s' = m_mm s) ∧
    (roomy s → roomy s' ∧ (Z.testbit (vm_flags v) 22 = false → r = 0)).
Proof.
  intros El W Ha Hp. unfold split_vma, mbind, st_bind, gets. cbn beta.
  destruct (flag (vm_flags v) VM_HUGETLB && _) eqn:Eh.
  { eexists _, s. split; [done|]. split; [done|]. split; [done|]. intros R. split; [done|]. intros H22.
    change VM_HUGETLB with (2 ^ 22) in Eh. rewrite flag_bit, H22 in Eh by lia. done. }
  destruct (Z.leb_spec (sysctl_max_map_count c) (map_count (m_mm s))).
  { eexists _, s. split; [done|]. split; [done|]. split; [done|]. intros [R1 R2]. pose proof (wf_count _ W). lia. }
  unfold take_resource. destruct s as [mm [|b res]]; simpl.
  - eexists _, _. split; [done|]. split; [done|]. done.
  - destruct b; simpl; eexists _, _; (split; [done|]); (split; [done|]); (split; [done|]); by intros [R _].
Qed.
End Split.

(** * [mprotect_fixup] *)

Lemma account_bit f i : i ≠ 20 → 0 ≤ i → Z.testbit (Z.lor f VM_ACCOUNT) i = Z.testbit f i.
Proof.
  intros Hi H0. change VM_ACCOUNT with (2 ^ 20). rewrite Z.lor_spec, Z.pow2_bits_false by lia. apply orb_false_r.
Qed.
Lemma account_view f : view (Z.lor f VM_ACCOUNT) = view f.
Proof. apply view_eq; [by apply account_bit|]. intros i Hi. apply account_bit; lia. Qed.
Lemma account_ok f : flags_ok f → flags_ok (Z.lor f VM_ACCOUNT).
Proof.
  intros [Hw Hf]. split; [apply word_lor; [done|unfold word, VM_ACCOUNT; lia]|]. by rewrite !account_bit.
Qed.

Lemma wf_position rp v rest : wf_mmap (rev_append rp (v :: rest)) →
  ∃ m, seg 0 (rev rp) m ∧ m ≤ vm_start v ∧ area_ok v ∧ seg (vm_end v) rest TASK_SIZE.
Proof. intros (m & Hm & Hs & Hv & Hr)%position_seg. eauto. Qed.

(** Every entry of the page table is for a page of an area, and grants no more
    than the access of that area. *)
Definition pgd_ok (m : mm_struct) : Prop :=
  ∀ i e, pgd m !! i = Some e → ∃ b w, view_at (mmap m) (i * PAGESIZE) = Some (b, w) ∧ entry_ok w e.

(** An operation that only adds pages *)
Lemma pgd_ok_mono m m' :
  pgd m' = pgd m → (∀ x, view_at (mmap m) x ≠ None → view_at (mmap m') x = view_at (mmap m) x) → pgd_ok m → pgd_ok m'.
Proof.
  intros Hg Hv Hok i e Hi. rewrite Hg in Hi. destruct (Hok i e Hi) as (b & w & Hx & He).
  exists b, w. split; [|done]. rewrite Hv, Hx; [done|]. by rewrite Hx.
Qed.

(** What an operation on areas that may fail for lack of resources leaves of an
    address space: all but the areas and the page table, and if the latter was
    in order it still is. *)
Record remapped (s s' : mst) : Prop := {
  rp_frame : m_mm s' = set_pgd (pgd (m_mm s')) (set_mmap (mmap (m_mm s')) (m_mm s));
  rp_pgd : pgd_ok (m_mm s) → pgd_ok (m_mm s');
}.
#[export] Instance remapped_preorder : PreOrder remapped.
Proof.
  split; [intros [[] ?]; by split|]. intros s1 s2 s3 [H1 P1] [H2 P2]. split; [by rewrite H2, H1|auto].
Qed.
Lemma remapped_same s s' : m_mm s' = m_mm s → remapped s s'.
Proof. intros E. split; rewrite E; [by destruct (m_mm s)|done]. Qed.
(** Areas are rearranged. *)
Lemma remapped_view s s' :
  m_mm s' = set_mmap (mmap (m_mm s')) (m_mm s) → (∀ x, view_at (mmap (m_mm s')) x = view_at (mmap (m_mm s)) x) → remapped s s'.
Proof.
  intros E Hv. assert (Eg : pgd (m_mm s') = pgd (m_mm s)) by (by rewrite E). split; [|by apply pgd_ok_mono].
  rewrite E at 1. rewrite Eg. by destruct (m_mm s).
Qed.

Section Fixup.
Variable c : kconf.

(** What a conditional split does *)
Record split_done (b : bool) (rp : list vm_area_struct) (v : vm_area_struct) (rest : list vm_area_struct) (a : Z)
    (st : mst) (r : Z) (st1 : mst) : Prop := {
  sd_ret : -4095 ≤ r ≤ 0;
  sd_frame : remapped st st1;
  sd_wf : wf_mmap (mmap (m_mm st1));
  sd_view x : view_at (mmap (m_mm st1)) x = view_at (mmap (m_mm st)) x;
  sd_list : r = 0 → mmap (m_mm st1) =
    rev_append rp (if b then (split_parts v a).1 :: (split_parts v a).2 :: rest else v :: rest);
  sd_room : roomy c st → roomy c st1 ∧ (Z.testbit (vm_flags v) 22 = false → r = 0);
}.

Lemma split_maybe (b : bool) rp v rest a st :
  mmap (m_mm st) = rev_append rp (v :: rest) → wf_mmap (mmap (m_mm st)) →
  (b = true → vm_start v < a < vm_end v) → (PAGESIZE | a) →
  ∃ r st1, (if b then split_vma c (rp, v, rest) a else mret 0) st = Ret (r, st1) ∧ split_done b rp v rest a st r st1.
Proof.
  intros El W Hb Ha. destruct b.
  - destruct (split_vma_spec c rp v rest a st El W (Hb eq_refl) Ha) as (r & st1 & E & Hr & Hst & Hroom).
    exists r, st1. split; [done|]. pose proof W as W'. rewrite El in W'.
    destruct (split_list rp v rest a W' (Hb eq_refl) Ha) as [Hw Hv].
    destruct (decide (r = 0)) as [->|Hne].
    + assert (Hview : ∀ x, view_at (mmap (m_mm st1)) x = view_at (mmap (m_mm st)) x).
      { intros x. rewrite Hst. simpl. by rewrite El, Hv. }
      split; try done; [by apply remapped_view; [rewrite Hst|]|by rewrite Hst..].
    + split; rewrite ?Hst; try done. by apply remapped_same.
  - exists 0, st. split; [done|]. by split.
Qed.

Lemma isolate_spec rp v rest s e st :
  mmap (m_mm st) = rev_append rp (v :: rest) → wf_mmap (mmap (m_mm st)) →
  vm_start v ≤ s → s < e → e ≤ vm_end v → (PAGESIZE | s) → (PAGESIZE | e) →
  ∃ r st', isolate c (rp, v, rest) s e st = Ret (r, st') ∧ remapped st st' ∧ wf_mmap (mmap (m_mm st')) ∧
    (∀ x, view_at (mmap (m_mm st')) x = view_at (mmap (m_mm st)) x) ∧
    match r with
    | inl err => err < 0
    | inr (rp', v', rest') => mmap (m_mm st') = rev_append rp' (v' :: rest') ∧ vm_start v' = s ∧ vm_end v' = e
    end ∧
    (roomy c st → roomy c st' ∧ (Z.testbit (vm_flags v) 22 = false → ∃ y, r = inr y)).
Proof.
  intros El W H1 H2 H3 Hs He. unfold isolate. set (b := negb (s =? vm_start v)).
  assert (Hb : if b then vm_start v < s else vm_start v = s).
  { unfold b. destruct (Z.eqb_spec s (vm_start v)); simpl; lia. }
  clearbody b. destruct (split_maybe b rp v rest s st El W) as (r & st1 & E & D); [intros ->; simpl in Hb; lia|done|].
  unfold mbind at 1, st_bind at 1. rewrite E. destruct (Z.eqb_spec r 0) as [Er|Hne]; cbn [negb].
  2:{ exists (inl r), st1. pose proof (sd_ret _ _ _ _ _ _ _ _ D). split; [done|]. split; [apply D|].
      split; [apply D|]. split; [apply D|]. split; [lia|]. intros R.
      destruct (sd_room _ _ _ _ _ _ _ _ D R) as [R1 R2]. split; [done|]. intros H22. by apply R2 in H22. }
  set (rp1 := if b then (split_parts v s).1 :: rp else rp). set (v1 := if b then (split_parts v s).2 else v).
  assert (Hv1 : vm_start v1 = s ∧ vm_end v1 = vm_end v ∧ vm_flags v1 = vm_flags v) by (unfold v1; destruct b; done).
  replace (if b then ((split_parts v s).1 :: rp, (split_parts v s).2) else (rp, v)) with (rp1, v1)
    by (unfold rp1, v1; by destruct b).
  assert (El1 : mmap (m_mm st1) = rev_append rp1 (v1 :: rest)).
  { rewrite (sd_list _ _ _ _ _ _ _ _ D Er). unfold rp1, v1. by destruct b. }
  destruct Hv1 as (V1 & V2 & V3). set (b2 := negb (e =? vm_end v1)).
  destruct (split_maybe b2 rp1 v1 rest e st1 El1) as (r2 & st2 & E2 & D2); [apply D| |done|].
  { unfold b2. destruct (Z.eqb_spec e (vm_end v1)); simpl; [done|lia]. }
  unfold mbind at 1, st_bind at 1. rewrite E2.
  pose proof (sd_ret _ _ _ _ _ _ _ _ D2). pose proof (sd_room _ _ _ _ _ _ _ _ D) as R1.
  pose proof (sd_room _ _ _ _ _ _ _ _ D2) as R2. rewrite V3 in R2.
  assert (Hfr : remapped st st2) by (etrans; [apply D|apply D2]).
  assert (Hvw : ∀ x, view_at (mmap (m_mm st2)) x = view_at (mmap (m_mm st)) x).
  { intros x. rewrite (sd_view _ _ _ _ _ _ _ _ D2). apply D. }
  destruct (Z.eqb_spec r2 0) as [Er2|Hne]; cbn [negb]; eexists _, st2;
    (split; [done|]); (split; [done|]); (split; [apply D2|]); (split; [done|]).
  - split.
    + pose proof (sd_list _ _ _ _ _ _ _ _ D2 Er2) as L2. unfold b2 in *.
      destruct (Z.eqb_spec e (vm_end v1)); simpl in *; done.
    + intros R. destruct (R1 R) as [R0 _]. destruct (R2 R0) as [R3 _]. eauto.
  - split; [lia|]. intros R. destruct (R1 R) as [R0 _]. destruct (R2 R0) as [R3 R4]. split; [done|].
    intros H22. by apply R4 in H22.
Qed.

(** The result of [mprotect_fixup] on [[s, e)] *)
Record fixed (s e nf : Z) (st : mst) (r : Z + position) (st' : mst) : Prop := {
  fx_frame : remapped st st';
  fx_wf : wf_mmap (mmap (m_mm st'));
  fx_view : match r with
            | inl err => err < 0 ∧ ∀ y, view_at (mmap (m_mm st')) y = view_at (mmap (m_mm st)) y
            | inr (rp', v', rest') =>
                mmap (m_mm st') = rev_append rp' (v' :: rest') ∧
                changed (view_at (mmap (m_mm st'))) (view_at (mmap (m_mm st))) s e (Some (view nf)) ∧
                vm_start v' ≤ s ∧ e ≤ vm_end v'
            end;
}.

Lemma changed_trivial l s e w : (∀ x, s ≤ x < e → view_at l x = Some w) → changed (view_at l) (view_at l) s e (Some w).
Proof. intros Hx x. case_decide; auto. Qed.
Lemma view_in_area rp v rest x m :
  seg 0 (rev rp) m → m ≤ vm_start v → vm_start v ≤ x < vm_end v →
  view_at (rev_append rp (v :: rest)) x = Some (view (vm_flags v)).
Proof.
  intros Hp Hm Hx. rewrite rev_append_rev. pose proof (rev_front _ _ Hp) as Hf. clear Hp.
  induction Hf as [|u l Hu _ IH]; simpl; cmps.
Qed.

(** The charge for pages that become writable *)
Lemma charge_spec (charge : bool) st :
  ∃ ok st0, (if charge then take_resource else mret true) st = Ret (ok, st0) ∧ m_mm st0 = m_mm st ∧
    (roomy c st → roomy c st0 ∧ ok = true).
Proof.
  destruct charge; [|by eexists _, _]. unfold take_resource, roomy. destruct st as [mm [|b res]]; simpl.
  - by eexists _, _.
  - eexists _, _. split; [done|]. split; [done|]. by intros [? _].
Qed.

(** New flags for a whole area *)
Lemma set_flags_spec rp v rest nf :
  wf_mmap (rev_append rp (v :: rest)) → flags_ok nf →
  wf_mmap (rev_append rp (set_vm_flags nf v :: rest)) ∧
  changed (view_at (rev_append rp (set_vm_flags nf v :: rest))) (view_at (rev_append rp (v :: rest)))
    (vm_start v) (vm_end v) (Some (view nf)).
Proof.
  intros W Hok. destruct (wf_position rp v rest W) as (m & Hp & Hm & Hv & Hr).
  apply (at_position rp m); [done|lia|seg_solve|]. intros x. simpl. cmps.
Qed.

Lemma writenotify_write v : vma_wants_writenotify c v = true → Z.testbit (Z.land (vm_flags v) 7) 1 = true.
Proof.
  unfold vma_wants_writenotify. rewrite andb_true_iff. intros [Hw%Z.eqb_eq _]. rewrite Z.land_spec.
  assert (Hb : Z.testbit (Z.land (vm_flags v) (Z.lor VM_WRITE VM_SHARED)) 1 = true) by (by rewrite Hw).
  rewrite Z.land_spec in Hb. by apply andb_true_iff in Hb as [-> _].
Qed.
Lemma page_prot_ok v pfn : entry_ok (Z.land (vm_flags v) 7) (mk_pte pfn (vm_page_prot c v)).
Proof.
  unfold vm_page_prot. destruct (vma_wants_writenotify c v); [|apply prot_entry].
  replace (Z.land (vm_flags v) 7) with (Z.land (Z.land (vm_flags v) (not32 VM_SHARED)) 7); [apply prot_entry|].
  by rewrite <-Z.land_assoc.
Qed.

(** The entries follow the new access of the part. *)
Lemma protect_entries m l s e v :
  pgd_ok m → changed (view_at l) (view_at (mmap m)) s e (Some (view (vm_flags v))) →
  pgd_ok (set_pgd (change_protection s e (vm_page_prot c v) (vma_wants_writenotify c v) (pgd m)) (set_mmap l m)).
Proof.
  intros Hok Hc i x. simpl. rewrite lookup_change. intros (x0 & Hi & ->)%fmap_Some_1.
  destruct (Hok i x0 Hi) as (b & w & Hv & He). rewrite Hc. destruct (decide (in_range s e i)) as [Hr|Hr]; unfold in_range in Hr;
    [rewrite decide_True by done|rewrite decide_False by done].
  - exists (view (vm_flags v)).1, (view (vm_flags v)).2. split; [by destruct (view _)|]. unfold view. simpl.
    change VM_ACCESS with 7. apply change_pte_ok; [apply page_prot_ok|apply writenotify_write|apply He].
  - by exists b, w.
Qed.

Lemma mprotect_fixup_spec rp v rest s e nf st :
  mmap (m_mm st) = rev_append rp (v :: rest) → wf_mmap (mmap (m_mm st)) →
  vm_start v ≤ s → s < e → e ≤ vm_end v → (PAGESIZE | s) → (PAGESIZE | e) → flags_ok nf →
  ∃ r st', mprotect_fixup c (rp, v, rest) s e nf st = Ret (r, st') ∧ fixed s e nf st r st' ∧
    (roomy c st → roomy c st' ∧ (Z.testbit (vm_flags v) 22 = false → ∃ y, r = inr y)).
Proof.
  intros El W H1 H2 H3 Hs He Hnf. pose proof W as W'. rewrite El in W'.
  destruct (wf_position _ _ _ W') as (m & Hp & Hm & Hv & Hr).
  unfold mprotect_fixup. destruct (Z.eqb_spec nf (vm_flags v)) as [->|_].
  { eexists _, st. split; [done|]. split; [|naive_solver]. split; [done|done|].
    split; [done|]. split; [|lia]. apply changed_trivial. intros x Hx. rewrite El.
    eapply view_in_area; [done..|lia]. }
  set (charge := _ && _). unfold mbind at 1, st_bind at 1. destruct (charge_spec charge st) as (ok & st0 & -> & Em & Rm).
  destruct ok; cbn [negb].
  2:{ eexists _, st0. split; [done|]. split; [|intros R; by destruct (Rm R)]. split; rewrite ?Em; try done.
      by apply remapped_same. }
  set (nf' := if charge then Z.lor nf VM_ACCOUNT else nf).
  assert (Hnf' : flags_ok nf' ∧ view nf' = view nf).
  { unfold nf'. destruct charge; [|done]. split; [by apply account_ok|apply account_view]. }
  destruct Hnf' as [Hok Hvw]. clearbody nf'. unfold mbind at 1, st_bind at 1, lift.
  assert (P : part rp v rest s e) by (split; eauto 10).
  pose proof (vma_merge_part rp v rest s e nf' (anon_vma v) (vm_file v)
    (u32 (vm_pgoff v + Z.shiftr (s - vm_start v) PAGE_SHIFT)) P Hok) as Hmg.
  destruct (vma_merge _ _ _ _ _ _ _ _) as [[[[rp' v'] rest']|]|]; [| |done].
  { destruct Hmg as (Hw & Hc & Hst & Hen). eexists _, _. split; [done|]. split.
    - split; simpl; [|done|by rewrite <-Hvw, El]. split; simpl; rewrite Em; [done|]. intros Hpg.
      apply protect_entries; [done|]. simpl. by rewrite El.
    - intros R. destruct (Rm R) as [R0 _]. split; [by destruct R0|eauto]. }
  destruct (isolate_spec rp v rest s e st0) as (r & st1 & E & Hfr & Hw & Hvv & Hrr & Hroom); rewrite ?Em; try done.
  unfold mbind at 1, st_bind at 1. rewrite E. destruct r as [err|[[rp' v'] rest']].
  { eexists _, st1. split; [done|]. split.
    - split; [by etrans; [apply remapped_same|]|done|]. split; [done|]. intros y. by rewrite Hvv, Em.
    - intros R. destruct (Rm R) as [R0 _]. destruct (Hroom R0) as [R1 R2]. split; [done|]. intros H22. by destruct (R2 H22) as [y [=]]. }
  destruct Hrr as (Hl & Hs1 & He1). eexists _, _. split; [done|].
  destruct (set_flags_spec rp' v' rest' nf') as [Hw2 Hc2]; [by rewrite <-Hl|done|]. rewrite Hs1, He1 in Hc2. split.
  - split; simpl; [|done|].
    { etrans; [by apply remapped_same, Em|]. etrans; [exact Hfr|]. split; simpl; [done|]. intros Hpg. apply protect_entries; [done|].
      simpl. by rewrite Hl. }
    split; [done|]. split; [|lia]. intros x. rewrite Hc2, <-Hl, <-Hvw. case_decide; [done|]. by rewrite Hvv, Em.
  - intros R. destruct (Rm R) as [R0 _]. destruct (Hroom R0) as [[R1 R2] R3]. split; [by split|eauto].
Qed.
End Fixup.
