(* ===== verification/FreeArea.v ===== *)
(** The search for a free range of the address space, of [mm/mmap.c], and the
    choice of its direction, of [arch/x86/mm/mmap.c].

    Both searches start where the last one stopped ([free_area_cache]) if no
    hole in front of that place is known to be large enough
    ([cached_hole_size]).  A search returns an address or a negative error,
    with the new contents of the fields. *)

From S2P Require Import Prelude Chunk Os Pte Vma.

Definition TASK_UNMAPPED_BASE : Z := PAGE_ALIGN (TASK_SIZE / 3).
Definition ULONG_MAX : Z := not32 0.

Definition set_hole (h : Z) (c : area_cache) : area_cache := Cache (legacy_layout c) (cache_base c) (free_area_cache c) h.
Definition set_free (a : Z) (c : area_cache) : area_cache := Cache (legacy_layout c) (cache_base c) a (cached_hole_size c).

(** * From the bottom up *)

(** Does a hint leave room? *)
Definition hint_fits (l : list vm_area_struct) (addr len : Z) : bool :=
  (addr <=? TASK_SIZE - len) &&
  match find_vma l addr with None => true | Some vma => u32 (addr + len) <=? vm_start vma end.

(** The loop, from the areas that end behind [addr] on: the address found, if
    any, and the largest hole passed. *)
Fixpoint search_up (len : Z) (vmas : list vm_area_struct) (addr hole : Z) : option Z * Z :=
  if TASK_SIZE - len <? addr then (None, hole) else
  match vmas with
  | [] => (Some addr, hole)
  | vma :: vm_next =>
      if u32 (addr + len) <=? vm_start vma then (Some addr, hole)
      else search_up len vm_next (vm_end vma)
             (if u32 (addr + hole) <? vm_start vma then vm_start vma - addr else hole)
  end.
Definition areas_from (l : list vm_area_struct) (addr : Z) : list vm_area_struct := (find_vma_prev [] l addr).2.

(** [full_search] from [start_addr] on, and once more from the bottom *)
Definition full_search (l : list vm_area_struct) (len : Z) (start_addr : Z) (c : area_cache) : Z * area_cache :=
  let found a h := (a, set_free (u32 (a + len)) (set_hole h c)) in
  match search_up len (areas_from l start_addr) start_addr (cached_hole_size c) with
  | (Some addr, h) => found addr h
  | (None, h) =>
      if start_addr =? TASK_UNMAPPED_BASE then (u32 (- ENOMEM), set_hole h c)
      else match search_up len (areas_from l TASK_UNMAPPED_BASE) TASK_UNMAPPED_BASE 0 with
           | (Some addr, h) => found addr h
           | (None, h) => (u32 (- ENOMEM), set_hole h c)
           end
  end.

Definition arch_get_unmapped_area (l : list vm_area_struct) (c : area_cache) (addr len flags : Z) : Z * area_cache :=
  if TASK_SIZE <? len then (u32 (- ENOMEM), c) else
  if flag flags MAP_FIXED then (addr, c) else
  let hint := PAGE_ALIGN addr in
  if negb (addr =? 0) && hint_fits l hint len then (hint, c) else
  if cached_hole_size c <? len then full_search l len (free_area_cache c) c
  else full_search l len TASK_UNMAPPED_BASE (set_hole 0 c).

Definition arch_unmap_area (c : area_cache) (addr : Z) : area_cache :=
  if (TASK_UNMAPPED_BASE <=? addr) && (addr <? free_area_cache c) then set_hole ULONG_MAX (set_free addr c) else c.

(** * From the top down *)

(** The loop body: the address under test and the largest hole seen; the exit
    gives the address found, if any. *)
Definition topdown_round (l : list vm_area_struct) (len : Z) (x : Z * Z) : outcome (Z * Z + option Z * Z) :=
  let '(addr, hole) := x in
  match find_vma l addr with
  | None => Ret (inr (Some addr, hole))
  | Some vma =>
      if u32 (addr + len) <=? vm_start vma then Ret (inr (Some addr, hole)) else
      let hole := if u32 (addr + hole) <? vm_start vma then vm_start vma - addr else hole in
      Ret (if len <? vm_start vma then inl (u32 (vm_start vma - len), hole) else inr (None, hole))
  end.

(** Is the range that ends at the remembered address free? *)
Definition cache_fits (l : list vm_area_struct) (len : Z) (c : area_cache) : bool :=
  let addr := free_area_cache c in
  (len <? addr) &&
  match find_vma l (addr - len) with None => true | Some vma => addr <=? vm_start vma end.

(** [bottomup]: the fallback to the other direction *)
Definition topdown_fallback (l : list vm_area_struct) (c : area_cache) (addr0 len flags : Z) : Z * area_cache :=
  let r := arch_get_unmapped_area l (set_hole ULONG_MAX (set_free TASK_UNMAPPED_BASE c)) addr0 len flags in
  (r.1, set_hole ULONG_MAX (set_free (cache_base c) r.2)).

Definition arch_get_unmapped_area_topdown (l : list vm_area_struct) (c : area_cache) (addr0 len flags : Z) : Z * area_cache :=
  if TASK_SIZE <? len then (u32 (- ENOMEM), c) else
  if flag flags MAP_FIXED then (addr0, c) else
  let hint := PAGE_ALIGN addr0 in
  if negb (addr0 =? 0) && hint_fits l hint len then (hint, c) else
  let c := if len <=? cached_hole_size c then set_free (cache_base c) (set_hole 0 c) else c in
  if cache_fits l len c then (free_area_cache c - len, set_free (free_area_cache c - len) c) else
  if cache_base c <? len then topdown_fallback l c addr0 len flags else
  match while (topdown_round l len) (cache_base c - len, cached_hole_size c) with
  | Ret (Some addr, h) => (addr, set_free addr (set_hole h c))
  | Ret (None, h) => topdown_fallback l (set_hole h c) addr0 len flags
  | Fault _ => (u32 (- EINVAL), c) (* the loop ends: no search returns this *)
  end.

Definition arch_unmap_area_topdown (c : area_cache) (addr : Z) : area_cache :=
  let c := if free_area_cache c <? addr then set_free addr c else c in
  if cache_base c <? free_area_cache c then set_free (cache_base c) c else c.

(** * The operations of an address space *)

Definition get_area (l : list vm_area_struct) (c : area_cache) : Z → Z → Z → Z * area_cache :=
  if legacy_layout c then arch_get_unmapped_area l c else arch_get_unmapped_area_topdown l c.

(** The end of [detach_vmas_to_be_unmapped], with the areas in front of the
    removed ones and those behind *)
Definition note_unmapped (c : area_cache) (rpre rest : list vm_area_struct) : area_cache :=
  if legacy_layout c then arch_unmap_area c (match rpre with prev :: _ => vm_end prev | [] => cache_base c end)
  else arch_unmap_area_topdown c (match rest with vma :: _ => vm_start vma | [] => cache_base c end).

(** [arch_pick_mmap_layout], for a task whose flags include [PF_RANDOMIZE] or
    not, with a random number and the limit on its stack *)
Definition ADDR_NO_RANDOMIZE : Z := 0x0040000.
Definition ADDR_COMPAT_LAYOUT : Z := 0x0200000.
Definition RLIM_INFINITY : Z := not32 0.
Definition STACK_RND_MASK : Z := 0x7ff.

Section Layout.
Variables (pf_randomize legacy_va_layout : bool) (pers rnd rlim : Z).

Definition stack_maxrandom_size : Z :=
  if pf_randomize && negb (flag pers ADDR_NO_RANDOMIZE) then Z.shiftl STACK_RND_MASK PAGE_SHIFT else 0.
Definition MIN_GAP : Z := 128 * 1024 * 1024 + stack_maxrandom_size.
Definition MAX_GAP : Z := TASK_SIZE / 6 * 5.
Definition mmap_is_legacy : bool := flag pers ADDR_COMPAT_LAYOUT || (rlim =? RLIM_INFINITY) || legacy_va_layout.
Definition mmap_rnd : Z := Z.shiftl (if pf_randomize then Z.rem (s32 rnd) (2 ^ 8) else 0) PAGE_SHIFT.
Definition mmap_base : Z :=
  let gap := if rlim <? MIN_GAP then MIN_GAP else if MAX_GAP <? rlim then MAX_GAP else rlim in
  PAGE_ALIGN (u32 (TASK_SIZE - gap - mmap_rnd)).
Definition arch_pick_mmap_layout : bool * Z :=
  if mmap_is_legacy then (true, TASK_UNMAPPED_BASE) else (false, mmap_base).
End Layout.

(** The fields in a new address space: after [exec] and after [fork] *)
Definition exec_cache (x : bool * Z) : area_cache := Cache x.1 x.2 x.2 0.
Definition fork_cache (c : area_cache) : area_cache := set_hole ULONG_MAX (set_free (cache_base c) c).
