(* ===== verification/Kernel.v ===== *)
(** The system calls the project adds to the kernel: [kernel/absys_mmap.c],
    [kernel/absys_mprotect.c], [kernel/absys_thread_control.c], the region
    functions it adds to [mm/mmap.c], the guard it adds to [mprotect], and the
    control groups of [include/linux/absys_thread_control.h].

    Tasks are named by pid.  The control group is the ring that the [ab_tasks]
    list heads form; its links are the pids of the neighbours, and a walk over
    the ring follows them.  Semaphores are left out: every call holds the one
    of the address space it changes, so the calls of the model are atomic. *)

From S2P Require Import Prelude Chunk Os Pte Vma FreeArea.

Definition PROT_EXEC : Z := 4.
Definition PROT_SEM : Z := 8.
Definition PROT_GROWSDOWN : Z := 0x01000000.
Definition PROT_GROWSUP : Z := 0x02000000.
Definition READ_IMPLIES_EXEC : Z := 0x0400000.
Definition MAP_SHARED : Z := 0x1.
Definition MAP_PRIVATE : Z := 0x2.
Definition MAP_TYPE : Z := 0xf.
Definition MAP_ANONYMOUS : Z := 0x20.
Definition MAP_GROWSDOWN : Z := 0x100.
Definition MAP_DENYWRITE : Z := 0x800.
Definition MAP_EXECUTABLE : Z := 0x1000.
Definition MAP_LOCKED : Z := 0x2000.
Definition MAP_NORESERVE : Z := 0x4000.
Definition MAP_HUGETLB : Z := 0x40000.

(** [calc_vm_prot_bits] and [calc_vm_flag_bits] of [linux/mman.h] *)
Definition calc_vm_prot_bits (prot : Z) : Z := Z.land prot (Z.lor PROT_READ (Z.lor PROT_WRITE PROT_EXEC)).
Definition calc_vm_flag_bits (flags : Z) : Z :=
  Z.land flags (Z.lor MAP_GROWSDOWN (Z.lor MAP_DENYWRITE (Z.lor MAP_EXECUTABLE MAP_LOCKED))).
Definition arch_validate_prot (prot : Z) : bool :=
  negb (flag prot (not32 (Z.lor PROT_READ (Z.lor PROT_WRITE (Z.lor PROT_EXEC PROT_SEM))))).
Definition IS_ERR_VALUE (x : Z) : bool := u32 (- 4095) <=? x.

(** * Tasks and control groups *)

Record task_struct := Task {
  mm : mm_struct;
  ab_next : Z;         (* the links of [ab_tasks] *)
  ab_prev : Z;
  ab_identity : Z;
  personality : Z;
  parent : Z;
  ab_tgleader_mm : Z;  (* the task whose address space keys global futexes, 0 for none *)
}.
Definition set_mm (m : mm_struct) (t : task_struct) : task_struct :=
  Task m (ab_next t) (ab_prev t) (ab_identity t) (personality t) (parent t) (ab_tgleader_mm t).
Definition set_ab_next (p : Z) (t : task_struct) : task_struct :=
  Task (mm t) p (ab_prev t) (ab_identity t) (personality t) (parent t) (ab_tgleader_mm t).
Definition set_ab_prev (p : Z) (t : task_struct) : task_struct :=
  Task (mm t) (ab_next t) p (ab_identity t) (personality t) (parent t) (ab_tgleader_mm t).
Definition set_ab_identity (i : Z) (t : task_struct) : task_struct :=
  Task (mm t) (ab_next t) (ab_prev t) i (personality t) (parent t) (ab_tgleader_mm t).
Definition set_ab_tgleader_mm (p : Z) (t : task_struct) : task_struct :=
  Task (mm t) (ab_next t) (ab_prev t) (ab_identity t) (personality t) (parent t) p.

Record kernel := Kern {
  tasks : gmap Z task_struct;
  ab_category_count : Z;
  k_res : list bool;  (* the schedule of the allocator, as in [mst] *)
  k_phys : phys;
}.
Definition set_tasks (ts : gmap Z task_struct) (k : kernel) : kernel := Kern ts (ab_category_count k) (k_res k) (k_phys k).
Abbreviation km := (st kernel).

(** A null task is dereferenced when there is none of the pid. *)
Definition get_task (p : Z) : km task_struct := λ k,
  match tasks k !! p with Some t => Ret (t, k) | None => Fault KernelOops end.
Definition upd_task (p : Z) (f : task_struct → task_struct) : km unit := λ k,
  match tasks k !! p with
  | Some t => Ret (tt, set_tasks (<[p := f t]> (tasks k)) k)
  | None => Fault KernelOops
  end.
(** A computation on the address space of a task *)
Definition on_mm {A} (p : Z) (m : mmm A) : km A := λ k,
  match tasks k !! p with
  | Some t =>
      match m (Mst (mm t) (k_res k)) with
      | Ret (a, s) => Ret (a, Kern (<[p := set_mm (m_mm s) t]> (tasks k)) (ab_category_count k) (m_res s) (k_phys k))
      | Fault f => Fault f
      end
  | None => Fault KernelOops
  end.

Definition AB_SET_ME_SPECIAL : Z := 0.
Definition AB_SET_ME_ARBITER : Z := 1.
Definition AB_CATEGORY_SHIFT : Z := 1.
Definition AB_ROLE_MASK : Z := 1.
Definition get_category (t : task_struct) : Z := Z.shiftr (ab_identity t) AB_CATEGORY_SHIFT.
Definition get_role (t : task_struct) : Z := Z.land (ab_identity t) AB_ROLE_MASK.
Definition is_arbiter (t : task_struct) : bool := negb (get_role t =? 0).
Definition is_common (t : task_struct) : bool := get_category t =? 0.
Definition is_special (t : task_struct) : bool := negb (is_arbiter t) && negb (is_common t).
Definition convert_to_identity (ab_category ab_role : Z) : Z :=
  s32 (Z.lor (Z.shiftl ab_category AB_CATEGORY_SHIFT) ab_role).

(** [list_for_each_entry] over the ring of [head]: the tasks it visits.  A ring
    has at most as many tasks as there are; a walk that is longer never ends. *)
Fixpoint ring_walk (ts : gmap Z task_struct) (n : nat) (head p : Z) : outcome (list Z) :=
  if p =? head then Ret [] else
  match n with
  | O => Fault Hang
  | S n' =>
      match ts !! p with
      | Some t => l ← ring_walk ts n' head (ab_next t); Ret (p :: l)
      | None => Fault KernelOops
      end
  end.
Definition list_for_each_entry (ts : gmap Z task_struct) (head : Z) : outcome (list Z) :=
  match ts !! head with
  | Some t => ring_walk ts (size ts) head (ab_next t)
  | None => Fault KernelOops
  end.

(** [find_my_arbiter] stops at the first arbiter of the walk. *)
Fixpoint find_arbiter_from (ts : gmap Z task_struct) (n : nat) (head p : Z) : outcome (option Z) :=
  if p =? head then Ret None else
  match n with
  | O => Fault Hang
  | S n' =>
      match ts !! p with
      | Some t => if is_arbiter t then Ret (Some p) else find_arbiter_from ts n' head (ab_next t)
      | None => Fault KernelOops
      end
  end.
Definition find_my_arbiter (ts : gmap Z task_struct) (p : Z) : outcome (option Z) :=
  match ts !! p with
  | Some t => find_arbiter_from ts (size ts) p (ab_next t)
  | None => Fault KernelOops
  end.

(** The test [!is_arbiter(current) || current != find_my_arbiter(tsk)] at the
    entry of every call *)
Definition controls (cur childpid : Z) : km bool :=
  t ← get_task cur;
  if negb (is_arbiter t) then mret false else
  ts ← gets tasks;
  a ← lift (find_my_arbiter ts childpid);
  mret (bool_decide (a = Some cur)).

(** [list_add] on the links of two tasks *)
Definition list_add (new head : Z) : km unit :=
  h ← get_task head;
  let next := ab_next h in
  upd_task next (set_ab_prev new);;
  upd_task new (λ t, set_ab_prev head (set_ab_next next t));;
  upd_task head (set_ab_next new).

Definition sys_absys_thread_control (cur ab_role : Z) : km Z :=
  ab_category ←
    (if ab_role =? AB_SET_ME_ARBITER then
       n ← gets ab_category_count;
       modify (λ k, Kern (tasks k) (s32 (n + 1)) (k_res k) (k_phys k));;
       upd_task cur (λ t, set_mm (set_ab_brks AB_HEAP_START AB_HEAP_START (mm t)) t);;
       mret (s32 (n + 1))
     else mret 0);
  ab_category ←
    (if ab_role =? AB_SET_ME_SPECIAL then
       t ← get_task cur;
       pt ← get_task (parent t);
       list_add cur (parent t);;
       upd_task cur (set_ab_tgleader_mm (if is_arbiter pt then cur else ab_tgleader_mm pt));;
       mret (get_category pt)
     else mret ab_category);
  upd_task cur (set_ab_identity (convert_to_identity ab_category ab_role));;
  mret 0.

Section Calls.
Variable c : kconf.

(** * [mprotect] *)

Definition do_mprotect (guard : vm_area_struct → bool) (pers start len prot : Z) : mmm Z :=
  let grows := Z.land prot (Z.lor PROT_GROWSDOWN PROT_GROWSUP) in
  let prot := Z.land prot (not32 (Z.lor PROT_GROWSDOWN PROT_GROWSUP)) in
  if grows =? Z.lor PROT_GROWSDOWN PROT_GROWSUP then mret (- EINVAL) else
  if negb (page_aligned start) then mret (- EINVAL) else
  if len =? 0 then mret 0 else
  let end_ := u32 (start + PAGE_ALIGN len) in
  if end_ <=? start then mret (- ENOMEM) else
  if negb (arch_validate_prot prot) then mret (- EINVAL) else
  let reqprot := prot in
  let prot := if flag prot PROT_READ && flag pers READ_IMPLIES_EXEC then Z.lor prot PROT_EXEC else prot in
  let flags := calc_vm_prot_bits prot in
  m ← gets m_mm;
  match find_vma_prev [] (mmap m) start with
  | (_, []) => mret (- ENOMEM)
  | (rpre, vma :: rest) =>
      if flag grows PROT_GROWSDOWN then
        if end_ <=? vm_start vma then mret (- ENOMEM)
        else if negb (flag (vm_flags vma) VM_GROWSDOWN) then mret (- EINVAL)
        else mprotect_loop c guard reqprot prot flags end_ (vm_start vma) (rpre, vma, rest)
      else if start <? vm_start vma then mret (- ENOMEM)
      else if flag grows PROT_GROWSUP then
        if negb (flag (vm_flags vma) VM_GROWSUP) then mret (- EINVAL)
        else mprotect_loop c guard reqprot prot flags (vm_end vma) start (rpre, vma, rest)
      else mprotect_loop c guard reqprot prot flags end_ start (rpre, vma, rest)
  end.

(** The call of the clients: areas of the arbiter are refused. *)
Definition sys_mprotect (cur start len prot : Z) : km Z :=
  t ← get_task cur;
  on_mm cur (do_mprotect is_abt_vma (personality t) start len prot).

(** The call of the arbiter *)
Definition sys_absys_mprotect (cur childpid start len prot : Z) : km Z :=
  ok ← controls cur childpid;
  if negb ok then mret (- EPERM) else
  t ← get_task childpid;
  on_mm childpid (do_mprotect (λ _, false) (personality t) start len prot).

(** * [mmap] *)

Variable overcommit_never : bool.
Variable hugetlb_error : Z. (* no huge pages are reserved: the set-up of their file fails *)

Definition round_hint_to_min (hint : Z) : Z :=
  let hint := Z.land hint (not32 (PAGESIZE - 1)) in
  if negb (hint =? 0) && (hint <? mmap_min_addr c) then PAGE_ALIGN (mmap_min_addr c) else hint.

(** [get_unmapped_area] of the caller's address space *)
Definition get_unmapped_area (m : mm_struct) (addr len flags : Z) : Z :=
  let addr := (get_area (mmap m) (k_cache c) addr len flags).1 in
  if IS_ERR_VALUE addr then addr
  else if TASK_SIZE - len <? addr then u32 (- ENOMEM)
  else if negb (page_aligned addr) then u32 (- EINVAL)
  else addr.

Definition accountable_mapping (flags : Z) : bool :=
  Z.land flags (Z.lor VM_NORESERVE (Z.lor VM_SHARED VM_WRITE)) =? VM_WRITE.
Definition noreserve (flags vm_flags : Z) : Z :=
  if flag flags MAP_NORESERVE && negb overcommit_never then Z.lor vm_flags VM_NORESERVE else vm_flags.

Definition absys_mmap_region (addr len flags vm_flags pgoff : Z) : mmm Z :=
  r ← munmap_back c 2 addr len;
  match r with
  | None => mret (u32 (- ENOMEM))
  | Some (rpre, rest) =>
      m ← gets m_mm;
      if negb (may_expand_vm c m (Z.shiftr len PAGE_SHIFT)) then mret (u32 (- ENOMEM)) else
      let vm_flags := noreserve flags vm_flags in
      ok ← (if accountable_mapping vm_flags then take_resource else mret true);
      if negb ok then mret (u32 (- ENOMEM)) else
      let vm_flags := if accountable_mapping vm_flags then Z.lor vm_flags VM_ACCOUNT else vm_flags in
      link_area rpre rest addr len vm_flags pgoff
  end.

(** An area in the range is a bug of the kernel here. *)
Definition propagate_region (addr len flags vm_flags pgoff : Z) : mmm Z :=
  m ← gets m_mm;
  let '(rpre, rest) := find_vma_prev [] (mmap m) addr in
  (match rest with
   | vma :: _ => if vm_start vma <? u32 (addr + len) then fail KernelOops else mret tt
   | [] => mret tt
   end);;
  if negb (may_expand_vm c m (Z.shiftr len PAGE_SHIFT)) then mret (u32 (- ENOMEM)) else
  link_area rpre rest addr len (noreserve flags vm_flags) pgoff.

(** The flags and the file offset of the new area, with the tests on locking
    and on the type of the mapping; an error is returned as the call does. *)
Definition area_flags (m : mm_struct) (mask addr len prot flags : Z) : Z + (Z * Z) :=
  let vm_flags := Z.lor (calc_vm_prot_bits prot) (Z.lor (calc_vm_flag_bits flags) (Z.lor (def_flags m)
    (Z.lor VM_MAYREAD (Z.lor VM_MAYWRITE (Z.lor VM_MAYEXEC (Z.lor VM_AB_CONTROL VM_SHARED)))))) in
  let vm_flags := Z.land vm_flags mask in
  if flag flags MAP_LOCKED && negb (cap_ipc_lock c || negb (rlim_memlock c =? 0)) then inl (u32 (- EPERM)) else
  if flag vm_flags VM_LOCKED && (rlim_memlock c <? Z.shiftr len PAGE_SHIFT + locked_vm m) && negb (cap_ipc_lock c)
  then inl (u32 (- EAGAIN)) else
  if Z.land flags MAP_TYPE =? MAP_SHARED then inr (Z.lor vm_flags (Z.lor VM_SHARED VM_MAYSHARE), 0)
  else if Z.land flags MAP_TYPE =? MAP_PRIVATE then inr (vm_flags, Z.shiftr addr PAGE_SHIFT)
  else inl (u32 (- EINVAL)).

Definition exec_prot (pers prot : Z) : Z :=
  if flag prot PROT_READ && flag pers READ_IMPLIES_EXEC then Z.lor prot PROT_EXEC else prot.

(** For the task the call names; [cur_mm] is the address space of the caller. *)
Definition do_absys_mmap_pgoff (cur_mm : mm_struct) (pers addr len prot flags pgoff : Z) : mmm Z :=
  m ← gets m_mm;
  let prot := exec_prot pers prot in
  if len =? 0 then mret (u32 (- EINVAL)) else
  let addr := if negb (flag flags MAP_FIXED) then round_hint_to_min addr else addr in
  let len := PAGE_ALIGN len in
  if (len =? 0) || (TASK_SIZE <? len) then mret (u32 (- ENOMEM)) else
  if u32 (pgoff + Z.shiftr len PAGE_SHIFT) <? pgoff then mret (u32 (- EOVERFLOW)) else
  if sysctl_max_map_count c <? map_count m then mret (u32 (- ENOMEM)) else
  if flag flags MAP_HUGETLB then mret (u32 hugetlb_error) else
  let addr := get_unmapped_area cur_mm addr len flags in
  if negb (page_aligned addr) then mret addr else
  match area_flags m (not32 0) addr len prot flags with
  | inl e => mret e
  | inr (vm_flags, pgoff) =>
      let e := security_file_mmap c addr in
      if negb (e =? 0) then mret (u32 e) else
      absys_mmap_region addr len flags vm_flags pgoff
  end.

(** For the other tasks of the group: the holes of the range are filled. *)
Definition hole_round (addr len flags vm_flags pgoff : Z) (addr_tmp : Z) : mmm (Z + Z) :=
  m ← gets m_mm;
  let end_ := u32 (addr + len) in
  match find_vma_intersection (mmap m) addr_tmp end_ with
  | None => mret (inr addr_tmp)
  | Some v =>
      (if (addr_tmp <? vm_start v) && (vm_start v <? end_)
       then propagate_region addr_tmp (vm_start v - addr_tmp) flags vm_flags pgoff;; mret tt
       else mret tt);;
      mret (if end_ <=? vm_end v then inr (vm_end v) else inl (vm_end v))
  end.
Definition do_absys_vma_propagate (pers addr len prot flags : Z) : mmm Z :=
  m ← gets m_mm;
  let prot := exec_prot pers prot in
  if len =? 0 then mret (u32 (- EINVAL)) else
  match area_flags m 0xfffffff0 addr len prot flags with
  | inl e => mret e
  | inr (vm_flags, pgoff) =>
      let e := security_file_mmap c addr in
      if negb (e =? 0) then mret (u32 e) else
      addr_tmp ← loopM (hole_round addr len flags vm_flags pgoff) addr;
      if u32 (addr + len) <=? addr_tmp then mret addr
      else propagate_region addr len flags vm_flags pgoff
  end.

(** A loop over tasks of the ring other than the caller and the target *)
Fixpoint for_others (cur target : Z) (ps : list Z) (f : Z → km unit) : km unit :=
  match ps with
  | [] => mret tt
  | p :: ps' =>
      (if (p =? cur) || (p =? target) then mret tt else f p);; for_others cur target ps' f
  end.

Definition sys_absys_mmap (cur childpid addr len prot flags pgoff : Z) : km Z :=
  let flags := Z.land flags (not32 (Z.lor MAP_EXECUTABLE MAP_DENYWRITE)) in
  if negb (flag flags MAP_ANONYMOUS) then mret (u32 (- EINVAL)) else
  ok ← controls cur childpid;
  if negb ok then mret (u32 (- EPERM)) else
  ct ← get_task cur;
  t ← get_task childpid;
  ret ← on_mm childpid (do_absys_mmap_pgoff (mm ct) (personality t) addr len prot flags pgoff);
  ts ← gets tasks;
  others ← lift (list_for_each_entry ts childpid);
  for_others cur childpid others (λ p,
    t ← get_task p;
    on_mm p (do_absys_vma_propagate (personality t) ret len prot flags);; mret tt);;
  mret ret.

(** * [brk] *)

Definition VM_DATA_DEFAULT_FLAGS (pers : Z) : Z :=
  Z.lor (if flag pers READ_IMPLIES_EXEC then VM_EXEC else 0)
    (Z.lor VM_READ (Z.lor VM_WRITE (Z.lor VM_MAYREAD (Z.lor VM_MAYWRITE VM_MAYEXEC)))).

(** [pers] is the personality of the caller. *)
Definition do_absys_brk (pers addr len : Z) : mmm Z :=
  let pgoff := Z.shiftr addr PAGE_SHIFT in
  let len := PAGE_ALIGN len in
  if len =? 0 then mret addr else
  if (TASK_SIZE <? u32 (addr + len)) || (u32 (addr + len) <? addr) then mret (u32 (- EINVAL)) else
  let e := security_file_mmap c addr in
  if negb (e =? 0) then mret (u32 e) else
  m ← gets m_mm;
  let flags := Z.lor (Z.lor (VM_DATA_DEFAULT_FLAGS pers) (Z.lor VM_ACCOUNT (def_flags m))) VM_AB_CONTROL in
  if flag (def_flags m) VM_LOCKED && (rlim_memlock c <? Z.shiftr len PAGE_SHIFT + locked_vm m) && negb (cap_ipc_lock c)
  then mret (u32 (- EAGAIN)) else
  r ← munmap_back c 2 addr len;
  match r with
  | None => mret (u32 (- ENOMEM))
  | Some (rpre, rest) =>
      m ← gets m_mm;
      if negb (may_expand_vm c m (Z.shiftr len PAGE_SHIFT)) then mret (u32 (- ENOMEM)) else
      if sysctl_max_map_count c <? map_count m then mret (u32 (- ENOMEM)) else
      ok ← take_resource;
      if negb ok then mret (u32 (- ENOMEM)) else
      link_area rpre rest addr len flags pgoff
  end.

(** The two loops of [sys_absys_brk] over the children; [false] is the jump to
    [bad_out]. *)
Fixpoint brk_check (cur oldbrk end_ : Z) (ps : list Z) : km bool :=
  match ps with
  | [] => mret true
  | p :: ps' =>
      if p =? cur then brk_check cur oldbrk end_ ps' else
      t ← get_task p;
      match find_vma_intersection (mmap (mm t)) oldbrk end_ with
      | Some _ => mret false
      | None => brk_check cur oldbrk end_ ps'
      end
  end.
Fixpoint brk_extend (cur pers oldbrk newbrk : Z) (ps : list Z) : km bool :=
  match ps with
  | [] => mret true
  | p :: ps' =>
      if p =? cur then brk_extend cur pers oldbrk newbrk ps' else
      t ← get_task p;
      match find_vma_intersection (mmap (mm t)) oldbrk (u32 (newbrk + PAGESIZE)) with
      | Some _ => mret false
      | None =>
          r ← on_mm p (do_absys_brk pers oldbrk (u32 (newbrk - oldbrk)));
          if negb (r =? oldbrk) then mret false else brk_extend cur pers oldbrk newbrk ps'
      end
  end.

Definition set_brk (cur brk : Z) : km unit :=
  upd_task cur (λ t, set_mm (set_ab_brks (start_ab_brk (mm t)) brk (mm t)) t).
Definition sys_absys_brk (cur childpid brk : Z) : km Z :=
  ok ← controls cur childpid;
  if negb ok then mret (u32 (- EPERM)) else
  t ← get_task cur;
  if brk <? start_ab_brk (mm t) then mret (ab_brk (mm t)) else
  let newbrk := PAGE_ALIGN brk in
  let oldbrk := PAGE_ALIGN (ab_brk (mm t)) in
  if oldbrk =? newbrk then set_brk cur brk;; mret brk else
  ts ← gets tasks;
  children ← lift (list_for_each_entry ts cur);
  ok ← brk_check cur oldbrk (u32 (newbrk + PAGESIZE)) children;
  if negb ok then mret (ab_brk (mm t)) else
  ok ← brk_extend cur (personality t) oldbrk newbrk children;
  if negb ok then mret (ab_brk (mm t)) else
  set_brk cur brk;;
  mret brk.

(** * [munmap] *)

(** In the other tasks whole areas of the arbiter are removed that meet the
    range.  The code reads the bounds of an area after [do_munmap] released
    its structure; the model reads the values it had. *)
Definition unmap_round (end_ addr_tmp : Z) : mmm (Z + Z) :=
  m ← gets m_mm;
  match find_vma_intersection (mmap m) addr_tmp end_ with
  | None => mret (inr 0)
  | Some v =>
      ret ← (if (vm_start v <? end_) && is_abt_vma v
             then do_munmap c (vm_start v) (vm_end v - vm_start v) else mret 0);
      mret (if end_ <=? vm_end v then inr ret else inl (vm_end v))
  end.
Fixpoint unmap_others (cur target addr end_ : Z) (ps : list Z) : km Z :=
  match ps with
  | [] => mret 0
  | p :: ps' =>
      if (p =? cur) || (p =? target) then unmap_others cur target addr end_ ps' else
      r ← on_mm p (loopM (unmap_round end_) addr);
      if r <? 0 then mret r else unmap_others cur target addr end_ ps'
  end.
Definition sys_absys_munmap (cur childpid addr len : Z) : km Z :=
  ok ← controls cur childpid;
  if negb ok then mret (- EPERM) else
  r ← on_mm childpid (do_munmap c addr len);
  if r <? 0 then mret r else
  ts ← gets tasks;
  others ← lift (list_for_each_entry ts childpid);
  unmap_others cur childpid addr (u32 (addr + len)) others.
End Calls.
