(* ===== verification/Resources.v ===== *)
(** What the calls on an address space leave of the schedule of resources. *)

From S2P Require Import Prelude Chunk Os Pte Vma Kernel.

(** Once the schedule is exhausted it stays so: no later request fails. *)
Definition quiet {A} (m : mmm A) : Prop := ∀ s a s1, m s = Ret (a, s1) → m_res s = [] → m_res s1 = [].

Lemma quiet_ret {A} (a : A) : quiet (mret a).
Proof. by intros s b s1 [= <- <-]. Qed.
Lemma quiet_bind {A B} (m : mmm A) (f : A → mmm B) : quiet m → (∀ a, quiet (f a)) → quiet (m ≫= f).
Proof.
  intros Hm Hf s b s1. unfold mbind, st_bind. destruct (m s) as [[a s0]|] eqn:E; [|done].
  intros E1 H0. exact (Hf _ _ _ _ E1 (Hm _ _ _ E H0)).
Qed.
Lemma quiet_gets {A} (f : mst → A) : quiet (gets f).
Proof. by intros s b s1 [= <- <-]. Qed.
Lemma quiet_upd_mm f : quiet (upd_mm f).
Proof. by intros s b s1 [= <- <-]. Qed.
Lemma quiet_lift {A} (o : outcome A) : quiet (lift o).
Proof. intros s b s1. unfold lift. destruct o; [|done]. by intros [= <- <-]. Qed.
Lemma quiet_fail {A} f : quiet (fail (A := A) f).
Proof. by intros s b s1. Qed.
Lemma quiet_take : quiet take_resource.
Proof. intros s b s1 E H0. unfold take_resource in E. rewrite H0 in E. by injection E as <- <-. Qed.
Lemma quiet_loop {V R} (body : V → mmm (V + R)) v : (∀ v, quiet (body v)) → quiet (loopM body v).
Proof.
  intros Hb s b s1 E H0. refine (loopM_post body (λ _ s, m_res s = []) (λ _ s, m_res s = []) v s b s1 E H0 _).
  intros w t Ht. destruct (body w t) as [[[x|x] t']|] eqn:Eb; [..|done]; by eapply Hb.
Qed.
Create HintDb quiet.
#[export] Hint Resolve quiet_ret quiet_gets quiet_upd_mm quiet_lift quiet_fail quiet_take : quiet.
Ltac quiet :=
  repeat match goal with
  | |- quiet (_ ≫= _) => apply quiet_bind; [|intros ?]
  | |- quiet (match ?x with _ => _ end) => destruct x
  | |- quiet (let '(_, _) := ?x in _) => destruct x
  | |- quiet _ => progress eauto with quiet
  end.

Lemma quiet_split_vma c x a : quiet (split_vma c x a).
Proof. unfold split_vma. quiet. Qed.
#[export] Hint Resolve quiet_split_vma : quiet.
Lemma quiet_fixup c x s e f : quiet (mprotect_fixup c x s e f).
Proof. unfold mprotect_fixup, isolate. quiet. Qed.
#[export] Hint Resolve quiet_fixup : quiet.
Lemma quiet_mprotect c guard pers start len prot : quiet (do_mprotect c guard pers start len prot).
Proof. unfold do_mprotect, mprotect_loop. quiet; apply quiet_loop; intros ?; unfold mprotect_round; quiet. Qed.
Lemma quiet_munmap c start len : quiet (do_munmap c start len).
Proof. unfold do_munmap, unmap_areas. quiet. Qed.
#[export] Hint Resolve quiet_mprotect quiet_munmap : quiet.
Lemma quiet_munmap_back c n a len : quiet (munmap_back c n a len).
Proof. induction n; simpl; quiet. Qed.
Lemma quiet_link_area rp rest a len f pg : quiet (link_area rp rest a len f pg).
Proof. unfold link_area. quiet. Qed.
#[export] Hint Resolve quiet_munmap_back quiet_link_area : quiet.
Lemma quiet_brk c pers a len : quiet (do_absys_brk c pers a len).
Proof. unfold do_absys_brk. quiet. Qed.
#[export] Hint Resolve quiet_brk : quiet.

(** The same for the calls on the whole kernel *)
Definition kquiet {A} (m : km A) : Prop := ∀ k a k', m k = Ret (a, k') → k_res k = [] → k_res k' = [].

Lemma kquiet_ret {A} (a : A) : kquiet (mret a).
Proof. by intros k b k' [= <- <-]. Qed.
Lemma kquiet_bind {A B} (m : km A) (f : A → km B) : kquiet m → (∀ a, kquiet (f a)) → kquiet (m ≫= f).
Proof.
  intros Hm Hf k b k'. unfold mbind, st_bind. destruct (m k) as [[a k1]|] eqn:E; [|done].
  intros E1 H0. exact (Hf _ _ _ _ E1 (Hm _ _ _ E H0)).
Qed.
Lemma kquiet_gets {A} (f : kernel → A) : kquiet (gets f).
Proof. by intros k b k' [= <- <-]. Qed.
Lemma kquiet_lift {A} (o : outcome A) : kquiet (lift o).
Proof. intros k b k'. unfold lift. destruct o; [|done]. by intros [= <- <-]. Qed.
Lemma kquiet_get_task p : kquiet (get_task p).
Proof. intros k b k'. unfold get_task. destruct (_ !! _); [|done]. by intros [= <- <-]. Qed.
Lemma kquiet_upd_task p f : kquiet (upd_task p f).
Proof. intros k b k'. unfold upd_task. destruct (_ !! _); [|done]. by intros [= <- <-]. Qed.
Lemma kquiet_on_mm {A} p (m : mmm A) : quiet m → kquiet (on_mm p m).
Proof.
  intros Q k a k' E H0. unfold on_mm in E. destruct (tasks k !! p) as [t|]; [|done].
  destruct (m _) as [[b s]|] eqn:Em; [|done]. injection E as <- <-. exact (Q _ _ _ Em H0).
Qed.
#[export] Hint Resolve kquiet_ret kquiet_gets kquiet_lift kquiet_get_task kquiet_upd_task kquiet_on_mm : quiet.
Ltac kquiet :=
  repeat match goal with
  | |- kquiet (_ ≫= _) => apply kquiet_bind; [|intros ?]
  | |- kquiet (match ?x with _ => _ end) => destruct x
  | |- kquiet _ => progress eauto with quiet
  end.

Lemma kquiet_controls cur p : kquiet (controls cur p).
Proof. unfold controls. kquiet. Qed.
#[export] Hint Resolve kquiet_controls : quiet.
Lemma kquiet_mprotect c cur start len prot : kquiet (sys_mprotect c cur start len prot).
Proof. unfold sys_mprotect. kquiet. Qed.
Lemma kquiet_absys_mprotect c cur p start len prot : kquiet (sys_absys_mprotect c cur p start len prot).
Proof. unfold sys_absys_mprotect. kquiet. Qed.
Lemma kquiet_absys_brk c cur p brk : kquiet (sys_absys_brk c cur p brk).
Proof.
  assert (H1 : ∀ o e ps, kquiet (brk_check cur o e ps)) by (intros o e ps; induction ps; simpl; kquiet).
  assert (H2 : ∀ pers o n ps, kquiet (brk_extend c cur pers o n ps)) by (intros pers o n ps; induction ps; simpl; kquiet).
  unfold sys_absys_brk, set_brk. kquiet.
Qed.
