(* ===== verification/Mprotect.v ===== *)
(** Changing protections: the loop shared by [mprotect], which clients call for
    their own pages, and [absys_mprotect], which the arbiter calls for the
    pages of its children. *)

From S2P Require Import Prelude Chunk Os Pte Vma VmaSpec Kernel.

(** * The loop of [mprotect] *)

Lemma loop_body_ret {S V R} (body : V → st S (V + R)) v s r s' :
  body v s = Ret (r, s') →
  loop_body body (v, s) = Ret (match r with inl v' => inl (v', s') | inr x => inr (x, s') end).
Proof. intros E. unfold loop_body. cbn [fst snd]. rewrite E. by destruct r. Qed.

(** The access of [[s, e)] is being changed from [f] to [g]: addresses outside
    keep their view, addresses inside keep it or get the access [flags]; with
    the result 0 all have it.  Nothing changes where [guard] holds. *)
Record protects (guard : bool * Z → Prop) (flags s e : Z) (f g : Z → option (bool * Z)) (r : Z) : Prop := {
  pt_out x : ¬ s ≤ x < e → g x = f x;
  pt_in x : s ≤ x < e → g x = f x ∨ ∃ b w, f x = Some (b, w) ∧ g x = Some (b, flags);
  pt_guard x w : f x = Some w → guard w → g x = f x;
  pt_all x : r = 0 → s ≤ x < e → ∃ b w, f x = Some (b, w) ∧ g x = Some (b, flags);
}.

Lemma protects_none guard flags s e f g r : r ≠ 0 → (∀ x, g x = f x) → protects guard flags s e f g r.
Proof. intros Hr He. split; intros; auto. done. Qed.
Lemma protects_ext guard flags s e f g f' g' r :
  (∀ x, f' x = f x) → (∀ x, g' x = g x) → protects guard flags s e f g r → protects guard flags s e f' g' r.
Proof. intros Hf Hg [H1 H2 H3 H4]. split; intros x; rewrite ?Hg, ?Hf; eauto. Qed.
(** One round up to [m], then the rest *)
Lemma protects_step guard flags s m e f g h r :
  s ≤ m ≤ e → protects guard flags s m f g 0 → protects guard flags m e g h r → protects guard flags s e f h r.
Proof.
  intros Hm P Q. split.
  - intros x Hx. rewrite (pt_out _ _ _ _ _ _ _ Q) by lia. apply P. lia.
  - intros x Hx. destruct (decide (x < m)) as [Hl|Hl].
    + rewrite (pt_out _ _ _ _ _ _ _ Q) by lia. apply P. lia.
    + rewrite <-(pt_out _ _ _ _ _ _ _ P x) by lia. apply Q. lia.
  - intros x w Hw Hg. pose proof (pt_guard _ _ _ _ _ _ _ P x w Hw Hg) as E.
    rewrite (pt_guard _ _ _ _ _ _ _ Q x w); [done|by rewrite E|done].
  - intros x Hr Hx. destruct (decide (x < m)) as [Hl|Hl].
    + rewrite (pt_out _ _ _ _ _ _ _ Q) by lia. apply P; lia.
    + rewrite <-(pt_out _ _ _ _ _ _ _ P x) by lia. apply Q; lia.
Qed.

Section Loop.
Context (c : kconf) (guard : vm_area_struct → bool) (guarded : bool * Z → Prop) (rq pr flags end_ : Z).
Context (Hflags : 0 ≤ flags < 8) (Hend : (PAGESIZE | end_)).
Context (Hguard : ∀ v, guard v = false → ¬ guarded (view (vm_flags v))).

Definition at_position_of (n : Z) (x : position) (st : mst) : Prop :=
  let '(rp, v, rest) := x in
  mmap (m_mm st) = rev_append rp (v :: rest) ∧ wf_mmap (mmap (m_mm st)) ∧
  vm_start v ≤ n < vm_end v ∧ n < end_ ∧ (PAGESIZE | n).

(** Nothing stands against the change: resources, hooks, and every address of
    the range in an area of the arbiter. *)
Definition granted (n : Z) (st : mst) : Prop :=
  roomy c st ∧ (∀ v, guard v = false) ∧ (∀ v a b, security_file_mprotect c v a b = 0) ∧
  ∀ x, n ≤ x < end_ → ∃ w, view_at (mmap (m_mm st)) x = Some (true, w).

(** The area a successful [mprotect_fixup] returns may reach behind the part;
    all of it has the new access. *)
Lemma fixed_protects n tmp v st rp' v' rest' st1 n' :
  guard v = false → vm_start v ≤ n → n < tmp → tmp ≤ vm_end v → word (vm_flags v) →
  (∀ x, vm_start v ≤ x < vm_end v → view_at (mmap (m_mm st)) x = Some (view (vm_flags v))) →
  fixed n tmp (protect_flags flags (vm_flags v)) st (inr (rp', v', rest')) st1 →
  tmp ≤ n' ≤ vm_end v' → 
  protects guarded flags n n' (view_at (mmap (m_mm st))) (view_at (mmap (m_mm st1))) 0.
Proof using Hflags Hguard.
  intros Hg H1 H2 H3 Hw Hv [_ Fw (El & Hc & S1 & S2)] Hn.
  rewrite protect_view in Hc by done.
  assert (Hv' : ∀ x, vm_start v' ≤ x < vm_end v' → view_at (mmap (m_mm st1)) x = Some ((view (vm_flags v)).1, flags)).
  { rewrite El in Fw. destruct (wf_position _ _ _ Fw) as (m & Hp & Hm & _).
    intros x Hx. rewrite El, (view_in_area _ _ _ _ m) by done.
    specialize (Hc n). rewrite decide_True in Hc by lia. rewrite El, (view_in_area _ _ _ _ m) in Hc by (done || lia). done. }
  split.
  - intros x Hx. rewrite Hc. rewrite decide_False; [done|lia].
  - intros x Hx. destruct (decide (n ≤ x < tmp)) as [Hd|Hd]; [right|left; by rewrite Hc, decide_False].
    exists (view (vm_flags v)).1, (view (vm_flags v)).2. rewrite Hv by lia. rewrite Hc, decide_True by done.
    by destruct (view (vm_flags v)).
  - intros x w Hx Hgd. rewrite Hc. case_decide as Hd; [|done]. rewrite Hv in Hx by lia. injection Hx as <-.
    by destruct (Hguard _ Hg).
  - intros x _ Hx. destruct (decide (x < tmp)) as [Hl|Hl].
    + exists (view (vm_flags v)).1, (view (vm_flags v)).2. rewrite Hv by lia. rewrite Hc, decide_True by lia.
      by destruct (view (vm_flags v)).
    + specialize (Hc x) as Hcx. rewrite decide_False in Hcx by lia. rewrite <-Hcx, Hv' by lia. eauto.
Qed.

Lemma view_behind rp v rest n :
  wf_mmap (rev_append rp (v :: rest)) → n = vm_end v →
  match rest with u :: _ => vm_start u ≠ n | [] => True end → view_at (rev_append rp (v :: rest)) n = None.
Proof.
  intros W -> Hr. apply wf_position in W as (m & Hp & Hm & (V1 & _) & Hs). rewrite rev_append_rev.
  pose proof (rev_front _ _ Hp) as Hf. clear Hp. induction Hf as [|u l Hu _ IH]; simpl; [|cmps].
  rewrite (proj2 (Z.ltb_ge _ _)) by lia. destruct rest as [|u r]; [done|]. simpl in *. destruct Hs as (? & (? & _) & _). cmps.
Qed.

(** What a round that started at [n] in [st] achieves *)
Definition round_post (n : Z) (st : mst) (r : Z * position + Z) (st1 : mst) : Prop :=
  remapped st st1 ∧ wf_mmap (mmap (m_mm st1)) ∧
  match r with
  | inr code => protects guarded flags n end_ (view_at (mmap (m_mm st))) (view_at (mmap (m_mm st1))) code
  | inl (n', x') => n < n' ∧ at_position_of n' x' st1 ∧
      protects guarded flags n n' (view_at (mmap (m_mm st))) (view_at (mmap (m_mm st1))) 0
  end ∧
  (granted n st → match r with inr code => code = 0 | inl (n', _) => granted n' st1 end).

(** It stops with an error and the pages are as before. *)
Lemma round_stop n st code st1 :
  code ≠ 0 → remapped st st1 → wf_mmap (mmap (m_mm st1)) →
  (∀ x, view_at (mmap (m_mm st1)) x = view_at (mmap (m_mm st)) x) → (granted n st → False) → round_post n st (inr code) st1.
Proof using Type. intros Hc F W V G. split; [done|]. split; [done|]. split; [by apply protects_none|]. intros Hg. by destruct G. Qed.

(** Where it goes from the area [v'] that the change left *)
Lemma round_next n tmp st rp' v' rest' st1 nf :
  fixed n tmp nf st (inr (rp', v', rest')) st1 → n < tmp → tmp ≤ end_ → (roomy c st → roomy c st1) →
  (∀ n', tmp ≤ n' ≤ vm_end v' → protects guarded flags n n' (view_at (mmap (m_mm st))) (view_at (mmap (m_mm st1))) 0) →
  ∃ r, ((if end_ <=? vm_end v' then mret (inr 0) else
     match rest' with
     | u :: rest'' => if negb (vm_start u =? vm_end v') then mret (inr (- ENOMEM)) else mret (inl (vm_end v', (v' :: rp', u, rest'')))
     | [] => mret (inr (- ENOMEM))
     end) : mmm (Z * position + Z)) st1 = Ret (r, st1) ∧ round_post n st r st1.
Proof using Type.
  intros [Ff Fw (El1 & Hc & S1 & S2)] T1 T3 R Hpt. destruct (Z.leb_spec end_ (vm_end v')) as [He|He].
  { eexists. split; [done|]. split; [done|]. split; [done|]. split; [apply Hpt; lia|done]. }
  assert (Hno : match rest' with u :: _ => vm_start u ≠ vm_end v' | [] => True end → round_post n st (inr (- ENOMEM)) st1).
  { intros Hu. split; [done|]. split; [done|]. split.
    - apply (protects_step _ _ _ (vm_end v') _ _ (view_at (mmap (m_mm st1)))); [lia|apply Hpt; lia|by apply protects_none].
    - intros (_ & _ & _ & Hall). exfalso. destruct (Hall (vm_end v') ltac:(lia)) as [w Hw]. specialize (Hc (vm_end v')).
      rewrite decide_False, Hw, El1, view_behind in Hc; [done|by rewrite <-El1|done|done|lia]. }
  destruct rest' as [|u rest']; [eexists; split; [done|by apply Hno]|].
  destruct (Z.eqb_spec (vm_start u) (vm_end v')) as [Hu|Hu]; cbn [negb]; [|eexists; split; [done|by apply Hno]].
  eexists. split; [done|]. split; [done|]. split; [done|].
  assert (Hw1 : wf_mmap (rev_append (v' :: rp') (u :: rest'))) by (by rewrite El1 in Fw).
  destruct (wf_position _ _ _ Hw1) as (m1 & Hp1 & Hm1 & (U1 & U2 & U3 & U4) & Hr1). split.
  - split; [lia|]. split; [|apply Hpt; lia]. split_and!; [done|done|lia..|by rewrite <-Hu].
  - intros (Hrm & G1 & G2 & G3). split_and!; [auto|done|done|]. intros x Hx. rewrite Hc, decide_False by lia. apply G3. lia.
Qed.

(** One round of the loop *)
Lemma round_spec n x st :
  at_position_of n x st →
  ∃ r st1, mprotect_round c guard rq pr flags end_ (n, x) st = Ret (r, st1) ∧ round_post n st r st1.
Proof using Hflags Hend Hguard.
  destruct x as [[rp v] rest]. intros (El & W & Hn & Hne & Hpn). unfold mprotect_round.
  assert (Hfr : remapped st st) by done.
  pose proof W as W'. rewrite El in W'. destruct (wf_position _ _ _ W') as (m & Hp & Hm & (V1 & V2 & V3 & V4) & Hr).
  assert (Hvv : ∀ x, vm_start v ≤ x < vm_end v → view_at (mmap (m_mm st)) x = Some (view (vm_flags v))).
  { intros x Hx. rewrite El. by eapply view_in_area. }
  assert (Hab : granted n st → Z.testbit (vm_flags v) 29 = true).
  { intros (_ & _ & _ & Hall). destruct (Hall n ltac:(lia)) as [w Hw]. rewrite Hvv in Hw by done.
    injection Hw as Hw _. change VM_AB_CONTROL with (2 ^ 29) in Hw. by rewrite flag_bit in Hw by lia. }
  destruct (guard v) eqn:Hg.
  { eexists _, st. split; [done|]. apply round_stop; try done. intros (_ & Hgg & _). by rewrite Hgg in Hg. }
  fold (protect_flags flags (vm_flags v)). destruct (flag _ VM_ACCESS) eqn:Ha.
  { eexists _, st. split; [done|]. apply round_stop; try done. intros Hgr.
    rewrite protect_allowed in Ha; [done|done|done|by apply Hab]. }
  destruct (Z.eqb_spec (security_file_mprotect c v rq pr) 0) as [Hz|Hz]; cbn [negb].
  2:{ eexists _, st. split; [done|]. apply round_stop; try done. intros (_ & _ & Hs & _). by rewrite Hs in Hz. }
  set (tmp := Z.min (vm_end v) end_).
  assert (n < tmp ∧ tmp ≤ vm_end v ∧ tmp ≤ end_ ∧ (PAGESIZE | tmp)) as (T1 & T2 & T3 & T4).
  { unfold tmp. destruct (Z.min_spec (vm_end v) end_) as [[? ->]|[? ->]]; split_and!; done || lia. }
  destruct (mprotect_fixup_spec c rp v rest n tmp (protect_flags flags (vm_flags v)) st) as (r & st1 & E & F & R);
    try done; [lia|by apply protect_ok|].
  unfold mbind at 1, st_bind at 1. rewrite E. destruct r as [err|[[rp' v'] rest']].
  { destruct F as [Ff Fw [Fe Fv]]. eexists _, st1. split; [done|]. apply round_stop; try done; [lia|].
    intros Hgr. destruct (R (proj1 Hgr)) as [_ R']. destruct V4 as [_ V4]. destruct R' as [y [=]]. by apply V4, Hab. }
  pose proof F as [_ _ (_ & _ & _ & S2)]. rewrite Z.max_r by done.
  destruct (round_next n tmp st rp' v' rest' st1 (protect_flags flags (vm_flags v)) F T1 T3) as (r & Er & Hpost); [by intros [? _]%R| |by exists r, st1].
  intros n' Hn'. apply (fixed_protects n tmp v st rp' v' rest' st1); try done; [lia|apply V4].
Qed.

Lemma loop_rounds k n x st :
  at_position_of n x st → end_ - n ≤ PAGESIZE * Z.of_nat k →
  ∃ r st1, iters (loop_body (mprotect_round c guard rq pr flags end_)) k ((n, x), st) = Ret (inr (r, st1)) ∧
    remapped st st1 ∧ wf_mmap (mmap (m_mm st1)) ∧
    protects guarded flags n end_ (view_at (mmap (m_mm st))) (view_at (mmap (m_mm st1))) r ∧
    (granted n st → r = 0).
Proof using Hflags Hend Hguard.
  revert n x st. induction k as [|k IH]; intros n x st A Hk.
  { destruct x as [[rp v] rest], A as (_ & _ & _ & ? & _). lia. }
  destruct (round_spec n x st A) as (r & st1 & E & Hf & Hw & Hr & Hg).
  cbn [iters]. rewrite (loop_body_ret _ _ _ _ _ E). destruct r as [[n' x']|code].
  - destruct Hr as (Hn & A' & P).
    assert (Hd : n + PAGESIZE ≤ n' ∧ n' ≤ end_).
    { destruct x as [[rp v] rest], A as (_ & _ & _ & _ & [a Ha]). destruct x' as [[rp' v'] rest'].
      destruct A' as (_ & _ & _ & ? & [b Hb]). unfold PAGESIZE in *. lia. }
    destruct (IH n' x' st1 A') as (r2 & st2 & E2 & Hf2 & Hw2 & P2 & Hg2); [lia|].
    exists r2, st2. split; [exact E2|]. split; [by etrans|]. split; [done|].
    split; [|by intros G; apply Hg2, Hg]. eapply protects_step; [|exact P|exact P2]. lia.
  - exists code, st1. done.
Qed.

Lemma mprotect_loop_spec n x st :
  at_position_of n x st → 0 ≤ n → end_ < 2 ^ 32 →
  ∃ r st1, mprotect_loop c guard rq pr flags end_ n x st = Ret (r, st1) ∧
    remapped st st1 ∧ wf_mmap (mmap (m_mm st1)) ∧
    protects guarded flags n end_ (view_at (mmap (m_mm st))) (view_at (mmap (m_mm st1))) r ∧
    (granted n st → r = 0).
Proof using Hflags Hend Hguard.
  intros A Hn He. destruct (loop_rounds (Z.to_nat (end_ - n)) n x st A) as (r & st1 & E & H').
  { destruct x as [[rp v] rest]. destruct A as (_ & _ & _ & ? & _). unfold PAGESIZE. lia. }
  exists r, st1. split; [|done]. unfold mprotect_loop. rewrite loopM_unfold.
  eapply while_iters; [|exact E]. lia.
Qed.
End Loop.

(** * [do_mprotect] *)

Lemma aligned_divide a : page_aligned a = true ↔ (PAGESIZE | a).
Proof.
  rewrite page_aligned_mul. split; [intros ->; exists (a / PAGESIZE); lia|].
  intros [k ->]. rewrite Z.div_mul by done. lia.
Qed.
Lemma page_align_divide x : (PAGESIZE | PAGE_ALIGN x).
Proof. exists (PAGE_ALIGN x / PAGESIZE). rewrite Z.mul_comm. apply page_align_mult'. Qed.
Lemma page_align_word y : 0 ≤ PAGE_ALIGN y < 2 ^ 32.
Proof. unfold PAGE_ALIGN. apply (word_land (u32 (y + PAGESIZE - 1))); [apply u32_bound|apply not32_nonneg]. Qed.
Lemma u32_divide x : (PAGESIZE | x) → (PAGESIZE | u32 x).
Proof.
  intros Hx. unfold u32. rewrite Z.mod_eq by lia. apply Z.divide_sub_r; [done|].
  apply Z.divide_mul_l. by exists (2 ^ 20).
Qed.
Lemma prot_bits_bound prot : 0 ≤ calc_vm_prot_bits prot < 8.
Proof.
  unfold calc_vm_prot_bits. change (Z.lor PROT_READ (Z.lor PROT_WRITE PROT_EXEC)) with (Z.ones 3).
  rewrite Z.land_ones by lia. apply Z.mod_pos_bound. lia.
Qed.

Lemma view_find l a rp rest :
  find_vma_prev [] l a = (rp, rest) →
  view_at l a = match rest with v :: _ => if vm_start v <=? a then Some (view (vm_flags v)) else None | [] => None end.
Proof.
  intros E. apply find_vma_prev_spec in E as (El & Hf & Hr); [|constructor]. simpl in El. subst l.
  rewrite rev_append_rev. apply Forall_rev in Hf. induction Hf as [|u l Hu _ IH]; simpl; [|cmps].
  destruct rest as [|v rest]; simpl; [done|cmps].
Qed.

(** Where the loop starts *)
Lemma find_position l start rp v rest end_ n (st : mst) :
  mmap (m_mm st) = l → wf_mmap l → find_vma_prev [] l start = (rp, v :: rest) → n = start ∨ n = vm_start v →
  vm_start v ≤ n → n < end_ → (PAGESIZE | start) → at_position_of end_ n (rp, v, rest) st.
Proof.
  intros El W E Hn Hv He Hp. subst l. destruct (find_vma_prev_wf _ _ _ _ W E) as (El & _ & Hs).
  pose proof W as W'. rewrite El in W'. destruct (wf_position _ _ _ W') as (m & _ & _ & (V1 & V2 & _) & _).
  split; [done|]. split; [done|]. destruct Hn as [-> | ->]; (split; [lia|]); (split; [lia|done]).
Qed.

(** What [mprotect] may do whatever its arguments: the areas stay ordered,
    every page keeps its owner, and nothing changes that is guarded. *)
Record touches (guarded : bool * Z → Prop) (s s1 : mst) : Prop := {
  tc_frame : remapped s s1;
  tc_wf : wf_mmap (mmap (m_mm s1));
  tc_view x : view_at (mmap (m_mm s1)) x = view_at (mmap (m_mm s)) x ∨
    ∃ b w w', view_at (mmap (m_mm s)) x = Some (b, w) ∧ ¬ guarded (b, w) ∧ view_at (mmap (m_mm s1)) x = Some (b, w');
}.
Lemma touches_refl guarded s : wf_mmap (mmap (m_mm s)) → touches guarded s s.
Proof. intros W. split; [by destruct s as [[]]|done|by left]. Qed.
Lemma protects_touches guarded flags n e s s1 r :
  remapped s s1 → wf_mmap (mmap (m_mm s1)) →
  protects guarded flags n e (view_at (mmap (m_mm s))) (view_at (mmap (m_mm s1))) r → touches guarded s s1.
Proof.
  intros Hf Hw P. split; [done|done|]. intros x.
  destruct (decide (n ≤ x < e)) as [Hx|Hx]; [|left; by apply P].
  destruct (pt_in _ _ _ _ _ _ _ P x Hx) as [->|(b & w & Hb & Hg)]; [by left|].
  destruct (decide (view_at (mmap (m_mm s1)) x = view_at (mmap (m_mm s)) x)); [by left|]. right.
  exists b, w, flags. split; [done|]. split; [|done]. intros Hgd. by apply (pt_guard _ _ _ _ _ _ _ P) in Hb.
Qed.

Section DoMprotect.
Context (c : kconf) (guard : vm_area_struct → bool) (guarded : bool * Z → Prop).
Context (Hguard : ∀ v, guard v = false → ¬ guarded (view (vm_flags v))).

Lemma do_mprotect_frame pers start len prot s :
  wf_mmap (mmap (m_mm s)) → 0 ≤ start →
  ∃ r s1, do_mprotect c guard pers start len prot s = Ret (r, s1) ∧ touches guarded s s1.
Proof using Hguard.
  intros W Hs. unfold do_mprotect.
  assert (Hret : ∀ r : Z, ∃ r0 s1, mret (M := st mst) r s = Ret (r0, s1) ∧ touches guarded s s1).
  { intros r. exists r, s. auto using touches_refl. }
  destruct (_ =? _); [apply Hret|]. destruct (page_aligned start) eqn:Ha; [cbn [negb]|apply Hret].
  apply aligned_divide in Ha. destruct (len =? 0); [apply Hret|].
  destruct (Z.leb_spec (u32 (start + PAGE_ALIGN len)) start); [apply Hret|].
  destruct (negb _); [apply Hret|]. set (grows := Z.land prot _). set (prot' := Z.land prot _).
  match goal with |- context [calc_vm_prot_bits ?p] => set (pr := p) end. clearbody grows.
  unfold mbind at 1, st_bind at 1, gets at 1.
  destruct (find_vma_prev [] (mmap (m_mm s)) start) as [rp [|v rest]] eqn:E; [apply Hret|].
  destruct (find_vma_prev_wf _ _ _ _ W E) as (El & _ & Hsv).
  pose proof W as W'. rewrite El in W'. destruct (wf_position _ _ _ W') as (m & Hp & Hm & (V1 & V2 & V3 & _) & Hr).
  assert (Hm0 : 0 ≤ m) by (by apply seg_le in Hp). assert (Hve : vm_end v ≤ TASK_SIZE) by (by eapply seg_le).
  assert (Hloop : ∀ e n, (PAGESIZE | e) → n = start ∨ n = vm_start v → vm_start v ≤ n → n < e → e < 2 ^ 32 →
    ∃ r s1, mprotect_loop c guard prot' pr (calc_vm_prot_bits pr) e n (rp, v, rest) s = Ret (r, s1) ∧ touches guarded s s1).
  { intros e n He Hn Hvn Hne H32.
    destruct (mprotect_loop_spec c guard guarded prot' pr (calc_vm_prot_bits pr) e (prot_bits_bound _) He Hguard n (rp, v, rest) s)
      as (r & s1 & Er & Hf & Hw & P & _); [by apply (find_position (mmap (m_mm s)) start)|lia|done|].
    exists r, s1. split; [done|]. by eapply protects_touches. }
  pose proof (u32_bound (start + PAGE_ALIGN len)). unfold TASK_SIZE in *.
  assert (He : (PAGESIZE | u32 (start + PAGE_ALIGN len))).
  { apply u32_divide, Z.divide_add_r; [done|apply page_align_divide]. }
  destruct (flag grows PROT_GROWSDOWN).
  - destruct (Z.leb_spec (u32 (start + PAGE_ALIGN len)) (vm_start v)); [apply Hret|].
    destruct (negb _); [apply Hret|]. apply Hloop; auto; lia.
  - destruct (Z.ltb_spec start (vm_start v)); [apply Hret|]. destruct (flag grows PROT_GROWSUP).
    + destruct (negb _); [apply Hret|]. apply Hloop; auto; lia.
    + apply Hloop; auto; lia.
Qed.

(** The bits of a plain request *)
Lemma plain_prot prot : 0 ≤ prot < 8 →
  Z.land prot (Z.lor PROT_GROWSDOWN PROT_GROWSUP) = 0 ∧ Z.land prot (not32 (Z.lor PROT_GROWSDOWN PROT_GROWSUP)) = prot ∧
  arch_validate_prot prot = true.
Proof.
  intros Hp. assert (prot = 0 ∨ prot = 1 ∨ prot = 2 ∨ prot = 3 ∨ prot = 4 ∨ prot = 5 ∨ prot = 6 ∨ prot = 7) as Hc by lia.
  destruct_or! Hc; subst; by vm_compute.
Qed.

(** The access bits of an area are those of the request, and reading may imply
    execution. *)
Definition same_access (flags prot : Z) : Prop :=
  Z.land flags 3 = Z.land prot 3 ∧ (Z.testbit flags 2 = true → Z.testbit prot 2 = true ∨ Z.testbit prot 0 = true).

Lemma exec_bits prot (b : bool) : 0 ≤ prot < 8 →
  let pr := if flag prot PROT_READ && b then Z.lor prot PROT_EXEC else prot in
  0 ≤ calc_vm_prot_bits pr < 8 ∧ same_access (calc_vm_prot_bits pr) prot.
Proof.
  intros Hp pr. split; [apply prot_bits_bound|].
  assert (prot = 0 ∨ prot = 1 ∨ prot = 2 ∨ prot = 3 ∨ prot = 4 ∨ prot = 5 ∨ prot = 6 ∨ prot = 7) as Hc by lia.
  unfold pr, same_access. destruct_or! Hc; subst; destruct b; (split; [by vm_compute|]); vm_compute; auto.
Qed.

(** A request for read, write and execute access changes the range from its
    start on, as far as it gets; it succeeds where nothing stands against it. *)
Lemma do_mprotect_exact pers start len prot s :
  wf_mmap (mmap (m_mm s)) → 0 ≤ start → page_aligned start = true → 0 ≤ len → start + PAGE_ALIGN len < 2 ^ 32 → 0 ≤ prot < 8 →
  ∃ r s1 flags, do_mprotect c guard pers start len prot s = Ret (r, s1) ∧ remapped s s1 ∧ wf_mmap (mmap (m_mm s1)) ∧
    0 ≤ flags < 8 ∧ same_access flags prot ∧
    (len = 0 ∧ r = 0 ∧ s1 = s ∨ 0 < len ∧
     protects guarded flags start (start + PAGE_ALIGN len) (view_at (mmap (m_mm s))) (view_at (mmap (m_mm s1))) r ∧
     (granted c guard (start + PAGE_ALIGN len) start s → 0 < PAGE_ALIGN len → r = 0)).
Proof using Hguard.
  intros W Hs0 Ha Hl Hs Hpr. destruct (plain_prot prot Hpr) as (G & P1 & P2). unfold do_mprotect. rewrite G, P1, P2, Ha.
  apply aligned_divide in Ha. cbn [negb]. change (0 =? Z.lor PROT_GROWSDOWN PROT_GROWSUP) with false.
  destruct (Z.eqb_spec len 0) as [->|Hl0].
  { exists 0, s, prot. split; [done|]. split; [by destruct s as [[]]|]. unfold same_access. auto 10. }
  set (e := start + PAGE_ALIGN len) in *. pose proof (page_align_divide len) as Hd.
  assert (Hpl : 0 ≤ PAGE_ALIGN len) by (apply Z.land_nonneg; left; apply u32_bound).
  set (pr := if flag prot PROT_READ && flag pers READ_IMPLIES_EXEC then Z.lor prot PROT_EXEC else prot).
  pose proof (exec_bits prot (flag pers READ_IMPLIES_EXEC) Hpr) as [Hf Hf3]. fold pr in Hf, Hf3.
  assert (Hret : ∀ code, code ≠ 0 → (granted c guard e start s → 0 < PAGE_ALIGN len → False) → ∃ r s1 flags,
    mret (M := st mst) code s = Ret (r, s1) ∧ remapped s s1 ∧ wf_mmap (mmap (m_mm s1)) ∧
    0 ≤ flags < 8 ∧ same_access flags prot ∧ (len = 0 ∧ r = 0 ∧ s1 = s ∨ 0 < len ∧
     protects guarded flags start e (view_at (mmap (m_mm s))) (view_at (mmap (m_mm s1))) r ∧
     (granted c guard e start s → 0 < PAGE_ALIGN len → r = 0))).
  { intros code Hc Hg. exists code, s, prot. split; [done|]. split; [by destruct s as [[]]|]. split; [done|].
    split; [done|]. split; [by split; auto|]. right. split; [lia|]. split; [by apply protects_none|]. intros; by destruct Hg. }
  rewrite (u32_small e) by lia. destruct (Z.leb_spec e start) as [Hes|Hes].
  { apply Hret; [done|lia]. }
  unfold mbind at 1, st_bind at 1, gets at 1.
  destruct (find_vma_prev [] (mmap (m_mm s)) start) as [rp [|v rest]] eqn:E.
  { apply Hret; [done|]. intros (_ & _ & _ & Hall) _. destruct (Hall start ltac:(lia)) as [w Hw].
    by rewrite (view_find _ _ _ _ E) in Hw. }
  change (flag 0 PROT_GROWSDOWN) with false. change (flag 0 PROT_GROWSUP) with false. cbn iota.
  destruct (Z.ltb_spec start (vm_start v)) as [Hv|Hv].
  { apply Hret; [done|]. intros (_ & _ & _ & Hall) _. destruct (Hall start ltac:(lia)) as [w Hw].
    rewrite (view_find _ _ _ _ E) in Hw. by rewrite (proj2 (Z.leb_gt _ _)) in Hw by lia. }
  destruct (mprotect_loop_spec c guard guarded prot pr (calc_vm_prot_bits pr) e Hf) with (n := start) (x := (rp, v, rest)) (st := s)
    as (r & s1 & Er & Hfr & Hw & Pt & Hg); [by apply Z.divide_add_r|done|apply (find_position (mmap (m_mm s)) start); auto; lia|lia|lia|].
  exists r, s1, (calc_vm_prot_bits pr). split; [done|]. split; [done|]. split; [done|]. split; [done|]. split; [done|].
  right. split; [lia|]. auto.
Qed.
End DoMprotect.
