(* ===== verification/FreeAreaSpec.v ===== *)
(** What the search for a free range finds.

    Whatever the remembered fields hold, the address is a free range inside the
    user space, or there is none from [TASK_UNMAPPED_BASE] on
    ([search_finds_free]).  From the bottom up the fields only save time: as
    long as they tell the truth the search is first fit ([first_fit]). *)

From S2P Require Import Prelude Chunk Os Pte Vma VmaSpec FreeArea Kernel Mprotect.

Definition range_free (l : list vm_area_struct) (a n : Z) : Prop := ∀ x, a ≤ x < a + n → view_at l x = None.

Lemma range_free_part l a n b m : range_free l a n → a ≤ b → b + m ≤ a + n → range_free l b m.
Proof. intros H Ha Hb x Hx. apply H. lia. Qed.

(** [find_vma] decides it. *)
Lemma find_vma_free l lo hi a n : seg lo l hi → 0 < n →
  match find_vma l a with None => True | Some v => a + n ≤ vm_start v end ↔ range_free l a n.
Proof.
  revert lo. induction l as [|v l IH]; intros lo; simpl; [done|]. intros (_ & (Hv & _) & W) Hn.
  destruct (Z.ltb_spec a (vm_end v)).
  - split; intros Hf.
    + intros x Hx. simpl. cmps.
    + destruct (Z.le_gt_cases (a + n) (vm_start v)); [done|]. specialize (Hf (Z.max a (vm_start v)) ltac:(lia)). simpl in Hf.
      revert Hf. cmps.
  - rewrite (IH _ W Hn). split; intros Hf x Hx; specialize (Hf x Hx); simpl in *; revert Hf; cmps.
Qed.

Lemma find_vma_area l lo hi a v : seg lo l hi → find_vma l a = Some v →
  lo ≤ vm_start v < vm_end v ∧ a < vm_end v ≤ hi ∧ (PAGESIZE | vm_start v) ∧ ∀ x, vm_start v ≤ x < vm_end v → view_at l x ≠ None.
Proof.
  revert lo. induction l as [|u l IH]; intros lo; simpl; [done|]. intros (Hl & (Hu & Hs & _) & W). pose proof (seg_le _ _ _ W).
  destruct (Z.ltb_spec a (vm_end u)).
  - intros [= ->]. split_and!; try done; try lia. intros x Hx. cmps.
  - intros Hf. destruct (IH _ W Hf) as (H1 & H2 & H3 & H4). split_and!; try done; try lia. intros x Hx. specialize (H4 x Hx). cmps.
Qed.

Lemma areas_from_spec l a : wf_mmap l → 0 ≤ a →
  (∃ lo, seg lo (areas_from l a) TASK_SIZE) ∧ (∀ v, head (areas_from l a) = Some v → a < vm_end v) ∧
  ∀ x, a ≤ x → view_at (areas_from l a) x = view_at l x.
Proof.
  intros W Ha. unfold areas_from. destruct (find_vma_prev [] l a) as [rp rest] eqn:E.
  destruct (find_vma_prev_wf _ _ _ _ W E) as (-> & (m & _ & _ & Hs) & Hr).
  apply find_vma_prev_spec in E as (_ & Hf & _); [|constructor]. simpl. split; [eauto|]. split.
  - intros v Hv. destruct rest; [done|]. by injection Hv as ->.
  - intros x Hx. rewrite rev_append_rev. apply Forall_rev in Hf. induction Hf as [|u l Hu _ IH]; simpl; [done|]. cmps.
Qed.

(** * From the bottom up *)

Section Up.
Variable len : Z.
Hypothesis (Hlen : 0 < len ≤ TASK_SIZE) (Dlen : (PAGESIZE | len)).

(** The loop goes past no free range that is long enough. *)
Lemma search_up_spec l : ∀ lo a h, seg lo l TASK_SIZE → (∀ v, head l = Some v → a < vm_end v) →
  0 ≤ a → (PAGESIZE | a) → 0 ≤ h < len →
  let '(r, h') := search_up len l a h in h ≤ h' < len ∧
  match r with
  | Some b => a ≤ b ≤ TASK_SIZE - len ∧ (PAGESIZE | b) ∧ range_free l b len ∧
              ∀ y n, a ≤ y < b → 0 < n → range_free l y n → n ≤ h'
  | None => ∀ y, a ≤ y ≤ TASK_SIZE - len → ¬ range_free l y len
  end.
Proof using Hlen.
  induction l as [|v l IH]; intros lo a h W Hv Ha Da Hh; simpl; destruct (Z.ltb_spec (TASK_SIZE - len) a); [by split; [lia|intros; lia]| | |].
  - split; [lia|]. split_and!; try done; try lia.
  - split; [lia|intros; lia].
  - destruct W as (_ & (Hse & _ & De & _) & W). specialize (Hv v eq_refl). unfold TASK_SIZE in *. rewrite !(u32_small (a + _)) by lia.
    destruct (Z.leb_spec (a + len) (vm_start v)).
    + split; [lia|]. split_and!; try done; try lia. intros x Hx. simpl. cmps.
    + set (h1 := if a + h <? vm_start v then vm_start v - a else h).
      assert (Hh1 : h ≤ h1 < len ∧ vm_start v - a ≤ h1) by (unfold h1; cmps).
      assert (Hin : ∀ y n, a ≤ y < vm_end v → 0 < n → range_free (v :: l) y n → n ≤ h1).
      { intros y n Hy Hn Hf. destruct (Z.le_gt_cases (y + n) (vm_start v)); [lia|].
        specialize (Hf (Z.max y (vm_start v)) ltac:(lia)). simpl in Hf. revert Hf. cmps. }
      assert (Hout : ∀ y n, vm_end v ≤ y → range_free (v :: l) y n ↔ range_free l y n).
      { intros y n Hy. split; intros Hf x Hx; specialize (Hf x Hx); simpl in *; revert Hf; cmps. }
      assert (Hnext : ∀ w, head l = Some w → vm_end v < vm_end w).
      { intros w Hw. destruct l as [|u l']; [done|]. injection Hw as ->. destruct W as (? & (? & _) & _). lia. }
      specialize (IH (vm_end v) (vm_end v) h1 W Hnext ltac:(lia) De ltac:(lia)).
      destruct (search_up len l (vm_end v) h1) as [[b|] h'] eqn:Es.
      * destruct IH as (Hh' & Hb & Db & Hf & Hmin). split; [lia|]. split_and!; try done; try lia; [by apply Hout; [lia|]|].
        intros y n Hy Hn Hfy. destruct (Z.lt_ge_cases y (vm_end v)); [pose proof (Hin y n ltac:(lia) Hn Hfy); lia|].
        apply (Hmin y n); [lia|done|]. by apply Hout.
      * destruct IH as (Hh' & Hno). split; [lia|]. intros y Hy Hf. destruct (Z.lt_ge_cases y (vm_end v)).
        -- pose proof (Hin y len ltac:(lia) ltac:(lia) Hf). lia.
        -- apply (Hno y); [lia|]. by apply Hout.
Qed.
End Up.

Definition cache_ok (c : area_cache) : Prop :=
  (PAGESIZE | cache_base c) ∧ 0 ≤ cache_base c ≤ TASK_SIZE ∧
  (PAGESIZE | free_area_cache c) ∧ 0 ≤ free_area_cache c ≤ TASK_SIZE ∧ 0 ≤ cached_hole_size c < 2 ^ 32.

(** An address at which the range is free; no such address from the bottom on *)
Definition fits_at (l : list vm_area_struct) (len r : Z) : Prop :=
  (PAGESIZE | r) ∧ 0 ≤ r ≤ TASK_SIZE - len ∧ range_free l r len.
Definition no_room (l : list vm_area_struct) (len : Z) : Prop :=
  ∀ y, TASK_UNMAPPED_BASE ≤ y ≤ TASK_SIZE - len → ¬ range_free l y len.

(** No hole between the bottom and [a] is larger than [h]. *)
Definition holes_below (l : list vm_area_struct) (a h : Z) : Prop :=
  ∀ y n, TASK_UNMAPPED_BASE ≤ y < a → 0 < n → y + n ≤ TASK_SIZE → range_free l y n → n ≤ h.

Lemma base_value : TASK_UNMAPPED_BASE = 0x40000000.
Proof. reflexivity. Qed.
Lemma hole_max h c : 0 ≤ h < 2 ^ 32 → cache_ok c → cache_ok (set_hole h c).
Proof. intros Hh (H1 & H2 & H3 & H4 & H5). done. Qed.
Lemma free_ok a c : (PAGESIZE | a) → 0 ≤ a ≤ TASK_SIZE → cache_ok c → cache_ok (set_free a c).
Proof. intros Da Ha (H1 & H2 & H3 & H4 & H5). done. Qed.
Lemma base_ok c : cache_ok c → cache_ok (set_free TASK_UNMAPPED_BASE c).
Proof. apply free_ok; rewrite base_value; [by exists 0x40000|done]. Qed.

Section Search.
Context (l : list vm_area_struct) (W : wf_mmap l) (len : Z).
Context (Hlen : 0 < len ≤ TASK_SIZE) (Dlen : (PAGESIZE | len)).

Lemma search_from a h : 0 ≤ a → (PAGESIZE | a) → 0 ≤ h < len →
  let '(r, h') := search_up len (areas_from l a) a h in h ≤ h' < len ∧
  match r with
  | Some b => a ≤ b ∧ fits_at l len b ∧ ∀ y n, a ≤ y < b → 0 < n → range_free l y n → n ≤ h'
  | None => ∀ y, a ≤ y ≤ TASK_SIZE - len → ¬ range_free l y len
  end.
Proof using W Hlen.
  intros Ha Da Hh. destruct (areas_from_spec l a W Ha) as ((lo & Hs) & Hv & Hx).
  assert (Hfree : ∀ y n, a ≤ y → range_free (areas_from l a) y n ↔ range_free l y n).
  { intros y n Hy. split; intros Hf x Hx'; specialize (Hf x Hx'); rewrite Hx in * by lia; done. }
  pose proof (search_up_spec len Hlen _ lo a h Hs Hv Ha Da Hh) as H. destruct (search_up _ _ _ _) as [[b|] h'].
  - destruct H as (H1 & H2 & H3 & H4 & H5). split; [done|]. split; [lia|]. split; [split_and!; [done|lia|lia|apply Hfree; [lia|done]]|].
    intros y n Hy Hn Hf. apply (H5 y n); [done|done|]. by apply Hfree; [lia|].
  - destruct H as (H1 & H2). split; [done|]. intros y Hy Hf. apply (H2 y Hy). by apply Hfree; [lia|].
Qed.

(** First fit, if no hole in front of the start is known to be large enough *)
Lemma full_search_spec a c r c' : 0 ≤ a ≤ TASK_SIZE → (PAGESIZE | a) → cache_ok c → cached_hole_size c < len →
  full_search l len a c = (r, c') →
  cache_ok c' ∧ legacy_layout c' = legacy_layout c ∧ cache_base c' = cache_base c ∧
  (fits_at l len r ∧ free_area_cache c' = r + len ∧ cached_hole_size c' < len ∧
     (TASK_UNMAPPED_BASE ≤ a → holes_below l a (cached_hole_size c) → TASK_UNMAPPED_BASE ≤ r ∧ holes_below l r (cached_hole_size c')) ∨
   r = u32 (- ENOMEM) ∧ no_room l len).
Proof using W Hlen Dlen.
  intros Ha Da C Hh. pose proof C as (C1 & C2 & C3 & C4 & C5). unfold full_search.
  assert (Hfound : ∀ b h, fits_at l len b → 0 ≤ h < len →
    cache_ok (set_free (u32 (b + len)) (set_hole h c)) ∧ u32 (b + len) = b + len).
  { intros b h (Db & Hb & _) Hh'. unfold TASK_SIZE in *. rewrite u32_small by lia. split; [|done].
    apply free_ok; [by apply Z.divide_add_r|unfold TASK_SIZE; lia|]. apply hole_max; [lia|done]. }
  pose proof (search_from a (cached_hole_size c) ltac:(lia) Da ltac:(lia)) as H1.
  destruct (search_up len (areas_from l a) a (cached_hole_size c)) as [[b|] h].
  - destruct H1 as (H1 & H2 & H3 & H4). destruct (Hfound b h H3 ltac:(lia)) as [Hc Eb]. intros [= <- <-]. split_and!; try done.
    left. split_and!; try done; [simpl; lia|]. intros Hbase Hbelow. split; [lia|]. intros y n Hy Hn Ht Hf.
    destruct (Z.lt_ge_cases y a); [pose proof (Hbelow y n ltac:(lia) Hn Ht Hf); simpl; lia|]. by apply (H4 y n); [lia|..].
  - destruct H1 as (H1 & H2). destruct (Z.eqb_spec a TASK_UNMAPPED_BASE) as [->|].
    + intros [= <- <-]. split; [apply hole_max; [unfold TASK_SIZE in *; lia|done]|]. split_and!; try done. by right.
    + pose proof (search_from TASK_UNMAPPED_BASE 0 ltac:(by rewrite base_value) ltac:(rewrite base_value; by exists 0x40000) ltac:(lia)) as H3.
      destruct (search_up len (areas_from l TASK_UNMAPPED_BASE) TASK_UNMAPPED_BASE 0) as [[b|] h2].
      * destruct H3 as (H3 & H4 & H5 & H6). destruct (Hfound b h2 H5 ltac:(lia)) as [Hc Eb]. intros [= <- <-]. split_and!; try done.
        left. split_and!; try done; [simpl; lia|]. intros _ _. split; [lia|]. intros y m Hy Hm _ Hf. by apply (H6 y m).
      * destruct H3 as (H3 & H4). intros [= <- <-]. split; [apply hole_max; [unfold TASK_SIZE in *; lia|done]|]. split_and!; try done. by right.
Qed.

Lemma hint_spec addr : hint_fits l (PAGE_ALIGN addr) len = true → fits_at l len (PAGE_ALIGN addr).
Proof using W Hlen.
  unfold hint_fits. rewrite andb_true_iff, Z.leb_le. intros [Hle Hf]. pose proof (page_align_word addr) as Hw.
  split_and!; [apply page_align_divide|lia|done|]. apply (find_vma_free l 0 TASK_SIZE _ len W ltac:(lia)).
  destruct (find_vma l (PAGE_ALIGN addr)) as [v|]; [|done]. unfold TASK_SIZE in *. rewrite u32_small, Z.leb_le in Hf by lia. done.
Qed.

(** What every search promises *)
Definition searched (c : area_cache) (r : Z) (c' : area_cache) : Prop :=
  cache_ok c' ∧ legacy_layout c' = legacy_layout c ∧ cache_base c' = cache_base c ∧
  (fits_at l len r ∨ r = u32 (- ENOMEM) ∧ no_room l len).

Lemma up_spec c addr flags : cache_ok c → flag flags MAP_FIXED = false →
  let '(r, c') := arch_get_unmapped_area l c addr len flags in searched c r c'.
Proof using W Hlen Dlen.
  intros C Hfl. pose proof C as (_ & _ & C3 & C4 & C5). unfold arch_get_unmapped_area.
  rewrite (proj2 (Z.ltb_ge TASK_SIZE len)), Hfl by lia. destruct (negb (addr =? 0) && hint_fits _ _ _) eqn:Hh.
  { apply andb_prop in Hh as [_ Hh]. split_and!; try done. left. by apply hint_spec. }
  destruct (Z.ltb_spec (cached_hole_size c) len).
  - destruct (full_search _ _ _ _) as [r c'] eqn:E. destruct (full_search_spec _ _ _ _ C4 C3 C ltac:(lia) E) as (H1 & H2 & H3 & H4).
    split_and!; try done. destruct H4 as [(? & _)|?]; auto.
  - destruct (full_search _ _ _ _) as [r c'] eqn:E.
    destruct (full_search_spec TASK_UNMAPPED_BASE (set_hole 0 c) r c') as (H1 & H2 & H3 & H4); try done;
      [rewrite base_value; by exists 0x40000|by apply hole_max|simpl; lia|].
    split_and!; try done. destruct H4 as [(? & _)|?]; auto.
Qed.

(** * From the top down *)

(** The loop ends, at a free range or below all areas. *)
Lemma topdown_loop a h : (PAGESIZE | a) → 0 ≤ a ≤ TASK_SIZE - len → 0 ≤ h < len →
  ∃ r h', while (topdown_round l len) (a, h) = Ret (r, h') ∧ 0 ≤ h' < len ∧
    match r with Some b => fits_at l len b | None => True end.
Proof using W Hlen Dlen.
  intros Da Ha Hh.
  destruct (while_total (topdown_round l len)
    (λ x, (PAGESIZE | x.1) ∧ 0 ≤ x.1 ≤ TASK_SIZE - len ∧ 0 ≤ x.2 < len)
    (λ x, 0 ≤ x.2 < len ∧ match x.1 with Some b => fits_at l len b | None => True end) fst (a, h)) as ([r h'] & E & HQ);
    [done|unfold TASK_SIZE in *; simpl; lia| |by exists r, h'].
  clear a h Da Ha Hh. intros [a h] (Da & Ha & Hh). simpl in *. pose proof (find_vma_free l 0 TASK_SIZE a len W ltac:(lia)) as Hf.
  destruct (find_vma l a) as [v|] eqn:Ev; [|split; [done|]; split_and!; try done; try lia; by apply Hf].
  destruct (find_vma_area _ _ _ _ _ W Ev) as (H1 & H2 & H3 & _). unfold TASK_SIZE in *. rewrite !(u32_small (a + _)) by lia.
  destruct (Z.leb_spec (a + len) (vm_start v)) as [Hle|Hgt].
  - simpl. split; [done|]. split_and!; try done; try (unfold TASK_SIZE; lia). by apply Hf.
  - set (h' := if a + h <? vm_start v then vm_start v - a else h). assert (0 ≤ h' < len) by (unfold h'; cmps).
    destruct (Z.ltb_spec len (vm_start v)); simpl; [|done]. rewrite u32_small by lia.
    split; [|lia]. split_and!; try done; try lia. by apply Z.divide_sub_r.
Qed.

Lemma fallback_spec c addr flags : cache_ok c → flag flags MAP_FIXED = false →
  let '(r, c') := topdown_fallback l c addr len flags in searched c r c'.
Proof using W Hlen Dlen.
  intros C Hfl. unfold topdown_fallback. set (c1 := set_hole ULONG_MAX (set_free TASK_UNMAPPED_BASE c)).
  assert (C1 : cache_ok c1) by (by apply hole_max, base_ok).
  pose proof (up_spec c1 addr flags C1 Hfl) as H. destruct (arch_get_unmapped_area l c1 addr len flags) as [r c'].
  destruct H as (H1 & H2 & H3 & H4). destruct C as (D1 & D2 & _). split_and!; try done. by apply hole_max, free_ok.
Qed.

Lemma down_spec c addr flags : cache_ok c → flag flags MAP_FIXED = false →
  let '(r, c') := arch_get_unmapped_area_topdown l c addr len flags in searched c r c'.
Proof using W Hlen Dlen.
  intros C Hfl. unfold arch_get_unmapped_area_topdown.
  rewrite (proj2 (Z.ltb_ge TASK_SIZE len)), Hfl by lia. destruct (negb (addr =? 0) && hint_fits _ _ _) eqn:Hh.
  { apply andb_prop in Hh as [_ Hh]. split_and!; try done. left. by apply hint_spec. }
  set (c1 := if len <=? cached_hole_size c then _ else c).
  assert (cache_ok c1 ∧ cached_hole_size c1 < len ∧ legacy_layout c1 = legacy_layout c ∧ cache_base c1 = cache_base c) as (C1 & Hc1 & El & Eb).
  { pose proof C as (D1 & D2 & _). unfold c1. destruct (Z.leb_spec len (cached_hole_size c)); [|by split_and!].
    split; [by apply free_ok, hole_max|]. split_and!; try done. simpl. lia. }
  clearbody c1. pose proof C1 as (D1 & D2 & D3 & D4 & D5).
  destruct (cache_fits l len c1) eqn:Hf.
  { unfold cache_fits in Hf. apply andb_prop in Hf as [Hl Hf]. apply Z.ltb_lt in Hl.
    assert (Da : (PAGESIZE | free_area_cache c1 - len)) by (by apply Z.divide_sub_r).
    split; [by apply free_ok; [|lia|]|]. split_and!; try done. left. split_and!; [done|lia|lia|].
    apply (find_vma_free l 0 TASK_SIZE _ len W ltac:(lia)). destruct (find_vma l _); [|done]. apply Z.leb_le in Hf. lia. }
  assert (Hfall : ∀ c2, cache_ok c2 → legacy_layout c2 = legacy_layout c1 → cache_base c2 = cache_base c1 →
    let '(r, c') := topdown_fallback l c2 addr len flags in searched c r c').
  { intros c2 C2 E1 E2. pose proof (fallback_spec c2 addr flags C2 Hfl) as H. destruct (topdown_fallback _ _ _ _ _) as [r c'].
    destruct H as (H1 & H2 & H3 & H4). split_and!; try done; congruence. }
  destruct (Z.ltb_spec (cache_base c1) len); [by apply Hfall|].
  destruct (topdown_loop (cache_base c1 - len) (cached_hole_size c1)) as (r & h & E & Hh' & Hr); [by apply Z.divide_sub_r|lia|lia|].
  assert (C2 : cache_ok (set_hole h c1)) by (apply hole_max; [unfold TASK_SIZE in *; lia|done]).
  rewrite E. destruct r as [b|]; [|by apply Hfall]. split_and!; try done; [|by left]. destruct Hr as (Db & Hb & _). by apply free_ok; [|lia|].
Qed.
End Search.

Lemma get_area_spec l c addr len flags :
  wf_mmap l → cache_ok c → 0 < len ≤ TASK_SIZE → (PAGESIZE | len) → flag flags MAP_FIXED = false →
  let '(r, c') := get_area l c addr len flags in searched l len c r c'.
Proof. intros W C Hl Dl Hfl. unfold get_area. destruct (legacy_layout c); [by apply up_spec|by apply down_spec]. Qed.

Lemma get_area_fixed l c a len flags : flag flags MAP_FIXED = true → len ≤ TASK_SIZE → get_area l c a len flags = (a, c).
Proof.
  intros Hf Hl. unfold get_area. destruct (legacy_layout c); [unfold arch_get_unmapped_area|unfold arch_get_unmapped_area_topdown];
    by rewrite (proj2 (Z.ltb_ge TASK_SIZE len)), Hf by lia.
Qed.

(** Of the flags only [MAP_FIXED] counts. *)
Lemma get_area_flags l c a len f g : flag f MAP_FIXED = flag g MAP_FIXED → get_area l c a len f = get_area l c a len g.
Proof.
  intros E. assert (Hup : ∀ c, arch_get_unmapped_area l c a len f = arch_get_unmapped_area l c a len g)
    by (intros c1; unfold arch_get_unmapped_area; by rewrite E).
  assert (Hfall : ∀ c, topdown_fallback l c a len f = topdown_fallback l c a len g) by (intros c1; unfold topdown_fallback; by rewrite Hup).
  unfold get_area. destruct (legacy_layout c); [done|]. unfold arch_get_unmapped_area_topdown. rewrite E, !Hfall.
  by destruct (while _ _) as [[[b|] h]|]; rewrite ?Hfall.
Qed.

(** C23: The search for a free range returns, whatever its remembered fields
    hold and in both layouts: a page-aligned address at which the whole range
    is inside the user space and free, or [-ENOMEM], and then no range of that
    length from [TASK_UNMAPPED_BASE] on is free. *)
Theorem search_finds_free l c addr len flags :
  wf_mmap l → cache_ok c → 0 < len ≤ TASK_SIZE → (PAGESIZE | len) → flag flags MAP_FIXED = false →
  let '(r, c') := get_area l c addr len flags in
  cache_ok c' ∧ (fits_at l len r ∨ r = u32 (- ENOMEM) ∧ no_room l len).
Proof.
  intros W C Hl Dl Hfl. pose proof (get_area_spec l c addr len flags W C Hl Dl Hfl) as H.
  destruct (get_area l c addr len flags) as [r c']. by destruct H as (H1 & _ & _ & H2).
Qed.

(** * First fit *)

(** The areas and the fields of an address space with the legacy layout, from
    [exec] or [fork] on, while ranges are mapped where the search or the caller
    says, areas change without a change of what is free, and ranges are
    unmapped whose hole does not start below [TASK_UNMAPPED_BASE]. *)
Definition occupies (l l' : list vm_area_struct) (a n : Z) : Prop :=
  ∀ x, view_at l' x = None → view_at l x = None ∧ ¬ a ≤ x < a + n.

Inductive placed : list vm_area_struct → area_cache → Prop :=
  | placed_exec l : wf_mmap l → placed l (exec_cache (true, TASK_UNMAPPED_BASE))
  | placed_fork l c : placed l c → placed l (fork_cache c)
  | placed_map l c addr len flags r c' l' :
      placed l c → 0 < len ≤ TASK_SIZE → (PAGESIZE | len) → get_area l c addr len flags = (r, c') → page_aligned r = true →
      wf_mmap l' → occupies l l' r len → placed l' c'
  | placed_same l c l' : placed l c → wf_mmap l' → (∀ x, view_at l' x = None ↔ view_at l x = None) → placed l' c
  | placed_unmap rpre gone rest c :
      placed (rev_append rpre (gone ++ rest)) c → (∀ prev, head rpre = Some prev → TASK_UNMAPPED_BASE ≤ vm_end prev) →
      placed (rev_append rpre rest) (note_unmapped c rpre rest).

(** The fields tell the truth. *)
Record true_cache (l : list vm_area_struct) (c : area_cache) : Prop := {
  tc_wf : wf_mmap l;
  tc_ok : cache_ok c;
  tc_legacy : legacy_layout c = true;
  tc_base : cache_base c = TASK_UNMAPPED_BASE;
  tc_free : TASK_UNMAPPED_BASE ≤ free_area_cache c;
  tc_holes : holes_below l (free_area_cache c) (cached_hole_size c);
}.

Lemma holes_mono l l' a b h : holes_below l b h → (∀ y n, TASK_UNMAPPED_BASE ≤ y < a → 0 < n → range_free l' y n → range_free l y n) → a ≤ b →
  holes_below l' a h.
Proof. intros H Hf Hab y n Hy Hn Ht Hr. apply (H y n); [lia|done|done|]. by apply Hf. Qed.
Lemma holes_max l a : holes_below l a ULONG_MAX.
Proof. intros y n Hy Hn Ht _. rewrite base_value in Hy. unfold TASK_SIZE in Ht. change ULONG_MAX with (2 ^ 32 - 1). lia. Qed.

(** A search on fields that tell the truth: a hint that fits, the lowest range,
    or no range *)
Lemma true_search l c addr len flags r c' :
  true_cache l c → 0 < len ≤ TASK_SIZE → (PAGESIZE | len) → flag flags MAP_FIXED = false →
  get_area l c addr len flags = (r, c') →
  addr ≠ 0 ∧ c' = c ∨
  cache_ok c' ∧ legacy_layout c' = true ∧ cache_base c' = TASK_UNMAPPED_BASE ∧
  (fits_at l len r ∧ free_area_cache c' = r + len ∧ cached_hole_size c' < len ∧
     TASK_UNMAPPED_BASE ≤ r ∧ holes_below l r (cached_hole_size c') ∨
   r = u32 (- ENOMEM) ∧ no_room l len).
Proof.
  intros [W C El Eb Hf Hh] Hl Dl Hfl. unfold get_area, arch_get_unmapped_area. rewrite El, (proj2 (Z.ltb_ge TASK_SIZE len)), Hfl by lia.
  pose proof C as (_ & _ & C3 & C4 & C5). destruct (negb (addr =? 0) && _) eqn:Hhint.
  { apply andb_prop in Hhint as [Hne%negb_true_iff%Z.eqb_neq _]. intros [= <- <-]. by left. }
  intros E. right.
  assert (∃ a c1, 0 ≤ a ≤ TASK_SIZE ∧ (PAGESIZE | a) ∧ cache_ok c1 ∧ cached_hole_size c1 < len ∧ TASK_UNMAPPED_BASE ≤ a ∧
    holes_below l a (cached_hole_size c1) ∧ legacy_layout c1 = true ∧ cache_base c1 = TASK_UNMAPPED_BASE ∧ full_search l len a c1 = (r, c'))
    as (a & c1 & Ha & Da & C1 & Hc & Hb & Hbelow & L1 & B1 & E1).
  { revert E. destruct (Z.ltb_spec (cached_hole_size c) len); intros E; [exists (free_area_cache c), c; split_and!; try done; lia|].
    exists TASK_UNMAPPED_BASE, (set_hole 0 c). split_and!; try done; [rewrite base_value; by exists 0x40000|by apply hole_max|simpl; lia|intros y n; lia]. }
  destruct (full_search_spec l W len Hl Dl a c1 r c' Ha Da C1 Hc E1) as (H1 & H2 & H3 & H4). split_and!; try done; [congruence..|].
  destruct H4 as [(H4 & H5 & H6 & H7)|H4]; [left|by right]. destruct (H7 Hb Hbelow). done.
Qed.

Lemma enomem_page : page_aligned (u32 (- ENOMEM)) = false.
Proof. reflexivity. Qed.

Lemma map_true l c addr len flags r c' l' :
  true_cache l c → 0 < len ≤ TASK_SIZE → (PAGESIZE | len) → get_area l c addr len flags = (r, c') → page_aligned r = true →
  wf_mmap l' → occupies l l' r len → true_cache l' c'.
Proof.
  intros T Hl Dl E Hr W' Hocc. pose proof T as [W C El Eb Hf Hh].
  assert (Hfree : ∀ y n, range_free l' y n → range_free l y n) by (intros y n Hy x Hx; by apply Hocc, Hy).
  assert (Hsame : true_cache l' c) by (split; try done; by apply (holes_mono l l' _ (free_area_cache c)); auto).
  destruct (flag flags MAP_FIXED) eqn:Hfix.
  { rewrite get_area_fixed in E by (done || lia). by injection E as <- <-. }
  destruct (true_search l c addr len flags r c' T Hl Dl Hfix E) as [[_ ->]|(C' & L' & B' & H)]; [done|].
  destruct H as [(Hfit & Ef & Hc & Hb & Hbelow)|[-> _]]; [|by rewrite enomem_page in Hr]. split; try done; [lia|].
  rewrite Ef. intros y n Hy Hn Ht Hfr. destruct (Z.lt_ge_cases y r); [apply (Hbelow y n); [lia|done|done|by apply Hfree]|].
  exfalso. apply (proj2 (Hocc y (Hfr y ltac:(lia)))). lia.
Qed.

(** Areas in front of a hole decide what is free there. *)
Lemma view_front pre p r1 r2 x : x < vm_end p → view_at ((pre ++ [p]) ++ r1) x = view_at ((pre ++ [p]) ++ r2) x.
Proof. intros Hx. induction pre as [|v pre IH]; simpl; cmps. Qed.
Lemma hole_front rpre p r1 r2 y n : wf_mmap (rev_append (p :: rpre) r1) → y < vm_end p → 0 < n →
  range_free (rev_append (p :: rpre) r1) y n → range_free (rev_append (p :: rpre) r2) y n.
Proof.
  rewrite !rev_append_rev. simpl. intros W Hy Hn Hf.
  assert (Hend : y + n < vm_end p).
  { destruct (Z.lt_ge_cases (y + n) (vm_end p)); [done|]. exfalso.
    rewrite <-app_assoc in W. apply seg_areas_app in W as (m & W1 & W2). destruct W2 as (Hm & (Hp & _) & _).
    assert (Hv : view_at ((rev rpre ++ [p]) ++ r1) (vm_end p - 1) ≠ None).
    { rewrite <-app_assoc. apply seg_ends in W1. clear -W1 Hm Hp. induction W1 as [|v l Hv _ IH]; simpl in *; cmps. }
    apply Hv, Hf. lia. }
  intros x Hx. rewrite (view_front _ _ r2 r1) by lia. by apply Hf.
Qed.

Lemma unmap_true rpre gone rest c :
  true_cache (rev_append rpre (gone ++ rest)) c → (∀ prev, head rpre = Some prev → TASK_UNMAPPED_BASE ≤ vm_end prev) →
  true_cache (rev_append rpre rest) (note_unmapped c rpre rest).
Proof.
  intros [W C El Eb Hf Hh] Hp.
  assert (W' : wf_mmap (rev_append rpre rest)).
  { unfold wf_mmap in *. rewrite rev_append_rev in *. apply seg_areas_app in W as (m & W1 & W2). apply seg_areas_app in W2 as (m2 & W2 & W3).
    apply seg_areas_app. exists m. split; [done|]. apply (seg_weaken m2 _ _ _ _ W3); [by apply seg_le in W2|done]. }
  unfold note_unmapped. rewrite El. set (a := match rpre with prev :: _ => vm_end prev | [] => cache_base c end).
  assert (Ha : TASK_UNMAPPED_BASE ≤ a ∧ (PAGESIZE | a)).
  { unfold a. destruct rpre as [|p rp]; [rewrite Eb; split; [done|by exists 0x40000]|]. split; [by apply Hp|].
    rewrite rev_append_rev in W. simpl in W. rewrite <-app_assoc in W. apply seg_areas_app in W as (m & _ & (_ & (_ & _ & De & _) & _)). done. }
  unfold arch_unmap_area. rewrite (proj2 (Z.leb_le _ _) (proj1 Ha)). cbn [andb]. destruct (Z.ltb_spec a (free_area_cache c)).
  - pose proof C as (_ & _ & C3 & C4 & C5). pose proof base_value. split; try done; [|apply Ha|apply holes_max].
    apply hole_max; [done|]. apply free_ok; [apply Ha|lia|done].
  - split; try done. intros y n Hy Hn Ht Hfr. apply (Hh y n Hy Hn Ht). destruct rpre as [|p rp]; [unfold a in *; lia|].
    apply (hole_front rp p rest); [done|unfold a in *; lia|done|done].
Qed.

Lemma placed_true l c : placed l c → true_cache l c.
Proof.
  induction 1 as [l W|l c _ [W C El Eb Hf Hh]|l c addr len flags r c' l' _ IH Hl Dl E Hr W' Ho|l c l' _ [W C El Eb Hf Hh] W' Hx|rpre gone rest c _ IH Hp].
  - split; try done; [|intros y n; simpl; lia]. split_and!; try done; by exists 0x40000.
  - pose proof C as (C1 & C2 & _). split; try done; [simpl; lia|apply holes_max].
  - by eapply map_true.
  - split; try done. apply (holes_mono l l' _ (free_area_cache c)); [done| |done]. intros y n _ _ Hfr x Hx'. by apply Hx, Hfr.
  - by eapply unmap_true.
Qed.

(** C24: From the bottom up, the remembered fields change the time of the
    search and not its result: after any sequence of successful mappings,
    changes of areas, and unmappings whose hole does not start below
    [TASK_UNMAPPED_BASE], a search without a hint returns the lowest address from
    [TASK_UNMAPPED_BASE] on at which the range is free, or [-ENOMEM] when there
    is none. *)
Theorem first_fit l c len r c' :
  placed l c → 0 < len ≤ TASK_SIZE → (PAGESIZE | len) → get_area l c 0 len 0 = (r, c') →
  fits_at l len r ∧ TASK_UNMAPPED_BASE ≤ r ∧ (∀ y, TASK_UNMAPPED_BASE ≤ y < r → ¬ range_free l y len) ∨
  r = u32 (- ENOMEM) ∧ no_room l len.
Proof.
  intros P Hl Dl E. destruct (true_search l c 0 len 0 r c' (placed_true _ _ P) Hl Dl eq_refl E) as [[? _]|(_ & _ & _ & H)]; [done|].
  destruct H as [((Dr & Hr & Hfr) & _ & Hc & Hb & Hbelow)|H]; [left|by right]. split_and!; try done; try lia. intros y Hy Hf.
  pose proof (Hbelow y len Hy ltac:(lia) ltac:(lia) Hf). lia.
Qed.

(** * The fields over the life of an address space *)

Lemma mmap_base_bounds pf pers rnd rlim : 0 ≤ rlim < 2 ^ 32 →
  let b := mmap_base pf pers rnd rlim in (PAGESIZE | b) ∧ TASK_SIZE / 6 - 2 ^ 20 ≤ b ≤ TASK_SIZE - 2 ^ 27 + 2 ^ 20.
Proof.
  intros Hr b. split; [apply page_align_divide|].
  assert (Hrnd : - 2 ^ 20 < mmap_rnd pf rnd < 2 ^ 20 ∧ (PAGESIZE | mmap_rnd pf rnd)).
  { unfold mmap_rnd. rewrite Z.shiftl_mul_pow2 by done. change (2 ^ PAGE_SHIFT) with 4096. split; [|by eexists].
    destruct pf; [|lia]. pose proof (Z.rem_bound_abs (s32 rnd) (2 ^ 8) ltac:(lia)). lia. }
  assert (Hmin : 2 ^ 27 ≤ MIN_GAP pf pers ≤ 2 ^ 27 + 2 ^ 23) by (unfold MIN_GAP, stack_maxrandom_size; destruct (_ && _); vm_compute; split; discriminate).
  unfold b, mmap_base. change MAX_GAP with 2684354560. set (gap := if _ <? _ then _ else _).
  assert (Hgap : 2 ^ 27 ≤ gap ≤ 2684354560) by (unfold gap; cmps).
  change (TASK_SIZE / 6) with 536870912. unfold TASK_SIZE. rewrite u32_small by lia.
  pose proof (page_align_bound (0xC0000000 - gap - mmap_rnd pf rnd) ltac:(unfold PAGESIZE; lia)) as Hb.
  pose proof (page_align_mono (0xC0000000 - gap - mmap_rnd pf rnd) (0xC0000000 - 2 ^ 27 + 2 ^ 20) ltac:(lia) ltac:(unfold PAGESIZE; lia)) as Hm.
  change (PAGE_ALIGN (0xC0000000 - 2 ^ 27 + 2 ^ 20)) with (0xC0000000 - 2 ^ 27 + 2 ^ 20) in Hm. lia.
Qed.

Lemma exec_ok pf legacy pers rnd rlim : 0 ≤ rlim < 2 ^ 32 → cache_ok (exec_cache (arch_pick_mmap_layout pf legacy pers rnd rlim)).
Proof.
  intros Hr. unfold arch_pick_mmap_layout. destruct (mmap_is_legacy _ _ _); [split_and!; try done; by exists 0x40000|].
  destruct (mmap_base_bounds pf pers rnd rlim Hr) as [Db Hb]. change (TASK_SIZE / 6) with 536870912 in Hb. simpl in *.
  split_and!; try done; simpl; lia.
Qed.
Lemma fork_ok c : cache_ok c → cache_ok (fork_cache c).
Proof. intros C. pose proof C as (C1 & C2 & _). by apply hole_max, free_ok. Qed.
Lemma note_unmapped_ok c rpre gone rest : wf_mmap (rev_append rpre (gone ++ rest)) → cache_ok c → cache_ok (note_unmapped c rpre rest).
Proof.
  intros W C. pose proof C as (C1 & C2 & C3 & C4 & C5). unfold wf_mmap in W. rewrite rev_append_rev in W. unfold note_unmapped.
  apply seg_areas_app in W as (m & W1 & W2). apply seg_areas_app in W2 as (m2 & W2 & W3). apply seg_le in W2. destruct (legacy_layout c).
  - unfold arch_unmap_area. destruct (_ && _) eqn:Ha; [|done]. apply andb_prop in Ha as [H1%Z.leb_le H2%Z.ltb_lt]. pose proof base_value.
    apply hole_max; [done|]. apply free_ok; [|lia|done]. destruct rpre as [|p rp]; [done|]. simpl in W1.
    apply seg_areas_app in W1 as (m3 & _ & (_ & (_ & _ & De & _) & _)). done.
  - set (a := match rest with v :: _ => vm_start v | [] => cache_base c end).
    assert (Ha : (PAGESIZE | a) ∧ 0 ≤ a ≤ TASK_SIZE).
    { unfold a. destruct rest as [|v r]; [done|]. destruct W3 as (? & (? & ? & _) & W3). apply seg_le in W1, W3. split; [done|lia]. }
    clearbody a. destruct Ha as [Da Ha]. unfold arch_unmap_area_topdown.
    assert (cache_ok (if free_area_cache c <? a then set_free a c else c)) as Hc by (destruct (_ <? a); [by apply free_ok|done]).
    set (c1 := if free_area_cache c <? a then _ else c) in *. clearbody c1. destruct (_ <? _); [|done]. pose proof Hc as (D1 & D2 & _). by apply free_ok.
Qed.

(** * The callers *)

(** What [get_unmapped_area] hands on is free. *)
Lemma unmapped_area_free c m len : cache_ok (k_cache c) → wf_mmap (mmap m) → 0 < len → (PAGESIZE | len) →
  page_aligned (get_unmapped_area c m 0 len 0) = true → fits_at (mmap m) len (get_unmapped_area c m 0 len 0).
Proof.
  intros C W Hl Dl. unfold get_unmapped_area. destruct (Z.le_gt_cases len TASK_SIZE) as [Hle|Hgt].
  - pose proof (get_area_spec (mmap m) (k_cache c) 0 len 0 W C ltac:(lia) Dl eq_refl) as H.
    destruct (get_area (mmap m) (k_cache c) 0 len 0) as [r c']. destruct H as (_ & _ & _ & [H|[-> _]]); simpl; [|done].
    destruct (IS_ERR_VALUE r) eqn:He; [|destruct (Z.ltb_spec (TASK_SIZE - len) r); [destruct H as (_ & ? & _); lia|by destruct (page_aligned r)]].
    unfold IS_ERR_VALUE in He. apply Z.leb_le in He. destruct H as (_ & H & _). revert He. change (u32 (- 4095)) with 4294963201. unfold TASK_SIZE in *. lia.
  - assert (Ha : (get_area (mmap m) (k_cache c) 0 len 0).1 = u32 (- ENOMEM)); [|by rewrite Ha].
    unfold get_area. destruct (legacy_layout _); [unfold arch_get_unmapped_area|unfold arch_get_unmapped_area_topdown];
      by rewrite (proj2 (Z.ltb_lt TASK_SIZE len)) by lia.
Qed.

(** * A run *)

(** A program at [0x8048000] maps three ranges and unmaps the second. *)
Definition binary_area : vm_area_struct := VmArea 0x8048000 0x804a000 VM_READ 0 0 0 false.
Definition mapping (a len : Z) : vm_area_struct := VmArea a (a + len) VM_READ 0 0 0 false.
Definition run_m1 : vm_area_struct := mapping 0x40000000 0x2000.
Definition run_m2 : vm_area_struct := mapping 0x40002000 0x3000.
Definition run_m3 : vm_area_struct := mapping 0x40005000 0x1000.
Definition run_c0 : area_cache := exec_cache (true, TASK_UNMAPPED_BASE).
Definition run_c1 := (get_area [binary_area] run_c0 0 0x2000 0).2.
Definition run_c2 := (get_area [binary_area; run_m1] run_c1 0 0x3000 0).2.
Definition run_c3 := (get_area [binary_area; run_m1; run_m2] run_c2 0 0x1000 0).2.
Definition run_c4 := note_unmapped run_c3 [run_m1; binary_area] [run_m3].

Ltac small_area := repeat split; simpl; try lia; try done;
  match goal with |- (PAGESIZE | ?a) => exists (a / PAGESIZE); reflexivity | _ => idtac end.
Lemma run_wf : wf_mmap [binary_area; run_m1; run_m2; run_m3].
Proof. small_area. Qed.
Lemma binary_wf : wf_mmap [binary_area].
Proof. small_area. Qed.
Lemma occupies_app l a len : (∀ v, v ∈ l → vm_end v ≤ a) → occupies l (l ++ [mapping a len]) a len.
Proof.
  intros Hl x. induction l as [|v l IH]; simpl; [cmps; intros; (split; [done|lia])|].
  pose proof (Hl v ltac:(by left)). destruct (Z.ltb_spec x (vm_end v)); [destruct (_ <=? x); [done|intros _; split; [done|lia]]|].
  apply IH. intros w Hw. apply Hl. by right.
Qed.
Lemma placed_next l c a len : wf_mmap (l ++ [mapping a len]) → placed l c → 0 < len ≤ TASK_SIZE → (PAGESIZE | len) →
  (get_area l c 0 len 0).1 = a → page_aligned a = true → (∀ v, v ∈ l → vm_end v ≤ a) →
  placed (l ++ [mapping a len]) (get_area l c 0 len 0).2.
Proof.
  intros W P Hl Dl Ea Ha Hv. destruct (get_area l c 0 len 0) as [r c'] eqn:E. simpl in *. subst r.
  eapply placed_map; [exact P|exact Hl|exact Dl|exact E|done|done|by apply occupies_app].
Qed.
Lemma wf_front l1 l2 : wf_mmap (l1 ++ l2) → wf_mmap l1.
Proof. unfold wf_mmap. rewrite seg_areas_app. intros (m & H1 & H2). apply seg_le in H2. by apply (seg_weaken 0 _ m). Qed.
Lemma run_placed : placed [binary_area; run_m1; run_m3] run_c4.
Proof.
  assert (Hin : ∀ (l : list vm_area_struct) a, Forall (λ v, vm_end v ≤ a) l → ∀ v, v ∈ l → vm_end v ≤ a) by (intros l a; by rewrite Forall_forall).
  assert (P1 : placed [binary_area; run_m1] run_c1).
  { apply (placed_next [binary_area] run_c0 0x40000000 0x2000); [apply (wf_front _ [run_m2; run_m3]), run_wf|apply placed_exec, binary_wf|done|by exists 2|done|done|].
    apply Hin. repeat constructor; vm_compute; discriminate. }
  assert (P2 : placed [binary_area; run_m1; run_m2] run_c2).
  { apply (placed_next [binary_area; run_m1] run_c1 0x40002000 0x3000); [apply (wf_front _ [run_m3]), run_wf|done|done|by exists 3|done|done|].
    apply Hin. repeat constructor; vm_compute; discriminate. }
  assert (P3 : placed [binary_area; run_m1; run_m2; run_m3] run_c3).
  { apply (placed_next [binary_area; run_m1; run_m2] run_c2 0x40005000 0x1000); [apply run_wf|done|done|by exists 1|done|done|].
    apply Hin. repeat constructor; vm_compute; discriminate. }
  apply (placed_unmap [run_m1; binary_area] [run_m2] [run_m3]); [exact P3|]. intros p [= <-]. by vm_compute.
Qed.

Lemma first_fit_witness :
  (get_area [binary_area; run_m1; run_m3] run_c4 0 0x3000 0).1 = 0x40002000 ∧
  ∀ y, TASK_UNMAPPED_BASE ≤ y < 0x40002000 → ¬ range_free [binary_area; run_m1; run_m3] y 0x3000.
Proof.
  assert (E : (get_area [binary_area; run_m1; run_m3] run_c4 0 0x3000 0).1 = 0x40002000) by reflexivity. split; [exact E|].
  destruct (get_area [binary_area; run_m1; run_m3] run_c4 0 0x3000 0) as [r c'] eqn:Eg. simpl in E. subst r.
  destruct (first_fit [binary_area; run_m1; run_m3] run_c4 0x3000 _ _ run_placed ltac:(done) ltac:(by exists 3) Eg) as [(_ & _ & H)|[H _]]; [exact H|discriminate H].
Defined.

Lemma search_finds_free_witness :
  let c := exec_cache (arch_pick_mmap_layout true false 0 0x80000001 0x800000) in
  legacy_layout c = false ∧ cache_ok (get_area [binary_area] c 0 0x5000 0).2 ∧ fits_at [binary_area] 0x5000 (get_area [binary_area] c 0 0x5000 0).1.
Proof.
  intros c. split; [reflexivity|].
  pose proof (search_finds_free [binary_area] c 0 0x5000 0 binary_wf (exec_ok true false 0 0x80000001 0x800000 ltac:(lia)) ltac:(done) ltac:(by exists 5) eq_refl) as H.
  assert (E : (get_area [binary_area] c 0 0x5000 0).1 =? u32 (- ENOMEM) = false) by (vm_compute; reflexivity).
  destruct (get_area [binary_area] c 0 0x5000 0) as [r c']. destruct H as [H1 [H2|[H2 _]]]; [exact (conj H1 H2)|].
  simpl in E. rewrite H2 in E. discriminate E.
Defined.

(** A hole whose front is below [TASK_UNMAPPED_BASE] is overlooked: after the
    first mapping is removed, the next one is placed behind it. *)
Example hole_overlooked :
  (get_area [binary_area] (note_unmapped run_c1 [binary_area] []) 0 0x2000 0).1 = 0x40002000 ∧
  hint_fits [binary_area] TASK_UNMAPPED_BASE 0x2000 = true.
Proof. split; reflexivity. Qed.

(** The remainder of a negative number is negative: the gap for the stack can
    be a megabyte smaller than [MIN_GAP]. *)
Example gap_below_minimum : mmap_base true 0 0x800000ff 0x800000 = TASK_SIZE - MIN_GAP true 0 + 1 * PAGESIZE.
Proof. reflexivity. Qed.
