(* ===== verification/Regions.v ===== *)
(** Mapping and unmapping of ranges: [do_munmap], the region functions and
    [do_absys_brk]. *)

From S2P Require Import Prelude Chunk Os Pte Vma VmaSpec Kernel Mprotect.

(** No area of [l] crosses the address [a]. *)
Definition cut (a : Z) (l : list vm_area_struct) : Prop := Forall (λ v, vm_end v ≤ a ∨ a ≤ vm_start v) l.

Lemma cut_rev_append a rp l : cut a (rev_append rp l) ↔ cut a rp ∧ cut a l.
Proof.
  unfold cut. rewrite rev_append_rev, Forall_app. split; intros [H1 H2]; (split; [|done]); [|by apply Forall_rev].
  rewrite <-(rev_involutive rp). by apply Forall_rev.
Qed.

(** What an operation on ranges keeps of an address space besides its areas *)
Record same_brk (s s1 : mst) : Prop := {
  sb_flags : def_flags (m_mm s1) = def_flags (m_mm s);
  sb_start : start_ab_brk (m_mm s1) = start_ab_brk (m_mm s);
  sb_brk : ab_brk (m_mm s1) = ab_brk (m_mm s);
  sb_pgd : pgd_ok (m_mm s) → pgd_ok (m_mm s1);
}.
#[export] Instance same_brk_preorder : PreOrder same_brk.
Proof. split; [done|]. intros x y z [] []. split; [congruence..|auto]. Qed.
Lemma remapped_same_brk s s1 : remapped s s1 → same_brk s s1.
Proof. intros [E P]. split; [by rewrite E..|done]. Qed.
Lemma same_mm_brk s s1 : m_mm s1 = m_mm s → same_brk s s1.
Proof. intros E. by split; rewrite E. Qed.

Lemma seg_bounds lo l hi : seg lo l hi → Forall (λ v, lo ≤ vm_start v ∧ vm_start v < vm_end v ∧ vm_end v ≤ hi) l.
Proof.
  revert lo. induction l as [|v l IH]; intros lo; simpl; [constructor|]. intros (H1 & (H2 & _) & H3).
  constructor; [by apply seg_le in H3|]. eapply Forall_impl; [by apply (IH (vm_end v))|]. simpl. lia.
Qed.
Lemma wf_start rp v rest : wf_mmap (rev_append rp (v :: rest)) → 0 ≤ vm_start v.
Proof. intros (m & Hp & Hm & _)%wf_position. apply seg_le in Hp. lia. Qed.

(** In an ordered list only the area found for [a] can cross [a]. *)
Lemma cut_position l a rp rest :
  wf_mmap l → find_vma_prev [] l a = (rp, rest) →
  cut a rp ∧ match rest with v :: r => a < vm_end v ∧ cut a r | [] => True end.
Proof.
  intros W E. pose proof E as E'. apply find_vma_prev_spec in E as (El & Hf & Hr); [|constructor]. simpl in El.
  split; [eapply Forall_impl; [exact Hf|]; simpl; lia|]. destruct rest as [|v r]; [done|]. split; [done|].
  rewrite <-El in W. apply wf_position in W as (m & _ & _ & _ & Hs).
  eapply Forall_impl; [by apply (seg_bounds _ _ _ Hs)|]. simpl. lia.
Qed.

Lemma detach_spec lo l hi e :
  seg lo l hi → cut e l →
  seg lo (detach_vmas e l).2 hi ∧ ∀ x, view_at (detach_vmas e l).2 x = if x <? e then None else view_at l x.
Proof.
  revert lo. induction l as [|v l IH]; intros lo; simpl.
  { intros Hs _. split; [done|]. intros x. by destruct (x <? e). }
  intros (H1 & H2 & H3) [Hv Hc]%Forall_cons. destruct (Z.ltb_spec (vm_start v) e) as [Hl|Hl]; simpl.
  - destruct (IH _ H3 Hc) as [Hs Hx]. split; [eapply seg_weaken; [exact Hs|destruct H2; lia|lia]|].
    intros x. rewrite Hx. cmps.
  - split; [done|]. intros x. destruct H2 as [H2 _]. cmps.
Qed.

Lemma view_skip pre l x : Forall (λ v, vm_end v ≤ x) pre → view_at (pre ++ l) x = view_at l x.
Proof. induction 1 as [|v pre Hv _ IH]; simpl; [done|cmps]. Qed.
(** Nothing is mapped between [a] and the area found for [a]. *)
Lemma view_free l a rp rest e x :
  wf_mmap l → find_vma_prev [] l a = (rp, rest) → match rest with v :: _ => e ≤ vm_start v | [] => True end →
  a ≤ x < e → view_at l x = None.
Proof.
  intros W E Hr Hx. pose proof E as E'. apply find_vma_prev_spec in E as (El & Hf & _); [|constructor]. simpl in El.
  rewrite <-El in *. rewrite rev_append_rev, view_skip.
  - destruct rest as [|v rest]; [done|]. apply wf_position in W as (m & _ & _ & (V1 & _) & _). simpl. cmps.
  - apply Forall_rev. eapply Forall_impl; [exact Hf|]. simpl. lia.
Qed.

Section Munmap.
Variable c : kconf.

(** Splitting at [a] the area that crosses it *)
Lemma cut_split s a :
  wf_mmap (mmap (m_mm s)) → (PAGESIZE | a) →
  ∃ r s1, match find_vma_prev [] (mmap (m_mm s)) a with
          | (rp, v :: rest) => if vm_start v <? a then split_vma c (rp, v, rest) a else mret 0
          | (_, []) => mret 0
          end s = Ret (r, s1) ∧ -4095 ≤ r ≤ 0 ∧ remapped s s1 ∧ wf_mmap (mmap (m_mm s1)) ∧
    (∀ x, view_at (mmap (m_mm s1)) x = view_at (mmap (m_mm s)) x) ∧
    (r = 0 → cut a (mmap (m_mm s1)) ∧ ∀ b, cut b (mmap (m_mm s)) → cut b (mmap (m_mm s1))).
Proof.
  intros W Ha. assert (Hr0 : remapped s s) by done.
  destruct (find_vma_prev [] (mmap (m_mm s)) a) as [rp rest] eqn:E.
  destruct (find_vma_prev_wf _ _ _ _ W E) as (El & _ & _). destruct (cut_position _ _ _ _ W E) as (Hc & Hr).
  destruct rest as [|v rest].
  { exists 0, s. split; [done|]. split_and!; try done. intros _. split; [|done]. rewrite El, cut_rev_append.
    split; [done|constructor]. }
  destruct Hr as [Hv Hcr].
  destruct (split_maybe c (vm_start v <? a) rp v rest a s El W) as (r & s1 & Er & D).
  { intros Hl%Z.ltb_lt. lia. }
  { done. }
  exists r, s1. split; [done|]. split; [apply D|]. split; [apply D|]. split; [apply D|]. split; [apply D|].
  intros Hz. rewrite (sd_list _ _ _ _ _ _ _ _ _ D Hz), El. split.
  - rewrite cut_rev_append. split; [done|].
    destruct (Z.ltb_spec (vm_start v) a); repeat (constructor; [simpl; lia|]); done.
  - intros b. rewrite !cut_rev_append. intros [Hb1 [Hb2 Hb3]%Forall_cons]. split; [done|].
    destruct (Z.ltb_spec (vm_start v) a); [|by constructor]. constructor; [simpl; lia|]. constructor; [simpl; lia|done].
Qed.

Lemma lookup_unmap start e gone g i x :
  unmap_vmas start e gone g !! i = Some x →
  g !! i = Some x ∧ ∀ v, v ∈ gone → ¬ in_range (Z.max (vm_start v) start) (Z.min (vm_end v) e) i.
Proof.
  unfold unmap_vmas. revert g. induction gone as [|v gone IH]; intros g; simpl; [intros H; split; [done|set_solver]|].
  intros [H1 H2]%IH. apply lookup_zap in H1 as [H1 H3]. split; [done|]. intros u [->|Hu]%elem_of_cons; auto.
Qed.
(** The mapped addresses in front of [e] are those of the detached areas. *)
Lemma detach_covers lo l hi e x :
  seg lo l hi → view_at l x ≠ None → x < e → ∃ v, v ∈ (detach_vmas e l).1 ∧ vm_start v ≤ x < vm_end v.
Proof.
  revert lo. induction l as [|v l IH]; intros lo; simpl; [done|]. intros (_ & (Hv & _) & Hs) Hx He.
  destruct (Z.ltb_spec x (vm_end v)) as [Hl|Hl].
  - destruct (Z.leb_spec (vm_start v) x); [|done]. rewrite (proj2 (Z.ltb_lt (vm_start v) e)) by lia. exists v. split; [by left|lia].
  - rewrite (proj2 (Z.ltb_lt (vm_start v) e)) by lia. destruct (IH _ Hs Hx He) as (u & Hu & Hux). exists u. split; [by right|done].
Qed.

Lemma unmap_areas_spec s start e :
  wf_mmap (mmap (m_mm s)) → 0 ≤ start ≤ e → cut start (mmap (m_mm s)) → cut e (mmap (m_mm s)) →
  ∃ s1, unmap_areas start e s = Ret (tt, s1) ∧ same_brk s s1 ∧ m_res s1 = m_res s ∧ wf_mmap (mmap (m_mm s1)) ∧
    changed (view_at (mmap (m_mm s1))) (view_at (mmap (m_mm s))) start e None.
Proof.
  intros W Hse Hs He. unfold unmap_areas, upd_mm, modify. eexists. split; [done|].
  destruct (find_vma_prev [] (mmap (m_mm s)) start) as [rp rest] eqn:E.
  destruct (find_vma_prev_wf _ _ _ _ W E) as (El & (m & Hm & Hp & Hr) & Hv).
  rewrite El in Hs, He. apply cut_rev_append in Hs as [_ Hs]. apply cut_rev_append in He as [_ He].
  destruct (detach_vmas e rest) as [gone rest'] eqn:Ed.
  destruct (detach_spec _ _ _ _ Hr He) as [Hsg Hx]. rewrite Ed in Hsg, Hx. cbn [snd] in Hsg, Hx.
  assert (Hlow : ∀ x, x < start → view_at rest x = None).
  { intros x Hxs. destruct rest as [|v r]; [done|]. apply Forall_cons in Hs as [Hs _]. simpl. cmps. }
  assert (Hres : wf_mmap (rev_append rp rest') ∧ changed (view_at (rev_append rp rest')) (view_at (mmap (m_mm s))) start e None).
  { rewrite El. apply (at_position rp m); [done|lia|done|]. intros x. rewrite Hx.
    destruct (Z.ltb_spec x e), (decide (start ≤ x < e)); try lia; try done. rewrite Hlow; [done|lia]. }
  destruct Hres as [Hw Hc]. split; [split; try done|done].
  intros Hpg i y [Hi Hz]%lookup_unmap. destruct (Hpg i y Hi) as (b & w & Hb & Hy). exists b, w. split; [|done].
  simpl. rewrite Hc, decide_False; [done|]. intros Hin.
  assert (Hrest : view_at rest (i * PAGESIZE) ≠ None).
  { rewrite El, rev_append_rev, view_skip in Hb by (eapply Forall_impl; [by apply (rev_front _ _ Hp)|]; simpl; lia). by rewrite Hb. }
  destruct (detach_covers _ _ _ e _ Hr Hrest ltac:(lia)) as (v & Hgone & Hvx). rewrite Ed in Hgone.
  apply (Hz v Hgone). unfold in_range. lia.
Qed.

(** [do_munmap] removes the range or, when it fails, changes no page. *)
Record unmaps (s : mst) (start len r : Z) (s1 : mst) : Prop := {
  um_ret : -4095 ≤ r ≤ 0;
  um_brk : same_brk s s1;
  um_wf : wf_mmap (mmap (m_mm s1));
  um_ok : r = 0 → (PAGESIZE | start) ∧ 0 < len ∧ start + len ≤ start + PAGE_ALIGN len ≤ TASK_SIZE ∧
    changed (view_at (mmap (m_mm s1))) (view_at (mmap (m_mm s))) start (start + PAGE_ALIGN len) None;
  um_fail : r ≠ 0 → ∀ x, view_at (mmap (m_mm s1)) x = view_at (mmap (m_mm s)) x;
}.

Lemma do_munmap_spec s start len :
  wf_mmap (mmap (m_mm s)) → 0 ≤ start → 0 ≤ len →
  ∃ r s1, do_munmap c start len s = Ret (r, s1) ∧ unmaps s start len r s1.
Proof.
  intros W Hs Hl. unfold do_munmap.
  assert (Herr : ∀ code, -4095 ≤ code < 0 → ∃ r s1, mret (M := st mst) code s = Ret (r, s1) ∧ unmaps s start len r s1).
  { intros code Hc. exists code, s. split; [done|]. split; [lia|done|done|lia|done]. }
  destruct (_ || _) eqn:Eb; [by apply Herr|].
  apply orb_false_iff in Eb as [[Ha%negb_false_iff Ht%Z.ltb_ge]%orb_false_iff Hb%Z.ltb_ge].
  apply aligned_divide in Ha. destruct (Z.eqb_spec (PAGE_ALIGN len) 0) as [H0|H0]; [by apply Herr|].
  assert (Hpl : len ≤ PAGE_ALIGN len ∧ 0 < len ∧ start + PAGE_ALIGN len ≤ TASK_SIZE).
  { assert (0 < len) by (destruct (decide (len = 0)) as [->|]; [by vm_compute in H0|lia]).
    assert (Hpb : len ≤ PAGE_ALIGN len < len + PAGESIZE)
      by (apply page_align_bound; unfold TASK_SIZE, PAGESIZE in *; lia).
    destruct Ha as [i Hi], (page_align_divide len) as [j Hj]. unfold TASK_SIZE, PAGESIZE in *. lia. }
  destruct Hpl as (Hle & Hl0 & Hte). set (e := start + PAGE_ALIGN len) in *.
  assert (He : (PAGESIZE | e)) by (apply Z.divide_add_r; [done|apply page_align_divide]).
  unfold mbind at 1, st_bind at 1, gets at 1.
  destruct (find_vma_prev [] (mmap (m_mm s)) start) as [rp rest] eqn:E.
  assert (Hfree : match rest with v :: _ => e ≤ vm_start v | [] => True end →
    ∃ r s1, mret (M := st mst) 0 s = Ret (r, s1) ∧ unmaps s start len r s1).
  { intros Hr. exists 0, s. split; [done|]. split; try done. intros _. split_and!; try done; [lia|].
    intros x. case_decide; [|done]. rewrite (view_free _ _ _ _ e x W E Hr); [done|lia]. }
  destruct rest as [|v rest]; [by apply Hfree|].
  destruct (Z.leb_spec e (vm_start v)) as [Hv|Hv]; [by apply Hfree|]. clear Hfree.
  destruct (cut_split s start W Ha) as (r & s1 & E1 & R1 & F1 & W1 & V1 & C1). rewrite E in E1.
  unfold mbind at 1, st_bind at 1. rewrite E1. destruct (Z.eqb_spec r 0) as [->|Hr]; cbn [negb].
  2:{ exists r, s1. split; [done|]. split; [done|by apply remapped_same_brk|done..]. }
  destruct (C1 eq_refl) as [Cs _]. unfold mbind at 1, st_bind at 1, gets at 1.
  destruct (cut_split s1 e W1 He) as (r2 & s2 & E2 & R2 & F2 & W2 & V2 & C2).
  unfold mbind at 1, st_bind at 1. rewrite E2.
  assert (Hb2 : same_brk s s2) by (etrans; apply remapped_same_brk; done).
  assert (Hv2 : ∀ x, view_at (mmap (m_mm s2)) x = view_at (mmap (m_mm s)) x) by (intros x; by rewrite V2).
  destruct (Z.eqb_spec r2 0) as [->|Hr]; cbn [negb].
  2:{ exists r2, s2. split; [done|]. by split. }
  destruct (C2 eq_refl) as [Ce Cse]. destruct (unmap_areas_spec s2 start e W2) as (s3 & E3 & B3 & _ & W3 & V3);
    [lia|by apply Cse|done|].
  unfold mbind at 1, st_bind at 1. rewrite E3. exists 0, s3. split; [done|]. split; [done|by etrans; [exact Hb2|]|done| |done].
  intros _. split_and!; try done; [lia|]. intros x. rewrite V3. fold e. case_decide; [done|apply Hv2].
Qed.

(** * New areas *)

Lemma gap_found l addr e rp rest :
  wf_mmap l → find_vma_prev [] l addr = (rp, rest) → (PAGESIZE | addr) → (PAGESIZE | e) → 0 ≤ addr < e → e ≤ TASK_SIZE →
  match rest with v :: _ => e ≤ vm_start v | [] => True end → l = rev_append rp rest ∧ gap rp rest addr e.
Proof.
  intros W E Ha He H0 Ht Hr. destruct (find_vma_prev_wf _ _ _ _ W E) as (El & (m & Hm & Hp & Hs) & _).
  split; [done|]. split; [exists m; split; [done|lia]|]. split; [lia|]. split; [done|]. split; [done|].
  destruct rest as [|v rest]; [done|]. destruct Hs as (H1 & H2). by split.
Qed.
(** A range without mapped pages has no area. *)
Lemma free_range l addr e rp rest :
  wf_mmap l → find_vma_prev [] l addr = (rp, rest) → (∀ x, addr ≤ x < e → view_at l x = None) →
  match rest with v :: _ => addr < e → e ≤ vm_start v | [] => True end.
Proof.
  intros W E Hx. destruct (find_vma_prev_wf _ _ _ _ W E) as (El & _ & Hv).
  destruct rest as [|v rest]; [done|]. intros Hlt. destruct (Z.lt_ge_cases (vm_start v) e) as [Hl|]; [|done].
  rewrite El in W. destruct (wf_position _ _ _ W) as (m & Hp & Hm & (V1 & _) & _).
  specialize (Hx (Z.max addr (vm_start v)) ltac:(lia)). rewrite El, (view_in_area _ _ _ _ m) in Hx by (done || lia). done.
Qed.

(** In a free range the loop has nothing to unmap. *)
Lemma munmap_back_free n s addr len :
  wf_mmap (mmap (m_mm s)) → (PAGESIZE | addr) → (PAGESIZE | len) → 0 ≤ addr → 0 < len → addr + len ≤ TASK_SIZE →
  (∀ x, addr ≤ x < addr + len → view_at (mmap (m_mm s)) x = None) →
  ∃ rp rest, munmap_back c (S n) addr len s = Ret (Some (rp, rest), s) ∧
    mmap (m_mm s) = rev_append rp rest ∧ gap rp rest addr (addr + len).
Proof.
  intros W Ha Hd H0 Hl Ht Hx. set (e := addr + len) in *. assert (He : (PAGESIZE | e)) by (by apply Z.divide_add_r).
  cbn [munmap_back]. unfold mbind at 1, st_bind at 1, gets at 1.
  destruct (find_vma_prev [] (mmap (m_mm s)) addr) as [rp rest] eqn:E.
  pose proof (free_range _ _ e _ _ W E Hx) as Hf. exists rp, rest.
  destruct rest as [|v rest]; [split; [done|]; apply gap_found; done || lia|].
  fold e. rewrite u32_small by (unfold TASK_SIZE in *; lia).
  rewrite (proj2 (Z.ltb_ge _ _)) by lia. split; [done|]. apply gap_found; try done; [lia|by apply Hf; lia].
Qed.

Lemma munmap_back_spec s addr len :
  wf_mmap (mmap (m_mm s)) → (PAGESIZE | addr) → (PAGESIZE | len) → 0 ≤ addr → 0 < len → addr + len ≤ TASK_SIZE →
  ∃ o s1, munmap_back c 2 addr len s = Ret (o, s1) ∧ same_brk s s1 ∧ wf_mmap (mmap (m_mm s1)) ∧
    (∀ x, ¬ addr ≤ x < addr + len → view_at (mmap (m_mm s1)) x = view_at (mmap (m_mm s)) x) ∧
    match o with
    | Some (rp, rest) => mmap (m_mm s1) = rev_append rp rest ∧ gap rp rest addr (addr + len)
    | None => ∀ x, view_at (mmap (m_mm s1)) x = view_at (mmap (m_mm s)) x
    end.
Proof.
  intros W Ha Hd H0 Hl Ht. set (e := addr + len) in *. assert (He : (PAGESIZE | e)) by (by apply Z.divide_add_r).
  cbn [munmap_back]. unfold mbind at 1, st_bind at 1, gets at 1.
  destruct (find_vma_prev [] (mmap (m_mm s)) addr) as [rp rest] eqn:E.
  assert (Hnow : match rest with v :: _ => e ≤ vm_start v | [] => True end →
    ∃ o s1, mret (M := st mst) (Some (rp, rest)) s = Ret (o, s1) ∧ same_brk s s1 ∧ wf_mmap (mmap (m_mm s1)) ∧
    (∀ x, ¬ addr ≤ x < e → view_at (mmap (m_mm s1)) x = view_at (mmap (m_mm s)) x) ∧
    match o with
    | Some (rp, rest) => mmap (m_mm s1) = rev_append rp rest ∧ gap rp rest addr e
    | None => ∀ x, view_at (mmap (m_mm s1)) x = view_at (mmap (m_mm s)) x
    end).
  { intros Hr. exists (Some (rp, rest)), s. do 4 (split; [done|]). apply gap_found; done || lia. }
  destruct rest as [|v rest]; [by apply Hnow|]. fold e. rewrite u32_small by (unfold TASK_SIZE in *; lia).
  destruct (Z.ltb_spec (vm_start v) e) as [Hv|Hv]; [|by apply Hnow]. clear Hnow.
  destruct (do_munmap_spec s addr len W H0) as (r & s1 & E1 & U); [lia|].
  unfold mbind at 1, st_bind at 1. rewrite E1. destruct (Z.eqb_spec r 0) as [Hr|Hr]; cbn [negb].
  - destruct (um_ok _ _ _ _ _ U Hr) as (_ & _ & _ & Hc).
    rewrite page_align_aligned in Hc by (done || by apply aligned_divide || (unfold TASK_SIZE, PAGESIZE in *; lia)).
    destruct (munmap_back_free 0 s1 addr len) as (rp' & rest' & E2 & G); try done;
      [apply U|intros x Hx; by rewrite Hc, decide_True|].
    cbn [munmap_back] in E2. fold e in E2. rewrite u32_small in E2 by (unfold TASK_SIZE in *; lia).
    exists (Some (rp', rest')), s1. split; [exact E2|]. split; [apply U|]. split; [apply U|]. split; [|done].
    intros x Hx. by rewrite Hc, decide_False.
  - exists None, s1. split; [done|]. split; [apply U|]. split; [apply U|]. split; intros x; [intros _|]; by apply U.
Qed.

(** The result of mapping [[addr, addr + len)] with [flags] *)
Record links (s : mst) (addr len flags r : Z) (s1 : mst) : Prop := {
  lk_brk : same_brk s s1;
  lk_wf : wf_mmap (mmap (m_mm s1));
  lk_out x : ¬ addr ≤ x < addr + len → view_at (mmap (m_mm s1)) x = view_at (mmap (m_mm s)) x;
  lk_in x : r = addr → addr ≤ x < addr + len → view_at (mmap (m_mm s1)) x = Some (view flags);
}.

Lemma enomem_unaligned a : (PAGESIZE | a) → u32 (- ENOMEM) ≠ a.
Proof. intros [k ->]. change (u32 (- ENOMEM)) with 4294967284. unfold PAGESIZE. lia. Qed.

(** A gap has no pages. *)
Lemma gap_free rp rest addr e x : gap rp rest addr e → addr ≤ x < e → view_at (rev_append rp rest) x = None.
Proof.
  intros ((m & Hp & Hm) & _ & _ & _ & Hr) Hx.
  rewrite rev_append_rev, view_skip by (eapply Forall_impl; [by apply (rev_front _ _ Hp)|]; simpl; lia).
  destruct rest as [|v r]; [done|]. simpl in *. destruct Hr as (? & (? & _) & _). cmps.
Qed.

Lemma link_area_spec s rp rest addr len flags pgoff :
  mmap (m_mm s) = rev_append rp rest → wf_mmap (mmap (m_mm s)) → gap rp rest addr (addr + len) →
  flags_ok flags → flag flags VM_AB_CONTROL = true →
  ∃ r s1, link_area rp rest addr len flags pgoff s = Ret (r, s1) ∧ links s addr len flags r s1.
Proof.
  intros El W G Hf Hab. unfold link_area. unfold mbind at 1, st_bind at 1, lift.
  pose proof (vma_merge_new rp rest addr (addr + len) flags 0 0 pgoff G) as Hm.
  assert (Hdone : ∀ l s0, m_mm s0 = set_mmap l (m_mm s) → maps_new rp rest addr (addr + len) flags l →
    links s addr len flags addr (set_m_mm (set_usage (total_vm (m_mm s0) + Z.shiftr len PAGE_SHIFT)
      (if flag flags VM_LOCKED then locked_vm (m_mm s0) + Z.shiftr len PAGE_SHIFT else locked_vm (m_mm s0)) (m_mm s0)) s0)).
  { intros l s0 E0 [Hw Hc]. split; simpl; rewrite ?E0; simpl; try done.
    - split; simpl; rewrite ?E0; try done. apply pgd_ok_mono; [done|]. intros x Hx. simpl. rewrite Hc, decide_False, El; [done|].
      intros Hin. apply Hx. rewrite El. by apply (gap_free rp rest addr (addr + len)).
    - intros x Hx. by rewrite Hc, decide_False, El.
    - intros x _ Hx. by rewrite Hc, decide_True. }
  destruct (vma_merge _ _ _ _ _ _ _ _) as [[y|]|]; [| |done].
  { eexists _, _. split; [done|]. by apply (Hdone (position_list y)). }
  unfold mbind at 1, st_bind at 1. unfold mbind at 1, st_bind at 1.
  assert (Hok : ∃ ok s0, take_resource s = Ret (ok, s0) ∧ m_mm s0 = m_mm s).
  { unfold take_resource. destruct (m_res s); eauto. }
  destruct Hok as (ok & s0 & -> & E0). destruct ok; cbn [negb].
  - rewrite Hab. eexists _, _. split; [done|].
    apply (Hdone (rev_append rp (VmArea addr (addr + len) flags pgoff 0 0 false :: rest))); [simpl; by rewrite E0|].
    destruct G as ((m & Hp & Hm') & Hlt & Ha & He & Hr).
    apply (at_position rp m); [done|lia|seg_solve|]. intros x. simpl. destruct rest as [|v r]; simpl in *; cmps.
    destruct Hr as (? & (? & _) & _). lia.
  - eexists _, s0. split; [done|]. destruct G as (_ & _ & Ha & _).
    split; rewrite ?E0; try done; [by apply same_mm_brk|]. intros x Hx. by apply enomem_unaligned in Hx.
Qed.

(** With resources it succeeds. *)
Lemma link_area_ok s rp rest addr len flags pgoff :
  m_res s = [] → gap rp rest addr (addr + len) → flag flags VM_AB_CONTROL = true →
  ∃ s1, link_area rp rest addr len flags pgoff s = Ret (addr, s1).
Proof.
  intros Hres G Hab. unfold link_area. unfold mbind at 1, st_bind at 1, lift.
  pose proof (vma_merge_new rp rest addr (addr + len) flags 0 0 pgoff G) as Hm.
  destruct (vma_merge _ _ _ _ _ _ _ _) as [[y|]|]; [by eexists| |done].
  unfold mbind at 1, st_bind at 1. unfold mbind at 1, st_bind at 1. unfold take_resource. rewrite Hres, Hab. by eexists.
Qed.

(** * [do_absys_brk] *)

(** Error codes are told apart from page addresses. *)
Lemma error_unaligned e a : -4095 ≤ e < 0 → (PAGESIZE | a) → u32 e ≠ a.
Proof.
  intros He [k ->]. unfold u32, PAGESIZE. rewrite <-(Z.mod_unique_pos e (2 ^ 32) (-1) (e + 2 ^ 32)) by lia. lia.
Qed.

(** The flags memory locking may add to every new area *)
Definition def_flags_ok (d : Z) : Prop := d = 0 ∨ d = VM_LOCKED.

Definition brk_flags (pers d : Z) : Z :=
  Z.lor (Z.lor (VM_DATA_DEFAULT_FLAGS pers) (Z.lor VM_ACCOUNT d)) VM_AB_CONTROL.
Lemma brk_flags_spec pers d :
  def_flags_ok d → flags_ok (brk_flags pers d) ∧ flag (brk_flags pers d) VM_AB_CONTROL = true ∧
  ∃ w, view (brk_flags pers d) = (true, w) ∧ Z.land w 3 = 3.
Proof.
  intros Hd. unfold brk_flags, VM_DATA_DEFAULT_FLAGS. destruct (flag pers READ_IMPLIES_EXEC), Hd as [-> | ->];
    (split; [split; [unfold word; vm_compute; intuition congruence|by vm_compute]|]);
    (split; [by vm_compute|eexists; split; [by vm_compute|by vm_compute]]).
Qed.

Lemma brk_links s pers addr len (Hsec : ∀ a, -4095 ≤ security_file_mmap c a ≤ 0) :
  wf_mmap (mmap (m_mm s)) → def_flags_ok (def_flags (m_mm s)) → (PAGESIZE | addr) → 0 ≤ addr < 2 ^ 32 →
  ∃ r s1, do_absys_brk c pers addr len s = Ret (r, s1) ∧
    links s addr (PAGE_ALIGN len) (brk_flags pers (def_flags (m_mm s))) r s1 ∧
    (r = addr → addr + PAGE_ALIGN len ≤ TASK_SIZE ∨ PAGE_ALIGN len = 0) ∧
    (TASK_SIZE < addr + PAGE_ALIGN len → s1 = s).
Proof.
  intros W Hd Ha H0. unfold do_absys_brk. set (l := PAGE_ALIGN len). pose proof (page_align_divide len) as Hl. fold l in Hl.
  assert (Hl0 : 0 ≤ l < 2 ^ 32).
  { unfold l, PAGE_ALIGN. assert (Hw : word (Z.land (u32 (len + PAGESIZE - 1)) (not32 (PAGESIZE - 1)))).
    { apply word_land; [apply u32_bound|apply not32_nonneg]. } exact Hw. }
  assert (Hfail : ∀ code s1, same_brk s s1 → wf_mmap (mmap (m_mm s1)) →
    (∀ x, ¬ addr ≤ x < addr + l → view_at (mmap (m_mm s1)) x = view_at (mmap (m_mm s)) x) → -4095 ≤ code < 0 →
    (TASK_SIZE < addr + l → s1 = s) → ∃ r s2, mret (M := st mst) (u32 code) s1 = Ret (r, s2) ∧
      links s addr l (brk_flags pers (def_flags (m_mm s))) r s2 ∧ (r = addr → addr + l ≤ TASK_SIZE ∨ l = 0) ∧
      (TASK_SIZE < addr + l → s2 = s)).
  { intros code s1 Hb Hw Hv Hc. exists (u32 code), s1. pose proof (error_unaligned code addr Hc Ha).
    split; [done|]. split; [by split|done]. }
  assert (Hfail0 : ∀ code, -4095 ≤ code < 0 → ∃ r s2, mret (M := st mst) (u32 code) s = Ret (r, s2) ∧
      links s addr l (brk_flags pers (def_flags (m_mm s))) r s2 ∧ (r = addr → addr + l ≤ TASK_SIZE ∨ l = 0) ∧
      (TASK_SIZE < addr + l → s2 = s))
    by (intros; by apply Hfail).
  destruct (Z.eqb_spec l 0) as [Hz|Hz].
  { exists addr, s. split; [done|]. split; [|split; [by right|done]]. split; try done. lia. }
  destruct (_ || _) eqn:Eb; [by apply Hfail0|].
  apply orb_false_iff in Eb as [E1%Z.ltb_ge E2%Z.ltb_ge].
  assert (Hsum : addr + l < 2 ^ 32 ∧ u32 (addr + l) = addr + l).
  { unfold u32 in *. destruct (Z.lt_ge_cases (addr + l) (2 ^ 32)); [split; [done|by apply Z.mod_small; lia]|].
    rewrite <-(Z.mod_unique_pos (addr + l) (2 ^ 32) 1 (addr + l - 2 ^ 32)) in E2 by lia. lia. }
  destruct Hsum as [_ Hsum]. rewrite Hsum in E1.
  destruct (Z.eqb_spec (security_file_mmap c addr) 0) as [Hs|Hs]; cbn [negb].
  2:{ pose proof (Hsec addr). apply Hfail0. lia. }
  unfold mbind at 1, st_bind at 1, gets at 1. fold (brk_flags pers (def_flags (m_mm s))).
  destruct (_ && _); [by apply Hfail0|].
  destruct (munmap_back_spec s addr l W Ha Hl) as (o & s1 & E3 & B1 & W1 & V1 & G); [lia..|].
  unfold mbind at 1, st_bind at 1. rewrite E3. destruct o as [[rp rest]|]; [|by apply Hfail; [..|lia]].
  unfold mbind at 1, st_bind at 1, gets at 1.
  destruct (negb _); [by apply Hfail; [..|lia]|]. destruct (_ <? _); [by apply Hfail; [..|lia]|].
  unfold mbind at 1, st_bind at 1.
  assert (∃ ok s0, take_resource s1 = Ret (ok, s0) ∧ m_mm s0 = m_mm s1) as (ok & s0 & -> & E0).
  { unfold take_resource. destruct (m_res s1); eauto. }
  destruct G as [El G]. destruct ok; cbn [negb].
  - destruct (brk_flags_spec pers _ Hd) as (F1 & F2 & _).
    destruct (link_area_spec s0 rp rest addr l (brk_flags pers (def_flags (m_mm s))) (Z.shiftr addr PAGE_SHIFT)) as (r & s2 & E4 & L);
      rewrite ?E0; try done.
    exists r, s2. split; [done|]. split; [|split; [auto|lia]]. destruct L as [L1 L2 L3 L4]. rewrite ?E0 in *. split; try done.
    + etrans; [exact B1|]. etrans; [by apply same_mm_brk|exact L1].
    + intros x Hx. by rewrite L3, V1.
  - apply Hfail; rewrite ?E0; try done; [|lia]. etrans; [exact B1|]. by apply same_mm_brk.
Qed.

(** Nothing stands against mapping [[addr, addr + len)]: the range is free, the
    limits and the security module allow it, and resources suffice. *)
Record brk_room (s : mst) (addr len : Z) : Prop := {
  br_res : roomy c s;
  br_sec : security_file_mmap c addr = 0;
  br_lock : def_flags (m_mm s) = 0;
  br_limit : may_expand_vm c (m_mm s) (Z.shiftr len PAGE_SHIFT) = true;
  br_range : 0 ≤ addr ∧ addr + len ≤ TASK_SIZE;
  br_free x : addr ≤ x < addr + len → view_at (mmap (m_mm s)) x = None;
}.

Lemma brk_succeeds s pers addr len :
  wf_mmap (mmap (m_mm s)) → (PAGESIZE | addr) → (PAGESIZE | len) → 0 < len < 2 ^ 32 - PAGESIZE → brk_room s addr len →
  ∃ s1, do_absys_brk c pers addr len s = Ret (addr, s1).
Proof.
  intros W Ha Hd Hl [[Hres Hmax] Hsec Hlock Hlim [H0 Ht] Hfree]. unfold do_absys_brk.
  rewrite page_align_aligned by (lia || by apply aligned_divide). rewrite (proj2 (Z.eqb_neq len 0)) by lia.
  rewrite u32_small by (unfold TASK_SIZE in *; lia). rewrite (proj2 (Z.ltb_ge TASK_SIZE _)), (proj2 (Z.ltb_ge _ addr)) by lia.
  rewrite Hsec. cbn [orb negb Z.eqb]. unfold mbind at 1, st_bind at 1, gets at 1. rewrite Hlock.
  change (flag 0 VM_LOCKED) with false. cbn [andb]. fold (brk_flags pers 0).
  destruct (munmap_back_free 1 s addr len) as (rp & rest & E & El & G); [done|done|done|lia|lia|lia|done|].
  unfold mbind at 1, st_bind at 1. rewrite E. unfold mbind at 1, st_bind at 1, gets at 1. rewrite Hlim. cbn [negb].
  rewrite (proj2 (Z.ltb_ge _ _)) by (pose proof (wf_count _ W); lia).
  unfold mbind at 1, st_bind at 1, take_resource. rewrite Hres. cbn [negb].
  apply link_area_ok; [done|done|]. by apply brk_flags_spec; left.
Qed.
End Munmap.
