(* ===== verification/Group.v ===== *)
(** Control groups: the ring of the [ab_tasks] links, the walk over it and the
    test whether a task controls another. *)

From S2P Require Import Prelude Chunk Os Pte Vma VmaSpec Kernel.

(** [chain ts l q]: the links lead along [l] and from its last task to [q]. *)
Fixpoint chain (ts : gmap Z task_struct) (l : list Z) (q : Z) : Prop :=
  match l with
  | [] => True
  | p :: l' => (∃ t, ts !! p = Some t ∧ ab_next t = match l' with [] => q | p' :: _ => p' end) ∧ chain ts l' q
  end.
(** The tasks of [p :: l] form a ring. *)
Definition ring (ts : gmap Z task_struct) (p : Z) (l : list Z) : Prop := NoDup (p :: l) ∧ chain ts (p :: l) p.

Lemma chain_app ts l1 l2 q :
  chain ts (l1 ++ l2) q ↔ chain ts l1 (match l2 with [] => q | p :: _ => p end) ∧ chain ts l2 q.
Proof.
  induction l1 as [|p l1 IH]; simpl; [tauto|]. rewrite IH.
  destruct l1 as [|p1 l1]; simpl; [destruct l2; tauto|tauto].
Qed.
Lemma chain_lookup ts l q p : chain ts l q → p ∈ l → is_Some (ts !! p).
Proof.
  induction l as [|p' l IH]; simpl; [set_solver|]. intros [(t & Ht & _) Hc] [->|Hin]%elem_of_cons; [eauto|auto].
Qed.

(** A ring can be read from any of its tasks. *)
Lemma ring_rotate ts p l1 q l2 : ring ts p (l1 ++ q :: l2) → ring ts q (l2 ++ p :: l1).
Proof.
  intros [Hn Hc]. split.
  - eapply NoDup_Permutation_proper; [|exact Hn]. rewrite !app_comm_cons. apply Permutation_app_comm.
  - rewrite app_comm_cons in Hc. rewrite app_comm_cons. apply chain_app. apply chain_app in Hc as [Hc1 Hc2].
    split; done.
Qed.

Lemma ring_size (ts : gmap Z task_struct) (l : list Z) : NoDup l → (∀ p, p ∈ l → is_Some (ts !! p)) → (length l ≤ size ts)%nat.
Proof.
  intros Hn Hl. rewrite <-size_dom. rewrite <-(size_list_to_set (C := gset Z) l) by done.
  apply subseteq_size. intros p Hp. apply elem_of_dom, Hl. by apply elem_of_list_to_set in Hp.
Qed.

Lemma ring_walk_chain ts l n q :
  chain ts l q → q ∉ l → (length l ≤ n)%nat → ring_walk ts n q (match l with [] => q | p :: _ => p end) = Ret l.
Proof.
  revert n. induction l as [|p l IH]; intros n Hc Hq Hn; simpl in *.
  - destruct n; simpl; by rewrite Z.eqb_refl.
  - destruct n as [|n]; [lia|]. destruct Hc as [(t & Ht & Ha) Hc]. simpl.
    rewrite (proj2 (Z.eqb_neq p q)) by set_solver. rewrite Ht, Ha, IH; [done|done|set_solver|lia].
Qed.

(** The loop over the ring of [p] visits the other tasks of the ring. *)
Lemma list_for_each_ring ts p l : ring ts p l → list_for_each_entry ts p = Ret l.
Proof.
  intros [Hn Hc]. pose proof Hc as [(t & Ht & Ha) Hc']. unfold list_for_each_entry. rewrite Ht, Ha.
  apply ring_walk_chain; [done| |].
  - by apply NoDup_cons in Hn as [? _].
  - apply NoDup_cons in Hn as [_ Hn]. apply ring_size; [done|]. intros r Hr. by eapply chain_lookup.
Qed.

Lemma find_arbiter_chain ts l1 a ta l2 n q :
  chain ts (l1 ++ a :: l2) q → q ∉ l1 ++ a :: l2 → (length l1 < n)%nat → ts !! a = Some ta → is_arbiter ta = true →
  (∀ p t, p ∈ l1 → ts !! p = Some t → is_arbiter t = false) →
  find_arbiter_from ts n q (match l1 with [] => a | p :: _ => p end) = Ret (Some a).
Proof.
  revert n. induction l1 as [|p l1 IH]; intros n Hc Hq Hn Ha Hia Hno; simpl in *; (destruct n as [|n]; [lia|]); simpl.
  - rewrite (proj2 (Z.eqb_neq a q)) by set_solver. by rewrite Ha, Hia.
  - destruct Hc as [(t & Ht & Hnx) Hc]. rewrite (proj2 (Z.eqb_neq p q)) by set_solver.
    rewrite Ht, (Hno p t) by (done || set_solver). rewrite Hnx.
    replace (match l1 ++ a :: l2 with [] => q | p' :: _ => p' end) with (match l1 with [] => a | p' :: _ => p' end)
      by (by destruct l1).
    apply IH; [done|set_solver|lia|done|done|]. intros p' t' Hp'. apply Hno. set_solver.
Qed.

(** A group: the arbiter [cur] and its children, none of which is an arbiter. *)
Record group (k : kernel) (cur : Z) (l : list Z) : Prop := {
  gr_ring : ring (tasks k) cur l;
  gr_arbiter : ∃ t, tasks k !! cur = Some t ∧ is_arbiter t = true;
  gr_children p t : p ∈ l → tasks k !! p = Some t → is_arbiter t = false;
}.

Lemma group_task k cur l p : group k cur l → p ∈ l → is_Some (tasks k !! p).
Proof. intros [[_ [_ Hc]] _ _] Hp. by eapply chain_lookup. Qed.
Lemma group_not_cur k cur l : group k cur l → cur ∉ l.
Proof. intros [[Hn _] _ _]. by apply NoDup_cons in Hn as [? _]. Qed.

(** A child finds its arbiter, who therefore controls it. *)
Lemma find_my_arbiter_child k cur l p : group k cur l → p ∈ l → find_my_arbiter (tasks k) p = Ret (Some cur).
Proof.
  intros [R (ta & Ha & Hia) Hno] Hp. apply list_elem_of_split in Hp as (l1 & l2 & ->). apply ring_rotate in R as [Hn' Hc'].
  pose proof Hc' as [(t & Ht & Hnx) Hc2]. unfold find_my_arbiter. rewrite Ht, Hnx.
  replace (match l2 ++ cur :: l1 with [] => p | p' :: _ => p' end) with (match l2 with [] => cur | p' :: _ => p' end)
    by (by destruct l2).
  apply (find_arbiter_chain _ l2 cur ta l1); [exact Hc2| | |done|done|].
  - by apply NoDup_cons in Hn' as [? _].
  - assert (Hsz : (length (p :: l2 ++ cur :: l1) ≤ size (tasks k))%nat).
    { apply ring_size; [done|]. intros r Hr. exact (chain_lookup _ _ _ _ Hc' Hr). }
    simpl in Hsz. rewrite length_app in Hsz. simpl in Hsz. lia.
  - intros r t' Hr. apply Hno. set_solver.
Qed.
Lemma controls_child k cur l p : group k cur l → p ∈ l → controls cur p k = Ret (true, k).
Proof.
  intros G Hp. destruct (gr_arbiter _ _ _ G) as (ta & Ha & Hia). unfold controls, mbind, st_bind, get_task. rewrite Ha, Hia. cbn [negb].
  unfold gets, lift. rewrite (find_my_arbiter_child _ _ _ _ G Hp). unfold mret, st_ret. by rewrite bool_decide_eq_true_2.
Qed.

(** The members of a group are determined. *)
Lemma group_det k cur l l' : group k cur l → group k cur l' → l = l'.
Proof.
  intros [R _ _] [R' _ _]. apply list_for_each_ring in R, R'. congruence.
Qed.

(** * Changes of address spaces keep groups *)

(** [k'] differs from [k] only in address spaces. *)
Definition same_tasks (k k' : kernel) : Prop :=
  ∀ p, match tasks k !! p, tasks k' !! p with
       | Some t, Some t' => t' = set_mm (mm t') t
       | None, None => True
       | _, _ => False
       end.
#[export] Instance same_tasks_preorder : PreOrder same_tasks.
Proof.
  split.
  - intros k p. destruct (tasks k !! p) as [[]|]; done.
  - intros k1 k2 k3 H1 H2 p. specialize (H1 p). specialize (H2 p).
    destruct (tasks k1 !! p), (tasks k2 !! p), (tasks k3 !! p); try done. rewrite H2, H1. by destruct t.
Qed.
#[export] Instance same_tasks_symmetric : Symmetric same_tasks.
Proof.
  intros k k' H p. specialize (H p). destruct (tasks k !! p) as [[]|], (tasks k' !! p); try done. by rewrite H.
Qed.
Lemma same_tasks_insert k p t m res ph :
  tasks k !! p = Some t → same_tasks k (Kern (<[p := set_mm m t]> (tasks k)) (ab_category_count k) res ph).
Proof.
  intros Ht q. simpl. destruct (decide (p = q)) as [<-|Hne].
  - rewrite lookup_insert_eq, Ht. by destruct t.
  - rewrite lookup_insert_ne by done. destruct (tasks k !! q) as [[]|]; done.
Qed.

Lemma same_tasks_fields k k' p t' :
  same_tasks k k' → tasks k' !! p = Some t' →
  ∃ t, tasks k !! p = Some t ∧ ab_next t = ab_next t' ∧ is_arbiter t = is_arbiter t'.
Proof.
  intros Hs Ht. specialize (Hs p). rewrite Ht in Hs. destruct (tasks k !! p) as [t|]; [|done].
  exists t. split; [done|]. rewrite Hs. by destruct t.
Qed.
Lemma same_tasks_fields' k k' p t :
  same_tasks k k' → tasks k !! p = Some t →
  ∃ t', tasks k' !! p = Some t' ∧ ab_next t' = ab_next t ∧ is_arbiter t' = is_arbiter t.
Proof.
  intros Hs Ht. specialize (Hs p). rewrite Ht in Hs. destruct (tasks k' !! p) as [t'|]; [|done].
  exists t'. split; [done|]. rewrite Hs. by destruct t.
Qed.
Lemma chain_same k k' l q : same_tasks k k' → chain (tasks k) l q → chain (tasks k') l q.
Proof.
  intros Hs. induction l as [|p l IH]; simpl; [done|]. intros [(t & Ht & Ha) Hc]. split; [|auto].
  destruct (same_tasks_fields' _ _ _ _ Hs Ht) as (t' & Ht' & En & _). exists t'. by rewrite En.
Qed.
Lemma group_same k k' cur l : same_tasks k k' → group k cur l → group k' cur l.
Proof.
  intros Hs [[Hn Hc] (ta & Ha & Hia) Hno]. split.
  - split; [done|]. by eapply chain_same.
  - destruct (same_tasks_fields' _ _ _ _ Hs Ha) as (t' & Ht' & _ & Ei). exists t'. by rewrite Ei.
  - intros p t' Hp Ht'. destruct (same_tasks_fields _ _ _ _ Hs Ht') as (t & Ht & _ & <-). by eapply Hno.
Qed.
