(* ===== verification/KernelSpec.v ===== *)
(** The system calls on the whole kernel: which pages of which task a call of
    the arbiter or of a client changes, and to what. *)

From S2P Require Import Prelude Chunk Os Pte Vma VmaSpec Kernel Resources Mprotect Regions Group.

(** The owner and the access of an address in a task *)
Definition kview (k : kernel) (p x : Z) : option (bool * Z) :=
  match tasks k !! p with Some t => view_at (mmap (mm t)) x | None => None end.

Record task_ok (t : task_struct) : Prop := {
  to_wf : wf_mmap (mmap (mm t));
  to_def : def_flags_ok (def_flags (mm t));
  to_pgd : pgd_ok (mm t);
}.
Definition tasks_ok (k : kernel) : Prop := map_Forall (λ _ t, task_ok t) (tasks k).

(** [k'] is [k] with other areas in the address space of [p]. *)
Record remaps (p : Z) (k k' : kernel) : Prop := {
  rm_tasks : same_tasks k k';
  rm_ok : tasks_ok k';
  rm_other q : q ≠ p → tasks k' !! q = tasks k !! q;
  rm_brk t t' : tasks k !! p = Some t → tasks k' !! p = Some t' →
    start_ab_brk (mm t') = start_ab_brk (mm t) ∧ ab_brk (mm t') = ab_brk (mm t);
}.

Lemma remaps_refl p k : tasks_ok k → remaps p k k.
Proof. intros T. split; [reflexivity|done|done|]. intros t t' H1 H2. rewrite H1 in H2. by injection H2 as ->. Qed.
Lemma remaps_view p k k' q x : remaps p k k' → q ≠ p → kview k' q x = kview k q x.
Proof. intros R Hq. unfold kview. by rewrite (rm_other _ _ _ R). Qed.

(** A call on the address space of one task *)
Lemma on_mm_remaps {A} p (m : mmm A) k t a s :
  tasks k !! p = Some t → tasks_ok k → m (Mst (mm t) (k_res k)) = Ret (a, s) →
  same_brk (Mst (mm t) (k_res k)) s → wf_mmap (mmap (m_mm s)) →
  ∃ k', on_mm p m k = Ret (a, k') ∧ remaps p k k' ∧ k_res k' = m_res s ∧
    ∀ x, kview k' p x = view_at (mmap (m_mm s)) x.
Proof.
  intros Ht T E [Hd Hs Hb Hg] W. unfold on_mm. rewrite Ht, E. eexists. split; [done|].
  assert (Hp : ∀ q, <[p:=set_mm (m_mm s) t]> (tasks k) !! q = if decide (p = q) then Some (set_mm (m_mm s) t) else tasks k !! q).
  { intros q. by rewrite lookup_insert. }
  split; [|split; [done|]].
  - split; simpl.
    + by apply same_tasks_insert.
    + apply map_Forall_insert_2; [|done]. destruct (T p t Ht). split; simpl; [done|by rewrite Hd|auto].
    + intros q Hq. by rewrite lookup_insert_ne.
    + intros t1 t2 H1. rewrite lookup_insert_eq. intros [= <-]. assert (t1 = t) as -> by congruence. by simpl.
  - intros x. unfold kview. simpl. by rewrite lookup_insert_eq.
Qed.

Lemma view_of k p t x : tasks k !! p = Some t → kview k p x = view_at (mmap (mm t)) x.
Proof. unfold kview. by intros ->. Qed.

(** * Who may call *)

(** A task that is not an arbiter gets no further than the test at the entry. *)
Lemma controls_common k cur t p : tasks k !! cur = Some t → is_arbiter t = false → controls cur p k = Ret (false, k).
Proof. intros Ht Ha. unfold controls, get_task, mbind, st_bind. by rewrite Ht, Ha. Qed.

Section Calls.
Context (c : kconf) (overcommit_never : bool) (hugetlb_error : Z).

(** The four calls of the arbiter are refused to every other task: a
    client that issues one of them, for whatever task and range, gets EPERM
    (EINVAL from [absys_mmap] without MAP_ANONYMOUS) and the kernel does not
    change. *)
Lemma calls_refused k cur t p a len prot flags pgoff :
  tasks k !! cur = Some t → is_arbiter t = false →
  (∃ r, sys_absys_mmap c overcommit_never hugetlb_error cur p a len prot flags pgoff k = Ret (r, k) ∧
     (r = u32 (- EINVAL) ∨ r = u32 (- EPERM))) ∧
  sys_absys_brk c cur p a k = Ret (u32 (- EPERM), k) ∧
  sys_absys_munmap c cur p a len k = Ret (- EPERM, k) ∧
  sys_absys_mprotect c cur p a len prot k = Ret (- EPERM, k).
Proof.
  intros Ht Ha. pose proof (controls_common _ _ _ p Ht Ha) as E.
  unfold sys_absys_mmap, sys_absys_brk, sys_absys_munmap, sys_absys_mprotect.
  rewrite !(bind_ret _ _ _ _ _ E). split; [|done].
  destruct (flag _ MAP_ANONYMOUS); cbn [negb]; [rewrite (bind_ret _ _ _ _ _ E)|]; eauto.
Qed.

(** * [mprotect] *)

(** A client on its own address space *)
Lemma client_mprotect_spec k cur start len prot :
  tasks_ok k → is_Some (tasks k !! cur) → 0 ≤ start →
  ∃ r k', sys_mprotect c cur start len prot k = Ret (r, k') ∧ remaps cur k k' ∧
    ∀ x, kview k' cur x = kview k cur x ∨
      ∃ w w', kview k cur x = Some (false, w) ∧ kview k' cur x = Some (false, w').
Proof.
  intros T [t Ht] Hs. unfold sys_mprotect.
  rewrite (bind_ret (get_task cur) _ k t k) by (unfold get_task; by rewrite Ht).
  destruct (do_mprotect_frame c is_abt_vma (λ w, w.1 = true)) with (pers := personality t) (start := start) (len := len)
    (prot := prot) (s := Mst (mm t) (k_res k)) as (r & s1 & E & [F W V]).
  { intros v Hv. by rewrite <-not_true_iff_false in Hv. }
  { apply (to_wf _ (T _ _ Ht)). }
  { done. }
  destruct (on_mm_remaps cur _ k t r s1 Ht T E) as (k' & Ek & R & _ & Hv); [by apply remapped_same_brk|done|].
  exists r, k'. split; [done|]. split; [done|]. intros x. rewrite Hv, (view_of _ _ _ _ Ht).
  destruct (V x) as [|(b & w & w' & H1 & H2 & H3)]; [by left|]. right. simpl in H2. destruct b; [done|]. eauto.
Qed.

(** C10: A client that calls [mprotect] on its own address space, with any
    range and any protection bits, changes no page of the arbiter's areas: the
    call returns, other tasks keep their address spaces, and in the caller at
    most pages outside the arbiter's areas get another access; no page appears,
    disappears or changes its owner. *)
Theorem client_mprotect_confined k cur start len prot :
  tasks_ok k → is_Some (tasks k !! cur) → 0 ≤ start →
  ∃ r k', sys_mprotect c cur start len prot k = Ret (r, k') ∧ remaps cur k k' ∧
    ∀ x, kview k' cur x = kview k cur x ∨
      ∃ w w', kview k cur x = Some (false, w) ∧ kview k' cur x = Some (false, w').
Proof. apply client_mprotect_spec. Qed.

(** Every call that the arbiter issues for [p] starts with a test that passes. *)
Lemma controls_task k cur l p :
  group k cur l → p ∈ l → controls cur p k = Ret (true, k) ∧ ∃ t, tasks k !! p = Some t ∧ get_task p k = Ret (t, k).
Proof using Type.
  intros G Hp. split; [by eapply controls_child|]. destruct (group_task _ _ _ _ G Hp) as [t Ht].
  exists t. split; [done|]. unfold get_task. by rewrite Ht.
Qed.

(** The arbiter on an aligned range of a child *)
Lemma absys_mprotect_spec k cur l p start len prot :
  group k cur l → p ∈ l → tasks_ok k →
  0 ≤ start → page_aligned start = true → 0 < len → 0 < PAGE_ALIGN len → start + PAGE_ALIGN len < 2 ^ 32 → 0 ≤ prot < 8 →
  ∃ r k' flags, sys_absys_mprotect c cur p start len prot k = Ret (r, k') ∧ remaps p k k' ∧
    same_access flags prot ∧
    protects (λ _, False) flags start (start + PAGE_ALIGN len) (kview k p) (kview k' p) r ∧
    (k_res k = [] → MAX_AREAS < sysctl_max_map_count c → (∀ v a b, security_file_mprotect c v a b = 0) →
     (∀ x, start ≤ x < start + PAGE_ALIGN len → ∃ w, kview k p x = Some (true, w)) → r = 0).
Proof.
  intros G Hp T Hs Ha Hl Hpl He Hpr. destruct (controls_task _ _ _ _ G Hp) as (Ec & t & Ht & Eg).
  unfold sys_absys_mprotect. rewrite (bind_ret _ _ _ _ _ Ec). cbn [negb]. rewrite (bind_ret _ _ _ _ _ Eg).
  destruct (do_mprotect_exact c (λ _, false) (λ _, False) (λ _ _ H, H) (personality t) start len prot (Mst (mm t) (k_res k)))
    as (r & s1 & flags & E & F & W & _ & Hf & [(-> & _)|(_ & P & Hg)]);
    [apply (to_wf _ (T _ _ Ht))|done|done|lia|done|done|lia|].
  destruct (on_mm_remaps p _ k t r s1 Ht T E) as (k' & Ek & R & _ & Hv); [by apply remapped_same_brk|done|].
  exists r, k', flags. split; [done|]. split; [done|]. split; [done|]. split.
  - eapply protects_ext; [| |exact P]; [intros x; by apply view_of|exact Hv].
  - intros H1 H2 H3 H4. apply Hg; [|done]. split; [done|]. split; [done|]. split; [done|].
    intros x Hx. simpl. rewrite <-(view_of _ _ _ _ Ht). auto.
Qed.

(** C11: [absys_mprotect] on an aligned range of a child in which every mapped
    page is the arbiter's: the call returns and changes the access of pages of
    that range only, in that child only, and only to the requested one (read
    access may imply execution); with the result 0 every page of the range is
    mapped and has it, and stays the arbiter's.  When the kernel has the
    resources, the security module does not object and the range has no hole,
    the result is 0. *)
Theorem absys_mprotect_exact k cur l p start len prot :
  group k cur l → p ∈ l → tasks_ok k →
  0 ≤ start → page_aligned start = true → 0 < len → 0 < PAGE_ALIGN len → start + PAGE_ALIGN len < 2 ^ 32 → 0 ≤ prot < 8 →
  (∀ x b w, start ≤ x < start + PAGE_ALIGN len → kview k p x = Some (b, w) → b = true) →
  ∃ r k' flags, sys_absys_mprotect c cur p start len prot k = Ret (r, k') ∧ remaps p k k' ∧
    same_access flags prot ∧
    (∀ x, ¬ start ≤ x < start + PAGE_ALIGN len → kview k' p x = kview k p x) ∧
    (∀ x, start ≤ x < start + PAGE_ALIGN len →
       kview k' p x = kview k p x ∨ is_Some (kview k p x) ∧ kview k' p x = Some (true, flags)) ∧
    (r = 0 → ∀ x, start ≤ x < start + PAGE_ALIGN len → is_Some (kview k p x) ∧ kview k' p x = Some (true, flags)) ∧
    (k_res k = [] → MAX_AREAS < sysctl_max_map_count c → (∀ v a b, security_file_mprotect c v a b = 0) →
     (∀ x, start ≤ x < start + PAGE_ALIGN len → is_Some (kview k p x)) → r = 0).
Proof.
  intros G Hp T Hs Ha Hl Hpl He Hpr Hown.
  destruct (absys_mprotect_spec k cur l p start len prot G Hp T Hs Ha Hl Hpl He Hpr) as (r & k' & f & E & R & Hf & P & Hr).
  exists r, k', f. do 3 (split; [done|]). split; [apply P|]. split; [|split].
  - intros x Hx. destruct (pt_in _ _ _ _ _ _ _ P x Hx) as [|(b & w & H1 & H2)]; [by left|right].
    rewrite (Hown x b w Hx H1) in H2. by rewrite H1, H2.
  - intros -> x Hx. destruct (pt_all _ _ _ _ _ _ _ P x eq_refl Hx) as (b & w & H1 & H2).
    rewrite (Hown x b w Hx H1) in H2. by rewrite H1, H2.
  - intros H1 H2 H3 H4. apply Hr; try done. intros x Hx. destruct (H4 x Hx) as [[b w] Hw].
    exists w. by rewrite <-(Hown x b w Hx Hw).
Qed.

(** * [brk] *)

(** No area in front of [e] from [a] on: the pages are free. *)
Lemma intersection_free l a e x :
  wf_mmap l → find_vma_intersection l a e = None → a ≤ x < e → view_at l x = None.
Proof using Type.
  unfold find_vma_intersection, wf_mmap. generalize 0. induction l as [|v l IH]; intros lo W; simpl in *; [done|].
  destruct W as (_ & (Hv & _) & W). destruct (Z.ltb_spec a (vm_end v)).
  - destruct (Z.leb_spec e (vm_start v)); [|done]. intros _ Hx. cmps.
  - intros E Hx. rewrite (proj2 (Z.ltb_ge _ _)) by lia. by eapply IH.
Qed.

Lemma brk_check_spec k cur o e ps :
  tasks_ok k → (∀ p, p ∈ ps → is_Some (tasks k !! p)) → cur ∉ ps →
  ∃ b, brk_check cur o e ps k = Ret (b, k) ∧ (b = true → ∀ p x, p ∈ ps → o ≤ x < e → kview k p x = None).
Proof using Type.
  intros T. induction ps as [|p ps IH]; intros Hps Hc; simpl.
  { exists true. split; [done|]. intros _ q x Hq. set_solver. }
  rewrite (proj2 (Z.eqb_neq p cur)) by set_solver. destruct (Hps p ltac:(by left)) as [t Ht].
  rewrite (bind_ret (get_task p) _ k t k) by (unfold get_task; by rewrite Ht).
  destruct (find_vma_intersection (mmap (mm t)) o e) as [v|] eqn:Ev.
  { exists false. by split. }
  destruct IH as (b & Eb & Hb); [set_solver..|]. exists b. split; [done|].
  intros -> q x [->|Hq]%elem_of_cons Hx; [|by apply Hb].
  rewrite (view_of _ _ _ _ Ht). eapply intersection_free; [apply (to_wf _ (T _ _ Ht))|done|done].
Qed.

(** The loop that extends the break area in the tasks [ps] by [[o, o + n)]:
    [b] is whether it got through. *)
Record extends (o n : Z) (ps : list Z) (k : kernel) (b : bool) (k' : kernel) : Prop := {
  ex_tasks : same_tasks k k';
  ex_ok : tasks_ok k';
  ex_other q : q ∉ ps → tasks k' !! q = tasks k !! q;
  ex_out q x : ¬ o ≤ x < o + n → kview k' q x = kview k q x;
  ex_in p x : b = true → p ∈ ps → o ≤ x < o + n → ∃ w, kview k' p x = Some (true, w) ∧ Z.land w 3 = 3;
  ex_size : b = true → ps ≠ [] → o + n ≤ TASK_SIZE ∨ n = 0;
  ex_big q : TASK_SIZE < o + n → tasks k' !! q = tasks k !! q;
}.

Lemma extends_none o n ps k : tasks_ok k → extends o n ps k false k.
Proof using Type. intros T. split; done || reflexivity. Qed.

Lemma extends_stop o n p ps k k1 :
  tasks_ok k → remaps p k k1 → (∀ x, ¬ o ≤ x < o + n → kview k1 p x = kview k p x) →
  (TASK_SIZE < o + n → tasks k1 !! p = tasks k !! p) → extends o n (p :: ps) k false k1.
Proof using Type.
  intros T R Hv Hb. split; try done; try apply R.
  - intros q Hq. apply R. set_solver.
  - intros q x Hx. destruct (decide (q = p)) as [->|]; [by apply Hv|by apply remaps_view with p].
  - intros q Hn. destruct (decide (q = p)) as [->|]; [by apply Hb|by apply R].
Qed.
Lemma extends_step o n p ps k k1 b k' :
  remaps p k k1 → (∀ x, ¬ o ≤ x < o + n → kview k1 p x = kview k p x) → p ∉ ps →
  (∀ x, o ≤ x < o + n → ∃ w, kview k1 p x = Some (true, w) ∧ Z.land w 3 = 3) → o + n ≤ TASK_SIZE ∨ n = 0 →
  (TASK_SIZE < o + n → tasks k1 !! p = tasks k !! p) →
  extends o n ps k1 b k' → extends o n (p :: ps) k b k'.
Proof using Type.
  intros R Hv Hp Hin Hsz Hb X. split; try done; try apply X.
  - etrans; [apply R|apply X].
  - intros q Hq. rewrite (ex_other _ _ _ _ _ _ X) by set_solver. apply R. set_solver.
  - intros q x Hx. rewrite (ex_out _ _ _ _ _ _ X) by done.
    destruct (decide (q = p)) as [->|]; [by apply Hv|by apply remaps_view with p].
  - intros q x Hb' [->|Hq]%elem_of_cons Hx; [|by apply (ex_in _ _ _ _ _ _ X)].
    unfold kview. rewrite (ex_other _ _ _ _ _ _ X) by done. by apply Hin.
  - intros q Hn. rewrite (ex_big _ _ _ _ _ _ X) by done. destruct (decide (q = p)) as [->|]; [by apply Hb|by apply R].
Qed.

Context (Hsec : ∀ a, -4095 ≤ security_file_mmap c a ≤ 0).

Lemma brk_extend_spec cur pers o n ps k :
  tasks_ok k → (∀ p, p ∈ ps → is_Some (tasks k !! p)) → cur ∉ ps → NoDup ps → (PAGESIZE | o) → 0 ≤ o < 2 ^ 32 →
  ∃ b k', brk_extend c cur pers o n ps k = Ret (b, k') ∧ extends o (PAGE_ALIGN (u32 (n - o))) ps k b k'.
Proof using Hsec.
  intros T Hps Hc Hnd Ho Hb. set (len := PAGE_ALIGN (u32 (n - o))). revert k T Hps.
  induction ps as [|p ps IH]; intros k T Hps; simpl.
  { exists true, k. split; [done|]. split; done || set_solver || reflexivity. }
  apply NoDup_cons in Hnd as [Hni Hnd].
  rewrite (proj2 (Z.eqb_neq p cur)) by set_solver. destruct (Hps p ltac:(by left)) as [t Ht].
  rewrite (bind_ret (get_task p) _ k t k) by (unfold get_task; by rewrite Ht).
  destruct (find_vma_intersection _ _ _).
  { exists false, k. split; [done|]. by apply extends_none. }
  destruct (T _ _ Ht) as [W D].
  destruct (brk_links c (Mst (mm t) (k_res k)) pers o (u32 (n - o)) Hsec W D Ho Hb) as (r & s1 & E & L & Hr & Hbig).
  destruct (on_mm_remaps p _ k t r s1 Ht T E (lk_brk _ _ _ _ _ _ L) (lk_wf _ _ _ _ _ _ L)) as (k1 & Ek & R & _ & Hv).
  rewrite (bind_ret _ _ _ _ _ Ek).
  assert (Hout : ∀ x, ¬ o ≤ x < o + len → kview k1 p x = kview k p x).
  { intros x Hx. rewrite Hv, (view_of _ _ _ _ Ht). by apply (lk_out _ _ _ _ _ _ L). }
  assert (Hsame : TASK_SIZE < o + len → tasks k1 !! p = tasks k !! p).
  { intros Hn%Hbig. subst s1. unfold on_mm in Ek. rewrite Ht, E in Ek. injection Ek as <-. simpl.
    rewrite lookup_insert_eq, Ht. by destruct t. }
  destruct (Z.eqb_spec r o) as [->|Hne]; cbn [negb].
  - destruct (IH ltac:(set_solver) Hnd k1) as (b & k' & E' & X); [apply R| |].
    { intros q Hq. rewrite (rm_other _ _ _ R) by set_solver. apply Hps. by right. }
    exists b, k'. split; [done|]. apply extends_step with k1; auto.
    intros x Hx. destruct (brk_flags_spec pers (def_flags (mm t)) D) as (_ & _ & w & Hw & H3).
    exists w. split; [|done]. rewrite Hv, (lk_in _ _ _ _ _ _ L) by done. simpl. by rewrite Hw.
  - exists false, k1. split; [done|]. by apply extends_stop.
Qed.

Lemma free_intersection l a e :
  a < e → (∀ x, a ≤ x < e → view_at l x = None) → wf_mmap l → find_vma_intersection l a e = None.
Proof using Type.
  intros Hae Hx. unfold find_vma_intersection, wf_mmap. generalize 0.
  induction l as [|v l IH]; intros lo W; simpl in *; [done|]. destruct W as (_ & (Hv & _) & W).
  destruct (Z.ltb_spec a (vm_end v)) as [Ha|Ha].
  - destruct (Z.leb_spec e (vm_start v)) as [|He]; [done|]. specialize (Hx (Z.max a (vm_start v)) ltac:(lia)).
    rewrite (proj2 (Z.ltb_lt _ _)), (proj2 (Z.leb_le _ _)) in Hx by lia. done.
  - apply (IH) with (vm_end v); [|done]. intros x Hr. specialize (Hx x Hr). by rewrite (proj2 (Z.ltb_ge _ _)) in Hx by lia.
Qed.

(** Every task of [ps] has room for the extension of the break area from [o]
    to [n], and nothing stands in the way up to the page behind it. *)
Definition brk_rooms (o n : Z) (ps : list Z) (k : kernel) : Prop :=
  k_res k = [] ∧ ∀ p t, p ∈ ps → tasks k !! p = Some t →
    brk_room c (Mst (mm t) []) o (n - o) ∧ ∀ x, o ≤ x < n + PAGESIZE → view_at (mmap (mm t)) x = None.

Lemma brk_extend_ok cur pers o n ps k :
  tasks_ok k → (∀ p, p ∈ ps → is_Some (tasks k !! p)) → cur ∉ ps → NoDup ps → (PAGESIZE | o) → (PAGESIZE | n) →
  0 ≤ o → o < n → n ≤ TASK_SIZE → brk_rooms o n ps k → ∃ k', brk_extend c cur pers o n ps k = Ret (true, k').
Proof using Hsec.
  intros T Hps Hc Hnd Ho Hn H0 Hon Hsz. revert k T Hps.
  induction ps as [|p ps IH]; intros k T Hps [Hres Hroom]; simpl; [by exists k|].
  apply NoDup_cons in Hnd as [Hni Hnd].
  rewrite (proj2 (Z.eqb_neq p cur)) by set_solver. destruct (Hps p ltac:(by left)) as [t Ht].
  rewrite (bind_ret (get_task p) _ k t k) by (unfold get_task; by rewrite Ht).
  destruct (Hroom p t ltac:(by left) Ht) as [Hr Hf]. destruct (T _ _ Ht) as [W D].
  rewrite (u32_small (n + PAGESIZE)), (u32_small (n - o)) by (unfold TASK_SIZE, PAGESIZE in *; lia).
  rewrite (free_intersection (mmap (mm t)) o (n + PAGESIZE) ltac:(unfold PAGESIZE; lia) Hf W).
  assert (Hd : (PAGESIZE | n - o)) by (by apply Z.divide_sub_r).
  destruct (brk_succeeds c (Mst (mm t) []) pers o (n - o)) as (s1 & E); [done..|unfold TASK_SIZE, PAGESIZE in *; lia|done|].
  rewrite <-Hres in E.
  destruct (brk_links c (Mst (mm t) (k_res k)) pers o (n - o) Hsec W D Ho) as (r & s2 & E2 & L & _);
    [unfold TASK_SIZE in *; lia|]. rewrite E in E2. injection E2 as <- <-.
  destruct (on_mm_remaps p _ k t o s1 Ht T E (lk_brk _ _ _ _ _ _ L) (lk_wf _ _ _ _ _ _ L)) as (k1 & Ek & R & _ & _).
  rewrite (bind_ret _ _ _ _ _ Ek), Z.eqb_refl. cbn [negb].
  assert (Hsame : ∀ q, q ∈ ps → tasks k1 !! q = tasks k !! q) by (intros q Hq; apply R; set_solver).
  apply IH; [set_solver|done|apply R|intros q Hq; rewrite Hsame by done; apply Hps; by right|].
  split; [by eapply kquiet_on_mm; [apply quiet_brk|exact Ek|]|].
  intros q t' Hq. rewrite Hsame by done. apply Hroom. by right.
Qed.

(** The break moves from [old] to [r] in the address space of [cur]. *)
Lemma set_brk_spec cur b k t :
  tasks k !! cur = Some t → tasks_ok k →
  ∃ k', set_brk cur b k = Ret (tt, k') ∧ same_tasks k k' ∧ tasks_ok k' ∧ k_res k' = k_res k ∧
    (∃ t', tasks k' !! cur = Some t' ∧ mm t' = set_ab_brks (start_ab_brk (mm t)) b (mm t)) ∧
    ∀ q x, kview k' q x = kview k q x.
Proof using Type.
  intros Ht T. unfold set_brk, upd_task. rewrite Ht. eexists. split; [done|]. split; [|split; [|split; [done|split]]].
  - by apply (same_tasks_insert k cur t _ (k_res k) (k_phys k)).
  - apply map_Forall_insert_2; [|done]. destruct (T _ _ Ht). by split.
  - simpl. rewrite lookup_insert_eq. eauto.
  - intros q x. unfold kview. simpl. destruct (decide (cur = q)) as [<-|]; [by rewrite lookup_insert_eq, Ht|by rewrite lookup_insert_ne].
Qed.

(** The result [r] of a request to move the break from that of [t] to [brk] *)
Record brk_done (k : kernel) (cur : Z) (l : list Z) (t : task_struct) (brk r : Z) (k' : kernel) : Prop := {
  bd_tasks : same_tasks k k';
  bd_ok : tasks_ok k';
  bd_ret : r = brk ∨ r = ab_brk (mm t);
  bd_brk : ∃ t', tasks k' !! cur = Some t' ∧ mm t' = set_ab_brks (start_ab_brk (mm t)) r (mm t);
  bd_out q x : ¬ PAGE_ALIGN (ab_brk (mm t)) ≤ x < PAGE_ALIGN brk → kview k' q x = kview k q x;
  bd_shrink : PAGE_ALIGN brk < PAGE_ALIGN (ab_brk (mm t)) → r = ab_brk (mm t);
  bd_in : PAGE_ALIGN (ab_brk (mm t)) < PAGE_ALIGN brk → r = brk → PAGE_ALIGN brk ≤ TASK_SIZE ∧
    ∀ q x, q ∈ l → PAGE_ALIGN (ab_brk (mm t)) ≤ x < PAGE_ALIGN brk →
      kview k q x = None ∧ ∃ w, kview k' q x = Some (true, w) ∧ Z.land w 3 = 3;
}.

Lemma page_align_fix y : (PAGESIZE | y) → 0 ≤ y < 2 ^ 32 → PAGE_ALIGN y = y.
Proof using Type.
  intros [z ->] Hy. unfold PAGE_ALIGN, PAGESIZE in *. rewrite u32_small by lia.
  change (4096 - 1) with (2 ^ 12 - 1). rewrite land_not32_pow2 by lia. change (2 ^ 12) with 4096.
  replace (z * 4096 + 4096 - 1) with (4095 + z * 4096) by lia. rewrite Z.div_add, (Z.div_small 4095) by lia. lia.
Qed.

(** The range of the loops: nothing is mapped when the break would shrink. *)
Lemma extends_range o n l k b k1 :
  (PAGESIZE | o) → (PAGESIZE | n) → 0 ≤ o ≤ TASK_SIZE → 0 ≤ n < 2 ^ 32 → o ≠ n → l ≠ [] →
  extends o (PAGE_ALIGN (u32 (n - o))) l k b k1 →
  (n < o → b = false ∧ ∀ q, tasks k1 !! q = tasks k !! q) ∧ (o < n → extends o (n - o) l k b k1).
Proof using Type.
  intros Ho Hn Ho0 Hn0 Hne Hl X. pose proof (u32_bound (n - o)). unfold TASK_SIZE in *.
  rewrite page_align_fix in X by (done || by apply u32_divide, Z.divide_sub_r). split; intros Hlt.
  - replace (u32 (n - o)) with (2 ^ 32 + n - o) in X
      by (unfold u32; apply (Z.mod_unique_pos _ _ (-1)); lia). split; [|intros q; apply (ex_big _ _ _ _ _ _ X); unfold TASK_SIZE; lia].
    destruct b; [|done]. exfalso. destruct (ex_size _ _ _ _ _ _ X eq_refl Hl) as [Hs|Hs]; unfold TASK_SIZE in Hs; lia.
  - by rewrite u32_small in X by lia.
Qed.

(** The loops did not get through. *)
Lemma brk_kept k cur l t brk k1 :
  tasks k !! cur = Some t → same_tasks k k1 → tasks_ok k1 → tasks k1 !! cur = tasks k !! cur →
  (∀ q x, ¬ PAGE_ALIGN (ab_brk (mm t)) ≤ x < PAGE_ALIGN brk → kview k1 q x = kview k q x) →
  brk_done k cur l t brk (ab_brk (mm t)) k1.
Proof using Type.
  intros Ht Hs T Hc Hv. split; auto.
  - exists t. split; [congruence|]. by destruct t as [[]].
  - intros Hlt E. rewrite <-E in Hlt. lia.
Qed.
Lemma brk_failed k cur l t brk k1 :
  tasks k !! cur = Some t → cur ∉ l →
  (PAGE_ALIGN brk < PAGE_ALIGN (ab_brk (mm t)) → ∀ q, tasks k1 !! q = tasks k !! q) →
  (PAGE_ALIGN (ab_brk (mm t)) < PAGE_ALIGN brk →
   extends (PAGE_ALIGN (ab_brk (mm t))) (PAGE_ALIGN brk - PAGE_ALIGN (ab_brk (mm t))) l k false k1) →
  same_tasks k k1 → tasks_ok k1 → PAGE_ALIGN (ab_brk (mm t)) ≠ PAGE_ALIGN brk → brk_done k cur l t brk (ab_brk (mm t)) k1.
Proof using Type.
  intros Ht Hc Hd Hu Hs T Hne. destruct (Z.lt_total (PAGE_ALIGN brk) (PAGE_ALIGN (ab_brk (mm t)))) as [Hlt|[|Hlt]]; [|congruence|].
  - apply brk_kept; auto. intros q x _. unfold kview. by rewrite Hd.
  - specialize (Hu Hlt). apply brk_kept; auto; [by apply (ex_other _ _ _ _ _ _ Hu)|].
    intros q x Hx. apply (ex_out _ _ _ _ _ _ Hu). lia.
Qed.

(** The loops got through and the break is set. *)
Lemma brk_grown k cur l t brk k1 k2 :
  tasks k !! cur = Some t → cur ∉ l → l ≠ [] → PAGE_ALIGN (ab_brk (mm t)) < PAGE_ALIGN brk →
  (PAGE_ALIGN brk ≤ TASK_SIZE → ∀ q x, q ∈ l → PAGE_ALIGN (ab_brk (mm t)) ≤ x < PAGE_ALIGN brk → kview k q x = None) →
  extends (PAGE_ALIGN (ab_brk (mm t))) (PAGE_ALIGN brk - PAGE_ALIGN (ab_brk (mm t))) l k true k1 →
  set_brk cur brk k1 = Ret (tt, k2) → brk_done k cur l t brk brk k2.
Proof using Type.
  intros Ht Hc Hl Hlt Hf X E. assert (Ht1 : tasks k1 !! cur = Some t) by (by rewrite (ex_other _ _ _ _ _ _ X)).
  destruct (set_brk_spec cur brk k1 t Ht1 (ex_ok _ _ _ _ _ _ X)) as (k' & E' & S1 & S2 & _ & S3 & S4).
  assert (k' = k2) as -> by congruence.
  assert (Hsz : PAGE_ALIGN brk ≤ TASK_SIZE) by (destruct (ex_size _ _ _ _ _ _ X eq_refl Hl); lia).
  split; auto; [by etrans; [apply X|]| |lia|].
  - intros q x Hx. rewrite S4. apply (ex_out _ _ _ _ _ _ X). lia.
  - intros _ _. split; [done|]. intros q x Hq Hx. split; [auto|]. rewrite S4. apply (ex_in _ _ _ _ _ _ X); done || lia.
Qed.

Lemma brk_check_ok cur o n ps k :
  tasks_ok k → (∀ p, p ∈ ps → is_Some (tasks k !! p)) → cur ∉ ps → o < n → n ≤ TASK_SIZE → 0 ≤ o →
  brk_rooms o n ps k → brk_check cur o (u32 (n + PAGESIZE)) ps k = Ret (true, k).
Proof using Type.
  clear Hsec. intros T Hps Hc Hon Hn Ho [_ Hr]. rewrite (u32_small (n + PAGESIZE)) by (unfold TASK_SIZE, PAGESIZE in *; lia).
  induction ps as [|p ps IH]; simpl; [done|].
  rewrite (proj2 (Z.eqb_neq p cur)) by set_solver. destruct (Hps p ltac:(by left)) as [t Ht].
  rewrite (bind_ret (get_task p) _ k t k) by (unfold get_task; by rewrite Ht).
  rewrite (free_intersection (mmap (mm t)) o (n + PAGESIZE)); [|unfold PAGESIZE; lia| |apply (to_wf _ (T _ _ Ht))].
  - apply IH; [set_solver..|]. intros q t' Hq. apply Hr. by right.
  - apply (Hr p t); [by left|done].
Qed.

(** The two loops and the new break *)
Lemma absys_brk_spec k cur l p t brk :
  group k cur l → p ∈ l → tasks_ok k → tasks k !! cur = Some t →
  0 ≤ brk < 2 ^ 32 → AB_HEAP_START ≤ ab_brk (mm t) ≤ TASK_SIZE →
  ∃ r k', sys_absys_brk c cur p brk k = Ret (r, k') ∧ brk_done k cur l t brk r k' ∧
    (start_ab_brk (mm t) ≤ brk → PAGE_ALIGN brk = PAGE_ALIGN (ab_brk (mm t)) → r = brk) ∧
    (start_ab_brk (mm t) ≤ brk → PAGE_ALIGN (ab_brk (mm t)) < PAGE_ALIGN brk ≤ TASK_SIZE →
     brk_rooms (PAGE_ALIGN (ab_brk (mm t))) (PAGE_ALIGN brk) l k → r = brk).
Proof using Hsec.
  intros G Hp T Ht Hbrk Hab. destruct (controls_task _ _ _ _ G Hp) as (Ec & _).
  assert (Eg : get_task cur k = Ret (t, k)) by (unfold get_task; by rewrite Ht).
  unfold sys_absys_brk. rewrite (bind_ret _ _ _ _ _ Ec). cbn [negb]. rewrite (bind_ret _ _ _ _ _ Eg).
  assert (Hkept : brk_done k cur l t brk (ab_brk (mm t)) k) by (by apply brk_kept).
  destruct (Z.ltb_spec brk (start_ab_brk (mm t))); [exists (ab_brk (mm t)), k; split_and!; [done|done|lia|lia]|].
  set (o := PAGE_ALIGN (ab_brk (mm t))) in *. set (n := PAGE_ALIGN brk) in *.
  destruct (Z.eqb_spec o n) as [Eon|Hon].
  { destruct (set_brk_spec cur brk k t Ht T) as (k' & Ek & S1 & S2 & _ & S3 & S4). rewrite (bind_ret _ _ _ _ _ Ek).
    exists brk, k'. split; [done|]. split; [|done]. split; fold o n; try done; [by left|lia..]. }
  rewrite (bind_ret (gets tasks) _ k (tasks k) k) by done.
  rewrite (bind_ret (lift (list_for_each_entry (tasks k) cur)) _ k l k)
    by (rewrite (list_for_each_ring _ _ _ (gr_ring _ _ _ G)); done).
  pose proof (group_not_cur _ _ _ G) as Hcur. pose proof (λ q, group_task k cur l q G) as Hl.
  assert (Hnd : NoDup l) by (destruct G as [[Hn _] _ _]; by apply NoDup_cons in Hn as [_ ?]).
  destruct (brk_check_spec k cur o (u32 (n + PAGESIZE)) l T Hl Hcur) as (b & Eb & Hb). rewrite (bind_ret _ _ _ _ _ Eb).
  pose proof (page_align_divide (ab_brk (mm t)) : (PAGESIZE | o)) as Ho. pose proof (page_align_divide brk : (PAGESIZE | n)) as Hn.
  pose proof (page_align_word brk : 0 ≤ n < 2 ^ 32) as Hn0.
  assert (Ho0 : 0 ≤ o ≤ TASK_SIZE).
  { split; [apply page_align_word|]. change TASK_SIZE with (PAGE_ALIGN TASK_SIZE). unfold AB_HEAP_START in Hab.
    apply page_align_mono; [lia|]. by vm_compute. }
  destruct b; cbn [negb].
  2:{ exists (ab_brk (mm t)), k. split; [done|]. split; [done|]. split; [congruence|]. intros _ Hr Hrooms.
      rewrite (brk_check_ok cur o n l k) in Eb by (done || lia). done. }
  destruct (brk_extend_spec cur (personality t) o n l k T Hl Hcur Hnd Ho) as (b & k1 & E1 & X); [unfold TASK_SIZE in Ho0; lia|].
  rewrite (bind_ret _ _ _ _ _ E1). assert (Hl0 : l ≠ []) by (intros ->; by apply elem_of_nil in Hp).
  destruct (extends_range o n l k b k1) as [Hdown Hup]; try done.
  destruct b; cbn [negb].
  - assert (Hlt : o < n) by (destruct (Z.lt_ge_cases o n); [done|by destruct (Hdown ltac:(lia))]). specialize (Hup Hlt).
    destruct (set_brk_spec cur brk k1 t) as (k2 & E2 & _); [by rewrite (ex_other _ _ _ _ _ _ Hup)|apply Hup|].
    rewrite (bind_ret _ _ _ _ _ E2). exists brk, k2. split; [done|]. split; [|done].
    apply (brk_grown k cur l t brk k1); try done. intros Hsz q x Hq Hx. apply Hb; [done|done|]. fold o n in Hx, Hsz.
    rewrite u32_small; unfold TASK_SIZE, PAGESIZE in *; lia.
  - exists (ab_brk (mm t)), k1. split; [done|]. split; [|split; [congruence|]].
    + apply brk_failed; try done; [|apply X|apply X]. intros Hlt. by apply Hdown.
    + intros _ Hr Hrooms. destruct (brk_extend_ok cur (personality t) o n l k) as (k2 & E2); try done; try lia. congruence.
Qed.

(** C12: [absys_brk] returns the requested end of the break area or the old
    one, and the arbiter's record of it agrees.  Pages outside the range between
    the old and the requested end, both rounded up to pages, do not change in
    any task.  No page is ever unmapped: a request that ends in a lower page
    than the old break is refused and the old break returned, and one that ends
    in the same page, above or below the old break, just moves the recorded
    break.  When the break grows by pages, they were free in every child and
    are now mapped for the arbiter, readable and writable, in every child; it
    does grow when every child has room. *)
Theorem absys_brk_exact k cur l p t brk :
  group k cur l → p ∈ l → tasks_ok k → tasks k !! cur = Some t →
  0 ≤ brk < 2 ^ 32 → AB_HEAP_START ≤ ab_brk (mm t) ≤ TASK_SIZE →
  ∃ r k', sys_absys_brk c cur p brk k = Ret (r, k') ∧ brk_done k cur l t brk r k' ∧
    (start_ab_brk (mm t) ≤ brk → PAGE_ALIGN brk = PAGE_ALIGN (ab_brk (mm t)) → r = brk) ∧
    (start_ab_brk (mm t) ≤ brk → PAGE_ALIGN (ab_brk (mm t)) < PAGE_ALIGN brk ≤ TASK_SIZE →
     brk_rooms (PAGE_ALIGN (ab_brk (mm t))) (PAGE_ALIGN brk) l k → r = brk).
Proof using Hsec. apply absys_brk_spec. Qed.
End Calls.

(** * Checking concrete kernels *)

Definition flags_okb (f : Z) : bool :=
  (0 <=? f) && (f <? 2 ^ 32) &&
  (negb (Z.testbit f 29) ||
   Z.testbit f 4 && Z.testbit f 5 && Z.testbit f 6 && negb (Z.testbit f 17) && negb (Z.testbit f 22) &&
   negb (Z.testbit f 8)).
Fixpoint segb (lo : Z) (l : list vm_area_struct) (hi : Z) : bool :=
  match l with
  | [] => lo <=? hi
  | v :: l' => (lo <=? vm_start v) && (vm_start v <? vm_end v) && page_aligned (vm_start v) && page_aligned (vm_end v) &&
               flags_okb (vm_flags v) && segb (vm_end v) l' hi
  end.
Definition entry_okb (w : Z) (e : pte_t) : bool :=
  pte_present e && (negb (mmu_allows e false) || negb (w =? 0)) &&
  (negb (mmu_allows e true) || negb (w =? 0) && Z.testbit w 1).
Definition pgd_okb (m : mm_struct) : bool :=
  forallb (λ x, match view_at (mmap m) (x.1 * PAGESIZE) with Some (_, w) => entry_okb w x.2 | None => false end)
    (map_to_list (pgd m)).
Definition task_okb (t : task_struct) : bool :=
  segb 0 (mmap (mm t)) TASK_SIZE && ((def_flags (mm t) =? 0) || (def_flags (mm t) =? VM_LOCKED)) && pgd_okb (mm t).
Definition tasks_okb (k : kernel) : bool := forallb (λ x, task_okb x.2) (map_to_list (tasks k)).
Fixpoint chainb (ts : gmap Z task_struct) (l : list Z) (q : Z) : bool :=
  match l with
  | [] => true
  | p :: l' => match ts !! p with
               | Some t => (ab_next t =? match l' with [] => q | p' :: _ => p' end) && chainb ts l' q
               | None => false
               end
  end.
Definition role_is (b : bool) (k : kernel) (p : Z) : bool :=
  match tasks k !! p with Some t => bool_decide (is_arbiter t = b) | None => false end.
Definition groupb (k : kernel) (cur : Z) (l : list Z) : bool :=
  bool_decide (NoDup (cur :: l)) && chainb (tasks k) (cur :: l) cur && role_is true k cur && forallb (role_is false k) l.

Lemma flags_okb_spec f : flags_okb f = true → flags_ok f.
Proof.
  unfold flags_okb, flags_ok, word. rewrite !andb_true_iff, orb_true_iff, !andb_true_iff, !negb_true_iff, Z.leb_le, Z.ltb_lt.
  intros [H1 [H2|H2]]; (split; [done|]); [congruence|tauto].
Qed.
Lemma segb_spec lo l hi : segb lo l hi = true → seg lo l hi.
Proof.
  revert lo. induction l as [|v l IH]; intros lo; simpl; [by rewrite Z.leb_le|].
  rewrite !andb_true_iff, Z.leb_le, Z.ltb_lt, !aligned_divide.
  intros (((((H1 & H2) & H3) & H4) & H5%flags_okb_spec) & H6%IH). by split_and!.
Qed.
Lemma entry_okb_spec w e : entry_okb w e = true → entry_ok w e.
Proof.
  unfold entry_okb. rewrite !andb_true_iff, !orb_true_iff, andb_true_iff, !negb_true_iff, !Z.eqb_neq.
  intros [[Hp Hr] Hw]. split; [done|]. intros []; intros Hm; rewrite Hm in *; naive_solver.
Qed.
Lemma pgd_okb_spec m : pgd_okb m = true → pgd_ok m.
Proof.
  unfold pgd_okb. rewrite forallb_forall. intros H i e Hi. specialize (H (i, e)).
  rewrite <-list_elem_of_In, elem_of_map_to_list in H. specialize (H Hi). simpl in H.
  destruct (view_at _ _) as [[b w]|]; [|done]. exists b, w. split; [done|by apply entry_okb_spec].
Qed.
Lemma tasks_okb_spec k : tasks_okb k = true → tasks_ok k.
Proof.
  unfold tasks_okb. rewrite forallb_forall. intros H p t Ht. specialize (H (p, t)).
  rewrite <-list_elem_of_In, elem_of_map_to_list in H. specialize (H Ht). simpl in H. unfold task_okb in H.
  rewrite !andb_true_iff, orb_true_iff, !Z.eqb_eq in H. destruct H as [[H1%segb_spec H2] H3%pgd_okb_spec]. by split.
Qed.
Lemma chainb_spec ts l q : chainb ts l q = true → chain ts l q.
Proof.
  induction l as [|p l IH]; simpl; [done|]. destruct (ts !! p) as [t|]; [|done].
  rewrite andb_true_iff, Z.eqb_eq. intros [H1 H2]. split; [by exists t|auto].
Qed.
Lemma groupb_spec k cur l : groupb k cur l = true → group k cur l.
Proof.
  unfold groupb, role_is. rewrite !andb_true_iff, forallb_forall.
  intros [[[H1%bool_decide_eq_true_1 H2%chainb_spec] H3] H4]. split.
  - by split.
  - destruct (tasks k !! cur) as [t|]; [|done]. exists t. split; [done|]. by apply bool_decide_eq_true_1 in H3.
  - intros p t Hp Ht. specialize (H4 p). rewrite <-list_elem_of_In, Ht in H4. by apply H4, bool_decide_eq_true_1 in Hp.
Qed.

(** * A concrete kernel *)

(** An arbiter 1 with the children 100 and 101, which have a system area and
    the first ten pages of the break area. *)
Definition conf0 : kconf := Conf 1000000 1000000 16 0x800000 false 4096 (λ _, 0) (λ _ _ _, 0) (Cache true 0x40000000 0x40000000 0)
  (λ _, false) (λ _, false).
Definition sys_flags : Z := Z.lor VM_READ (Z.lor VM_WRITE (Z.lor VM_MAYREAD VM_MAYWRITE)).
Definition heap_end : Z := AB_HEAP_START + 10 * PAGESIZE.
Definition mm_arbiter : mm_struct := Mm [VmArea 0x8048000 0x804a000 sys_flags 0 0 0 false] 2 0 0 AB_HEAP_START heap_end 0 0 ∅.
Definition mm_child : mm_struct :=
  Mm [VmArea 0x8048000 0x804a000 sys_flags 0 0 0 false;
      VmArea AB_HEAP_START heap_end (brk_flags 0 0) 0x80000 0 0 false] 12 0 0 AB_HEAP_START AB_HEAP_START 0 0 ∅.
Definition k0 : kernel :=
  Kern (<[1 := Task mm_arbiter 101 100 (convert_to_identity 1 1) 0 0 0]>
       (<[101 := Task mm_child 100 1 (convert_to_identity 1 0) 0 100 100]>
       (<[100 := Task mm_child 1 101 (convert_to_identity 1 0) 0 1 100]> ∅))) 1 [] phys0.

Lemma k0_tasks p t : tasks k0 !! p = Some t →
  p = 1 ∧ mm t = mm_arbiter ∧ is_arbiter t = true ∨ (p = 101 ∨ p = 100) ∧ mm t = mm_child ∧ is_arbiter t = false.
Proof.
  unfold k0. simpl. rewrite !lookup_insert_Some, lookup_empty.
  intros [[<- <-]|[_ [[<- <-]|[_ [[<- <-]|[_ ?]]]]]]; [by left|right; auto..|done].
Qed.
Lemma k0_ok : tasks_ok k0.
Proof. apply tasks_okb_spec. by vm_compute. Qed.
Lemma k0_group : group k0 1 [101; 100].
Proof. apply groupb_spec. by vm_compute. Qed.

Lemma calls_refused_witness :
  is_arbiter (default (Task mm_child 0 0 1 0 0 0) (tasks k0 !! 101)) = false ∧
  sys_absys_mprotect conf0 101 100 AB_HEAP_START PAGESIZE 3 k0 = Ret (- EPERM, k0).
Proof.
  split; [by vm_compute|].
  exact (proj2 (proj2 (proj2 (calls_refused conf0 false (- ENOMEM) k0 101 _ 100 AB_HEAP_START PAGESIZE 3 0 0 eq_refl eq_refl)))).
Defined.

(** The client 101 tries to open the break area and closes its own data. *)
Definition denied_call : outcome (Z * kernel) := sys_mprotect conf0 101 AB_HEAP_START PAGESIZE 7 k0.
Lemma client_mprotect_confined_witness :
  (∃ r k', sys_mprotect conf0 101 0x8048000 PAGESIZE 0 k0 = Ret (r, k') ∧ remaps 101 k0 k' ∧
    (kview k' 101 AB_HEAP_START = kview k0 101 AB_HEAP_START ∨
     ∃ w w', kview k0 101 AB_HEAP_START = Some (false, w) ∧ kview k' 101 AB_HEAP_START = Some (false, w'))) ∧
  denied_call = Ret (- EACCES, k0).
Proof.
  split; [|by vm_compute].
  destruct (client_mprotect_confined conf0 k0 101 0x8048000 PAGESIZE 0 k0_ok ltac:(by eexists) ltac:(lia)) as (r & k' & E & R & V).
  exists r, k'. split; [exact E|]. split; [exact R|]. apply V.
Defined.

Lemma k0_heap p x : p = 101 ∨ p = 100 → AB_HEAP_START ≤ x < heap_end → kview k0 p x = Some (view (brk_flags 0 0)).
Proof.
  intros Hp Hx. assert (kview k0 p x = view_at (mmap mm_child) x) as -> by (by destruct Hp as [-> | ->]).
  unfold mm_child. cbn [mmap view_at vm_start vm_end]. unfold AB_HEAP_START, heap_end in *.
  rewrite (proj2 (Z.ltb_ge _ _)), (proj2 (Z.ltb_lt _ _)), (proj2 (Z.leb_le _ _)) by lia. done.
Qed.
Lemma absys_mprotect_exact_witness :
  ∃ k', sys_absys_mprotect conf0 1 101 AB_HEAP_START 0x5000 PROT_READ k0 = Ret (0, k') ∧
    kview k' 101 AB_HEAP_START = Some (true, PROT_READ) ∧ kview k' 101 0x80005000 = Some (true, 3) ∧
    kview k' 100 AB_HEAP_START = Some (true, 3).
Proof.
  assert (Hv0 : ∀ x, AB_HEAP_START ≤ x < AB_HEAP_START + PAGE_ALIGN 0x5000 → kview k0 101 x = Some (true, 3)).
  { intros x Hx. rewrite k0_heap; [by vm_compute|by left|].
    change (PAGE_ALIGN 0x5000) with 0x5000 in Hx. unfold heap_end, PAGESIZE. lia. }
  destruct (absys_mprotect_exact conf0 k0 1 [101; 100] 101 AB_HEAP_START 0x5000 PROT_READ k0_group ltac:(by left) k0_ok
    ltac:(by vm_compute) ltac:(by vm_compute) ltac:(lia) ltac:(by vm_compute) ltac:(by vm_compute) ltac:(by vm_compute))
    as (r & k' & f & E & R & _ & _ & _ & _ & Hr).
  { intros x b w Hx. rewrite Hv0 by done. by intros [= <- _]. }
  assert (r = 0) as ->.
  { apply Hr; [done|by vm_compute|done|]. intros x Hx. rewrite Hv0 by done. by eexists. }
  exists k'. split; [exact E|]. rewrite (remaps_view _ _ _ 100 AB_HEAP_START R) by done.
  assert (Hv : ∀ x, kview k' 101 x = match sys_absys_mprotect conf0 1 101 AB_HEAP_START 0x5000 PROT_READ k0 with
    | Ret (_, k) => kview k 101 x | Fault _ => None end) by (intros x; by rewrite E).
  rewrite !Hv. split_and!; by vm_compute.
Defined.

Lemma k0_rooms : brk_rooms conf0 heap_end (heap_end + 10 * PAGESIZE) [101; 100] k0.
Proof.
  split; [done|]. intros p t Hp [(-> & _)|(_ & E & _)]%k0_tasks; [set_solver|]. rewrite E.
  assert (Hf : ∀ x, heap_end ≤ x → view_at (mmap mm_child) x = None).
  { intros x Hx. unfold mm_child. cbn [mmap view_at vm_start vm_end].
    rewrite !(proj2 (Z.ltb_ge _ _)) by (unfold heap_end, AB_HEAP_START, PAGESIZE in *; lia). done. }
  split; [|intros x Hx; apply Hf; lia].
  replace (heap_end + 10 * PAGESIZE - heap_end) with (10 * PAGESIZE) by lia.
  split; [by split; [|vm_compute]|done|done|by vm_compute|split; by vm_compute|]. intros x Hx. apply Hf. lia.
Qed.
Lemma absys_brk_exact_witness :
  ∃ k', sys_absys_brk conf0 1 100 (heap_end + 10 * PAGESIZE) k0 = Ret (heap_end + 10 * PAGESIZE, k') ∧
    kview k0 101 heap_end = None ∧ ∃ w, kview k' 101 heap_end = Some (true, w) ∧ Z.land w 3 = 3.
Proof.
  destruct (absys_brk_exact conf0 ltac:(intros a; simpl; lia) k0 1 [101; 100] 100 _ (heap_end + 10 * PAGESIZE) k0_group
    ltac:(by right; left) k0_ok eq_refl ltac:(by vm_compute) ltac:(by vm_compute)) as (r & k' & E & D & _ & Hr).
  assert (r = heap_end + 10 * PAGESIZE) as -> by (apply Hr; [by vm_compute|by vm_compute|exact k0_rooms]).
  exists k'. split; [exact E|]. apply (bd_in _ _ _ _ _ _ _ D); [by vm_compute|done|by left|by vm_compute].
Defined.
