(* ===== verification/Fork.v ===== *)
(** Creation of a thread: the parts of [kernel/fork.c] that copy a task and its
    address space, and the entry of the copy into the control group of its
    parent with [absys_thread_control].

    The model covers a [clone] without [CLONE_VM], which is what [ab_fork] and
    [ab_pthread_create] issue; the pid of the copy is an argument. *)

From S2P Require Import Prelude Frame Chunk Os Pte Vma VmaSpec Kernel Resources Mprotect Regions Group KernelSpec.

Definition set_def_flags (f : Z) (m : mm_struct) : mm_struct :=
  Mm (mmap m) (total_vm m) (locked_vm m) f (start_ab_brk m) (ab_brk m) (start_data m) (start_brk m) (pgd m).

(** * Copying page tables *)

Definition is_cow_mapping (flags : Z) : bool :=
  Z.land flags (Z.lor VM_SHARED (Z.lor VM_MAYWRITE VM_AB_CONTROL)) =? VM_MAYWRITE.

(** [copy_one_pte]: the entry of the parent and that of the copy.  [special] is
    whether the parent is a special thread; then pages of global data stay
    shared.  The assertion of that branch that [current] is the owner of the
    parent's address space is left out: without [CLONE_VM], the only case
    modelled, every task is the owner of its own. *)
Definition copy_one_pte (special : bool) (src : mm_struct) (vm_flags addr : Z) (pte : pte_t) : pte_t * pte_t :=
  let pte := if is_cow_mapping vm_flags && negb (special && (start_data src <=? addr) && (addr <? start_brk src))
             then pte_wrprotect pte else pte in
  (pte, pte_mkold (if flag vm_flags VM_SHARED then pte_mkclean pte else pte)).
Definition copy_range (special : bool) (src : mm_struct) (v : vm_area_struct) (old new : pgd_t) : pgd_t * pgd_t :=
  let copy i e := copy_one_pte special src (vm_flags v) (i * PAGESIZE) e in
  (map_imap (λ i e, Some (if decide (in_range (vm_start v) (vm_end v) i) then (copy i e).1 else e)) old,
   map_imap (λ i e, if decide (in_range (vm_start v) (vm_end v) i) then Some (copy i e).2 else None) old ∪ new).

(** [copy_page_range]: [old] and [new] are the tables of the parent and of the
    copy.  The pages of the new table may be refused. *)
Definition copy_page_range (special : bool) (src : mm_struct) (v : vm_area_struct) (old : pgd_t) : mmm (Z * pgd_t) :=
  if negb (flag (vm_flags v) (Z.lor VM_HUGETLB (Z.lor VM_NONLINEAR (Z.lor VM_PFNMAP VM_INSERTPAGE)))) && (anon_vma v =? 0)
  then mret (0, old) else
  ok ← take_resource;
  if negb ok then mret (- ENOMEM, old) else
  m ← gets m_mm;
  let '(old', new') := copy_range special src v old (pgd m) in
  upd_mm (set_pgd new');;
  mret (0, old').

(** The loop of [dup_mmap], on the new address space; the table of the old one
    is threaded through.  Commit accounting and the structure of the area may
    be refused. *)
Fixpoint dup_areas (special : bool) (src : mm_struct) (l : list vm_area_struct) (old : pgd_t) : mmm (Z * pgd_t) :=
  match l with
  | [] => mret (0, old)
  | mpnt :: l' =>
      if flag (vm_flags mpnt) VM_DONTCOPY then
        upd_mm (λ m, set_usage (total_vm m - vma_pages mpnt) (locked_vm m) m);; dup_areas special src l' old
      else
        ok ← (if flag (vm_flags mpnt) VM_ACCOUNT then take_resource else mret true);
        if negb ok then mret (- ENOMEM, old) else
        ok ← take_resource;
        if negb ok then mret (- ENOMEM, old) else
        upd_mm (λ m, set_mmap (mmap m ++ [set_vm_flags (Z.land (vm_flags mpnt) (not32 VM_LOCKED)) mpnt]) m);;
        '(retval, old) ← copy_page_range special src mpnt old;
        if negb (retval =? 0) then mret (retval, old) else dup_areas special src l' old
  end.
Definition dup_mmap (special : bool) (oldmm : mm_struct) : mmm (Z * pgd_t) :=
  upd_mm (λ m, set_mmap [] (set_usage (total_vm m) 0 m));;
  dup_areas special oldmm (mmap oldmm) (pgd oldmm).

(** [dup_mm] with [mm_init]; [false] is the null pointer.  The structure, its
    page directory and its context may be refused. *)
Definition dup_mm (special : bool) (oldmm : mm_struct) : mmm (bool * pgd_t) :=
  ok ← take_resource;
  if negb ok then mret (false, pgd oldmm) else
  upd_mm (λ _, oldmm);;
  ok ← take_resource;
  if negb ok then mret (false, pgd oldmm) else
  upd_mm (λ m, set_pgd ∅ (set_def_flags 0 m));;
  ok ← take_resource;
  if negb ok then mret (false, pgd oldmm) else
  '(err, old) ← dup_mmap special oldmm;
  mret (err =? 0, old).

(** [do_fork] by the task [cur]; the copy gets the pid [q], an empty ring and
    no identity. *)
Definition do_fork (cur q : Z) : km Z :=
  t ← get_task cur;
  k ← get;
  '(ok, old, s) ← lift (dup_mm (is_special t) (mm t) (Mst (mm t) (k_res k)));
  let ts := <[cur := set_mm (set_pgd old (mm t)) t]> (tasks k) in
  if negb ok then put (Kern ts (ab_category_count k) (m_res s) (k_phys k));; mret (- ENOMEM) else
  put (Kern (<[q := Task (m_mm s) q q 0 (personality t) cur (ab_tgleader_mm t)]> ts) (ab_category_count k) (m_res s) (k_phys k));;
  mret q.

(** * The copied address space *)

(** The entries of [g'] are entries of [g] that grant no more, for the same
    frames. *)
Definition weaker_entry (e e' : pte_t) : Prop := pte_pfn e' = pte_pfn e ∧ ∀ w, entry_ok w e → entry_ok w e'.
Definition weaker (g g' : pgd_t) : Prop := ∀ i e', g' !! i = Some e' → ∃ e, g !! i = Some e ∧ weaker_entry e e'.
#[export] Instance weaker_entry_preorder : PreOrder weaker_entry.
Proof. split; [by intros e|]. intros e1 e2 e3 [H1 H2] [H3 H4]. split; [congruence|auto]. Qed.
#[export] Instance weaker_preorder : PreOrder weaker.
Proof.
  split; [intros g i e Hi; by exists e|]. intros g1 g2 g3 H1 H2 i e3 Hi. destruct (H2 i e3 Hi) as (e2 & Hi2 & W2).
  destruct (H1 i e2 Hi2) as (e1 & Hi1 & W1). exists e1. split; [done|by etrans].
Qed.

Lemma copy_one_weaker special src f a e :
  weaker_entry e (copy_one_pte special src f a e).1 ∧ weaker_entry e (copy_one_pte special src f a e).2.
Proof.
  unfold copy_one_pte. destruct (is_cow_mapping f && _), (flag f VM_SHARED); (split; (split; [done|])); intros w He; simpl;
    unfold pte_mkold, pte_mkclean, pte_wrprotect; repeat (apply clear_flags_ok; [tauto|]); done.
Qed.
Lemma copy_range_spec special src v old new :
  weaker old (copy_range special src v old new).1 ∧
  ∀ i e', (copy_range special src v old new).2 !! i = Some e' →
    new !! i = Some e' ∨ in_range (vm_start v) (vm_end v) i ∧ ∃ e, old !! i = Some e ∧ weaker_entry e e'.
Proof.
  unfold copy_range. cbn [fst snd]. split.
  - intros i e'. rewrite map_lookup_imap. destruct (old !! i) as [e|]; [|done]. simpl. intros [= <-]. exists e. split; [done|].
    case_decide; [apply copy_one_weaker|done].
  - intros i e'. rewrite lookup_union_Some_raw, map_lookup_imap. destruct (old !! i) as [e|]; simpl; [|intros [?|[_ ?]]; [done|by left]].
    case_decide as Hr; [|intros [?|[_ ?]]; [done|by left]]. intros [[= <-]|[? _]]; [|done]. right. split; [done|]. exists e.
    split; [done|apply copy_one_weaker].
Qed.

Definition forked (m m' : mm_struct) : Prop :=
  wf_mmap (mmap m') ∧ def_flags m' = 0 ∧ start_ab_brk m' = start_ab_brk m ∧ ab_brk m' = ab_brk m ∧
  (∀ x, view_at (mmap m') x = view_at (mmap m) x ∨ view_at (mmap m') x = None ∧ ∃ w, view_at (mmap m) x = Some (false, w)) ∧
  weaker (pgd m) (pgd m') ∧ (pgd_ok m → pgd_ok m').

(** Two entries for the same frame that let programs do the same *)
Record alike (e e' : pte_t) : Prop := {
  al_pfn : pte_pfn e' = pte_pfn e;
  al_allows write : mmu_allows e' write = mmu_allows e write;
  al_special : pte_special e' = pte_special e;
}.
(** The global data of the parent, as far as it is in page tables that are
    copied, is shared with the copy: the parent has the entries [g] and the copy
    like ones. *)
Record shares_data (m : mm_struct) (g : pgd_t) (m' : mm_struct) : Prop := {
  sh_start : start_data m' = start_data m;
  sh_brk : start_brk m' = start_brk m;
  sh_entry i e v : pgd m !! i = Some e → start_data m ≤ i * PAGESIZE < start_brk m → v ∈ mmap m →
    in_range (vm_start v) (vm_end v) i → flag (vm_flags v) VM_DONTCOPY = false → anon_vma v ≠ 0 →
    g !! i = Some e ∧ ∃ e', pgd m' !! i = Some e' ∧ alike e e';
}.

Lemma unlocked_view f : view (Z.land f (not32 VM_LOCKED)) = view f.
Proof. by apply (without_view f 13). Qed.
Lemma unlocked_ok f : flags_ok f → flags_ok (Z.land f (not32 VM_LOCKED)).
Proof. by apply (without_ok f 13). Qed.

(** The areas that are copied *)
Fixpoint copied (l : list vm_area_struct) : list vm_area_struct :=
  match l with
  | [] => []
  | v :: l' => if flag (vm_flags v) VM_DONTCOPY then copied l'
               else set_vm_flags (Z.land (vm_flags v) (not32 VM_LOCKED)) v :: copied l'
  end.
Lemma copied_seg lo l hi : seg lo l hi → seg lo (copied l) hi.
Proof.
  revert lo. induction l as [|v l IH]; intros lo; simpl; [done|]. intros (H1 & Hv & H3).
  destruct (flag _ _); simpl.
  - eapply seg_weaken; [by apply IH|destruct Hv; lia|done].
  - split; [done|]. split; [|by apply IH]. destruct Hv as (? & ? & ? & ?). split_and!; try done. by apply unlocked_ok.
Qed.
Lemma copied_view lo l hi x :
  seg lo l hi → view_at (copied l) x = view_at l x ∨ view_at (copied l) x = None ∧ ∃ w, view_at l x = Some (false, w).
Proof.
  revert lo. induction l as [|v l IH]; intros lo; simpl; [by left|]. intros (_ & (Hv & _ & _ & _ & Hf) & Hs).
  assert (Hlow : x < vm_end v → view_at (copied l) x = None).
  { intros Hx. apply copied_seg in Hs. destruct (copied l) as [|v' l']; [done|]. simpl in *.
    destruct Hs as (? & (? & _) & _). cmps. }
  destruct (flag (vm_flags v) VM_DONTCOPY) eqn:Ed.
  - destruct (Z.ltb_spec x (vm_end v)) as [Hx|Hx]; [|by eapply IH]. rewrite Hlow by done.
    destruct (vm_start v <=? x); [|by left]. right. split; [done|]. unfold view.
    destruct (flag (vm_flags v) VM_AB_CONTROL) eqn:Ea; [|by eexists].
    change VM_AB_CONTROL with (2 ^ 29) in Ea. change VM_DONTCOPY with (2 ^ 17) in Ed. rewrite flag_bit in Ea, Ed by lia.
    destruct (Hf Ea) as (_ & _ & _ & H17 & _). congruence.
  - simpl. rewrite unlocked_view. destruct (Z.ltb_spec x (vm_end v)); [by left|by eapply IH].
Qed.

Lemma take_spec s :
  ∃ ok s0, take_resource s = Ret (ok, s0) ∧ m_mm s0 = m_mm s ∧ (m_res s = [] → ok = true ∧ m_res s0 = []).
Proof. unfold take_resource. destruct (m_res s) eqn:E; eexists _, _; (split; [done|]; split; [done|]); done. Qed.

(** The pages of a copied area *)
Lemma copied_area lo l hi v x :
  seg lo l hi → v ∈ l → flag (vm_flags v) VM_DONTCOPY = false → vm_start v ≤ x < vm_end v →
  view_at (copied l) x = view_at l x.
Proof.
  revert lo. induction l as [|u l IH]; intros lo; [by intros _ ?%elem_of_nil|]. simpl. intros (_ & (Hu & _) & Hs) Hv Hd Hx.
  apply elem_of_cons in Hv as [->|Hv].
  - rewrite Hd. simpl. by rewrite unlocked_view, (proj2 (Z.ltb_lt x (vm_end u))), (proj2 (Z.leb_le (vm_start u) x)) by lia.
  - pose proof (seg_bounds _ _ _ Hs) as Hb. rewrite Forall_forall in Hb. destruct (Hb v Hv) as (H1 & _).
    rewrite (proj2 (Z.ltb_ge x (vm_end u))) by lia. destruct (flag (vm_flags u) _); [by eapply IH|]. simpl.
    rewrite (proj2 (Z.ltb_ge x (vm_end u))) by lia. by eapply IH.
Qed.

(** The entries of [g'] come from [g], or from [old] for areas that are copied. *)
Definition copied_from (old : pgd_t) (l : list vm_area_struct) (g g' : pgd_t) : Prop :=
  ∀ i e', g' !! i = Some e' → g !! i = Some e' ∨
    (∃ v, v ∈ l ∧ flag (vm_flags v) VM_DONTCOPY = false ∧ in_range (vm_start v) (vm_end v) i) ∧
    ∃ e, old !! i = Some e ∧ weaker_entry e e'.

Record dup_done (l : list vm_area_struct) (old : pgd_t) (s s1 : mst) : Prop := {
  du_mm : m_mm s1 = set_pgd (pgd (m_mm s1)) (set_mmap (mmap (m_mm s) ++ copied l)
            (set_usage (total_vm (m_mm s1)) (locked_vm (m_mm s)) (m_mm s)));
  du_pgd : copied_from old l (pgd (m_mm s)) (pgd (m_mm s1));
}.

Lemma copy_page_range_spec special src v old s :
  ∃ r old' s1, copy_page_range special src v old s = Ret ((r, old'), s1) ∧ weaker old old' ∧
    m_mm s1 = set_pgd (pgd (m_mm s1)) (m_mm s) ∧
    (∀ i e', pgd (m_mm s1) !! i = Some e' → pgd (m_mm s) !! i = Some e' ∨
       in_range (vm_start v) (vm_end v) i ∧ ∃ e, old !! i = Some e ∧ weaker_entry e e') ∧
    (m_res s = [] → r = 0 ∧ m_res s1 = []).
Proof.
  assert (Hid : m_mm s = set_pgd (pgd (m_mm s)) (m_mm s)) by (by destruct s as [[]]).
  unfold copy_page_range. destruct (_ && _).
  { exists 0, old, s. split; [done|]. split; [done|]. split; [done|]. split; [by left|done]. }
  destruct (take_spec s) as (ok & s0 & E0 & M0 & R0). rewrite (bind_ret _ _ _ _ _ E0). destruct ok; cbn [negb].
  2:{ eexists _, old, s0. split; [done|]. split; [done|]. rewrite M0. split; [done|]. split; [by left|]. intros H. by destruct (R0 H). }
  destruct (copy_range_spec special src v old (pgd (m_mm s0))) as [C1 C2].
  unfold mbind at 1, st_bind at 1, gets at 1. destruct (copy_range special src v old (pgd (m_mm s0))) as [old' new'] eqn:E.
  eexists 0, old', _. split; [done|]. simpl. rewrite M0 in *. split; [done|]. split; [done|]. split; [done|].
  intros H. by destruct (R0 H).
Qed.

Lemma dup_areas_spec special src l old s :
  ∃ r old' s1, dup_areas special src l old s = Ret ((r, old'), s1) ∧ weaker old old' ∧ (r = 0 → dup_done l old s s1) ∧
    (m_res s = [] → r = 0).
Proof.
  revert old s. induction l as [|v l IH]; intros old s; simpl.
  { exists 0, old, s. split; [done|]. split; [done|]. split; [|done]. intros _. split; [|by left].
    rewrite app_nil_r. by destruct s as [[]]. }
  destruct (flag (vm_flags v) VM_DONTCOPY) eqn:Ed.
  { set (s0 := set_m_mm (set_usage (total_vm (m_mm s) - vma_pages v) (locked_vm (m_mm s)) (m_mm s)) s).
    destruct (IH old s0) as (r & old' & s1 & E & Hw & H1 & H2). exists r, old', s1. split; [exact E|]. split; [done|]. split; [|exact H2].
    intros H0. destruct (H1 H0) as [B C]. split; [rewrite B; simpl; by rewrite Ed|].
    intros i e' Hi. destruct (C i e' Hi) as [|[(u & Hu & Hr) He]]; [by left|]. right. split; [|done]. exists u. split; [by right|done]. }
  assert (∃ ok s0, (if flag (vm_flags v) VM_ACCOUNT then take_resource else mret true) s = Ret (ok, s0) ∧ m_mm s0 = m_mm s ∧
    (m_res s = [] → ok = true ∧ m_res s0 = [])) as (ok & s0 & E0 & M0 & R0).
  { destruct (flag (vm_flags v) VM_ACCOUNT); [apply take_spec|]. exists true, s. by split. }
  rewrite (bind_ret _ _ _ _ _ E0). destruct ok; cbn [negb].
  2:{ exists (- ENOMEM), old, s0. do 3 (split; [done|]). intros H. by destruct (R0 H). }
  destruct (take_spec s0) as (ok & s1 & E1 & M1 & R1). rewrite (bind_ret _ _ _ _ _ E1). destruct ok; cbn [negb].
  2:{ exists (- ENOMEM), old, s1. do 3 (split; [done|]). intros [_ H%R1]%R0. by destruct H. }
  set (s2 := set_m_mm (set_mmap (mmap (m_mm s1) ++ [set_vm_flags (Z.land (vm_flags v) (not32 VM_LOCKED)) v]) (m_mm s1)) s1).
  rewrite (bind_ret _ _ _ tt s2) by done.
  destruct (copy_page_range_spec special src v old s2) as (r & old1 & s3 & E3 & Hw & M3 & C3 & R3).
  rewrite (bind_ret _ _ _ _ _ E3). destruct (Z.eqb_spec r 0) as [->|Hr]; cbn [negb].
  2:{ exists r, old1, s3. do 3 (split; [done|]). intros [_ [_ H%R3]%R1]%R0. by destruct H. }
  destruct (IH old1 s3) as (r & old' & s4 & E4 & Hw4 & H1 & H2). exists r, old', s4. split; [exact E4|]. split; [by etrans|].
  split; [|intros H; apply H2; by destruct (R3 (proj2 (R1 (proj2 (R0 H)))))].
  intros H0. destruct (H1 H0) as [B C]. split.
  - rewrite B, M3. simpl. rewrite M1, M0, Ed. simpl. by rewrite <-app_assoc.
  - intros i e' Hi. destruct (C i e' Hi) as [Hi3|[(u & Hu & Hur) (e & Hold & He)]].
    + destruct (C3 i e' Hi3) as [Hi2|[Hr He]]; [left; simpl in Hi2; by rewrite M1, M0 in Hi2|]. right. split; [|done].
      exists v. split; [by left|done].
    + right. split; [exists u; split; [by right|done]|]. destruct (Hw i e Hold) as (e0 & H3 & H4). exists e0. split; [done|by etrans].
Qed.

(** The pages of the global data of a special thread *)
Lemma clear_alike b e : b = _PAGE_DIRTY ∨ b = _PAGE_ACCESSED → alike e (pte_clear_flags b e).
Proof.
  intros Hb. split; [done| |].
  - intros write. rewrite !mmu_allows_bits. cbn [pte_flags pte_clear_flags]. rewrite !Z.land_spec. by destruct Hb as [-> | ->]; rewrite !andb_true_r.
  - unfold pte_special. change _PAGE_SPECIAL with (2 ^ 9). rewrite !pte_is_bit by lia. cbn [pte_flags pte_clear_flags]. rewrite Z.land_spec.
    by destruct Hb as [-> | ->]; rewrite andb_true_r.
Qed.
#[export] Instance alike_preorder : PreOrder alike.
Proof. split; [by intros e|]. intros e1 e2 e3 [A1 B1 C1] [A2 B2 C2]. split; [congruence|intros w; by rewrite B2|congruence]. Qed.

Lemma copy_one_data src f i e :
  start_data src ≤ i * PAGESIZE < start_brk src →
  (copy_one_pte true src f (i * PAGESIZE) e).1 = e ∧ alike e (copy_one_pte true src f (i * PAGESIZE) e).2.
Proof.
  intros Hi. unfold copy_one_pte. rewrite (proj2 (Z.leb_le _ _)), (proj2 (Z.ltb_lt _ _)) by lia. rewrite andb_false_r. cbn [fst snd].
  split; [done|]. destruct (flag f VM_SHARED); [etrans; [apply (clear_alike _PAGE_DIRTY); auto|]|]; apply clear_alike; auto.
Qed.
Lemma copy_range_data src v old new i e :
  start_data src ≤ i * PAGESIZE < start_brk src → old !! i = Some e →
  (copy_range true src v old new).1 !! i = Some e ∧
  if decide (in_range (vm_start v) (vm_end v) i) then ∃ e', (copy_range true src v old new).2 !! i = Some e' ∧ alike e e'
  else (copy_range true src v old new).2 !! i = new !! i.
Proof.
  intros Hi He. destruct (copy_one_data src (vm_flags v) i e Hi) as [C1 C2]. unfold copy_range. cbn [fst snd].
  rewrite lookup_union, !map_lookup_imap, He. cbn [mbind option_bind]. rewrite C1. case_decide; (split; [done|]); [|by destruct (new !! i)].
  eexists. split; [by rewrite union_Some_l|done].
Qed.

(** A page of the data of the parent, through the loop of [dup_mmap] *)
Lemma dup_areas_data src l lo hi old s old' s1 i e :
  dup_areas true src l old s = Ret ((0, old'), s1) → seg lo l hi → start_data src ≤ i * PAGESIZE < start_brk src → old !! i = Some e →
  old' !! i = Some e ∧
  ((i * PAGESIZE < lo) → pgd (m_mm s1) !! i = pgd (m_mm s) !! i) ∧
  ((∃ v, v ∈ l ∧ in_range (vm_start v) (vm_end v) i ∧ flag (vm_flags v) VM_DONTCOPY = false ∧ anon_vma v ≠ 0) →
   ∃ e', pgd (m_mm s1) !! i = Some e' ∧ alike e e').
Proof.
  intros E Hs Hi. revert lo old s E Hs. induction l as [|v l IH]; intros lo old s E Hs He; simpl in *.
  { injection E as <- <-. split; [done|]. split; [done|]. intros (v & Hv & _). by apply elem_of_nil in Hv. }
  destruct Hs as (H1 & (H2 & _) & Hs).
  assert (Hlater : ∀ u, u ∈ l → in_range (vm_start u) (vm_end u) i → ¬ i * PAGESIZE < vm_end v).
  { intros u Hu Hr. pose proof (seg_bounds _ _ _ Hs) as Hb. rewrite Forall_forall in Hb. destruct (Hb u Hu). unfold in_range in Hr. lia. }
  destruct (flag (vm_flags v) VM_DONTCOPY) eqn:Ed.
  { bstep E as u0 s0 E0. apply modify_inv in E0 as ->. destruct (IH (vm_end v) _ _ E Hs He) as (A & B & C). split; [done|].
    split; [intros Hlt; rewrite B by lia; done|]. intros (u & [->|Hu]%elem_of_cons & Hr & Hd & Ha); [congruence|]. apply C. eauto. }
  bstep E as ok0 s2 E2. assert (M2 : m_mm s2 = m_mm s).
  { destruct (flag (vm_flags v) VM_ACCOUNT); [|by injection E2 as _ <-].
    destruct (take_spec s) as (ok & s' & Et & Hm & _). rewrite Et in E2. by injection E2 as _ <-. }
  destruct ok0; cbn [negb] in E; [|done]. bstep E as ok0 s3 E3.
  destruct (take_spec s2) as (ok & s' & Et & M3 & _). rewrite Et in E3. injection E3 as -> ->.
  destruct ok0; cbn [negb] in E; [|done]. bstep E as u0 s4 E4. apply modify_inv in E4 as ->.
  bstep E as rr s5 E5. destruct rr as [rv old1]. destruct (Z.eqb_spec rv 0) as [->|Hrv]; cbn [negb] in E; [|by injection E].
  assert (Hcp : old1 !! i = Some e ∧ (¬ in_range (vm_start v) (vm_end v) i → pgd (m_mm s5) !! i = pgd (m_mm s) !! i) ∧
    (in_range (vm_start v) (vm_end v) i → anon_vma v ≠ 0 → ∃ e', pgd (m_mm s5) !! i = Some e' ∧ alike e e')).
  { assert (Hpg : pgd (m_mm s) = pgd (m_mm s3)) by (by rewrite M3, M2). rewrite Hpg.
    unfold copy_page_range in E5. destruct (_ && (anon_vma v =? 0)) eqn:Ea.
    { injection E5 as <- <-. split; [done|]. split; [done|]. intros _ Hne. apply andb_true_iff in Ea as [_ Ea%Z.eqb_eq]. done. }
    bstep E5 as ok0 s6 E6. match type of E6 with take_resource ?x = _ => destruct (take_spec x) as (ok2 & s7 & Et2 & M6 & _) end.
    rewrite Et2 in E6. injection E6 as -> ->. destruct ok0; cbn [negb] in E5; [|done].
    bstep E5 as m s8 E8. apply gets_inv in E8 as [-> ->]. replace (pgd (m_mm s6)) with (pgd (m_mm s3)) in E5 by (by rewrite M6).
    destruct (copy_range_data src v old (pgd (m_mm s3)) i e Hi He) as [D1 D2].
    destruct (copy_range true src v old (pgd (m_mm s3))) as [o n] eqn:Ecr.
    bstep E5 as u1 s9 E9. apply modify_inv in E9 as ->.
    injection E5 as <- <-. cbn [fst snd] in D1, D2. split; [exact D1|]. simpl. case_decide as Hr; [|by split]. split; [done|]. intros _ _. done. }
  destruct Hcp as (Ho1 & Hout & Hin). destruct (IH (vm_end v) _ _ E Hs Ho1) as (A & B & C). split; [done|]. split.
  - intros Hlt. rewrite B by lia. apply Hout. unfold in_range. lia.
  - intros (u & [->|Hu]%elem_of_cons & Hr & Hd & Ha); [|apply C; eauto]. destruct (Hin Hr Ha) as (e' & He' & Hal). exists e'.
    split; [|done]. rewrite B; [done|]. unfold in_range in Hr. lia.
Qed.

Lemma quiet_dup_mm special m : quiet (dup_mm special m).
Proof.
  assert (Hc : ∀ src v old, quiet (copy_page_range special src v old)) by (intros; unfold copy_page_range; quiet).
  assert (Ha : ∀ src l old, quiet (dup_areas special src l old))
    by (intros src l; induction l; intros old; simpl; quiet; done || apply Hc).
  unfold dup_mm, dup_mmap. quiet; done || apply Ha.
Qed.

(** The copy made of all areas *)
Lemma dup_forked m s s1 :
  wf_mmap (mmap m) → m_mm s = set_pgd ∅ (set_mmap [] (set_usage (total_vm m) 0 (set_def_flags 0 m))) →
  dup_done (mmap m) (pgd m) s s1 → forked m (m_mm s1).
Proof.
  intros W Es [B C]. rewrite Es in B, C. cbn in B, C.
  assert (Hmm : mmap (m_mm s1) = copied (mmap m)) by (by rewrite B).
  assert (Hfrom : ∀ i e', pgd (m_mm s1) !! i = Some e' → (∃ v, v ∈ mmap m ∧ flag (vm_flags v) VM_DONTCOPY = false ∧
     in_range (vm_start v) (vm_end v) i) ∧ ∃ e, pgd m !! i = Some e ∧ weaker_entry e e').
  { intros i e' Hi. destruct (C i e' Hi) as [H|H]; [by rewrite lookup_empty in H|done]. }
  split; [rewrite Hmm; by apply copied_seg|]. split; [by rewrite B|]. split; [by rewrite B|]. split; [by rewrite B|].
  split; [intros x; rewrite Hmm; by eapply copied_view|]. split; [intros i e' Hi; by apply Hfrom|].
  intros Hok i e' Hi. destruct (Hfrom i e' Hi) as [(v & Hv & Hd & Hr) (e & He & Hw)].
  destruct (Hok i e He) as (b & w & Hx & Hent). exists b, w. split; [|by apply Hw].
  by rewrite Hmm, (copied_area 0 _ TASK_SIZE v).
Qed.

Lemma dup_mm_spec special m res :
  wf_mmap (mmap m) →
  ∃ ok old s1, dup_mm special m (Mst m res) = Ret ((ok, old), s1) ∧ weaker (pgd m) old ∧
    (ok = true → forked m (m_mm s1) ∧ (special = true → shares_data m old (m_mm s1))) ∧ (res = [] → ok = true).
Proof.
  intros W. unfold dup_mm. destruct (take_spec (Mst m res)) as (ok & s0 & E0 & _ & R0). rewrite (bind_ret _ _ _ _ _ E0).
  destruct ok; cbn [negb]; [|exists false, (pgd m), s0; do 3 (split; [done|]); intros H; by destruct (R0 H)].
  rewrite (bind_ret _ _ _ tt (set_m_mm m s0)) by done.
  destruct (take_spec (set_m_mm m s0)) as (ok & s1 & E1 & M1 & R1). rewrite (bind_ret _ _ _ _ _ E1).
  destruct ok; cbn [negb]; [|exists false, (pgd m), s1; do 3 (split; [done|]); intros [_ H%R1]%R0; by destruct H].
  set (s1' := set_m_mm (set_pgd ∅ (set_def_flags 0 (m_mm s1))) s1). rewrite (bind_ret _ _ _ tt s1') by done.
  destruct (take_spec s1') as (ok & s2 & E2 & M2 & R2). rewrite (bind_ret _ _ _ _ _ E2).
  destruct ok; cbn [negb]; [|exists false, (pgd m), s2; do 3 (split; [done|]); intros [_ [_ H%R2]%R1]%R0; by destruct H].
  unfold dup_mmap. set (s3 := set_m_mm (set_mmap [] (set_usage (total_vm (m_mm s2)) 0 (m_mm s2))) s2).
  destruct (dup_areas_spec special m (mmap m) (pgd m) s3) as (r & old & s4 & E4 & Hw & H1 & H2).
  exists (r =? 0), old, s4. split; [unfold mbind at 1 2, st_bind at 1 2, upd_mm, modify; fold s3; by rewrite E4|]. split; [done|]. split.
  - intros H0%Z.eqb_eq. assert (M3 : m_mm s3 = set_pgd ∅ (set_mmap [] (set_usage (total_vm m) 0 (set_def_flags 0 m)))).
    { simpl. rewrite M2. simpl. by rewrite M1. }
    split; [by apply (dup_forked m s3); [..|apply H1]|]. intros ->. rewrite H0 in E4. pose proof (du_mm _ _ _ _ (H1 H0)) as B.
    rewrite M3 in B. split; [by rewrite B|by rewrite B|]. intros i e v He Hi Hv Hr Hd Ha.
    destruct (dup_areas_data m (mmap m) 0 TASK_SIZE (pgd m) s3 old s4 i e E4 W Hi He) as (A1 & _ & A3). eauto 10.
  - intros H. apply Z.eqb_eq, H2. simpl. apply R2. by apply R1, R0.
Qed.

(** The parent may lose write access to pages that are now shared. *)
Lemma weaker_remaps k p t g ph :
  tasks k !! p = Some t → tasks_ok k → weaker (pgd (mm t)) g →
  let kp := Kern (<[p := set_mm (set_pgd g (mm t)) t]> (tasks k)) (ab_category_count k) (k_res k) ph in
  remaps p k kp ∧ ∀ q x, kview kp q x = kview k q x.
Proof.
  intros Ht T Hw kp. split.
  - split; [by apply same_tasks_insert| | |].
    + apply map_Forall_insert_2; [|done]. destruct (T _ _ Ht) as [W D G]. split; simpl; [done|done|].
      intros i e' Hi. destruct (Hw i e' Hi) as (e & He & Hwe). destruct (G i e He) as (b & w & Hx & Hent).
      exists b, w. split; [done|by apply Hwe].
    + intros q Hq. simpl. by rewrite lookup_insert_ne.
    + intros t1 t2 H1 H2. simpl in H2. rewrite lookup_insert_eq in H2. injection H2 as <-. assert (t1 = t) as -> by congruence. done.
  - intros q x. unfold kview. simpl. destruct (decide (p = q)) as [<-|]; [by rewrite lookup_insert_eq, Ht|by rewrite lookup_insert_ne].
Qed.

Lemma do_fork_spec k p t q :
  tasks k !! p = Some t → tasks_ok k →
  ∃ r k1 g, do_fork p q k = Ret (r, k1) ∧ weaker (pgd (mm t)) g ∧
    let kp := Kern (<[p := set_mm (set_pgd g (mm t)) t]> (tasks k)) (ab_category_count k) (k_res k) (k_phys k) in
    ab_category_count k1 = ab_category_count k ∧ k_phys k1 = k_phys k ∧ (k_res k = [] → r = q ∧ k_res k1 = []) ∧
    (r = - ENOMEM ∧ tasks k1 = tasks kp ∨
     r = q ∧ ∃ m, forked (mm t) m ∧ (is_special t = true → shares_data (mm t) g m) ∧ tasks k1 = <[q := Task m q q 0 (personality t) p (ab_tgleader_mm t)]> (tasks kp)).
Proof.
  intros Ht T. unfold do_fork. rewrite (bind_ret (get_task p) _ k t k) by (unfold get_task; by rewrite Ht).
  rewrite (bind_ret get _ k k k) by done.
  destruct (dup_mm_spec (is_special t) (mm t) (k_res k) (to_wf _ (T _ _ Ht))) as (ok & old & s & E & Hw & F & R).
  assert (Q := quiet_dup_mm (is_special t) (mm t) _ _ _ E). simpl in Q.
  rewrite (bind_ret (lift _) _ k (ok, old, s) k) by (unfold lift; by rewrite E).
  destruct ok; cbn [negb]; eexists _, _, old; (split; [reflexivity|]); (split; [done|]); (split; [done|]); (split; [done|]).
  - split; [auto|]. right. split; [done|]. eexists. split; [by apply F|]. split; [by apply F|done].
  - split; [intros H; by apply R in H|]. by left.
Qed.

(** * Entering the ring *)

Definition next_of (ts : gmap Z task_struct) (p : Z) : option Z := ab_next <$> ts !! p.

Lemma chain_next ts p l q :
  chain ts (p :: l) q ↔ next_of ts p = Some (match l with [] => q | p' :: _ => p' end) ∧ chain ts l q.
Proof.
  simpl. unfold next_of. rewrite fmap_Some. split; intros [(t & H1 & H2) H3]; (split; [|done]); eauto.
Qed.
Lemma chain_ext ts ts' l q : (∀ r, r ∈ l → next_of ts' r = next_of ts r) → chain ts l q → chain ts' l q.
Proof.
  induction l as [|p l IH]; [done|]. intros Hn. rewrite !chain_next. intros [H1 H2].
  split; [rewrite Hn by (by left); done|]. apply IH; [|done]. intros r Hr. apply Hn. by right.
Qed.
Lemma chain_next_in ts l q r t : chain ts l q → r ∈ l → ts !! r = Some t → ab_next t ∈ l ∨ ab_next t = q.
Proof.
  induction l as [|p l IH]; [set_solver|]. simpl. intros [(tp & Hp & En) Hc] [->|Hr]%elem_of_cons Ht.
  - assert (tp = t) as -> by congruence. rewrite En. destruct l; [by right|left; by right; left].
  - destruct (IH Hc Hr Ht); [left; by right|by right].
Qed.
(** [q] is linked in behind [p]. *)
Lemma chain_insert ts ts' pre p post q z :
  chain ts (pre ++ p :: post) z → NoDup (pre ++ p :: post) → q ∉ pre ++ p :: post →
  (∀ r, r ≠ p → r ≠ q → next_of ts' r = next_of ts r) → next_of ts' p = Some q → next_of ts' q = next_of ts p →
  chain ts' (pre ++ p :: q :: post) z.
Proof.
  intros Hc Hn Hq Ho Hp Hnq. apply chain_app in Hc as [Hc1 Hc2]. apply chain_next in Hc2 as [Hp0 Hc2].
  apply NoDup_app in Hn as (_ & Hn1 & Hn2). apply NoDup_cons in Hn2 as [Hn2 _].
  apply chain_app. split.
  - eapply chain_ext; [|exact Hc1]. intros r Hr. apply Ho; [intros ->; apply (Hn1 p Hr); by left|set_solver].
  - apply chain_next. split; [done|]. apply chain_next. split; [congruence|].
    eapply chain_ext; [|exact Hc2]. intros r Hr. apply Ho; set_solver.
Qed.

(** [k'] differs from [k] in the links only. *)
Definition relinked (k k' : kernel) : Prop :=
  ab_category_count k' = ab_category_count k ∧ k_res k' = k_res k ∧ k_phys k' = k_phys k ∧
  ∀ r, set_ab_next 0 ∘ set_ab_prev 0 <$> tasks k' !! r = set_ab_next 0 ∘ set_ab_prev 0 <$> tasks k !! r.

Lemma upd_task_spec p f k t :
  tasks k !! p = Some t → upd_task p f k = Ret (tt, set_tasks (<[p := f t]> (tasks k)) k).
Proof. intros Ht. unfold upd_task. by rewrite Ht. Qed.
#[export] Instance relinked_preorder : PreOrder relinked.
Proof.
  split; [by intros k|]. intros k1 k2 k3 (H1 & H2 & H3 & H4) (H5 & H6 & H7 & H8).
  do 3 (split; [congruence|]). intros r. by rewrite H8, H4.
Qed.
Lemma relinked_insert k p t t' :
  tasks k !! p = Some t → set_ab_next 0 (set_ab_prev 0 t') = set_ab_next 0 (set_ab_prev 0 t) →
  relinked k (set_tasks (<[p := t']> (tasks k)) k).
Proof.
  intros Ht E. do 3 (split; [done|]). intros r. simpl.
  destruct (decide (p = r)) as [<-|]; [rewrite lookup_insert_eq, Ht; simpl; by rewrite E|by rewrite lookup_insert_ne].
Qed.

Lemma list_add_spec k q p tp tq :
  tasks k !! p = Some tp → tasks k !! q = Some tq → is_Some (tasks k !! ab_next tp) → q ≠ p →
  ∃ k', list_add q p k = Ret (tt, k') ∧ relinked k k' ∧ next_of (tasks k') p = Some q ∧
    next_of (tasks k') q = next_of (tasks k) p ∧ ∀ r, r ≠ p → r ≠ q → next_of (tasks k') r = next_of (tasks k) r.
Proof.
  intros Hp Hq [tn Hn] Hne. unfold list_add.
  rewrite (bind_ret (get_task p) _ k tp k) by (unfold get_task; by rewrite Hp).
  set (n := ab_next tp) in *. rewrite (bind_ret _ _ _ _ _ (upd_task_spec n (set_ab_prev q) k tn Hn)).
  set (k1 := set_tasks _ k). assert (R1 : relinked k k1) by (eapply relinked_insert; [done|by destruct tn]).
  assert (N1 : ∀ r, next_of (tasks k1) r = next_of (tasks k) r).
  { intros r. unfold next_of. simpl. destruct (decide (n = r)) as [<-|]; [by rewrite lookup_insert_eq, Hn|by rewrite lookup_insert_ne]. }
  assert (∃ tq1, tasks k1 !! q = Some tq1) as [tq1 Hq1].
  { simpl. destruct (decide (n = q)) as [<-|]; [rewrite lookup_insert_eq; eauto|rewrite lookup_insert_ne by done; eauto]. }
  rewrite (bind_ret _ _ _ _ _ (upd_task_spec q (λ t, set_ab_prev p (set_ab_next n t)) k1 tq1 Hq1)).
  set (k2 := set_tasks _ k1). assert (R2 : relinked k1 k2) by (eapply relinked_insert; [done|by destruct tq1]).
  assert (∃ tp2, tasks k2 !! p = Some tp2) as [tp2 Hp2].
  { cbn [k2 tasks set_tasks]. rewrite lookup_insert_ne by done. specialize (N1 p). unfold next_of in N1. rewrite Hp in N1.
    destruct (tasks k1 !! p) as [x|]; [by exists x|done]. }
  rewrite (upd_task_spec p (set_ab_next q) k2 tp2 Hp2).
  set (k3 := set_tasks _ k2). assert (R3 : relinked k2 k3) by (eapply relinked_insert; [done|by destruct tp2]).
  exists k3. split; [done|]. split; [by etrans; [exact R1|etrans; [exact R2|exact R3]]|].
  assert (N3 : ∀ r, next_of (tasks k3) r = if decide (r = p) then Some q else if decide (r = q) then Some n else next_of (tasks k) r).
  { intros r. rewrite <-N1. unfold next_of, k3, k2. cbn [tasks set_tasks]. case_decide as H1; [subst; by rewrite lookup_insert_eq|].
    rewrite lookup_insert_ne by done. case_decide as H2; [subst; by rewrite lookup_insert_eq|]. by rewrite lookup_insert_ne. }
  split; [by rewrite N3, decide_True|]. split.
  - rewrite N3, decide_False, decide_True by done. unfold next_of. by rewrite Hp.
  - intros r H1 H2. by rewrite N3, !decide_False.
Qed.

(** What a task keeps when another one enters the group *)
Definition keeps_task (t t' : task_struct) : Prop :=
  mm t' = mm t ∧ ab_identity t' = ab_identity t ∧ ab_tgleader_mm t' = ab_tgleader_mm t.
Lemma relinked_task k k' r t :
  relinked k k' → tasks k !! r = Some t →
  ∃ t', tasks k' !! r = Some t' ∧ keeps_task t t' ∧ parent t' = parent t.
Proof.
  intros (_ & _ & _ & H) Ht. specialize (H r). rewrite Ht in H. destruct (tasks k' !! r) as [t'|]; [|done].
  exists t'. split; [done|]. unfold keeps_task. injection H. auto.
Qed.

(** Roles and categories of identities *)
Lemma identity_role cat role : 0 ≤ role < 2 → Z.land (convert_to_identity cat role) AB_ROLE_MASK = role.
Proof.
  intros Hr. unfold AB_ROLE_MASK. change 1 with (Z.ones 1). rewrite Z.land_ones by lia. change (2 ^ 1) with 2.
  assert (Hs : ∀ z, s32 z `mod` 2 = z `mod` 2).
  { intros z. unfold s32, u32. assert (E : (z `mod` 2 ^ 32) `mod` 2 = z `mod` 2).
    { symmetry. apply Znumtheory.Zmod_div_mod; [lia|lia|]. by exists (2 ^ 31). }
    destruct (_ <? _); [done|]. change (2 ^ 32) with (2 ^ 31 * 2) at 2. by rewrite <-Zminus_mod_idemp_r, Z.mod_mul, Z.sub_0_r by lia. }
  unfold convert_to_identity. rewrite Hs. change 2 with (2 ^ 1). rewrite <-Z.land_ones by lia.
  rewrite Z.land_lor_distr_l. unfold AB_CATEGORY_SHIFT.
  rewrite (Z.land_ones (Z.shiftl cat 1)), Z.shiftl_mul_pow2, Z.mod_mul, Z.lor_0_l by lia.
  rewrite Z.land_ones by lia. by apply Z.mod_small.
Qed.

Record joined (q : Z) (tq : task_struct) (k k' : kernel) : Prop := {
  jo_other r t : r ≠ q → tasks k !! r = Some t → ∃ t', tasks k' !! r = Some t' ∧ keeps_task t t';
  jo_none r : tasks k !! r = None → tasks k' !! r = None;
  jo_self : ∃ t', tasks k' !! q = Some t' ∧ mm t' = mm tq ∧ is_arbiter t' = false;
  jo_res : k_res k' = k_res k;
  jo_phys : k_phys k' = k_phys k;
}.

(** The new member has the category of its parent and waits on the global data
    of the thread that the arbiter created. *)
Definition entered (k' : kernel) (q : Z) (tp : task_struct) : Prop :=
  ∃ t', tasks k' !! q = Some t' ∧ ab_identity t' = convert_to_identity (get_category tp) 0 ∧
    ab_tgleader_mm t' = if is_arbiter tp then q else ab_tgleader_mm tp.

Lemma thread_control_special q k tq tp :
  tasks k !! q = Some tq → tasks k !! parent tq = Some tp → is_Some (tasks k !! ab_next tp) → q ≠ parent tq →
  ∃ k', sys_absys_thread_control q AB_SET_ME_SPECIAL k = Ret (0, k') ∧ joined q tq k k' ∧
    next_of (tasks k') (parent tq) = Some q ∧ next_of (tasks k') q = next_of (tasks k) (parent tq) ∧
    (∀ r, r ≠ parent tq → r ≠ q → next_of (tasks k') r = next_of (tasks k) r) ∧
    entered k' q tp.
Proof.
  intros Hq Hp Hn Hne. unfold sys_absys_thread_control. change (AB_SET_ME_SPECIAL =? AB_SET_ME_ARBITER) with false.
  change (AB_SET_ME_SPECIAL =? AB_SET_ME_SPECIAL) with true. cbn iota. rewrite (bind_ret (mret 0) _ k 0 k) by done.
  destruct (list_add_spec k q (parent tq) tp tq Hp Hq Hn Hne) as (k1 & E1 & R & N1 & N2 & N3).
  set (leader := if is_arbiter tp then q else ab_tgleader_mm tp).
  destruct (relinked_task _ _ _ _ R Hq) as (tq1 & Hq1 & (Hm & _) & _).
  set (k2 := set_tasks (<[q := set_ab_tgleader_mm leader tq1]> (tasks k1)) k1).
  set (k3 := set_tasks (<[q := set_ab_identity (convert_to_identity (get_category tp) 0) (set_ab_tgleader_mm leader tq1)]> (tasks k2)) k2).
  exists k3. split.
  { unfold mbind, st_bind, get_task. rewrite Hq, Hp, E1. unfold upd_task at 1. rewrite Hq1. unfold mret at 1, st_ret at 1.
    unfold upd_task. fold leader k2. replace (tasks k2 !! q) with (Some (set_ab_tgleader_mm leader tq1)); [done|].
    unfold k2. simpl. by rewrite lookup_insert_eq. }
  assert (Ho : ∀ r, r ≠ q → tasks k3 !! r = tasks k1 !! r).
  { intros r Hr. unfold k3, k2. simpl. by rewrite !lookup_insert_ne. }
  assert (Hs : tasks k3 !! q = Some (set_ab_identity (convert_to_identity (get_category tp) 0) (set_ab_tgleader_mm leader tq1))).
  { unfold k3. simpl. by rewrite lookup_insert_eq. }
  assert (Hnx : ∀ r, next_of (tasks k3) r = next_of (tasks k1) r).
  { intros r. unfold next_of. destruct (decide (r = q)) as [->|Hr]; [by rewrite Hs, Hq1|by rewrite Ho]. }
  split; [|rewrite !Hnx; split_and!; try done; [intros r; rewrite Hnx; auto|by eexists]]. split.
  - intros r t Hr Ht. rewrite Ho by done. destruct (relinked_task _ _ _ _ R Ht) as (t' & Ht' & H & _).
    by exists t'.
  - intros r Hr. rewrite Ho by congruence. destruct R as (_ & _ & _ & R). specialize (R r). rewrite Hr in R.
    by destruct (tasks k1 !! r).
  - eexists. split; [exact Hs|]. split; [done|]. unfold is_arbiter, get_role. cbn [ab_identity set_ab_identity].
    by rewrite identity_role by lia.
  - apply R.
  - apply R.
Qed.

Lemma special_task q k r k' : sys_absys_thread_control q AB_SET_ME_SPECIAL k = Ret (r, k') → is_Some (tasks k !! q).
Proof.
  unfold sys_absys_thread_control. change (AB_SET_ME_SPECIAL =? AB_SET_ME_ARBITER) with false.
  change (AB_SET_ME_SPECIAL =? AB_SET_ME_SPECIAL) with true. cbn iota. rewrite (bind_ret (mret 0) _ k 0 k) by done.
  destruct (tasks k !! q) as [t|] eqn:Ht; [by eexists|]. unfold mbind, st_bind, get_task. by rewrite Ht.
Qed.

(** * A new member *)

(** [k2] is [k] with the new task [q], a copy of [p], in the group of [cur]. *)
Record spawned (k : kernel) (cur : Z) (l : list Z) (p q : Z) (k2 : kernel) : Prop := {
  sp_group : ∃ l', l' ≡ₚ q :: l ∧ group k2 cur l';
  sp_ok : tasks_ok k2;
  sp_other r t : r ≠ p → tasks k !! r = Some t → ∃ t', tasks k2 !! r = Some t' ∧ keeps_task t t';
  sp_parent t : tasks k !! p = Some t → ∃ t' g, tasks k2 !! p = Some t' ∧ keeps_task (set_mm (set_pgd g (mm t)) t) t' ∧
    weaker (pgd (mm t)) g;
  sp_phys : k_phys k2 = k_phys k;
  sp_res : k_res k = [] → k_res k2 = [];
  sp_none r : r ≠ q → tasks k !! r = None → tasks k2 !! r = None;
  sp_new t : tasks k !! p = Some t → entered k2 q t;
  sp_data t : tasks k !! p = Some t → is_special t = true →
    ∃ tp tq, tasks k2 !! p = Some tp ∧ tasks k2 !! q = Some tq ∧ shares_data (mm t) (pgd (mm tp)) (mm tq);
  sp_view x : kview k2 q x = kview k p x ∨ kview k2 q x = None ∧ ∃ w, kview k p x = Some (false, w);
}.

Lemma ring_insert k k' cur l p q :
  ring (tasks k) cur l → p ∈ cur :: l → q ∉ cur :: l →
  next_of (tasks k') p = Some q → next_of (tasks k') q = next_of (tasks k) p →
  (∀ r, r ≠ p → r ≠ q → next_of (tasks k') r = next_of (tasks k) r) →
  ∃ l', l' ≡ₚ q :: l ∧ ring (tasks k') cur l'.
Proof.
  intros [Hn Hc] Hp Hq N1 N2 N3. apply list_elem_of_split in Hp as (pre & post & E). rewrite E in *.
  pose proof (chain_insert _ _ _ _ _ _ _ Hc Hn Hq N3 N1 N2) as Hc'.
  assert (Hperm : pre ++ p :: q :: post ≡ₚ q :: pre ++ p :: post).
  { replace (pre ++ p :: q :: post) with ((pre ++ [p]) ++ q :: post) by (by rewrite <-app_assoc).
    symmetry. apply Permutation_cons_app. by rewrite <-app_assoc. }
  assert (Hn' : NoDup (pre ++ p :: q :: post)) by (rewrite Hperm; by apply NoDup_cons).
  destruct pre as [|c0 pre]; injection E as <- ->.
  - exists (q :: post). split; [done|]. by split.
  - exists (pre ++ p :: q :: post). split; [|by split].
    apply (Permutation_cons_inv (a := cur)). etrans; [exact Hperm|apply perm_swap].
Qed.

Lemma kview_keep k k' r x :
  (∀ t, tasks k !! r = Some t → ∃ t', tasks k' !! r = Some t' ∧ mmap (mm t') = mmap (mm t)) →
  (tasks k !! r = None → tasks k' !! r = None) → kview k' r x = kview k r x.
Proof.
  intros H1 H2. unfold kview. destruct (tasks k !! r) as [t|]; [|by rewrite H2].
  destruct (H1 t eq_refl) as (t' & -> & Hm). by rewrite Hm.
Qed.

Lemma spawn_group k1 cur l p q tq k2 :
  group k1 cur l → p ∈ cur :: l → q ∉ cur :: l → joined q tq k1 k2 →
  next_of (tasks k2) p = Some q → next_of (tasks k2) q = next_of (tasks k1) p →
  (∀ r, r ≠ p → r ≠ q → next_of (tasks k2) r = next_of (tasks k1) r) →
  ∃ l', l' ≡ₚ q :: l ∧ group k2 cur l'.
Proof.
  intros [R (ta & Ha & Hia) Hno] Hp Hq J N1 N2 N3.
  destruct (ring_insert k1 k2 cur l p q R Hp Hq N1 N2 N3) as (l' & Hl & R').
  exists l'. split; [done|]. split; [done| |].
  - destruct (jo_other _ _ _ _ J cur ta) as (t' & Ht' & _ & Hi & _); [set_solver|done|]. exists t'. split; [done|].
    unfold is_arbiter, get_role in *. by rewrite Hi.
  - intros r t Hr Ht. rewrite Hl in Hr. destruct (decide (r = q)) as [->|Hne].
    + destruct (jo_self _ _ _ _ J) as (t' & Ht' & _ & Hn). congruence.
    + destruct (tasks k1 !! r) as [t1|] eqn:Ht1; [|by rewrite (jo_none _ _ _ _ J) in Ht].
      destruct (jo_other _ _ _ _ J r t1 Hne Ht1) as (t' & Ht' & _ & Hi & _). assert (t' = t) as -> by congruence.
      unfold is_arbiter, get_role in *. rewrite Hi. apply (Hno r); [set_solver|done].
Qed.

(** The task of the parent with other page table entries *)
Definition set_pgd_of (p : Z) (t : task_struct) (g : pgd_t) (k : kernel) : kernel :=
  Kern (<[p := set_mm (set_pgd g (mm t)) t]> (tasks k)) (ab_category_count k) (k_res k) (k_phys k).

(** The parts of a fork and an entry put together; [kp] is the state with the
    parent's new entries. *)
Lemma spawn_spawned k cur l p q t g m k1 tq k2 :
  group k cur l → p ∈ cur :: l → q ∉ cur :: l → tasks_ok k → tasks k !! p = Some t → tasks k !! q = None →
  weaker (pgd (mm t)) g → forked (mm t) m → (is_special t = true → shares_data (mm t) g m) → mm tq = m → parent tq = p →
  k_phys k1 = k_phys k → (k_res k = [] → k_res k1 = []) → tasks k1 = <[q := tq]> (tasks (set_pgd_of p t g k)) → joined q tq k1 k2 →
  next_of (tasks k2) (parent tq) = Some q → next_of (tasks k2) q = next_of (tasks k1) (parent tq) →
  (∀ r, r ≠ parent tq → r ≠ q → next_of (tasks k2) r = next_of (tasks k1) r) → entered k2 q t → spawned k cur l p q k2.
Proof.
  intros G Hp Hnew T Ht Hq Hw (W & D & _ & _ & V & _ & P) Hsd Hm Hpar Eph Er E1 J N1 N2 N3 En. rewrite Hpar in *.
  destruct (weaker_remaps k p t g (k_phys k) Ht T Hw) as [Rm Kv]. fold (set_pgd_of p t g k) in Rm, Kv.
  set (kp := set_pgd_of p t g k) in *. assert (Tp := rm_ok _ _ _ Rm).
  assert (Hk1 : ∀ r, r ≠ q → tasks k1 !! r = tasks kp !! r) by (intros r Hr; by rewrite E1, lookup_insert_ne).
  assert (G1 : group k1 cur l).
  { destruct (group_same k kp cur l (rm_tasks _ _ _ Rm) G) as [[Hn Hc] (ta & Ha & Hia) Hno]. split.
    - split; [done|]. eapply chain_ext; [|exact Hc]. intros r Hr. unfold next_of. rewrite Hk1; [done|]. by intros ->.
    - exists ta. rewrite Hk1; [done|]. intros ->. apply Hnew. by left.
    - intros r tr Hr. rewrite Hk1; [by apply Hno|]. intros ->. apply Hnew. by right. }
  assert (Hqp : tasks kp !! q = None) by (unfold kp; simpl; rewrite lookup_insert_ne by congruence; done).
  assert (Hoth : ∀ r tr, tasks kp !! r = Some tr → ∃ t', tasks k2 !! r = Some t' ∧ keeps_task tr t').
  { intros r tr Hr. apply (jo_other _ _ _ _ J); [congruence|]. rewrite Hk1 by congruence. done. }
  assert (Hnone : ∀ r, r ≠ q → tasks kp !! r = None → tasks k2 !! r = None).
  { intros r Hr Hrn. apply (jo_none _ _ _ _ J). by rewrite Hk1. }
  destruct (jo_self _ _ _ _ J) as (tq' & Hq' & Hmq & _). split.
  - by apply (spawn_group k1 cur l p q tq k2).
  - intros r tr Hr. destruct (decide (r = q)) as [->|Hne].
    + assert (tr = tq') as -> by congruence. rewrite Hm in Hmq. split; rewrite Hmq; [done|by left|]. apply P, (T _ _ Ht).
    + destruct (tasks kp !! r) as [t0|] eqn:Hr0; [|by rewrite Hnone in Hr]. destruct (Hoth r t0 Hr0) as (t' & Ht' & Hmm & _).
      assert (t' = tr) as -> by congruence. destruct (Tp _ _ Hr0). by split; rewrite Hmm.
  - intros r tr Hr Htr. apply Hoth. unfold kp. simpl. by rewrite lookup_insert_ne.
  - intros t1 H1. assert (t1 = t) as -> by congruence.
    destruct (Hoth p (set_mm (set_pgd g (mm t)) t)) as (t' & Ht' & K); [unfold kp; simpl; by rewrite lookup_insert_eq|].
    exists t', g. done.
  - by rewrite (jo_phys _ _ _ _ J).
  - intros Hr. rewrite (jo_res _ _ _ _ J). auto.
  - intros r Hr Hn. apply Hnone; [done|]. unfold kp. simpl. rewrite lookup_insert_ne by congruence. done.
  - intros t1 H1. by assert (t1 = t) as -> by congruence.
  - intros t1 H1 Hs. assert (t1 = t) as -> by congruence.
    destruct (Hoth p (set_mm (set_pgd g (mm t)) t)) as (t' & Ht' & [K _]); [unfold kp; simpl; by rewrite lookup_insert_eq|].
    exists t', tq'. split; [done|]. split; [done|]. rewrite K, Hmq, Hm. by apply Hsd.
  - intros x. unfold kview. rewrite Hq', Ht, Hmq, Hm. apply V.
Qed.

(** Fork and entry *)
Lemma spawn_spec k cur l p q t :
  group k cur l → p ∈ cur :: l → tasks_ok k → tasks k !! p = Some t → tasks k !! q = None →
  ∃ r k1, do_fork p q k = Ret (r, k1) ∧ (k_res k = [] → r = q) ∧
    (r = - ENOMEM ∧ (∃ g, weaker (pgd (mm t)) g ∧ tasks k1 = tasks (set_pgd_of p t g k)) ∨
     r = q ∧ ∃ k2, sys_absys_thread_control q AB_SET_ME_SPECIAL k1 = Ret (0, k2) ∧ spawned k cur l p q k2).
Proof.
  intros G Hp T Ht Hq. destruct (do_fork_spec k p t q Ht T) as (r & k1 & g & E & Hw & _ & Eph & Hr & H).
  fold (set_pgd_of p t g k) in H. destruct H as [[-> E1]|(-> & m & F & Hsd & E1)].
  { exists (- ENOMEM), k1. split; [done|]. split; [intros H0; by apply Hr|]. left. split; [done|]. by exists g. }
  exists q, k1. split; [done|]. split; [done|]. right. split; [done|]. set (tq := Task m q q 0 _ p _) in E1.
  assert (Hmem : ∀ r, r ∈ cur :: l → is_Some (tasks k !! r)).
  { intros r Hr'. destruct G as [[_ Hc] _ _]. by eapply chain_lookup. }
  assert (Hnew : q ∉ cur :: l) by (intros [x Hx]%Hmem; congruence).
  assert (Hpq : q ≠ p) by congruence.
  assert (Htp : tasks k1 !! p = Some (set_mm (set_pgd g (mm t)) t)).
  { rewrite E1, lookup_insert_ne by done. simpl. by rewrite lookup_insert_eq. }
  destruct (thread_control_special q k1 tq (set_mm (set_pgd g (mm t)) t)) as (k2 & E2 & J & N1 & N2 & N3 & En).
  { by rewrite E1, lookup_insert_eq. }
  { done. }
  { simpl. assert (Hn : ab_next t ∈ cur :: l).
    { destruct G as [[_ Hc] _ _]. destruct (chain_next_in _ _ _ _ _ Hc Hp Ht) as [| ->]; [done|by left]. }
    rewrite E1, lookup_insert_ne by (intros ->; done). simpl. apply lookup_insert_is_Some. destruct (decide (p = ab_next t)); auto. }
  { done. }
  exists k2. split; [done|]. apply (spawn_spawned k cur l p q t g m k1 tq k2); try done. intros H. by destruct (Hr H).
Qed.

(** The tasks that were there keep their areas and breaks. *)
Lemma spawned_areas k cur l p q k2 r t :
  spawned k cur l p q k2 → tasks k !! r = Some t →
  ∃ t', tasks k2 !! r = Some t' ∧ mmap (mm t') = mmap (mm t) ∧ ab_brk (mm t') = ab_brk (mm t).
Proof.
  intros S Ht. destruct (decide (r = p)) as [->|Hr].
  - destruct (sp_parent _ _ _ _ _ _ S t Ht) as (t' & g & Ht' & [Hm _] & _). exists t'. by rewrite Hm.
  - destruct (sp_other _ _ _ _ _ _ S r t Hr Ht) as (t' & Ht' & Hm & _). exists t'. by rewrite Hm.
Qed.



(** * The arbiter *)

Lemma thread_control_arbiter k cur t :
  tasks k !! cur = Some t → ab_next t = cur → tasks_ok k →
  ∃ k', sys_absys_thread_control cur AB_SET_ME_ARBITER k = Ret (0, k') ∧ group k' cur [] ∧ tasks_ok k' ∧ k_res k' = k_res k ∧
    (∃ t', tasks k' !! cur = Some t' ∧ mm t' = set_ab_brks AB_HEAP_START AB_HEAP_START (mm t)) ∧
    ∀ q, q ≠ cur → tasks k' !! q = tasks k !! q.
Proof.
  intros Ht Hn T. set (n := s32 (ab_category_count k + 1)).
  set (t' := set_ab_identity (convert_to_identity n AB_SET_ME_ARBITER) (set_mm (set_ab_brks AB_HEAP_START AB_HEAP_START (mm t)) t)).
  exists (Kern (<[cur := t']> (tasks k)) n (k_res k) (k_phys k)). split; [|split; [|split; [|split; [done|split]]]].
  - unfold sys_absys_thread_control. change (AB_SET_ME_ARBITER =? AB_SET_ME_ARBITER) with true.
    change (AB_SET_ME_ARBITER =? AB_SET_ME_SPECIAL) with false. cbn iota.
    unfold mbind, st_bind, gets, modify, upd_task. cbn [tasks set_tasks]. rewrite Ht. unfold mret, st_ret.
    cbn [tasks set_tasks]. rewrite lookup_insert_eq. cbn [tasks set_tasks ab_category_count k_res k_phys]. by rewrite insert_insert_eq.
  - split; simpl.
    + split; [apply NoDup_singleton|]. simpl. split; [|done]. rewrite lookup_insert_eq. by exists t'.
    + rewrite lookup_insert_eq. exists t'. split; [done|]. unfold is_arbiter, get_role, t'. cbn [ab_identity set_ab_identity].
      by rewrite identity_role.
    + set_solver.
  - apply map_Forall_insert_2; [|done]. destruct (T _ _ Ht). by split.
  - exists t'. simpl. by rewrite lookup_insert_eq.
  - intros q Hq. simpl. by rewrite lookup_insert_ne.
Qed.
