(* ===== verification/Unmap.v ===== *)
(** [absys_munmap]: the range disappears from the task the call names, and the
    areas of the arbiter that meet it disappear from the other tasks. *)

From S2P Require Import Prelude Chunk Os Pte Vma VmaSpec Kernel Resources Mprotect Regions Group KernelSpec.

(** * Whole areas *)

(** The area found at [a], if it lies in a range that no area crosses, does
    not start in front of the range. *)
Lemma cut_found l a rp v rest : cut a l → find_vma_prev [] l a = (rp, v :: rest) → a ≤ vm_start v.
Proof.
  intros Hc E. apply find_vma_prev_spec in E as (El & _ & Hv); [|constructor]. simpl in El. rewrite <-El in Hc.
  apply cut_rev_append in Hc as [_ [Hc _]%Forall_cons]. lia.
Qed.

(** The area does not belong to the arbiter, or does not meet [[a, e)]. *)
Definition spared (a e : Z) (v : vm_area_struct) : bool :=
  negb (is_abt_vma v && (vm_start v <? e) && (a <? vm_end v)).
Abbreviation spare a e l := (filter (λ v, Is_true (spared a e v)) l).

Lemma spare_all a e l : Forall (λ v, vm_end v ≤ a ∨ e ≤ vm_start v) l → spare a e l = l.
Proof.
  intros Hl. induction Hl as [|v l Hv _ IH]; [done|]. rewrite filter_cons_True; [by rewrite IH|].
  unfold spared. destruct (is_abt_vma v); [|done]. cbn [andb]. destruct Hv as [Hv|Hv].
  - by rewrite (proj2 (Z.ltb_ge a _) Hv), andb_false_r.
  - by rewrite (proj2 (Z.ltb_ge _ e) Hv).
Qed.
Lemma spare_later a m e l : Forall (λ v, m < vm_end v) l → a ≤ m → spare a e l = spare m e l.
Proof.
  intros Hl Ha. induction Hl as [|v l Hv _ IH]; [done|]. rewrite !filter_cons, IH.
  assert (Es : spared a e v = spared m e v); [|by rewrite Es].
  unfold spared. by rewrite (proj2 (Z.ltb_lt a _)), (proj2 (Z.ltb_lt m _)) by lia.
Qed.
Lemma seg_after lo l hi : seg lo l hi → Forall (λ v, lo < vm_end v) l.
Proof.
  revert lo. induction l as [|v l IH]; intros lo; simpl; [constructor|]. intros (H1 & (H2 & _) & H3).
  constructor; [lia|]. eapply Forall_impl; [by apply IH|]. simpl. lia.
Qed.

Section Unmap.
Variable c : kconf.

(** Without areas to split the call succeeds. *)
Lemma do_munmap_cut s start len :
  cut start (mmap (m_mm s)) → cut (start + len) (mmap (m_mm s)) →
  (PAGESIZE | start) → (PAGESIZE | len) → 0 ≤ start → 0 < len → start + len ≤ TASK_SIZE →
  ∃ s1, do_munmap c start len s = Ret (0, s1).
Proof.
  intros Cs Ce Ha Hd H0 Hl Ht. unfold do_munmap.
  rewrite (proj2 (aligned_divide start) Ha), (proj2 (Z.ltb_ge _ _)), (proj2 (Z.ltb_ge _ _)) by lia. cbn [negb orb].
  rewrite page_align_fix by (done || (unfold TASK_SIZE in *; lia)). rewrite (proj2 (Z.eqb_neq len 0)) by lia.
  unfold mbind at 1, st_bind at 1, gets at 1. destruct (find_vma_prev [] (mmap (m_mm s)) start) as [rp [|v rest]] eqn:E.
  { by exists s. }
  destruct (start + len <=? vm_start v); [by exists s|]. pose proof (cut_found _ _ _ _ _ Cs E) as Hv.
  rewrite (proj2 (Z.ltb_ge (vm_start v) start)) by lia. unfold mbind at 1, st_bind at 1. cbn [mret st_ret negb Z.eqb].
  unfold mbind at 1, st_bind at 1, gets at 1.
  destruct (find_vma_prev [] (mmap (m_mm s)) (start + len)) as [rp' [|v' rest']] eqn:E'; [by eexists|].
  pose proof (cut_found _ _ _ _ _ Ce E') as Hv'. rewrite (proj2 (Z.ltb_ge (vm_start v') _)) by lia. by eexists.
Qed.

(** The ends of an area are crossed by no area. *)
Lemma seg_cut lo l hi a : seg lo l hi → a ≤ lo ∨ hi ≤ a → cut a l.
Proof. intros Hs Ha. eapply Forall_impl; [by apply (seg_bounds _ _ _ Hs)|]. simpl. lia. Qed.
Lemma area_cut rp v rest :
  wf_mmap (rev_append rp (v :: rest)) →
  cut (vm_start v) (rev_append rp (v :: rest)) ∧ cut (vm_end v) (rev_append rp (v :: rest)).
Proof.
  intros W. destruct (wf_position _ _ _ W) as (m & Hp & Hm & (Hv & _) & Hr). rewrite !cut_rev_append.
  assert (Hc : ∀ a, m ≤ a → cut a rp).
  { intros a Ha. rewrite <-(rev_involutive rp). apply Forall_rev. eapply seg_cut; [exact Hp|by right]. }
  split; (split; [apply Hc; lia|]); (constructor; [lia|]); eapply seg_cut; [exact Hr|lia|exact Hr|lia].
Qed.

(** What is left of the areas is the list without [v]. *)
Lemma detach_one lo v rest hi : seg lo (v :: rest) hi → detach_vmas (vm_end v) (v :: rest) = ([v], rest).
Proof.
  intros (_ & (Hv & _) & Hr). simpl. rewrite (proj2 (Z.ltb_lt _ _)) by lia. destruct rest as [|u rest]; [done|]. simpl.
  destruct Hr as (Hu & _). by rewrite (proj2 (Z.ltb_ge (vm_start u) _)) by lia.
Qed.
Lemma find_at_start rp0 l v rest m lo hi :
  seg lo l m → m ≤ vm_start v → seg (vm_start v) (v :: rest) hi →
  find_vma_prev rp0 (l ++ v :: rest) (vm_start v) = (rev_append l rp0, v :: rest).
Proof.
  intros Hl Hm (_ & (Hv & _) & _). revert lo rp0 Hl. induction l as [|u l IH]; intros lo rp0 Hl; simpl.
  - by rewrite (proj2 (Z.ltb_lt _ _)) by lia.
  - destruct Hl as (_ & _ & Hl). pose proof (seg_le _ _ _ Hl). rewrite (proj2 (Z.ltb_ge _ _)) by lia. by apply (IH (vm_end u)).
Qed.
Lemma unmap_area_list s rp v rest s1 :
  mmap (m_mm s) = rev_append rp (v :: rest) → wf_mmap (mmap (m_mm s)) →
  do_munmap c (vm_start v) (vm_end v - vm_start v) s = Ret (0, s1) → mmap (m_mm s1) = rev_append rp rest.
Proof.
  intros El W. pose proof W as W'. rewrite El in W'. destruct (wf_position _ _ _ W') as (m & Hp & Hm & Hv & Hr).
  destruct Hv as (V1 & V2 & V3 & V4). pose proof (seg_le _ _ _ Hp). pose proof (seg_le _ _ _ Hr) as Hve.
  assert (Hd : (PAGESIZE | vm_end v - vm_start v)) by (by apply Z.divide_sub_r).
  assert (Hs : seg (vm_start v) (v :: rest) TASK_SIZE) by (split; [lia|]; by split).
  pose proof (find_at_start [] _ _ _ _ _ _ Hp Hm Hs) as Ef.
  rewrite rev_append_rev, rev_involutive, app_nil_r, <-rev_append_rev in Ef.
  unfold do_munmap. rewrite (proj2 (aligned_divide _) V2), (proj2 (Z.ltb_ge _ _)), (proj2 (Z.ltb_ge _ _)) by lia.
  cbn [negb orb]. rewrite page_align_fix by (done || (unfold TASK_SIZE in *; lia)).
  rewrite (proj2 (Z.eqb_neq _ 0)) by lia. unfold mbind at 1, st_bind at 1, gets at 1. rewrite El, Ef.
  replace (vm_start v + (vm_end v - vm_start v)) with (vm_end v) by lia.
  rewrite (proj2 (Z.leb_gt _ _)) by lia. rewrite Z.ltb_irrefl. unfold mbind at 1, st_bind at 1. cbn [mret st_ret negb Z.eqb].
  unfold mbind at 1, st_bind at 1, gets at 1. rewrite El.
  assert (Hce : cut (vm_end v) (rev_append rp (v :: rest))) by apply (area_cut _ _ _ W').
  assert (Hfin : ∀ s2, (unmap_areas (vm_start v) (vm_end v) ;; mret 0) s = Ret (0, s2) → mmap (m_mm s2) = rev_append rp rest).
  { intros s2. unfold unmap_areas, upd_mm, mbind, st_bind, modify. simpl. rewrite El, Ef.
    change (if vm_start v <? vm_end v then _ else _) with (detach_vmas (vm_end v) (v :: rest)).
    rewrite (detach_one _ _ _ _ Hs). by intros [= <-]. }
  destruct (find_vma_prev [] _ (vm_end v)) as [rp' [|v' rest']] eqn:E'; [exact (Hfin s1)|].
  pose proof (cut_found _ _ _ _ _ Hce E') as Hv'. rewrite (proj2 (Z.ltb_ge (vm_start v') _)) by lia. exact (Hfin s1).
Qed.

Lemma unmap_area s rp v rest :
  mmap (m_mm s) = rev_append rp (v :: rest) → wf_mmap (mmap (m_mm s)) →
  ∃ s1, do_munmap c (vm_start v) (vm_end v - vm_start v) s = Ret (0, s1) ∧ same_brk s s1 ∧ wf_mmap (mmap (m_mm s1)) ∧
    changed (view_at (mmap (m_mm s1))) (view_at (mmap (m_mm s))) (vm_start v) (vm_end v) None.
Proof.
  intros El W. pose proof W as W'. rewrite El in W'. destruct (area_cut _ _ _ W') as [Cs Ce].
  destruct (wf_position _ _ _ W') as (m & Hp & Hm & (V1 & V2 & V3 & _) & Hr).
  assert (Hm0 : 0 ≤ m) by (by apply seg_le in Hp). assert (Hve : vm_end v ≤ TASK_SIZE) by (by eapply seg_le).
  assert (Hd : (PAGESIZE | vm_end v - vm_start v)) by (by apply Z.divide_sub_r).
  destruct (do_munmap_cut s (vm_start v) (vm_end v - vm_start v)) as (s1 & E); rewrite ?El; try done; try lia.
  { by replace (vm_start v + (vm_end v - vm_start v)) with (vm_end v) by lia. }
  destruct (do_munmap_spec c s (vm_start v) (vm_end v - vm_start v) W) as (r & s2 & E2 & U); [lia..|].
  rewrite E in E2. injection E2 as <- <-. exists s1. split; [done|]. split; [apply U|]. split; [apply U|].
  destruct (um_ok _ _ _ _ _ U eq_refl) as (_ & _ & _ & Hc).
  rewrite page_align_fix in Hc by (done || (unfold TASK_SIZE in *; lia)).
  replace (vm_start v + (vm_end v - vm_start v)) with (vm_end v) in Hc by lia. by rewrite <-El.
Qed.

(** * The loop over the areas of another task *)

(** Pages of the arbiter may be unmapped, those of [[a, e)] are. *)
Record cleared (a e : Z) (f g : Z → option (bool * Z)) : Prop := {
  cd_only x : g x = f x ∨ g x = None ∧ ∃ w, f x = Some (true, w);
  cd_all x w : a ≤ x < e → f x = Some (true, w) → g x = None;
}.
Lemma cleared_step a m e f g h : cleared a m f g → cleared m e g h → cleared a e f h.
Proof.
  intros P Q. split.
  - intros x. destruct (cd_only _ _ _ _ Q x) as [->|(E & w & Hw)]; [apply P|].
    destruct (cd_only _ _ _ _ P x) as [Hg|(Hg & _)]; [|congruence]. right. split; [done|]. exists w. congruence.
  - intros x w Hx Hf. destruct (decide (x < m)).
    + pose proof (cd_all _ _ _ _ P x w ltac:(lia) Hf) as Hg.
      destruct (cd_only _ _ _ _ Q x) as [->|(? & _)]; done.
    + destruct (cd_only _ _ _ _ P x) as [Hg|(Hg & _)].
      * apply (cd_all _ _ _ _ Q x w); [lia|congruence].
      * destruct (cd_only _ _ _ _ Q x) as [->|(? & _)]; done.
Qed.

Lemma find_vma_position l a : find_vma l a = head (find_vma_prev [] l a).2.
Proof.
  generalize (@nil vm_area_struct) as rp. induction l as [|v l IH]; intros rp; simpl; [done|].
  by destruct (a <? vm_end v).
Qed.

(** The pages from [a] to the end of the area found for [a] *)
Lemma view_from l a rp v rest x :
  wf_mmap l → find_vma_prev [] l a = (rp, v :: rest) → a ≤ x < vm_end v →
  view_at l x = if vm_start v <=? x then Some (view (vm_flags v)) else None.
Proof.
  intros W E Hx. destruct (Z.leb_spec (vm_start v) x) as [Hl|Hl].
  - destruct (find_vma_prev_wf _ _ _ _ W E) as (El & _). rewrite El in W |- *.
    destruct (wf_position _ _ _ W) as (m & Hp & Hm & _). apply (view_in_area _ _ _ _ m); done || lia.
  - apply (view_free _ a rp (v :: rest) (vm_start v)); done || lia.
Qed.
(** One area, removed when it is the arbiter's *)
Lemma clear_area s a rp v rest :
  wf_mmap (mmap (m_mm s)) → find_vma_prev [] (mmap (m_mm s)) a = (rp, v :: rest) →
  ∃ s1, (if is_abt_vma v then do_munmap c (vm_start v) (vm_end v - vm_start v) else mret 0) s = Ret (0, s1) ∧
    same_brk s s1 ∧ wf_mmap (mmap (m_mm s1)) ∧
    cleared a (vm_end v) (view_at (mmap (m_mm s))) (view_at (mmap (m_mm s1))) ∧
    mmap (m_mm s1) = rev rp ++ (if is_abt_vma v then [] else [v]) ++ rest.
Proof.
  intros W E. assert (Hview := λ x, view_from _ a rp v rest x W E). unfold view, is_abt_vma in *.
  destruct (find_vma_prev_wf _ _ _ _ W E) as (El & _ & Hav). destruct (flag (vm_flags v) VM_AB_CONTROL) eqn:Ha.
  - destruct (unmap_area s rp v rest El W) as (s1 & E1 & B1 & W1 & C1). exists s1.
    split; [done|]. split; [done|]. split; [done|].
    split; [|by rewrite (unmap_area_list s rp v rest s1 El W E1), rev_append_rev].
    pose proof W as W'. rewrite El in W'. destruct (wf_position _ _ _ W') as (m & Hp & Hm & _). split; intros x.
    + rewrite C1. case_decide as Hx; [|by left]. right. split; [done|]. eexists.
      rewrite El, (view_in_area _ _ _ _ m) by done. unfold view. by rewrite Ha.
    + intros w Hx Hf. rewrite C1. case_decide as Hx'; [done|]. rewrite Hview in Hf by done.
      by rewrite (proj2 (Z.leb_gt _ _)) in Hf by lia.
  - exists s. split; [done|]. split; [done|]. split; [done|]. split; [|by rewrite El, rev_append_rev].
    split; [by left|]. intros x w Hx Hf. rewrite Hview in Hf by done.
    by destruct (vm_start v <=? x).
Qed.

Lemma spare_none l a e : wf_mmap l → find_vma_intersection l a e = None → spare a e l = l.
Proof.
  intros W. unfold find_vma_intersection. rewrite find_vma_position.
  destruct (find_vma_prev [] l a) as [rp rest] eqn:E. destruct (find_vma_prev_spec _ _ _ _ _ E) as (_ & Hf & _); [constructor|].
  destruct (find_vma_prev_wf _ _ _ _ W E) as (-> & (m & _ & _ & Hr) & _). rewrite rev_append_rev. intros Hv. apply spare_all.
  apply Forall_app. split; [apply Forall_rev; eapply Forall_impl; [exact Hf|]; simpl; lia|].
  destruct rest as [|v rest]; [constructor|]. simpl in Hv. destruct (Z.leb_spec e (vm_start v)) as [Hle|]; [|done].
  destruct Hr as (_ & (Hv1 & _) & Hr). constructor; [by right|].
  eapply Forall_impl; [apply (seg_bounds _ _ _ Hr)|]. simpl. lia.
Qed.
(** The area [v] is the first behind [a], and it meets the range. *)
Lemma spare_found l a e rp v rest :
  wf_mmap l → find_vma_prev [] l a = (rp, v :: rest) → vm_start v < e →
  let l1 := rev rp ++ (if is_abt_vma v then [] else [v]) ++ rest in
  (e ≤ vm_end v → spare a e l = l1) ∧ spare a e l = spare (vm_end v) e l1.
Proof.
  intros W E Hve l1. destruct (find_vma_prev_spec _ _ _ _ _ E) as (_ & Hf & Hav); [constructor|].
  destruct (find_vma_prev_wf _ _ _ _ W E) as (-> & (m & _ & _ & Hr) & _). rewrite rev_append_rev. unfold l1.
  destruct Hr as (_ & (Hv1 & _) & Hr).
  assert (Hp : ∀ b, a ≤ b → spare b e (rev rp) = rev rp).
  { intros b Hb. apply spare_all, Forall_rev. eapply Forall_impl; [exact Hf|]. simpl. lia. }
  assert (Hv : spared a e v = negb (is_abt_vma v)).
  { unfold spared. rewrite (proj2 (Z.ltb_lt _ _) Hve), (proj2 (Z.ltb_lt _ _) Hav). by destruct (is_abt_vma v). }
  assert (Hv' : spare (vm_end v) e (if is_abt_vma v then [] else [v]) = if is_abt_vma v then [] else [v]).
  { destruct (is_abt_vma v); [done|]. apply spare_all. constructor; [by left|constructor]. }
  assert (Ha : spare a e (rev rp ++ v :: rest) = rev rp ++ (if is_abt_vma v then [] else [v]) ++ spare a e rest).
  { rewrite filter_app, Hp, filter_cons, Hv by lia. by destruct (is_abt_vma v). }
  rewrite Ha, (spare_later a (vm_end v)) by (done || lia || by eapply seg_after). split.
  - intros Hle. rewrite (spare_all _ _ rest); [done|].
    eapply Forall_impl; [apply (seg_bounds _ _ _ Hr)|]. simpl. lia.
  - by rewrite !filter_app, Hv', Hp by lia.
Qed.

Lemma unmap_round_spec e a s :
  wf_mmap (mmap (m_mm s)) →
  ∃ r s1, unmap_round c e a s = Ret (r, s1) ∧ same_brk s s1 ∧ wf_mmap (mmap (m_mm s1)) ∧
    match r with
    | inl a' => a < a' < e ∧ cleared a a' (view_at (mmap (m_mm s))) (view_at (mmap (m_mm s1))) ∧
                spare a' e (mmap (m_mm s1)) = spare a e (mmap (m_mm s))
    | inr ret => ret = 0 ∧ cleared a e (view_at (mmap (m_mm s))) (view_at (mmap (m_mm s1))) ∧
                 mmap (m_mm s1) = spare a e (mmap (m_mm s))
    end.
Proof.
  intros W. unfold unmap_round. unfold mbind at 1, st_bind at 1, gets at 1.
  destruct (find_vma_intersection (mmap (m_mm s)) a e) as [v|] eqn:Ei.
  2:{ exists (inr 0), s. split; [done|]. split; [done|]. split; [done|]. split; [done|].
      split; [|symmetry; by apply spare_none]. split; [by left|]. intros x w Hx Hf. rewrite (intersection_free _ _ _ _ W Ei Hx) in Hf. done. }
  unfold find_vma_intersection in Ei. rewrite find_vma_position in Ei.
  destruct (find_vma_prev [] (mmap (m_mm s)) a) as [rp rest] eqn:E. destruct rest as [|v0 rest]; [done|]. simpl in Ei.
  destruct (Z.leb_spec e (vm_start v0)) as [|Hve]; [done|]. injection Ei as ->.
  destruct (find_vma_prev_wf _ _ _ _ W E) as (El & _ & Hav).
  rewrite (proj2 (Z.ltb_lt _ _) Hve). cbn [andb].
  destruct (clear_area s a rp v rest W E) as (s1 & E1 & B1 & W1 & C1 & L1). unfold mbind at 1, st_bind at 1. rewrite E1.
  pose proof (spare_found _ a e rp v rest W E Hve) as Hs.
  destruct (Z.leb_spec e (vm_end v)) as [Hle|Hlt]; eexists _, s1; (split; [reflexivity|]); (split; [done|]); (split; [done|]).
  - split; [done|]. split; [split; [apply C1|]; intros x w Hx; apply C1; lia|]. by rewrite L1, (proj1 Hs Hle).
  - split; [lia|]. split; [done|]. rewrite L1. symmetry. by apply (proj2 Hs).
Qed.

Lemma unmap_rounds n e a s :
  wf_mmap (mmap (m_mm s)) → Z.max 0 (e - a) < Z.of_nat n →
  ∃ s1, iters (loop_body (unmap_round c e)) n (a, s) = Ret (inr (0, s1)) ∧ same_brk s s1 ∧ wf_mmap (mmap (m_mm s1)) ∧
    cleared a e (view_at (mmap (m_mm s))) (view_at (mmap (m_mm s1))) ∧ mmap (m_mm s1) = spare a e (mmap (m_mm s)).
Proof.
  revert a s. induction n as [|n IH]; intros a s W Hn; [lia|].
  destruct (unmap_round_spec e a s W) as (r & s1 & E & B & W1 & H). cbn [iters]. rewrite (loop_body_ret _ _ _ _ _ E).
  destruct r as [a'|ret].
  - destruct H as (Ha & C & L). destruct (IH a' s1 W1) as (s2 & E2 & B2 & W2 & C2 & L2); [lia|].
    exists s2. split; [done|]. split; [by etrans|]. split; [done|]. split; [by eapply cleared_step|]. by rewrite L2.
  - destruct H as (-> & C & L). by exists s1.
Qed.
Lemma unmap_loop e a s :
  wf_mmap (mmap (m_mm s)) → 0 ≤ a → e < 2 ^ 32 →
  ∃ s1, loopM (unmap_round c e) a s = Ret (0, s1) ∧ same_brk s s1 ∧ wf_mmap (mmap (m_mm s1)) ∧
    cleared a e (view_at (mmap (m_mm s))) (view_at (mmap (m_mm s1))) ∧ mmap (m_mm s1) = spare a e (mmap (m_mm s)).
Proof.
  intros W Ha He. destruct (unmap_rounds (Z.to_nat (Z.max 0 (e - a) + 1)) e a s W) as (s1 & E & H); [lia|].
  exists s1. split; [|done]. rewrite loopM_unfold. eapply while_iters; [|exact E]. lia.
Qed.
End Unmap.

Lemma quiet_unmap_loop c e a : quiet (loopM (unmap_round c e) a).
Proof. apply quiet_loop. intros v. unfold unmap_round. quiet. Qed.

(** * The call *)

(** The areas of a task *)
Definition kareas (k : kernel) (p : Z) : list vm_area_struct :=
  match tasks k !! p with Some t => mmap (mm t) | None => [] end.

(** In the tasks [ps] the pages change as [R] says; nothing else does. *)
Record each_task (R : (Z → option (bool * Z)) → (Z → option (bool * Z)) → Prop) (ps : list Z) (k k' : kernel) : Prop := {
  et_tasks : same_tasks k k';
  et_ok : tasks_ok k';
  et_other q : q ∉ ps → tasks k' !! q = tasks k !! q;
  et_brk q t t' : tasks k !! q = Some t → tasks k' !! q = Some t' → ab_brk (mm t') = ab_brk (mm t);
  et_in q : q ∈ ps → R (kview k q) (kview k' q);
}.

Lemma remaps_brk p k k' q t t' :
  remaps p k k' → tasks k !! q = Some t → tasks k' !! q = Some t' → ab_brk (mm t') = ab_brk (mm t).
Proof.
  intros R H1 H2. destruct (decide (q = p)) as [->|]; [by eapply (rm_brk _ _ _ R)|].
  rewrite (rm_other _ _ _ R) in H2 by done. congruence.
Qed.
Lemma each_refl R k : tasks_ok k → each_task R [] k k.
Proof. intros T. split; [reflexivity|done|done| |set_solver]. intros q t t' H1 H2. rewrite H1 in H2. by injection H2 as ->. Qed.
Lemma each_brk R ps p k k1 k' q t t' :
  remaps p k k1 → each_task R ps k1 k' → tasks k !! q = Some t → tasks k' !! q = Some t' → ab_brk (mm t') = ab_brk (mm t).
Proof.
  intros H X H1 H2. pose proof (rm_tasks _ _ _ H q) as Hs. rewrite H1 in Hs.
  destruct (tasks k1 !! q) as [t1|] eqn:H3; [|done]. rewrite (et_brk _ _ _ _ X q t1 t') by done. by eapply remaps_brk.
Qed.
Lemma each_cons (R : (Z → option (bool * Z)) → (Z → option (bool * Z)) → Prop) p ps k k1 k' :
  (∀ f g f' g', (∀ x, f' x = f x) → (∀ x, g' x = g x) → R f g → R f' g') →
  p ∉ ps → remaps p k k1 → R (kview k p) (kview k1 p) → each_task R ps k1 k' → each_task R (p :: ps) k k'.
Proof.
  intros Hext Hp H HR X. split.
  - etrans; [apply H|apply X].
  - apply X.
  - intros q Hq. rewrite (et_other _ _ _ _ X) by set_solver. apply H. set_solver.
  - intros q t t'. by apply (each_brk R ps p k k1 k').
  - intros q [->|Hq]%elem_of_cons.
    + eapply Hext; [| |exact HR]; [done|]. intros x. unfold kview. by rewrite (et_other _ _ _ _ X).
    + eapply Hext; [| |exact (et_in _ _ _ _ X q Hq)]; [|done].
      intros x. symmetry. apply remaps_view with p; [done|]. by intros ->.
Qed.
Lemma cleared_ext a e f g f' g' : (∀ x, f' x = f x) → (∀ x, g' x = g x) → cleared a e f g → cleared a e f' g'.
Proof. intros Hf Hg [H1 H2]. split; intros x; rewrite Hg, Hf; eauto. Qed.

Section Calls.
Variable c : kconf.

Lemma unmap_others_spec cur target a e ps k :
  tasks_ok k → (∀ p, p ∈ ps → is_Some (tasks k !! p)) → NoDup ps → 0 ≤ a → e < 2 ^ 32 →
  ∃ k', unmap_others c cur target a e ps k = Ret (0, k') ∧
    each_task (cleared a e) (filter (λ p, p ≠ cur ∧ p ≠ target) ps) k k' ∧ (k_res k = [] → k_res k' = []) ∧
    (∀ q, q ∈ filter (λ p, p ≠ cur ∧ p ≠ target) ps → kareas k' q = spare a e (kareas k q)).
Proof.
  intros T Hps Hnd Ha He. revert k T Hps. induction ps as [|p ps IH]; intros k T Hps; simpl.
  { exists k. split; [done|]. split; [by apply each_refl|]. split; [done|set_solver]. }
  apply NoDup_cons in Hnd as [Hni Hnd].
  destruct (decide (p ≠ cur ∧ p ≠ target)) as [[Hc Ht]|Hn].
  2:{ rewrite filter_cons_False by done. replace ((p =? cur) || (p =? target)) with true.
      - apply IH; [done|done|]. intros q Hq. apply Hps. by right.
      - symmetry. apply orb_true_iff. rewrite !Z.eqb_eq. destruct (decide (p = cur)); [by left|right].
        destruct (decide (p = target)); [done|]. by destruct Hn. }
  rewrite filter_cons_True by done. rewrite (proj2 (Z.eqb_neq p cur) Hc), (proj2 (Z.eqb_neq p target) Ht). cbn [orb].
  destruct (Hps p ltac:(by left)) as [t Htp].
  destruct (unmap_loop c e a (Mst (mm t) (k_res k))) as (s1 & E & B & W & C & L); [apply (to_wf _ (T _ _ Htp))|done|done|].
  destruct (on_mm_remaps p _ k t 0 s1 Htp T E B W) as (k1 & Ek & R & _ & Hv). rewrite (bind_ret _ _ _ _ _ Ek). cbn [Z.ltb Z.compare].
  destruct (IH Hnd k1 (rm_ok _ _ _ R)) as (k' & E' & X & Hres & Hl).
  { intros q Hq. rewrite (rm_other _ _ _ R) by set_solver. apply Hps. by right. }
  exists k'. split; [done|]. split; [|split].
  - apply each_cons with k1; [apply cleared_ext|rewrite list_elem_of_filter; tauto|done| |done].
    eapply cleared_ext; [| |exact C]; [intros x; by apply view_of|exact Hv].
  - intros H0. apply Hres. by eapply kquiet_on_mm; [apply quiet_unmap_loop|exact Ek|].
  - intros q [->|Hq]%elem_of_cons.
    + unfold kareas. rewrite (et_other _ _ _ _ X) by (rewrite list_elem_of_filter; tauto).
      unfold on_mm in Ek. rewrite Htp, E in Ek. injection Ek as <-. simpl. rewrite lookup_insert_eq, Htp. exact L.
    + rewrite Hl by done. unfold kareas. rewrite (rm_other _ _ _ R); [done|]. intros ->.
      apply list_elem_of_filter in Hq as [_ ?]. done.
Qed.

(** The tasks that the loop over the ring of a child visits *)
Lemma group_others k cur l p :
  group k cur l → p ∈ l →
  ∃ others, list_for_each_entry (tasks k) p = Ret others ∧ NoDup others ∧ (∀ q, q ∈ others → is_Some (tasks k !! q)) ∧
    ∀ q, q ∈ filter (λ q, q ≠ cur ∧ q ≠ p) others ↔ q ∈ l ∧ q ≠ p.
Proof.
  intros G Hp. pose proof (group_not_cur _ _ _ G) as Hcur. destruct G as [R _ _].
  apply list_elem_of_split in Hp as (l1 & l2 & ->). pose proof (ring_rotate _ _ _ _ _ R) as R'.
  exists (l2 ++ cur :: l1). split; [by apply list_for_each_ring|]. destruct R' as [Hn Hc]. split; [by apply NoDup_cons in Hn as [_ ?]|].
  split; [intros q Hq; eapply chain_lookup; [exact Hc|by right]|].
  intros q. rewrite list_elem_of_filter. set_solver.
Qed.

(** The target and the loop over the others *)
Lemma absys_munmap_spec k cur l p a len :
  group k cur l → p ∈ l → tasks_ok k → 0 ≤ a → 0 ≤ len →
  ∃ r k', sys_absys_munmap c cur p a len k = Ret (r, k') ∧ r ≤ 0 ∧ same_tasks k k' ∧ tasks_ok k' ∧
    (r ≠ 0 → ∀ q x, kview k' q x = kview k q x) ∧
    (r = 0 → changed (kview k' p) (kview k p) a (a + PAGE_ALIGN len) None ∧
       ∀ q, q ∈ l → q ≠ p → kareas k' q = spare a (a + len) (kareas k q) ∧ cleared a (a + len) (kview k q) (kview k' q)) ∧
    (∀ q, q ∉ l → tasks k' !! q = tasks k !! q) ∧
    (∀ q t t', tasks k !! q = Some t → tasks k' !! q = Some t' → ab_brk (mm t') = ab_brk (mm t)) ∧
    (k_res k = [] → k_res k' = []).
Proof.
  intros G Hp T Ha Hl. destruct (controls_task _ _ _ _ G Hp) as (Ec & t & Ht & _).
  unfold sys_absys_munmap. rewrite (bind_ret _ _ _ _ _ Ec). cbn [negb].
  destruct (do_munmap_spec c (Mst (mm t) (k_res k)) a len (to_wf _ (T _ _ Ht)) Ha Hl) as (r & s1 & E & U).
  destruct (on_mm_remaps p _ k t r s1 Ht T E (um_brk _ _ _ _ _ U) (um_wf _ _ _ _ _ U)) as (k1 & Ek & R & _ & Hv).
  rewrite (bind_ret _ _ _ _ _ Ek). pose proof (kquiet_on_mm p _ (quiet_munmap c a len) k r k1 Ek) as Hq.
  assert (Hout : ∀ q, q ∉ l → tasks k1 !! q = tasks k !! q) by (intros q Hn; apply R; by intros ->).
  destruct (Z.ltb_spec r 0) as [Hr|Hr].
  { exists r, k1. split; [done|]. split; [lia|]. split; [apply R|]. split; [apply R|]. split; [|split; [lia|]].
    - intros _ q x. destruct (decide (q = p)) as [->|Hne]; [|by apply remaps_view with p].
      rewrite Hv, (view_of _ _ _ _ Ht). apply U. lia.
    - split; [done|]. split; [|done]. intros q t1 t2. by apply (remaps_brk p). }
  assert (r = 0) as -> by (pose proof (um_ret _ _ _ _ _ U); lia).
  destruct (um_ok _ _ _ _ _ U eq_refl) as (_ & Hl0 & Hsz & Hc).
  assert (G1 : group k1 cur l) by (eapply group_same; [apply R|done]).
  destruct (group_others k1 cur l p G1 Hp) as (others & Eo & Hnd & Hsome & Hmem).
  rewrite (bind_ret (gets tasks) _ k1 (tasks k1) k1) by done.
  rewrite (bind_ret (lift _) _ k1 others k1) by (rewrite Eo; done).
  assert (He : a + len < 2 ^ 32) by (unfold TASK_SIZE in Hsz; lia). rewrite (u32_small (a + len)) by lia.
  destruct (unmap_others_spec cur p a (a + len) others k1 (rm_ok _ _ _ R) Hsome Hnd Ha He) as (k2 & E2 & X & Hres & Hl2).
  exists 0, k2. split; [done|]. split; [done|]. split; [etrans; [apply R|apply X]|]. split; [apply X|]. split; [done|].
  assert (Hp2 : tasks k2 !! p = tasks k1 !! p) by (apply X; rewrite Hmem; tauto).
  split; [|split; [|split]].
  - intros _. split.
    + intros x. rewrite (view_of _ _ _ _ Ht). transitivity (kview k1 p x); [unfold kview; by rewrite Hp2|].
      rewrite Hv. apply Hc.
    + intros q Hq1 Hq2. split; [rewrite Hl2 by (by apply Hmem); unfold kareas; by rewrite (rm_other _ _ _ R)|].
      eapply cleared_ext; [| |apply (et_in _ _ _ _ X q); by apply Hmem]; [|done].
      intros x. symmetry. by apply remaps_view with p.
  - intros q Hn. rewrite (et_other _ _ _ _ X) by (rewrite Hmem; tauto). by apply Hout.
  - intros q t1 t2. by apply (each_brk (cleared a (a + len)) _ p k k1 k2 q t1 t2 R X).
  - intros H0. by apply Hres, Hq.
Qed.

(** C13: [absys_munmap] on a child either fails and changes no page of any
    task, or removes exactly the range from that child, and from every other
    child of the group exactly the areas of the arbiter that meet the range,
    each of them whole, also where it reaches out of the range; all other areas
    of a sibling stay.  Tasks outside the group and the break are not
    affected. *)
Theorem absys_munmap_exact k cur l p a len :
  group k cur l → p ∈ l → tasks_ok k → 0 ≤ a → 0 ≤ len →
  ∃ r k', sys_absys_munmap c cur p a len k = Ret (r, k') ∧ r ≤ 0 ∧ same_tasks k k' ∧ tasks_ok k' ∧
    (r ≠ 0 → ∀ q x, kview k' q x = kview k q x) ∧
    (r = 0 → changed (kview k' p) (kview k p) a (a + PAGE_ALIGN len) None ∧
       ∀ q, q ∈ l → q ≠ p → kareas k' q = spare a (a + len) (kareas k q)) ∧
    (∀ q, q ∉ l → tasks k' !! q = tasks k !! q) ∧
    (∀ q t t', tasks k !! q = Some t → tasks k' !! q = Some t' → ab_brk (mm t') = ab_brk (mm t)) ∧
    (k_res k = [] → k_res k' = []).
Proof.
  intros G Hp T Ha Hl. destruct (absys_munmap_spec k cur l p a len G Hp T Ha Hl) as (r & k' & E & H1 & H2 & H3 & H4 & H5 & H6).
  exists r, k'. do 5 (split; [done|]). split; [|done]. intros Hr. destruct (H5 Hr) as [H7 H8]. split; [done|].
  intros q Hq Hne. by apply H8.
Qed.
End Calls.

(** The first page of the break area is unmapped for the child 100. *)
Lemma absys_munmap_exact_witness :
  ∃ k', sys_absys_munmap conf0 1 100 AB_HEAP_START PAGESIZE k0 = Ret (0, k') ∧
    kview k' 100 AB_HEAP_START = None ∧ kview k' 101 AB_HEAP_START = None ∧ kview k' 100 0x80001000 = Some (true, 3).
Proof.
  destruct (absys_munmap_exact conf0 k0 1 [101; 100] 100 AB_HEAP_START PAGESIZE k0_group ltac:(by right; left) k0_ok
    ltac:(by vm_compute) ltac:(by vm_compute)) as (r & k' & E & _ & _ & _ & _ & H & _).
  assert (r = 0) as ->.
  { assert (Hr : ∀ z, match sys_absys_munmap conf0 1 100 AB_HEAP_START PAGESIZE k0 with Ret (x, _) => x | Fault _ => 1 end = z → r = z)
      by (rewrite E; auto). apply Hr. by vm_compute. }
  destruct (H eq_refl) as [H1 H2]. exists k'. split; [exact E|]. split; [|split].
  - rewrite H1. by vm_compute.
  - specialize (H2 101 ltac:(by left) ltac:(done)). unfold kview. unfold kareas in H2.
    destruct (tasks k' !! 101) as [t|]; [|done]. rewrite H2. by vm_compute.
  - rewrite H1. by vm_compute.
Defined.
