(* ===== verification/Map.v ===== *)
(** [absys_mmap] as the arbiter calls it: a fixed range is mapped for the task
    the call names, and reserved without access in the other tasks. *)

From S2P Require Import Prelude Chunk Os Pte Vma VmaSpec FreeArea Kernel Resources Mprotect FreeAreaSpec Regions Group KernelSpec Unmap.

(** The flags of the macro [AB_MMAP] *)
Definition AB_MMAP_FLAGS : Z := Z.lor MAP_PRIVATE (Z.lor MAP_ANONYMOUS MAP_FIXED).

(** * Flags of the new areas *)

(** The flags before the mask of the call takes access bits away *)
Definition new_flags (mask d prot : Z) : Z :=
  Z.land (Z.lor (calc_vm_prot_bits prot) (Z.lor (calc_vm_flag_bits AB_MMAP_FLAGS) (Z.lor d
    (Z.lor VM_MAYREAD (Z.lor VM_MAYWRITE (Z.lor VM_MAYEXEC (Z.lor VM_AB_CONTROL VM_SHARED))))))) mask.
(** Every access for the target, none for the others *)
Definition TARGET : Z := not32 0.
Definition OTHERS : Z := 0xfffffff0.

Ltac all_prots :=
  match goal with
  | |- context [calc_vm_prot_bits ?prot] =>
      pose proof (prot_bits_bound prot) as Hp; revert Hp; generalize (calc_vm_prot_bits prot); intros w Hp;
      assert (w = 0 ∨ w = 1 ∨ w = 2 ∨ w = 3 ∨ w = 4 ∨ w = 5 ∨ w = 6 ∨ w = 7) as Hc by lia; clear Hp;
      destruct_or! Hc; subst w
  end.

Lemma new_flags_spec mask d prot :
  def_flags_ok d → mask = TARGET ∨ mask = OTHERS →
  flags_ok (new_flags mask d prot) ∧ flag (new_flags mask d prot) VM_AB_CONTROL = true ∧
  flag (new_flags mask 0 prot) VM_LOCKED = false.
Proof.
  intros Hd Hm. unfold new_flags.
  destruct Hd as [-> | ->], Hm as [-> | ->]; all_prots; (split; [by apply flags_okb_spec; vm_compute|by vm_compute]).
Qed.
Lemma new_flags_view d prot :
  def_flags_ok d → accountable_mapping (new_flags TARGET d prot) = false ∧
  view (new_flags TARGET d prot) = (true, calc_vm_prot_bits prot) ∧ view (new_flags OTHERS d prot) = (true, 0).
Proof. intros Hd. unfold new_flags. destruct Hd as [-> | ->]; all_prots; by vm_compute. Qed.

(** * One address space *)

Definition error (r : Z) : Prop := ∃ e, -4095 ≤ e < 0 ∧ r = u32 e.
Lemma error_code e : -4095 ≤ e < 0 → error (u32 e).
Proof. by exists e. Qed.
Ltac is_error := apply error_code; unfold ENOMEM, EINVAL, EAGAIN, EOVERFLOW, EPERM; lia.

Lemma link_area_ret rp rest a len f pg s r s1 :
  link_area rp rest a len f pg s = Ret (r, s1) → r = a ∨ error r ∧ m_mm s1 = m_mm s.
Proof.
  unfold link_area, mbind, st_bind, lift. destruct (vma_merge _ _ _ _ _ _ _ _) as [[y|]|]; [| |done].
  { intros [= <- _]. by left. }
  unfold take_resource. destruct (m_res s) as [|[] bs]; simpl; try destruct (flag f VM_AB_CONTROL); try done;
    intros [= <- <-]; (by left) || (right; split; [is_error|done]).
Qed.

Lemma loopM_exit {S V R} (body : V → st S (V + R)) v s r s' :
  body v s = Ret (inr r, s') → loopM body v s = Ret (r, s').
Proof.
  intros E. rewrite loopM_unfold. apply while_iters with 1%nat; [lia|]. cbn [iters].
  by rewrite (loop_body_ret _ _ _ _ _ E).
Qed.

Section Map.
Context (c : kconf) (overcommit_never : bool) (hugetlb_error : Z).
Context (a len : Z) (Ha : (PAGESIZE | a)) (Hd : (PAGESIZE | len)) (H0 : 0 ≤ a) (Hl : 0 < len) (Ht : a + len ≤ TASK_SIZE).

Lemma len_bounds : PAGESIZE ≤ len ≤ TASK_SIZE ∧ PAGE_ALIGN len = len ∧ u32 (a + len) = a + len.
Proof using Ha Hd H0 Hl Ht.
  assert (PAGESIZE ≤ len) by (destruct Hd as [z Hz]; unfold PAGESIZE in *; nia).
  split; [lia|]. split; [apply page_align_fix; [done|]|apply u32_small]; unfold TASK_SIZE in *; lia.
Qed.

Lemma area_flags_spec m mask a' prot :
  def_flags_ok (def_flags m) → mask = TARGET ∨ mask = OTHERS →
  area_flags c m mask a' len prot AB_MMAP_FLAGS = inr (new_flags mask (def_flags m) prot, Z.shiftr a' PAGE_SHIFT) ∨
  (∃ r, area_flags c m mask a' len prot AB_MMAP_FLAGS = inl r ∧ error r) ∧ def_flags m ≠ 0.
Proof using Type.
  intros D M. unfold area_flags. fold (new_flags mask (def_flags m) prot). change (flag AB_MMAP_FLAGS MAP_LOCKED) with false. cbn [andb].
  change (Z.land AB_MMAP_FLAGS MAP_TYPE =? MAP_SHARED) with false. change (Z.land AB_MMAP_FLAGS MAP_TYPE =? MAP_PRIVATE) with true.
  destruct (flag (new_flags _ _ _) VM_LOCKED) eqn:El; cbn [andb]; [|by left]. destruct (_ && _); [|by left].
  right. split; [eexists; split; [done|is_error]|]. intros E. rewrite E in El.
  destruct (new_flags_spec mask 0 prot ltac:(by left) M) as (_ & _ & E'). congruence.
Qed.

(** * The target *)

(** The range is mapped with [flags] or the result is an error; it is mapped
    when [ok] holds. *)
Definition maps (ok : Prop) (s : mst) (flags : Z) (r : Z) (s1 : mst) : Prop :=
  links s a len flags r s1 ∧ (r = a ∨ error r) ∧ (ok → r = a).

Lemma maps_fail (ok : Prop) s f r s1 :
  wf_mmap (mmap (m_mm s)) → m_mm s1 = m_mm s → error r → ¬ ok → maps ok s f r s1.
Proof using Ha.
  intros W E He Hn. split; [|split; [by right|done]]. split; rewrite ?E; try done; [by split; rewrite E|].
  intros x Hx. destruct He as (e & Hb & He). rewrite He in Hx. by apply error_unaligned in Hx.
Qed.

Lemma absys_mmap_region_spec s prot pgoff :
  wf_mmap (mmap (m_mm s)) → def_flags_ok (def_flags (m_mm s)) → let vf := new_flags TARGET (def_flags (m_mm s)) prot in
  ∃ r s1, absys_mmap_region c overcommit_never a len AB_MMAP_FLAGS vf pgoff s = Ret (r, s1) ∧ maps (brk_room c s a len) s vf r s1.
Proof using Ha Hd H0 Hl Ht.
  intros W D vf. destruct (new_flags_spec TARGET _ prot D ltac:(by left)) as (F1 & F2 & _).
  destruct (new_flags_view _ prot D) as (F3 & _). fold vf in F1, F2, F3.
  unfold absys_mmap_region. destruct (munmap_back_spec c s a len W Ha Hd H0 Hl Ht) as (o & s1 & E & B & W1 & V1 & G).
  unfold mbind at 1, st_bind at 1. rewrite E.
  assert (Hs1 : brk_room c s a len → s1 = s ∧ o ≠ None).
  { intros R. destruct (munmap_back_free c 1 s a len) as (rp' & rest' & E' & _); try done; [apply R|]. rewrite E in E'. by injection E' as -> ->. }
  assert (Hfail : ¬ brk_room c s a len → maps (brk_room c s a len) s vf (u32 (- ENOMEM)) s1).
  { intros Hn. split; [|split; [right; is_error|done]]. split; try done. intros x Hx. by apply enomem_unaligned in Hx. }
  destruct o as [[rp rest]|]; [|eexists _, s1; split; [done|]; apply Hfail; by intros [_ ?]%Hs1].
  unfold mbind at 1, st_bind at 1, gets at 1. unfold noreserve. change (flag AB_MMAP_FLAGS MAP_NORESERVE) with false. cbn [andb].
  destruct (may_expand_vm c (m_mm s1) _) eqn:Em; cbn [negb].
  2:{ eexists _, s1. split; [done|]. apply Hfail. intros R. destruct (Hs1 R) as [-> _]. by rewrite (br_limit _ _ _ _ R) in Em. }
  rewrite F3. unfold mbind at 1, st_bind at 1. cbn [mret st_ret negb]. destruct G as [El G].
  destruct (link_area_spec s1 rp rest a len vf pgoff El W1 G F1 F2) as (r & s2 & E2 & L). exists r, s2. split; [done|].
  split; [|split].
  - destruct L as [L1 L2 L3 L4]. split; try done; [by etrans|]. intros x Hx. by rewrite L3, V1.
  - apply link_area_ret in E2. tauto.
  - intros R. destruct (Hs1 R) as [-> _]. destruct (link_area_ok s rp rest a len vf pgoff) as (s3 & E3); try done;
      [apply (br_res _ _ _ _ R)|]. congruence.
Qed.

Context (Hsec : ∀ x, -4095 ≤ security_file_mmap c x ≤ 0).

Lemma mmap_target_spec s cm pers prot pgoff :
  wf_mmap (mmap (m_mm s)) → def_flags_ok (def_flags (m_mm s)) →
  ∃ r s1, do_absys_mmap_pgoff c overcommit_never hugetlb_error cm pers a len prot AB_MMAP_FLAGS pgoff s = Ret (r, s1) ∧
    maps (brk_room c s a len ∧ pgoff ≤ u32 (pgoff + Z.shiftr len PAGE_SHIFT)) s
      (new_flags TARGET (def_flags (m_mm s)) (exec_prot pers prot)) r s1.
Proof using Ha Hd H0 Hl Ht Hsec.
  intros W D. destruct len_bounds as (Hlen & Ea & _). unfold do_absys_mmap_pgoff. unfold mbind at 1, st_bind at 1, gets at 1.
  rewrite (proj2 (Z.eqb_neq len 0)) by lia. change (flag AB_MMAP_FLAGS MAP_FIXED) with true. cbn [negb]. rewrite Ea.
  rewrite (proj2 (Z.eqb_neq len 0)), (proj2 (Z.ltb_ge TASK_SIZE len)) by lia. cbn [orb].
  destruct (Z.ltb_spec (u32 (pgoff + Z.shiftr len PAGE_SHIFT)) pgoff) as [Hpg|Hpg].
  { eexists _, s. split; [done|]. apply maps_fail; [done|done|is_error|lia]. }
  destruct (Z.ltb_spec (sysctl_max_map_count c) (map_count (m_mm s))) as [Hc|Hc].
  { eexists _, s. split; [done|]. apply maps_fail; [done|done|is_error|]. intros [[[_ Hm] _ _ _ _ _] _].
    pose proof (wf_count _ W). lia. }
  change (flag AB_MMAP_FLAGS MAP_HUGETLB) with false. unfold get_unmapped_area.
  rewrite get_area_fixed by (done || lia). cbn [fst].
  assert (Ee : IS_ERR_VALUE a = false) by (unfold IS_ERR_VALUE; change (u32 (- 4095)) with 4294963201; unfold TASK_SIZE in *; lia).
  rewrite Ee, (proj2 (Z.ltb_ge (TASK_SIZE - len) a)), (proj2 (aligned_divide a) Ha) by lia. cbn [negb].
  rewrite (proj2 (aligned_divide a) Ha). cbn [negb]. change (not32 0) with TARGET.
  destruct (area_flags_spec (m_mm s) TARGET a (exec_prot pers prot) D ltac:(by left)) as [->|((r & -> & Hr) & Hn)].
  - destruct (Z.eqb_spec (security_file_mmap c a) 0) as [Es|Es]; cbn [negb].
    + destruct (absys_mmap_region_spec s (exec_prot pers prot) (Z.shiftr a PAGE_SHIFT) W D) as (r & s1 & E & M1 & M2 & M3).
      exists r, s1. split; [done|]. split; [done|]. split; [done|]. intros [R _]. auto.
    + eexists _, s. split; [done|]. apply maps_fail; [done|done|apply error_code; pose proof (Hsec a); lia|].
      by intros [[_ Hs _ _ _ _] _].
  - exists r, s. split; [done|]. apply maps_fail; [done..|]. by intros [[_ _ Hs _ _ _] _].
Qed.

(** * The other tasks *)

Lemma propagate_region_spec s vf pgoff :
  wf_mmap (mmap (m_mm s)) → flags_ok vf → flag vf VM_AB_CONTROL = true →
  (∀ x, a ≤ x < a + len → view_at (mmap (m_mm s)) x = None) →
  ∃ r s1, propagate_region c overcommit_never a len AB_MMAP_FLAGS vf pgoff s = Ret (r, s1) ∧
    maps (brk_room c s a len) s vf r s1 ∧ (r = a ∨ m_mm s1 = m_mm s).
Proof using Ha Hd H0 Hl Ht.
  intros W F1 F2 Hx. destruct len_bounds as (_ & _ & Eu). unfold propagate_region. unfold mbind at 1, st_bind at 1, gets at 1.
  destruct (find_vma_prev [] (mmap (m_mm s)) a) as [rp rest] eqn:E.
  pose proof (free_range _ _ (a + len) _ _ W E Hx) as Hf.
  assert (He : (PAGESIZE | a + len)) by (by apply Z.divide_add_r).
  destruct (gap_found _ _ (a + len) _ _ W E Ha He ltac:(lia) Ht) as [El G]; [destruct rest; [done|apply Hf; lia]|].
  assert (Eg : ∀ (m : mmm Z), (match rest with vma :: _ => if vm_start vma <? u32 (a + len) then fail KernelOops else mret tt | [] => mret tt end;; m) s = m s).
  { intros m. destruct rest as [|v rest]; [done|]. rewrite Eu, (proj2 (Z.ltb_ge _ _)) by (apply Hf; lia). done. }
  rewrite Eg. clear Eg. unfold noreserve. change (flag AB_MMAP_FLAGS MAP_NORESERVE) with false. cbn [andb].
  destruct (may_expand_vm c (m_mm s) _) eqn:Em; cbn [negb].
  2:{ eexists _, s. split; [done|]. split; [|by right]. apply maps_fail; [done|done|is_error|].
      intros R. by rewrite (br_limit _ _ _ _ R) in Em. }
  destruct (link_area_spec s rp rest a len vf pgoff El W G F1 F2) as (r & s1 & E1 & L). exists r, s1. split; [done|].
  pose proof (link_area_ret _ _ _ _ _ _ _ _ _ E1) as Hr. split; [|tauto]. split; [done|]. split; [tauto|].
  intros R. destruct (link_area_ok s rp rest a len vf pgoff) as (s3 & E3); [apply (br_res _ _ _ _ R)|done|done|]. congruence.
Qed.

(** A task that has nothing in the range gets it without access. *)
Lemma propagate_spec s pers prot :
  wf_mmap (mmap (m_mm s)) → def_flags_ok (def_flags (m_mm s)) →
  (∀ x, a ≤ x < a + len → view_at (mmap (m_mm s)) x = None) →
  ∃ r s1, do_absys_vma_propagate c overcommit_never pers a len prot AB_MMAP_FLAGS s = Ret (r, s1) ∧
    maps (brk_room c s a len) s (new_flags OTHERS (def_flags (m_mm s)) (exec_prot pers prot)) r s1 ∧
    (r = a ∨ m_mm s1 = m_mm s).
Proof using Ha Hd H0 Hl Ht Hsec.
  intros W D Hx. destruct len_bounds as (_ & _ & Eu). unfold do_absys_vma_propagate. unfold mbind at 1, st_bind at 1, gets at 1.
  rewrite (proj2 (Z.eqb_neq len 0)) by lia. change 0xfffffff0 with OTHERS.
  destruct (area_flags_spec (m_mm s) OTHERS a (exec_prot pers prot) D ltac:(by right)) as [->|((r & -> & Hr) & Hn)].
  2:{ exists r, s. split; [done|]. split; [|by right]. apply maps_fail; [done..|]. by intros [_ _ Hs _ _ _]. }
  destruct (Z.eqb_spec (security_file_mmap c a) 0) as [Es|Es]; cbn [negb].
  2:{ eexists _, s. split; [done|]. split; [|by right]. apply maps_fail; [done|done|apply error_code; pose proof (Hsec a); lia|].
      by intros [_ Hs _ _ _ _]. }
  unfold mbind at 1, st_bind at 1. erewrite loopM_exit.
  2:{ unfold hole_round. unfold mbind at 1, st_bind at 1, gets at 1. by rewrite Eu, free_intersection by (done || lia). }
  rewrite Eu, (proj2 (Z.leb_gt _ _)) by lia.
  destruct (new_flags_spec OTHERS _ (exec_prot pers prot) D ltac:(by right)) as (F1 & F2 & _). by apply propagate_region_spec.
Qed.

Lemma find_vma_above l x : wf_mmap l → TASK_SIZE ≤ x → find_vma l x = None.
Proof using Type.
  clear. unfold wf_mmap. generalize 0. induction l as [|v l IH]; intros lo W Hx; simpl in *; [done|].
  destruct W as (_ & _ & W). pose proof (seg_le _ _ _ W). rewrite (proj2 (Z.ltb_ge _ _)) by lia. by eapply IH.
Qed.

(** The call goes on with the error code of a failed target as an address;
    nothing is mapped there. *)
Lemma propagate_error s pers prot e :
  wf_mmap (mmap (m_mm s)) → error e → ∃ r, do_absys_vma_propagate c overcommit_never pers e len prot AB_MMAP_FLAGS s = Ret (r, s).
Proof using Ha Hd H0 Hl Ht.
  intros W (e' & He & ->). destruct len_bounds as (Hlen & _). unfold do_absys_vma_propagate. unfold mbind at 1, st_bind at 1, gets at 1.
  assert (Eu : u32 e' = 2 ^ 32 + e') by (unfold u32; symmetry; apply (Z.mod_unique_pos _ _ (-1)); lia).
  assert (Eu2 : u32 (u32 e' + len) = e' + len).
  { rewrite Eu. unfold u32, TASK_SIZE, PAGESIZE in *. symmetry. apply (Z.mod_unique_pos _ _ 1); lia. }
  rewrite (proj2 (Z.eqb_neq len 0)) by lia. destruct (area_flags _ _ _ _ _ _ _) as [r|[vf pg]]; [by eexists|].
  destruct (negb _); [by eexists|]. unfold mbind at 1, st_bind at 1. erewrite loopM_exit.
  2:{ unfold hole_round. unfold mbind at 1, st_bind at 1, gets at 1. unfold find_vma_intersection.
      by rewrite find_vma_above by (done || (unfold TASK_SIZE in *; lia)). }
  rewrite Eu2, (proj2 (Z.leb_le _ _)) by (unfold TASK_SIZE in *; lia). by eexists.
Qed.
End Map.

(** * The call *)

Lemma on_mm_idle {A} p (m : mmm A) k t a :
  tasks k !! p = Some t → m (Mst (mm t) (k_res k)) = Ret (a, Mst (mm t) (k_res k)) → on_mm p m k = Ret (a, k).
Proof.
  intros Ht E. unfold on_mm. rewrite Ht, E. simpl. rewrite insert_id; [by destruct k|]. rewrite Ht. by destruct t.
Qed.

Section Call.
Context (c : kconf) (overcommit_never : bool) (hugetlb_error : Z).
Context (a len : Z) (Ha : (PAGESIZE | a)) (Hd : (PAGESIZE | len)) (H0 : 0 ≤ a) (Hl : 0 < len) (Ht : a + len ≤ TASK_SIZE).
Context (Hsec : ∀ x, -4095 ≤ security_file_mmap c x ≤ 0).

(** The range is reserved without access, or nothing changes. *)
Definition reserved (f g : Z → option (bool * Z)) : Prop :=
  changed g f a (a + len) (Some (true, 0)) ∨ ∀ x, g x = f x.
Lemma reserved_ext f g f' g' : (∀ x, f' x = f x) → (∀ x, g' x = g x) → reserved f g → reserved f' g'.
Proof using Type. intros Hf Hg [H|H]; [left|right]; intros x; rewrite Hg, H; [case_decide|]; done. Qed.

(** The tasks [ps] have room for the range. *)
Definition rooms (ps : list Z) (k : kernel) : Prop :=
  k_res k = [] ∧ ∀ p t, p ∈ ps → tasks k !! p = Some t → brk_room c (Mst (mm t) []) a len.

Definition reserve (at_ prot p : Z) : km unit :=
  t ← get_task p; on_mm p (do_absys_vma_propagate c overcommit_never (personality t) at_ len prot AB_MMAP_FLAGS);; mret tt.

Lemma quiet_propagate pers at_ prot : quiet (do_absys_vma_propagate c overcommit_never pers at_ len prot AB_MMAP_FLAGS).
Proof using Type.
  assert (H : ∀ b n f vf pg, quiet (propagate_region c overcommit_never b n f vf pg)) by (intros; unfold propagate_region; quiet; done).
  unfold do_absys_vma_propagate. quiet; try apply H. apply quiet_loop. intros v. unfold hole_round. quiet; apply H.
Qed.

Lemma reserve_spec k p t prot :
  tasks_ok k → tasks k !! p = Some t → (∀ x, a ≤ x < a + len → kview k p x = None) →
  ∃ k', reserve a prot p k = Ret (tt, k') ∧ remaps p k k' ∧ reserved (kview k p) (kview k' p) ∧
    (k_res k = [] → k_res k' = [] ∧
      (brk_room c (Mst (mm t) []) a len → changed (kview k' p) (kview k p) a (a + len) (Some (true, 0)))).
Proof using Ha Hd H0 Hl Ht Hsec.
  intros T Htp Hf. destruct (T _ _ Htp) as [W D]. set (s := Mst (mm t) (k_res k)).
  destruct (propagate_spec c overcommit_never a len Ha Hd H0 Hl Ht Hsec s (personality t) prot W D) as (r & s1 & E & (L & _ & Hr) & Hs).
  { intros x Hx. simpl. rewrite <-(view_of _ _ _ x Htp). auto. }
  destruct (on_mm_remaps p _ k t r s1 Htp T E (lk_brk _ _ _ _ _ _ L) (lk_wf _ _ _ _ _ _ L)) as (k' & Ek & R & Eres & Hv).
  exists k'. unfold reserve. rewrite (bind_ret (get_task p) _ k t k) by (unfold get_task; by rewrite Htp).
  rewrite (bind_ret _ _ _ _ _ Ek). split; [done|]. split; [done|].
  assert (Hc : r = a → changed (kview k' p) (kview k p) a (a + len) (Some (true, 0))).
  { intros Er x. rewrite Hv, (view_of _ _ _ _ Htp). case_decide as Hx; [|by apply L].
    rewrite (lk_in _ _ _ _ _ _ L x Er Hx). f_equal. apply (new_flags_view (def_flags (mm t)) (exec_prot (personality t) prot) D). }
  split.
  - destruct Hs as [Er|Es]; [by left; apply Hc|right]. intros x. by rewrite Hv, Es, (view_of _ _ _ _ Htp).
  - intros Hres. split; [rewrite Eres; by apply (quiet_propagate _ _ _ _ _ _ E)|]. intros R0. apply Hc, Hr. unfold s. by rewrite Hres.
Qed.

Lemma reserve_others cur target ps k prot :
  tasks_ok k → (∀ p, p ∈ ps → is_Some (tasks k !! p)) → NoDup ps → let qs := filter (λ p, p ≠ cur ∧ p ≠ target) ps in
  (∀ q x, q ∈ qs → a ≤ x < a + len → kview k q x = None) →
  ∃ k', for_others cur target ps (reserve a prot) k = Ret (tt, k') ∧ each_task reserved qs k k' ∧
    (rooms qs k → ∀ q, q ∈ qs → changed (kview k' q) (kview k q) a (a + len) (Some (true, 0))).
Proof using Ha Hd H0 Hl Ht Hsec.
  intros T Hps Hnd qs Hf. subst qs. revert k T Hps Hf. induction ps as [|p ps IH]; intros k T Hps Hf; simpl.
  { exists k. split; [done|]. split; [by apply each_refl|]. intros _ q Hq. by apply elem_of_nil in Hq. }
  apply NoDup_cons in Hnd as [Hni Hnd]. destruct (decide (p ≠ cur ∧ p ≠ target)) as [[Hc Hp]|Hn].
  2:{ rewrite filter_cons_False in Hf |- * by done. replace ((p =? cur) || (p =? target)) with true.
      - apply IH; [done|done| |done]. intros q Hq. apply Hps. by right.
      - symmetry. apply orb_true_iff. rewrite !Z.eqb_eq. destruct (decide (p = cur)); [by left|right].
        destruct (decide (p = target)); [done|]. by destruct Hn. }
  rewrite filter_cons_True in Hf |- * by done. rewrite (proj2 (Z.eqb_neq p cur) Hc), (proj2 (Z.eqb_neq p target) Hp). cbn [orb].
  set (qs := filter _ ps) in *. assert (Hpq : p ∉ qs) by (unfold qs; rewrite list_elem_of_filter; tauto).
  destruct (Hps p ltac:(by left)) as [t Htp].
  destruct (reserve_spec k p t prot T Htp) as (k1 & E1 & R & V & Hr); [intros x; apply Hf; by left|].
  rewrite (bind_ret _ _ _ _ _ E1). destruct (IH Hnd k1 (rm_ok _ _ _ R)) as (k' & E' & X & Hx).
  { intros q Hq. rewrite (rm_other _ _ _ R) by (by intros ->). apply Hps. by right. }
  { intros q x Hq Hx. rewrite (remaps_view p k k1) by (done || by intros ->). apply Hf; [by right|done]. }
  exists k'. split; [done|]. split; [apply each_cons with k1; try done; apply reserved_ext|].
  intros [Hres Hroom]. destruct (Hr Hres) as [Hres1 Hch].
  assert (Hroom1 : rooms qs k1).
  { split; [done|]. intros q t' Hq. rewrite (rm_other _ _ _ R) by (by intros ->). apply Hroom. by right. }
  intros q [->|Hq]%elem_of_cons x.
  - unfold kview at 1. rewrite (et_other _ _ _ _ X) by done. apply Hch. apply (Hroom p); [by left|done].
  - rewrite (Hx Hroom1 q Hq x). case_decide; [done|]. apply remaps_view with p; [done|]. by intros ->.
Qed.

(** An error code as the address: nothing happens. *)
Lemma reserve_error cur target ps k prot e :
  tasks_ok k → (∀ p, p ∈ ps → is_Some (tasks k !! p)) → error e →
  for_others cur target ps (reserve e prot) k = Ret (tt, k).
Proof using Ha Hd H0 Hl Ht.
  intros T Hps He. induction ps as [|p ps IH]; simpl; [done|].
  assert (E : (if (p =? cur) || (p =? target) then mret tt else reserve e prot p) k = Ret (tt, k)).
  { destruct (_ || _); [done|]. destruct (Hps p ltac:(by left)) as [t Htp]. destruct (T _ _ Htp) as [W _].
    unfold reserve. rewrite (bind_ret (get_task p) _ k t k) by (unfold get_task; by rewrite Htp).
    destruct (propagate_error c overcommit_never a len Ha Hd H0 Hl Ht (Mst (mm t) (k_res k)) (personality t) prot e W He) as (r & E).
    by rewrite (bind_ret _ _ _ _ _ (on_mm_idle _ _ _ _ _ Htp E)). }
  rewrite (bind_ret _ _ _ _ _ E). apply IH. intros q Hq. apply Hps. by right.
Qed.

(** The result [r] of mapping the range with access [w] for [p] *)
Record mmap_done (k : kernel) (l : list Z) (p w r : Z) (k' : kernel) : Prop := {
  md_tasks : same_tasks k k';
  md_ok : tasks_ok k';
  md_ret : r = a ∨ error r;
  md_target : r = a → changed (kview k' p) (kview k p) a (a + len) (Some (true, w));
  md_siblings q : r = a → q ∈ l → q ≠ p → reserved (kview k q) (kview k' q);
  md_error q x : r ≠ a → q ≠ p ∨ ¬ a ≤ x < a + len → kview k' q x = kview k q x;
  md_other q : q ∉ l → tasks k' !! q = tasks k !! q;
  md_brk q t t' : tasks k !! q = Some t → tasks k' !! q = Some t' → ab_brk (mm t') = ab_brk (mm t);
}.

(** The target failed. *)
Lemma mmap_failed k l p w r k1 :
  remaps p k k1 → p ∈ l → error r → (∀ x, ¬ a ≤ x < a + len → kview k1 p x = kview k p x) → mmap_done k l p w r k1.
Proof using Ha.
  intros R Hp Hr Hv. assert (Hra : r ≠ a) by (destruct Hr as (e & He & ->); by apply error_unaligned).
  split; try done; [apply R|apply R|by right| | |].
  - intros q x _ Hx. destruct (decide (q = p)) as [->|]; [apply Hv; tauto|by apply remaps_view with p].
  - intros q Hq. apply R. by intros ->.
  - intros q t t'. by apply remaps_brk with p.
Qed.
(** The target got the range and the others were visited. *)
Lemma mmap_mapped k l p w k1 qs k2 :
  remaps p k k1 → p ∈ l → (∀ q, q ∈ qs ↔ q ∈ l ∧ q ≠ p) →
  changed (kview k1 p) (kview k p) a (a + len) (Some (true, w)) → each_task reserved qs k1 k2 → mmap_done k l p w a k2.
Proof using Type.
  intros R Hp Hqs Hc X. split; [etrans; [apply R|apply X]|apply X|by left| | |done| |].
  - intros _ x. unfold kview at 1. rewrite (et_other _ _ _ _ X) by (rewrite Hqs; tauto). apply Hc.
  - intros q _ Hq Hne. eapply reserved_ext; [| |apply (et_in _ _ _ _ X q); by apply Hqs]; [|done].
    intros x. symmetry. by apply remaps_view with p.
  - intros q Hq. rewrite (et_other _ _ _ _ X) by (rewrite Hqs; tauto). apply R. by intros ->.
  - intros q t t'. by apply (each_brk reserved qs p k k1 k2).
Qed.

Lemma quiet_mmap_target cm pers prot pgoff :
  quiet (do_absys_mmap_pgoff c overcommit_never hugetlb_error cm pers a len prot AB_MMAP_FLAGS pgoff).
Proof using Type. unfold do_absys_mmap_pgoff, absys_mmap_region. quiet. Qed.

Lemma absys_mmap_spec k cur l p t prot pgoff :
  group k cur l → p ∈ l → tasks_ok k → tasks k !! p = Some t →
  (∀ q x, q ∈ l → q ≠ p → a ≤ x < a + len → kview k q x = None) →
  ∃ r k', sys_absys_mmap c overcommit_never hugetlb_error cur p a len prot AB_MMAP_FLAGS pgoff k = Ret (r, k') ∧
    mmap_done k l p (calc_vm_prot_bits (exec_prot (personality t) prot)) r k' ∧
    (rooms l k → pgoff ≤ u32 (pgoff + Z.shiftr len PAGE_SHIFT) →
     r = a ∧ ∀ q, q ∈ l → q ≠ p → changed (kview k' q) (kview k q) a (a + len) (Some (true, 0))).
Proof using Ha Hd H0 Hl Ht Hsec.
  intros G Hp T Htp Hf. destruct (controls_task _ _ _ _ G Hp) as (Ec & _).
  assert (Eg : get_task p k = Ret (t, k)) by (unfold get_task; by rewrite Htp).
  destruct (gr_arbiter _ _ _ G) as (ct & Hct & _).
  unfold sys_absys_mmap. change (Z.land AB_MMAP_FLAGS _) with AB_MMAP_FLAGS. change (flag AB_MMAP_FLAGS MAP_ANONYMOUS) with true.
  cbn [negb]. rewrite (bind_ret _ _ _ _ _ Ec). cbn [negb].
  rewrite (bind_ret (get_task cur) _ k ct k) by (unfold get_task; by rewrite Hct). rewrite (bind_ret _ _ _ _ _ Eg).
  destruct (T _ _ Htp) as [W D]. set (s := Mst (mm t) (k_res k)).
  destruct (mmap_target_spec c overcommit_never hugetlb_error a len Ha Hd H0 Hl Ht Hsec s (mm ct) (personality t) prot pgoff W D)
    as (r & s1 & E & L & Her & Hok).
  destruct (on_mm_remaps p _ k t r s1 Htp T E (lk_brk _ _ _ _ _ _ L) (lk_wf _ _ _ _ _ _ L)) as (k1 & Ek & R & Eres & Hv).
  rewrite (bind_ret _ _ _ _ _ Ek), (bind_ret (gets tasks) _ k1 (tasks k1) k1) by done.
  destruct (group_others k1 cur l p) as (others & Eo & Hnd & Hsome & Hmem); [by eapply group_same; [apply R|]|done|].
  rewrite (bind_ret (lift _) _ k1 others k1) by (by rewrite Eo). fold (reserve r prot).
  assert (Hout : ∀ x, ¬ a ≤ x < a + len → kview k1 p x = kview k p x).
  { intros x Hx. rewrite Hv, (view_of _ _ _ _ Htp). by apply L. }
  assert (Hroom : rooms l k → pgoff ≤ u32 (pgoff + Z.shiftr len PAGE_SHIFT) → r = a).
  { intros [Hres Hr] Hpg. apply Hok. split; [|done]. unfold s. rewrite Hres. by apply (Hr p). }
  destruct Her as [->|Her].
  2:{ rewrite (bind_ret _ _ _ _ _ (reserve_error cur p others k1 prot r (rm_ok _ _ _ R) Hsome Her)). exists r, k1. split; [done|].
      split; [by apply mmap_failed|]. intros H1 H2. destruct Her as (e & He & Ee). pose proof (error_unaligned e a He Ha).
      pose proof (Hroom H1 H2). congruence. }
  destruct (reserve_others cur p others k1 prot (rm_ok _ _ _ R) Hsome Hnd) as (k2 & E2 & X & Hx).
  { intros q x Hq Hx. apply Hmem in Hq as [H1 H2]. rewrite (remaps_view p k k1) by done. auto. }
  rewrite (bind_ret _ _ _ _ _ E2). exists a, k2. split; [done|]. split.
  - eapply mmap_mapped; [done|done|exact Hmem| |done]. intros x. case_decide as Hin; [|by apply Hout].
    rewrite Hv, (lk_in _ _ _ _ _ _ L) by done. f_equal. apply (new_flags_view (def_flags (mm t)) (exec_prot (personality t) prot) D).
  - intros [Hres Hr] _. split; [done|]. intros q H1 H2 x. rewrite Hx; [| |by apply Hmem].
    + case_decide; [done|]. by apply remaps_view with p.
    + split; [rewrite Eres; by apply (quiet_mmap_target _ _ _ _ _ _ _ E)|].
      intros q' t' [Hq Hne]%Hmem. rewrite (rm_other _ _ _ R) by done. by apply Hr.
Qed.

(** C14: [absys_mmap] with the flags of [AB_MMAP], on an aligned range in which
    the siblings of the named child have no page, returns the address or an
    error.  With the address, the child has exactly the range with the
    requested access, and every sibling either has the range reserved without
    access or is unchanged; with an error no sibling changes, nor does the
    child outside the range.  Tasks outside the group and the break are not
    affected.  When every child has room it succeeds and all siblings have the
    range reserved. *)
Theorem absys_mmap_exact k cur l p t prot pgoff :
  group k cur l → p ∈ l → tasks_ok k → tasks k !! p = Some t →
  (∀ q x, q ∈ l → q ≠ p → a ≤ x < a + len → kview k q x = None) →
  ∃ r k', sys_absys_mmap c overcommit_never hugetlb_error cur p a len prot AB_MMAP_FLAGS pgoff k = Ret (r, k') ∧
    mmap_done k l p (calc_vm_prot_bits (exec_prot (personality t) prot)) r k' ∧
    (rooms l k → pgoff ≤ u32 (pgoff + Z.shiftr len PAGE_SHIFT) →
     r = a ∧ ∀ q, q ∈ l → q ≠ p → changed (kview k' q) (kview k q) a (a + len) (Some (true, 0))).
Proof using Ha Hd H0 Hl Ht Hsec. apply absys_mmap_spec. Qed.
End Call.

(** A page behind the break area for the child 101 *)
Lemma absys_mmap_exact_witness :
  ∃ k', sys_absys_mmap conf0 false 0 1 101 heap_end (10 * PAGESIZE) 3 AB_MMAP_FLAGS 0 k0 = Ret (heap_end, k') ∧
    kview k' 101 heap_end = Some (true, 3) ∧ kview k' 100 heap_end = Some (true, 0).
Proof.
  assert (Hr : rooms conf0 heap_end (10 * PAGESIZE) [101; 100] k0).
  { split; [done|]. intros p t Hp Ht. destruct (proj2 k0_rooms p t Hp Ht) as [Hr _].
    by replace (heap_end + 10 * PAGESIZE - heap_end) with (10 * PAGESIZE) in Hr by lia. }
  destruct (absys_mmap_exact conf0 false 0 heap_end (10 * PAGESIZE) ltac:(by apply aligned_divide) ltac:(by apply aligned_divide)
    ltac:(by vm_compute) ltac:(by vm_compute) ltac:(by vm_compute) ltac:(intros x; simpl; lia)
    k0 1 [101; 100] 101 _ 3 0 k0_group ltac:(by left) k0_ok eq_refl) as (r & k' & E & D & H).
  { intros q x Hq Hne Hx. unfold kview. destruct (tasks k0 !! q) as [t|] eqn:Ht; [|done]. by apply (proj2 Hr q t Hq Ht). }
  destruct (H Hr ltac:(by vm_compute)) as [-> Hs]. exists k'. split; [exact E|]. split.
  - rewrite (md_target _ _ _ _ _ _ _ _ D eq_refl). by vm_compute.
  - rewrite (Hs 100 ltac:(by right; left) ltac:(done)). by vm_compute.
Defined.
