(* ===== verification/KernelLaws.v ===== *)
(** The modified kernel keeps the promises the arbiter relies on: the calls of
    [Kernel], seen through the [syscall] wrappers of [ab_os_interface.h],
    satisfy the laws of the interface [AbOsLaws].

    What is asked of the kernel: its allocator and its commit accounting do not
    fail, [vm.max_map_count] is above the number of areas an address space can
    have, and the security module does not object to [mprotect]. *)

From S2P Require Import Prelude Chunk Os Pte Vma VmaSpec Kernel Resources Mprotect Regions Group KernelSpec Fork Unmap Map.

(** * Pages *)

(** All addresses of a page have the same owner and access. *)
Lemma view_page l x : wf_mmap l → view_at l x = view_at l (x / PAGESIZE * PAGESIZE).
Proof.
  unfold wf_mmap. generalize 0. induction l as [|v l IH]; intros lo; simpl; [done|].
  intros (_ & (_ & [i Hi] & [j Hj] & _) & Hs). rewrite Hi, Hj. unfold PAGESIZE in *.
  pose proof (Z.div_mod x 4096 ltac:(lia)). pose proof (Z.mod_pos_bound x 4096 ltac:(lia)).
  rewrite (IH _ Hs). cmps.
Qed.

(** A request that [mprotect] rejects or that is empty *)
Lemma do_mprotect_idle c guard pers start len prot s :
  0 ≤ prot < 8 → 0 ≤ start →
  page_aligned start = false ∨ len = 0 ∨ PAGE_ALIGN len = 0 ∨ 2 ^ 32 ≤ start + PAGE_ALIGN len →
  ∃ r, do_mprotect c guard pers start len prot s = Ret (r, s).
Proof.
  intros Hpr Hs Hc. destruct (plain_prot prot Hpr) as (G & P1 & P2). unfold do_mprotect. rewrite G, P1, P2.
  change (0 =? Z.lor PROT_GROWSDOWN PROT_GROWSUP) with false. destruct (page_aligned start); cbn [negb]; [|by eexists].
  destruct (Z.eqb_spec len 0); [by eexists|]. destruct Hc as [|[|Hc]]; [done|done|].
  replace (u32 (start + PAGE_ALIGN len) <=? start) with true; [by eexists|]. symmetry. apply Z.leb_le.
  pose proof (page_align_word len). pose proof (u32_bound (start + PAGE_ALIGN len)).
  destruct (Z.lt_ge_cases start (2 ^ 32)); [|lia]. destruct Hc as [->|Hc]; [rewrite u32_small; lia|].
  unfold u32. rewrite <-(Z.mod_unique_pos (start + PAGE_ALIGN len) (2 ^ 32) 1 (start + PAGE_ALIGN len - 2 ^ 32)); lia.
Qed.

Section Laws.
Context (c : kconf) (overcommit_never : bool) (hugetlb_error pgoff cur : Z).
Context (Hcount : MAX_AREAS < sysctl_max_map_count c).
Context (Hprot : ∀ v a b, security_file_mprotect c v a b = 0).
Context (Hmmap : ∀ a, -4095 ≤ security_file_mmap c a ≤ 0).

(** [syscall]: the error codes of the kernel become -1. *)
Definition syscall_ret (r : Z) : Z := if IS_ERR_VALUE (u32 r) then ERR else u32 r.
Definition syscall (m : km Z) (k : kernel) : outcome (Z * kernel) :=
  '(r, k') ← m k; Ret (syscall_ret r, k').

#[local] Instance kernel_os : AbOs kernel := {
  absys_mmap k p a len prot := syscall (sys_absys_mmap c overcommit_never hugetlb_error cur p a len prot AB_MMAP_FLAGS pgoff) k;
  absys_brk k p a := syscall (sys_absys_brk c cur p a) k;
  absys_munmap k p a len := syscall (sys_absys_munmap c cur p a len) k;
  absys_mprotect k p a len prot := syscall (sys_absys_mprotect c cur p a len prot) k;
}.

(** A child of the arbiter [cur] in a kernel whose areas are in order *)
Definition kmember (k : kernel) (q : Z) : Prop := k_res k = [] ∧ tasks_ok k ∧ ∃ l, group k cur l ∧ q ∈ l.
(** The access that the child has to a page of the arbiter; the processor reads
    what it may execute. *)
Definition effective (w : Z) : Z := if Z.testbit w 2 then Z.lor (Z.land w 3) PROT_READ else Z.land w 3.
Definition kprot (k : kernel) (q g : Z) : option Z :=
  match kview k q (g * PAGESIZE) with Some (true, w) => Some (effective w) | _ => None end.
Lemma effective_same flags b : 0 ≤ b < 4 → same_access flags b → effective flags = b.
Proof using Type.
  intros Hb [H3 Hx]. unfold effective. rewrite H3. assert (b = 0 ∨ b = 1 ∨ b = 2 ∨ b = 3) as Hc by lia.
  destruct (Z.testbit flags 2); [|destruct_or! Hc; by subst b]. specialize (Hx eq_refl).
  destruct_or! Hc; subst b; vm_compute in Hx; by destruct Hx.
Qed.
Definition kbrk (k : kernel) : Z := match tasks k !! cur with Some t => ab_brk (mm t) | None => 0 end.

Lemma syscall_inv m k r k' : syscall m k = Ret (r, k') → ∃ r0, m k = Ret (r0, k') ∧ r = syscall_ret r0.
Proof using Type. unfold syscall. destruct (m k) as [[r0 k0]|]; [|done]. intros [= <- <-]. eauto. Qed.

Lemma members_same k k' p :
  same_tasks k k' → tasks_ok k' → k_res k' = [] → kmember k p → ∀ q, kmember k' q ↔ kmember k q.
Proof using Type.
  intros Hs T Hr (H1 & H2 & l & G & _) q. pose proof (group_same _ _ _ _ Hs G) as G'.
  split; intros (_ & _ & l' & Gl & Hq); (split; [done|]); (split; [done|]); exists l; (split; [done|]).
  - by rewrite (group_det _ _ _ _ G' Gl).
  - by rewrite (group_det _ _ _ _ G Gl).
Qed.

(** * [absys_mprotect] *)

Lemma kernel_mprotect_total k p a len b :
  kmember k p → 0 ≤ a → ∃ rc k', absys_mprotect k p a len b = Ret (rc, k').
Proof using Type.
  intros (_ & T & l & G & Hp) Ha. simpl. unfold syscall, sys_absys_mprotect.
  destruct (controls_task _ _ _ _ G Hp) as (Ec & t & Ht & Eg). rewrite (bind_ret _ _ _ _ _ Ec). cbn [negb].
  rewrite (bind_ret _ _ _ _ _ Eg). unfold on_mm. rewrite Ht.
  destruct (do_mprotect_frame c (λ _, false) (λ _, False) (λ _ _ H, H) (personality t) a len b (Mst (mm t) (k_res k)))
    as (r & s1 & E & _); [apply (to_wf _ (T _ _ Ht))|done|]. rewrite E. by eexists _, _.
Qed.

Lemma kernel_mprotect_cases k p a len b r k' :
  sys_absys_mprotect c cur p a len b k = Ret (r, k') → kmember k p → 0 ≤ a → 0 ≤ len → 0 ≤ b < 4 →
  k' = k ∧ (page_aligned a = false ∨ len = 0 ∨ PAGE_ALIGN len = 0 ∨ 2 ^ 32 ≤ a + PAGE_ALIGN len) ∨
  remaps p k k' ∧ ∃ flags, effective flags = b ∧
    protects (λ _, False) flags a (a + PAGE_ALIGN len) (kview k p) (kview k' p) r ∧
    ((∀ x, a ≤ x < a + PAGE_ALIGN len → ∃ w, kview k p x = Some (true, w)) → r = 0).
Proof using Hcount Hprot.
  intros E (Hres & T & l & G & Hp) Ha Hl Hb.
  destruct (decide (page_aligned a = false ∨ len = 0 ∨ PAGE_ALIGN len = 0 ∨ 2 ^ 32 ≤ a + PAGE_ALIGN len)) as [Hc|Hc].
  - left. split; [|done]. destruct (controls_task _ _ _ _ G Hp) as (Ec & t & Ht & Eg).
    unfold sys_absys_mprotect in E. rewrite (bind_ret _ _ _ _ _ Ec) in E. cbn [negb] in E. rewrite (bind_ret _ _ _ _ _ Eg) in E.
    destruct (do_mprotect_idle c (λ _, false) (personality t) a len b (Mst (mm t) (k_res k))) as (r' & E'); [lia|done|done|].
    rewrite (on_mm_idle _ _ _ _ _ Ht E') in E. by injection E as _ <-.
  - right. pose proof (page_align_word len). destruct (page_aligned a) eqn:Hal; [|by destruct Hc; left].
    destruct (absys_mprotect_spec c k cur l p a len b G Hp T Ha Hal) as (r' & k1 & flags & E' & R & Hf & P & Hok); [lia..|].
    rewrite E in E'. injection E' as <- <-. split; [done|]. exists flags. split; [by apply effective_same|split; [done|auto]].
Qed.

Lemma kprot_protects flags a e k p k' r g :
  protects (λ _, False) flags a e (kview k p) (kview k' p) r →
  kprot k' p g = kprot k p g ∨ a ≤ g * PAGESIZE < e ∧ kprot k' p g = Some (effective flags).
Proof using Type.
  intros P. unfold kprot. destruct (decide (a ≤ g * PAGESIZE < e)) as [Hg|Hg]; [|left; by rewrite (pt_out _ _ _ _ _ _ _ P)].
  destruct (pt_in _ _ _ _ _ _ _ P _ Hg) as [->|(b & w & H1 & H2)]; [by left|]. rewrite H1, H2. destruct b; [by right|by left].
Qed.

Lemma kernel_mprotect_frame k p a len b rc k' :
  absys_mprotect k p a len b = Ret (rc, k') → kmember k p → 0 ≤ a → 0 ≤ len → 0 ≤ b < 4 →
  (∀ q, kmember k' q ↔ kmember k q) ∧ kbrk k' = kbrk k ∧
  ∀ q g, kprot k' q g = kprot k q g ∨ (q = p ∧ in_pages a (PAGE_ALIGN len) g ∧ kprot k' q g = Some b).
Proof using Hcount Hprot.
  intros (r & E & _)%syscall_inv M Ha Hl Hb. pose proof (kquiet_absys_mprotect _ _ _ _ _ _ _ _ _ E) as Hq.
  destruct (kernel_mprotect_cases _ _ _ _ _ _ _ E M Ha Hl Hb) as [[-> _]|(R & flags & Hf & P & _)].
  { split; [done|]. split; [done|]. by left. }
  pose proof M as (Hres & _ & l & G & Hp).
  split; [eapply members_same; [apply R|apply R|by apply Hq|done]|].
  assert (Hne : cur ≠ p) by (intros <-; by apply (group_not_cur _ _ _ G)).
  split; [unfold kbrk; by rewrite (rm_other _ _ _ R)|].
  intros q g. destruct (decide (q = p)) as [->|Hqp].
  - destruct (kprot_protects _ _ _ _ _ _ _ g P) as [|[Hg ->]]; [by left|]. right. by rewrite Hf.
  - left. unfold kprot. by rewrite (remaps_view _ _ _ _ _ R).
Qed.

(** A range of pages of the arbiter *)
Lemma kprot_range k p a n x :
  tasks_ok k → page_aligned a = true → (∀ g, in_pages a n g → is_Some (kprot k p g)) → a ≤ x < a + n →
  ∃ w, kview k p x = Some (true, w).
Proof using Type.
  intros T Hal Hg Hx. apply aligned_divide in Hal as [i Hi]. unfold PAGESIZE in *.
  pose proof (Z.div_mod x 4096 ltac:(lia)). pose proof (Z.mod_pos_bound x 4096 ltac:(lia)).
  destruct (Hg (x / 4096)) as [b Hb]; [unfold in_pages, PAGESIZE; lia|].
  assert (Hv : kview k p x = kview k p (x / 4096 * 4096)).
  { unfold kview. destruct (tasks k !! p) as [t|] eqn:Ht; [|done]. apply (view_page _ x (to_wf _ (T _ _ Ht))). }
  rewrite Hv. unfold kprot, PAGESIZE in Hb. destruct (kview k p (x / 4096 * 4096)) as [[[] w]|]; [by eexists|done..].
Qed.

Lemma kernel_mprotect_ok k p a len b rc k' :
  absys_mprotect k p a len b = Ret (rc, k') → kmember k p →
  0 ≤ a → page_aligned a = true → 0 < len → a + len ≤ TASK_SIZE → 0 ≤ b < 4 →
  (∀ g, in_pages a (PAGE_ALIGN len) g → is_Some (kprot k p g)) →
  ∀ g, in_pages a (PAGE_ALIGN len) g → kprot k' p g = Some b.
Proof using Hcount Hprot.
  intros (r & E & _)%syscall_inv M Ha Hal Hl Hhi Hb Hmap g Hg.
  assert (Hpl : len ≤ PAGE_ALIGN len < len + PAGESIZE) by (apply page_align_bound; unfold TASK_SIZE, PAGESIZE in *; lia).
  destruct (kernel_mprotect_cases _ _ _ _ _ _ _ E M Ha ltac:(lia) Hb) as [[_ Hc]|(R & flags & Hf & P & Hok)].
  { exfalso. destruct Hc as [|[|[|]]]; try congruence; try lia. unfold TASK_SIZE, PAGESIZE in *. lia. }
  assert (r = 0) as ->. { apply Hok. intros x. destruct M as (_ & T & _). by eapply kprot_range. }
  destruct (pt_all _ _ _ _ _ _ _ P (g * PAGESIZE) eq_refl Hg) as (bo & w & H1 & H2).
  destruct (Hmap g Hg) as [b' Hb']. unfold kprot in *. rewrite H1 in Hb'. rewrite H2. destruct bo; [|done]. by rewrite Hf.
Qed.

(** * [absys_brk] *)

Lemma brk_ret b : 0 ≤ b < 2 ^ 32 - PAGESIZE → syscall_ret b = b.
Proof using Type.
  intros Hb. unfold syscall_ret, IS_ERR_VALUE. rewrite (u32_small b) by (unfold PAGESIZE in *; lia).
  change (u32 (- 4095)) with 4294963201. rewrite (proj2 (Z.leb_gt _ _)); [done|]. unfold PAGESIZE in Hb. lia.
Qed.

Lemma kernel_brk_spec k p a r k' :
  absys_brk k p a = Ret (r, k') → kmember k p → 0 ≤ a < 2 ^ 32 - PAGESIZE →
  page_aligned a = true → page_aligned (kbrk k) = true → AB_HEAP_START ≤ kbrk k ≤ TASK_SIZE →
  (∀ q, kmember k' q ↔ kmember k q) ∧ r = kbrk k' ∧ (r = a ∨ r = kbrk k) ∧
  (∀ q g, kprot k' q g = kprot k q g ∨ in_pages (kbrk k) (a - kbrk k) g) ∧
  (kbrk k < a → r = a → a ≤ TASK_SIZE ∧
   ∀ q g, kmember k q → in_pages (kbrk k) (a - kbrk k) g → kprot k' q g = Some (Z.lor PROT_READ PROT_WRITE)).
Proof using Hmmap.
  intros (r0 & E & ->)%syscall_inv M Ha Haa Hba Hb. pose proof (kquiet_absys_brk _ _ _ _ _ _ _ E) as Hq.
  pose proof M as (Hres & T & l & G & Hp). destruct (gr_arbiter _ _ _ G) as (t & Ht & _).
  assert (Hk : kbrk k = ab_brk (mm t)) by (unfold kbrk; by rewrite Ht). rewrite Hk in *.
  destruct (absys_brk_spec c Hmmap k cur l p t a G Hp T Ht) as (r & k1 & E1 & D & _); [unfold PAGESIZE in *; lia|done|].
  rewrite E in E1. injection E1 as <- <-. destruct (bd_brk _ _ _ _ _ _ _ D) as (t' & Ht' & Hm).
  assert (Hab : 0 ≤ ab_brk (mm t) < 2 ^ 32 - PAGESIZE) by (unfold AB_HEAP_START, TASK_SIZE, PAGESIZE in *; lia).
  assert (Hr : syscall_ret r0 = r0) by (destruct (bd_ret _ _ _ _ _ _ _ D) as [-> | ->]; by apply brk_ret). rewrite Hr.
  assert (Hk' : kbrk k' = r0) by (unfold kbrk; rewrite Ht', Hm; done).
  split; [eapply members_same; [apply D|apply D|by apply Hq|done]|]. split; [done|]. split; [apply D|].
  destruct D as [_ _ _ _ Hout _ Hin]. rewrite !page_align_aligned in Hout, Hin by done. split.
  - intros q g. destruct (decide (in_pages (ab_brk (mm t)) (a - ab_brk (mm t)) g)) as [|Hn]; [by right|]. left.
    unfold kprot. rewrite Hout; [done|]. unfold in_pages in Hn. lia.
  - intros Hlt Hra. destruct (Hin Hlt Hra) as [Hsz Hx]. split; [done|]. intros q g (_ & _ & l' & G' & Hq') Hg.
    rewrite (group_det _ _ _ _ G' G) in Hq'. unfold in_pages in Hg.
    destruct (Hx q (g * PAGESIZE) Hq' ltac:(lia)) as (_ & w & Hw & H3). unfold kprot. rewrite Hw.
    unfold effective. rewrite H3. by destruct (Z.testbit w 2).
Qed.

(** * [absys_munmap] *)

Lemma kernel_munmap_spec k p a len r k' :
  absys_munmap k p a len = Ret (r, k') → kmember k p → 0 ≤ a → 0 ≤ len →
  (∀ q, kmember k' q ↔ kmember k q) ∧ kbrk k' = kbrk k ∧
  ∀ q g, kprot k' q g = kprot k q g ∨ kprot k' q g = None.
Proof using Type.
  intros (r0 & E & ->)%syscall_inv M Ha Hl. pose proof M as (Hres & T & l & G & Hp).
  destruct (absys_munmap_spec c k cur l p a len G Hp T Ha Hl) as (r & k1 & E1 & _ & S & T' & Hbad & Hok & Hout & _ & Hq).
  rewrite E in E1. injection E1 as <- <-. split; [eapply members_same; [exact S|exact T'|by apply Hq|done]|].
  pose proof (group_not_cur _ _ _ G) as Hcur. split; [unfold kbrk; by rewrite Hout|]. intros q g. unfold kprot.
  destruct (decide (q ∈ l)) as [Hql|]; [|left; unfold kview; by rewrite Hout].
  destruct (decide (r0 = 0)) as [Hr|Hr]; [|left; by rewrite Hbad]. destruct (Hok Hr) as [H1 H2].
  destruct (decide (q = p)) as [->|Hne].
  - rewrite H1. case_decide; [by right|by left].
  - destruct (cd_only _ _ _ _ (proj2 (H2 q Hql Hne)) (g * PAGESIZE)) as [->|[-> _]]; [by left|by right].
Qed.

#[local] Instance kernel_laws : AbOsLaws kernel := {
  os_member := kmember;
  os_prot := kprot;
  os_brk := kbrk;
  mprotect_frame := kernel_mprotect_frame;
  mprotect_total := kernel_mprotect_total;
  mprotect_ok := kernel_mprotect_ok;
  brk_spec := kernel_brk_spec;
  munmap_spec := kernel_munmap_spec;
}.
End Laws.
