(* ===== verification/Fault.v ===== *)
(** Page faults: [do_page_fault] of [arch/x86/mm/fault.c] with the path the
    project adds for areas of the arbiter, the handlers of [mm/memory.c] below
    it, [abmap_get_page] of [kernel/absys_mmap.c], and what they call in
    [mm/mmap.c], [mm/rmap.c] and [mm/shmem.c].

    A fault holds the semaphores of the address spaces it changes and there is
    no reclaim in the model, so entries do not change under a handler and the
    tests for that are left out.  Nothing is swapped or migrated.  Pages of
    locked areas come in with their first fault.  Faults are those of user
    programs; the work-arounds for errata of processors are left out.  The
    operations of files other than shared memory objects are a parameter. *)

From S2P Require Import Prelude Chunk Os Pte Vma Kernel.

Definition EFAULT : Z := 14.
Definition EFBIG : Z := 27.
Definition ENOSPC : Z := 28.
Definition ERESTARTSYS : Z := 512.

(** * Results of handlers *)

Definition VM_FAULT_OOM : Z := 0x1.
Definition VM_FAULT_SIGBUS : Z := 0x2.
Definition VM_FAULT_WRITE : Z := 0x8.
Definition VM_FAULT_HWPOISON : Z := 0x10.
Definition VM_FAULT_NOPAGE : Z := 0x100.
Definition VM_FAULT_LOCKED : Z := 0x200.
Definition VM_FAULT_ERROR : Z := Z.lor VM_FAULT_OOM (Z.lor VM_FAULT_SIGBUS VM_FAULT_HWPOISON).

(** Bits of the error code of the processor *)
Definition PF_PROT : Z := 0x1.
Definition PF_WRITE : Z := 0x2.
Definition PF_USER : Z := 0x4.
Definition SEGV_MAPERR : Z := 1.
Definition SEGV_ACCERR : Z := 2.

(** What becomes of a faulting program: it retries the access, gets a signal,
    or waits for the out-of-memory killer. *)
Inductive fault_result := Handled | Sigsegv (si_code : Z) | Sigbus | OutOfMemory.

(** * The state *)

Definition k_take : km bool := λ k,
  match k_res k with
  | [] => Ret (true, k)
  | b :: r => Ret (b, Kern (tasks k) (ab_category_count k) r (k_phys k))
  end.
Definition set_phys (x : phys) (k : kernel) : kernel := Kern (tasks k) (ab_category_count k) (k_res k) x.
Definition upd_phys (f : phys → phys) : km unit := modify (λ k, set_phys (f (k_phys k)) k).
Definition get_mm (p : Z) : km mm_struct := t ← get_task p; mret (mm t).
Definition upd_mm_of (p : Z) (f : mm_struct → mm_struct) : km unit := upd_task p (λ t, set_mm (f (mm t)) t).

(** A page, by any of its addresses *)
Definition page_of (address : Z) : Z := Z.shiftr address PAGE_SHIFT.
Definition get_pte (p address : Z) : km (option pte_t) := m ← get_mm p; mret (pgd m !! page_of address).
Definition set_pte_at (p address : Z) (e : pte_t) : km unit :=
  upd_mm_of p (λ m, set_pgd (<[page_of address := e]> (pgd m)) m).

(** A pointer to the area of an address is followed by looking the area up. *)
Definition area_at (p address : Z) : km vm_area_struct :=
  m ← get_mm p;
  match find_vma (mmap m) address with Some v => mret v | None => fail KernelOops end.
Definition upd_area (p start : Z) (f : vm_area_struct → vm_area_struct) : km unit :=
  upd_mm_of p (λ m, set_mmap (map (λ v, if vm_start v =? start then f v else v) (mmap m)) m).

(** [alloc_page_vma] and the like: a frame with the given contents *)
Definition alloc_page (pg : page) : km (option Z) :=
  ok ← k_take;
  if negb ok then mret None else
  x ← gets k_phys;
  upd_phys (add_frame pg);;
  mret (Some (next_pfn x)).

(** The entries that map a frame, in all tables *)
Definition mapped_in (pfn : Z) (g : pgd_t) : nat := length (filter (λ ie, pte_pfn ie.2 = pfn) (map_to_list g)).
Definition page_mapcount (ts : gmap Z task_struct) (pfn : Z) : nat :=
  list_sum (map (λ pt, mapped_in pfn (pgd (mm pt.2))) (map_to_list ts)).
Definition reuse_swap_page (ts : gmap Z task_struct) (pfn : Z) : bool := (page_mapcount ts pfn =? 1)%nat.

(** [vm_normal_page]; special entries have no page to count. *)
Definition vm_normal_page (e : pte_t) : option Z := if pte_special e then None else Some (pte_pfn e).
Definition maybe_mkwrite (e : pte_t) (v : vm_area_struct) : pte_t :=
  if flag (vm_flags v) VM_WRITE then pte_mkwrite e else e.

(** * [anon_vma_prepare] and stacks *)

Definition near_flags (v near : vm_area_struct) : Z :=
  Z.lor (Z.land (vm_flags v) (not32 VM_ACCESS)) (Z.land (vm_flags near) VM_ACCESS).
Definition find_mergeable_anon_vma (m : mm_struct) (v : vm_area_struct) : Z :=
  match find_vma_prev [] (mmap m) (vm_start v) with
  | (rpre, _ :: rest) =>
      let try_prev :=
        match rpre with
        | near :: _ =>
            if negb (anon_vma near =? 0) && (vm_end near =? vm_start v) &&
               can_vma_merge_after (vm_file v) (near_flags v near) near 0 (vm_pgoff v)
            then anon_vma near else 0
        | [] => 0
        end in
      match rest with
      | near :: _ =>
          if negb (anon_vma near =? 0) && (vm_end v =? vm_start near) &&
             can_vma_merge_before (vm_file v) (near_flags v near) near 0 (u32 (vm_pgoff v + vma_pages v))
          then anon_vma near else try_prev
      | [] => try_prev
      end
  | (_, []) => 0
  end.

Definition anon_vma_prepare (p : Z) (v : vm_area_struct) : km Z :=
  if negb (anon_vma v =? 0) then mret 0 else
  m ← get_mm p;
  let a := find_mergeable_anon_vma m v in
  if negb (a =? 0) then upd_area p (vm_start v) (import_anon a);; mret 0 else
  ok ← k_take;
  if negb ok then mret (- ENOMEM) else
  x ← gets k_phys;
  upd_phys add_anon;;
  upd_area p (vm_start v) (import_anon (next_anon x));;
  mret 0.

Section Handlers.
Variable c : kconf.

Definition acct_stack_growth (p : Z) (v : vm_area_struct) (size grow : Z) : km Z :=
  m ← get_mm p;
  if negb (may_expand_vm c m grow) then mret (- ENOMEM) else
  if rlim_stack c <? size then mret (- ENOMEM) else
  let locked := flag (vm_flags v) VM_LOCKED in
  if locked && (rlim_memlock c <? locked_vm m + grow) && negb (cap_ipc_lock c) then mret (- ENOMEM) else
  ok ← k_take;
  if negb ok then mret (- ENOMEM) else
  upd_mm_of p (λ m, set_usage (total_vm m + grow) (if locked then locked_vm m + grow else locked_vm m) m);;
  mret 0.

(** [expand_stack] is [expand_downwards]. *)
Definition expand_stack (p : Z) (v : vm_area_struct) (address : Z) : km Z :=
  r ← anon_vma_prepare p v;
  if negb (r =? 0) then mret (- ENOMEM) else
  let address := Z.land address (not32 (PAGESIZE - 1)) in
  let error := security_file_mmap c address in
  if negb (error =? 0) then mret error else
  if address <? vm_start v then
    let grow := Z.shiftr (vm_start v - address) PAGE_SHIFT in
    error ← acct_stack_growth p v (vm_end v - address) grow;
    if negb (error =? 0) then mret error else
    upd_area p (vm_start v) (λ v, set_range address (vm_end v) (u32 (vm_pgoff v - grow)) v);;
    mret 0
  else mret 0.

Definition find_extend_vma (p addr : Z) : km (option vm_area_struct) :=
  let addr := Z.land addr (not32 (PAGESIZE - 1)) in
  m ← get_mm p;
  match find_vma (mmap m) addr with
  | None => mret None
  | Some v =>
      if vm_start v <=? addr then mret (Some v)
      else if negb (flag (vm_flags v) VM_GROWSDOWN) then mret None
      else
        r ← expand_stack p v addr;
        if negb (r =? 0) then mret None else
        v ← area_at p addr; mret (Some v)
  end.

(** * Shared memory objects *)

Definition SHMEM_MAX_INDEX : Z := 16 + 2 ^ 20 / 2 * 1025.

(** One round of [shmem_getpage] for a fault, an error or the frame.  The index
    of the swap vector, the blocks of the file system, the page, its charge and
    its place in the cache may be refused; the last leads to another round. *)
Definition shmem_getpage_round (file idx : Z) : km (unit + (Z + Z)) :=
  x ← gets k_phys;
  match page_cache x !! (file, idx) with
  | Some pfn => mret (inr (inr pfn))
  | None =>
      ok ← k_take;
      if negb ok then mret (inr (inl (- ENOMEM))) else
      ok ← k_take;
      if negb ok then mret (inr (inl (- ENOMEM))) else
      ok ← k_take;
      if negb ok then mret (inr (inl (- ENOSPC))) else
      page ← alloc_page (Page false ∅);
      match page with
      | None => mret (inr (inl (- ENOMEM)))
      | Some pfn =>
          ok ← k_take;
          if negb ok then mret (inr (inl (- ENOMEM))) else
          ok ← k_take;
          if negb ok then mret (inl tt) else
          upd_phys (add_cache file idx pfn);;
          mret (inr (inr pfn))
      end
  end.
Definition shmem_getpage (file idx : Z) : km (Z + Z) :=
  if SHMEM_MAX_INDEX <=? idx then mret (inl (- EFBIG)) else
  loopM (λ _, shmem_getpage_round file idx) tt.

(** The flags of the result and the frame *)
Definition shmem_fault (file size pgoff : Z) : km (Z * Z) :=
  if size <=? Z.shiftl pgoff PAGE_SHIFT then mret (VM_FAULT_SIGBUS, 0) else
  r ← shmem_getpage file pgoff;
  match r with
  | inl error => mret (if error =? - ENOMEM then VM_FAULT_OOM else VM_FAULT_SIGBUS, 0)
  | inr pfn => mret (VM_FAULT_LOCKED, pfn)
  end.

(** The operations of the other files: [fault] gives flags and a frame,
    [page_mkwrite] gives flags and whether the page has left its file. *)
Record vm_operations := VmOps {
  op_fault : Z → Z → phys → Z * Z * phys;
  op_page_mkwrite : Z → Z → phys → Z * bool * phys;
}.
Variable ops : vm_operations.

(** [vma->vm_ops->fault] *)
Definition call_fault (v : vm_area_struct) (pgoff : Z) : km (Z * Z) :=
  x ← gets k_phys;
  match i_size x !! vm_file v with
  | Some size => shmem_fault (vm_file v) size pgoff
  | None => let '(r, x') := op_fault ops (vm_file v) pgoff x in upd_phys (λ _, x');; mret r
  end.
(** The block around [page_mkwrite]: [Some] is the result of a fault on a page
    that may not be written. *)
Definition call_page_mkwrite (v : vm_area_struct) (pgoff : Z) : km (option Z) :=
  if negb (page_mkwrite c (vm_file v)) then mret None else
  x ← gets k_phys;
  let '(tmp, gone, x') := op_page_mkwrite ops (vm_file v) pgoff x in
  upd_phys (λ _, x');;
  mret (if flag tmp (Z.lor VM_FAULT_ERROR VM_FAULT_NOPAGE) then Some tmp
        else if negb (flag tmp VM_FAULT_LOCKED) && gone then Some 0 else None).

(** * The handlers of [mm/memory.c] *)

Definition linear_page_index (v : vm_area_struct) (address : Z) : Z :=
  u32 (Z.shiftr (Z.land address (not32 (PAGESIZE - 1)) - vm_start v) PAGE_SHIFT + vm_pgoff v).

Definition do_anonymous_page (p : Z) (v : vm_area_struct) (address : Z) (write : bool) : km Z :=
  if negb write then
    set_pte_at p address (pte_mkspecial (mk_pte zero_pfn (vm_page_prot c v)));; mret 0
  else
    r ← anon_vma_prepare p v;
    if negb (r =? 0) then mret VM_FAULT_OOM else
    page ← alloc_page (Page true ∅);
    match page with
    | None => mret VM_FAULT_OOM
    | Some pfn =>
        ok ← k_take;
        if negb ok then mret VM_FAULT_OOM else
        let entry := mk_pte pfn (vm_page_prot c v) in
        let entry := if flag (vm_flags v) VM_WRITE then pte_mkwrite (pte_mkdirty entry) else entry in
        set_pte_at p address entry;; mret 0
    end.

(** Both ways of [do_wp_page]: the page is reused or copied. *)
Definition wp_reuse (p : Z) (v : vm_area_struct) (address : Z) (orig_pte : pte_t) : km Z :=
  set_pte_at p address (maybe_mkwrite (pte_mkdirty (pte_mkyoung orig_pte)) v);; mret VM_FAULT_WRITE.
Definition wp_copy (p : Z) (v : vm_area_struct) (address : Z) (orig_pte : pte_t) : km Z :=
  r ← anon_vma_prepare p v;
  if negb (r =? 0) then mret VM_FAULT_OOM else
  x ← gets k_phys;
  page ← alloc_page (Page true (if pte_pfn orig_pte =? zero_pfn then ∅ else content (get_frame x (pte_pfn orig_pte))));
  match page with
  | None => mret VM_FAULT_OOM
  | Some pfn =>
      ok ← k_take;
      if negb ok then mret VM_FAULT_OOM else
      set_pte_at p address (maybe_mkwrite (pte_mkdirty (mk_pte pfn (vm_page_prot c v))) v);;
      mret VM_FAULT_WRITE
  end.
Definition shared_write (v : vm_area_struct) : bool :=
  Z.land (vm_flags v) (Z.lor VM_WRITE VM_SHARED) =? Z.lor VM_WRITE VM_SHARED.
Definition do_wp_page (p : Z) (v : vm_area_struct) (address : Z) (orig_pte : pte_t) : km Z :=
  match vm_normal_page orig_pte with
  | None => if shared_write v then wp_reuse p v address orig_pte else wp_copy p v address orig_pte
  | Some pfn =>
      k ← get;
      if PageAnon (get_frame (k_phys k) pfn) then
        if reuse_swap_page (tasks k) pfn then wp_reuse p v address orig_pte else wp_copy p v address orig_pte
      else if shared_write v then
        r ← call_page_mkwrite v (linear_page_index v address);
        match r with
        | Some ret => mret ret
        | None => wp_reuse p v address orig_pte
        end
      else wp_copy p v address orig_pte
  end.

(** The page that [__do_fault] maps, or the result of the fault: a private copy
    is made before the first write. *)
Definition page_for_write (p : Z) (v : vm_area_struct) (pgoff pfn : Z) : km (Z + Z) :=
  if negb (flag (vm_flags v) VM_SHARED) then
    r ← anon_vma_prepare p v;
    if negb (r =? 0) then mret (inl VM_FAULT_OOM) else
    x ← gets k_phys;
    page ← alloc_page (Page true (content (get_frame x pfn)));
    match page with
    | None => mret (inl VM_FAULT_OOM)
    | Some new => ok ← k_take; mret (if negb ok then inl VM_FAULT_OOM else inr new)
    end
  else
    r ← call_page_mkwrite v pgoff;
    mret (match r with Some ret => inl ret | None => inr pfn end).
Definition __do_fault (p : Z) (v : vm_area_struct) (address pgoff : Z) (write : bool) : km Z :=
  '(ret, pfn) ← call_fault v pgoff;
  if flag ret (Z.lor VM_FAULT_ERROR VM_FAULT_NOPAGE) then mret ret else
  page ← (if write then page_for_write p v pgoff pfn else mret (inr pfn));
  match page with
  | inl r => mret r
  | inr page =>
      let entry := mk_pte page (vm_page_prot c v) in
      let entry := if write then maybe_mkwrite (pte_mkdirty entry) v else entry in
      set_pte_at p address entry;; mret ret
  end.
Definition do_linear_fault (p : Z) (v : vm_area_struct) (address : Z) (write : bool) : km Z :=
  __do_fault p v address (linear_page_index v address) write.

(** The handlers below get the page of the arbiter from [get_page]. *)
Section GetPage.
Variable get_page : km (option Z).

Definition do_abt_anon_page (p : Z) (v : vm_area_struct) (address : Z) : km Z :=
  r ← anon_vma_prepare p v;
  if negb (r =? 0) then mret VM_FAULT_OOM else
  page ← get_page;
  match page with
  | None => mret VM_FAULT_OOM
  | Some pfn =>
      ok ← k_take;
      if negb ok then mret VM_FAULT_OOM else
      let entry := mk_pte pfn (vm_page_prot c v) in
      let entry := if flag (vm_flags v) VM_WRITE then pte_mkwrite (pte_mkdirty entry) else entry in
      set_pte_at p address entry;; mret 0
  end.

(** The braces of the code make [do_wp_page] the answer to every write to a
    present page.  A read of a present page leaves the entry as it is, because
    [ptep_set_access_flags] stores only after writes. *)
Definition handle_pte_fault (p : Z) (v : vm_area_struct) (address : Z) (write : bool) : km Z :=
  e ← get_pte p address;
  match e with
  | None =>
      if is_abt_vma v then do_abt_anon_page p v address
      else if negb (vm_file v =? 0) then do_linear_fault p v address write
      else do_anonymous_page p v address write
  | Some entry => if write then do_wp_page p v address entry else mret 0
  end.

(** No huge pages are reserved: a fault on an area of huge pages fails. *)
Definition handle_mm_fault (p : Z) (v : vm_area_struct) (address : Z) (write : bool) : km Z :=
  ok ← k_take;
  if negb ok then mret VM_FAULT_OOM else
  if flag (vm_flags v) VM_HUGETLB then mret VM_FAULT_SIGBUS else
  handle_pte_fault p v address write.
End GetPage.

(** * The page of the arbiter *)

(** [follow_page] without a page, with an error, or with a frame *)
Definition follow_page (p address : Z) (foll_write : bool) : km (option (Z + Z)) :=
  e ← get_pte p address;
  mret match e with
       | None => None
       | Some e =>
           if foll_write && negb (pte_write e) then None else
           match vm_normal_page e with
           | Some pfn => Some (inr pfn)
           | None => Some (if pte_pfn e =? zero_pfn then inr zero_pfn else inl (- EFAULT))
           end
       end.

(** The inner loop of [__get_user_pages] *)
Definition gup_round (get_page : km (option Z)) (p start : Z) (foll_write : bool) : km (bool + (Z + Z)) :=
  page ← follow_page p start foll_write;
  match page with
  | Some r => mret (inr r)
  | None =>
      v ← area_at p start;
      ret ← handle_mm_fault get_page p v start foll_write;
      if flag ret VM_FAULT_ERROR then
        if flag ret VM_FAULT_OOM then mret (inr (inl (- ENOMEM))) else mret (inr (inl (- EFAULT)))
      else mret (inl (if flag ret VM_FAULT_WRITE && negb (flag (vm_flags v) VM_WRITE) then false else foll_write))
  end.
(** [get_user_pages] for one page of the task [p], without force: an error or
    the frame.  A fatal signal may be pending. *)
Definition get_user_pages (get_page : km (option Z)) (p start : Z) (write : bool) : km (Z + Z) :=
  v ← find_extend_vma p start;
  match v with
  | None => mret (inl (- EFAULT))
  | Some v =>
      if flag (vm_flags v) (Z.lor VM_IO VM_PFNMAP) || negb (flag (vm_flags v) (if write then VM_WRITE else VM_READ))
      then mret (inl (- EFAULT)) else
      if flag (vm_flags v) VM_HUGETLB then mret (inl (- EFAULT)) else
      ok ← k_take;
      if negb ok then mret (inl (- ERESTARTSYS)) else
      loopM (gup_round get_page p start) write
  end.

Definition ab_assert (b : bool) : km unit := if b then mret tt else fail KernelOops.
(** Should the page be in an area of an arbiter of the arbiter, the handler
    would ask for the page of the same address again, until the stack of the
    kernel is used up. *)
Definition abmap_get_page (cur address : Z) : km (option Z) :=
  tsk ← get_task cur;
  ab_assert (is_special tsk);;
  ts ← gets tasks;
  abt ← lift (find_my_arbiter ts cur);
  match abt with
  | None => fail KernelOops
  | Some abt =>
      r ← get_user_pages (fail KernelOops) abt address true;
      mret (match r with inr pfn => Some pfn | inl _ => None end)
  end.

(** * The entry *)

Definition access_error (error_code : Z) (write : bool) (v : vm_area_struct) : bool :=
  if write then negb (flag (vm_flags v) VM_WRITE)
  else if flag error_code PF_PROT then true
  else negb (flag (vm_flags v) (Z.lor VM_READ (Z.lor VM_EXEC VM_WRITE))).
Definition mm_fault_error (fault : Z) : km fault_result :=
  if flag fault VM_FAULT_OOM then mret OutOfMemory
  else if flag fault (Z.lor VM_FAULT_SIGBUS VM_FAULT_HWPOISON) then mret Sigbus
  else fail KernelOops.

(** The end of both paths; [current] faults in its own address space. *)
Definition good_area (cur error_code address : Z) (v : vm_area_struct) : km fault_result :=
  let write := flag error_code PF_WRITE in
  if access_error error_code write v then mret (Sigsegv SEGV_ACCERR) else
  fault ← handle_mm_fault (abmap_get_page cur address) cur v address write;
  if flag fault VM_FAULT_ERROR then mm_fault_error fault else mret Handled.
Definition handle_abt_vmfault (cur error_code address : Z) (v : vm_area_struct) : km fault_result :=
  t ← get_task cur;
  ab_assert (is_special t);;
  good_area cur error_code address v.

(** [sp] is the stack pointer of the program. *)
Definition do_page_fault (cur error_code address sp : Z) : km fault_result :=
  if TASK_SIZE <=? address then mret (Sigsegv SEGV_MAPERR) else
  m ← get_mm cur;
  match find_vma (mmap m) address with
  | None => mret (Sigsegv SEGV_MAPERR)
  | Some v =>
      if is_abt_vma v && (vm_start v <=? address) then handle_abt_vmfault cur error_code address v
      else if vm_start v <=? address then good_area cur error_code address v
      else if negb (flag (vm_flags v) VM_GROWSDOWN) then mret (Sigsegv SEGV_MAPERR)
      else if u32 (address + 65536 + 32 * 4) <? sp then mret (Sigsegv SEGV_MAPERR)
      else
        r ← expand_stack cur v address;
        if negb (r =? 0) then mret (Sigsegv SEGV_MAPERR) else
        v ← area_at cur address;
        good_area cur error_code address v
  end.
End Handlers.

(** * Accesses of programs *)

(** The error code of a trap, with the entry that caused it *)
Definition fault_code (e : option pte_t) (write : bool) : Z :=
  Z.lor PF_USER (Z.lor (if write then PF_WRITE else 0)
    (match e with Some e => if pte_is e _PAGE_PRESENT then PF_PROT else 0 | None => 0 end)).
Definition allowed (e : option pte_t) (write : bool) : bool :=
  match e with Some e => mmu_allows e write | None => false end.

Section Access.
Variables (c : kconf) (ops : vm_operations).

(** The processor traps when the entry does not allow the access, and tries
    again after the trap: the frame, or what the program gets instead. *)
Definition access_round (cur address sp : Z) (write : bool) : km (unit + (fault_result + Z)) :=
  e ← get_pte cur address;
  if allowed e write then mret (inr (inr (default 0 (pte_pfn <$> e)))) else
  r ← do_page_fault c ops cur (fault_code e write) address sp;
  mret (match r with Handled => inl tt | r => inr (inl r) end).
Definition access (cur address sp : Z) (write : bool) : km (fault_result + Z) :=
  loopM (λ _, access_round cur address sp write) tt.

Definition offset_in_page (address : Z) : Z := address `mod` PAGESIZE.
Definition load (cur address sp : Z) : km (fault_result + Z) :=
  r ← access cur address sp false;
  match r with
  | inl s => mret (inl s)
  | inr pfn =>
      x ← gets k_phys;
      mret (inr (default 0 (content (get_frame x pfn) !! offset_in_page address)))
  end.
Definition store (cur address byte sp : Z) : km (option fault_result) :=
  r ← access cur address sp true;
  match r with
  | inl s => mret (Some s)
  | inr pfn =>
      upd_phys (λ x, let pg := get_frame x pfn in
        set_mem_map (<[pfn := Page (PageAnon pg) (<[offset_in_page address := byte]> (content pg))]> (mem_map x)) x);;
      mret None
  end.
End Access.
