(* ===== verification/FaultSpec.v ===== *)
(** Page faults are confined: whatever a program touches, the handlers of
    [Fault] keep the areas of every task but for a growing stack, and enter
    nothing into a page table that the areas do not permit. *)

From S2P Require Import Prelude Frame Chunk Os Pte Vma VmaSpec Kernel Regions Group KernelSpec KernelLaws Fault.

(** * Areas up to their anonymous lists *)

Definition shape (v : vm_area_struct) : Z * Z * Z := (vm_start v, vm_end v, vm_flags v).
Definition shapes (k : kernel) (p : Z) : option (list (Z * Z * Z)) := (λ t, map shape (mmap (mm t))) <$> tasks k !! p.

Lemma shape_view l l' : map shape l' = map shape l → ∀ x, view_at l' x = view_at l x.
Proof.
  revert l'. induction l as [|v l IH]; intros [|v' l']; simpl; try done. intros [= H1 H2 H3 Hl] x. by rewrite H1, H2, H3, (IH l').
Qed.
Lemma shape_seg l l' lo hi : map shape l' = map shape l → seg lo l hi → seg lo l' hi.
Proof.
  revert l' lo. induction l as [|v l IH]; intros [|v' l'] lo; simpl; try done. intros [= H1 H2 H3 Hl]. unfold area_ok.
  rewrite H1, H2, H3. intros (? & ? & ?). split; [done|]. split; [done|]. by apply IH.
Qed.
Lemma shape_import s a l : map shape (map (λ v, if vm_start v =? s then import_anon a v else v) l) = map shape l.
Proof. induction l as [|v l IH]; simpl; [done|]. rewrite IH. by destruct (vm_start v =? s). Qed.

(** * What a fault changes *)

(** The free address [x] gets the access of the next mapped page above it, a
    page of the system: what an area that grows downwards does. *)
Definition grown_into (f g : Z → option (bool * Z)) (x : Z) : Prop :=
  ∃ y w, x < y ∧ f y = Some (false, w) ∧ (∀ z, x ≤ z < y → f z = None) ∧ g x = Some (false, w).

(** Areas stay, but for those that grow: then pages come to areas of the
    system. *)
Record faulted (k k' : kernel) : Prop := {
  fl_tasks : same_tasks k k';
  fl_ok : tasks_ok k';
  fl_brk q t t' : tasks k !! q = Some t → tasks k' !! q = Some t' →
    start_ab_brk (mm t') = start_ab_brk (mm t) ∧ ab_brk (mm t') = ab_brk (mm t);
  fl_view q x : kview k' q x = kview k q x ∨ grown_into (kview k q) (kview k' q) x;
  fl_res : k_res k = [] → k_res k' = [];
}.
Lemma faulted_refl k : tasks_ok k → faulted k k.
Proof. intros T. split; try done; [intros q t t' H1 H2; by simplify_eq|by left]. Qed.
Lemma faulted_trans k1 k2 k3 : faulted k1 k2 → faulted k2 k3 → faulted k1 k3.
Proof.
  intros H1 H2. split; [etrans; [apply H1|apply H2]|apply H2| | |].
  - intros q t t3 Ht Ht3. destruct (same_tasks_fields _ _ _ _ (fl_tasks _ _ H2) Ht3) as (t2 & Ht2 & _).
    destruct (fl_brk _ _ H1 q t t2 Ht Ht2) as [<- <-]. by apply (fl_brk _ _ H2 q).
  - intros q x. destruct (fl_view _ _ H2 q x) as [E|(y & w & Hxy & Hy & Hn & Hw)].
    { destruct (fl_view _ _ H1 q x) as [|(y & w & Hxy & Hy & Hn & Hw)]; [left; congruence|].
      right. exists y, w. do 3 (split; [done|]). congruence. }
    assert (Hn1 : ∀ z, x ≤ z < y → kview k1 q z = None).
    { intros z Hz. specialize (Hn z Hz). destruct (fl_view _ _ H1 q z) as [|(y' & w' & _ & _ & _ & ?)]; congruence. }
    right. destruct (fl_view _ _ H1 q y) as [E|(y' & w' & Hy' & Hf & Hn' & E)].
    + exists y, w. split; [done|]. split; [congruence|]. done.
    + exists y', w'. split; [lia|]. split; [done|]. split; [|congruence].
      intros z Hz. destruct (decide (z < y)); [apply Hn1|apply Hn']; lia.
  - intros H. by apply (fl_res _ _ H2), (fl_res _ _ H1).
Qed.
(** Pages that were there keep owner and access. *)
Lemma faulted_keep k k' p x y : faulted k k' → kview k p x = Some y → kview k' p x = Some y.
Proof. intros F Hy. destruct (fl_view _ _ F p x) as [->|(z & w & Hz & _ & Hn & _)]; [done|]. rewrite Hn in Hy by lia. done. Qed.

(** The same, with the shapes of all areas kept *)
Record settled (k k' : kernel) : Prop := {
  se_fault : faulted k k';
  se_shape p : shapes k' p = shapes k p;
}.

Lemma settled_trans k1 k2 k3 : settled k1 k2 → settled k2 k3 → settled k1 k3.
Proof.
  intros H1 H2. split; [by eapply faulted_trans; [apply H1|apply H2]|]. intros p. by rewrite (se_shape _ _ H2), (se_shape _ _ H1).
Qed.

Class Stable (R : kernel → kernel → Prop) (P : kernel → Prop) := stable k k' : R k k' → P k → P k'.
#[export] Instance stable_true R : Stable R (λ _, True).
Proof. done. Qed.
#[export] Instance stable_view p x y : Stable faulted (λ k, kview k p x = Some y).
Proof. intros k k'. apply faulted_keep. Qed.
#[export] Instance stable_settled_view p x y : Stable settled (λ k, kview k p x = Some y).
Proof. intros k k' [F _]. by apply faulted_keep. Qed.

(** Steps from states in order with [P] *)
Definition from (R : kernel → kernel → Prop) (P : kernel → Prop) (k k' : kernel) : Prop := tasks_ok k → P k → R k k'.
#[export] Instance from_faulted P `{!Stable faulted P} : PreOrder (from faulted P).
Proof.
  split; [intros k T _; by apply faulted_refl|]. intros k1 k2 k3 H1 H2 T HP. specialize (H1 T HP).
  eapply faulted_trans; [exact H1|]. apply H2; [apply H1|by eapply stable].
Qed.
#[export] Instance from_settled P `{!Stable settled P} : PreOrder (from settled P).
Proof.
  split; [intros k T _; split; [by apply faulted_refl|done]|]. intros k1 k2 k3 H1 H2 T HP. specialize (H1 T HP).
  eapply settled_trans; [exact H1|]. apply H2; [apply H1|by eapply stable].
Qed.
Lemma from_weaken {A} (P Q : kernel → Prop) (m : km A) :
  (∀ k, Q k → P k) → preserves (from faulted P) m → preserves (from faulted Q) m.
Proof. intros H Hm k a k' E T HQ. by eapply Hm; [|done|apply H]. Qed.
Lemma from_settle {A} P (m : km A) : preserves (from settled P) m → preserves (from faulted P) m.
Proof. intros Hm k a k' E T HP. by apply (Hm _ _ _ E T HP). Qed.

(** * The basic steps *)

(** Nothing but the schedule and the frames *)
Lemma settled_tasks k k' : tasks_ok k → tasks k' = tasks k → (k_res k = [] → k_res k' = []) → settled k k'.
Proof.
  intros T E Hr. assert (Hv : ∀ q x, kview k' q x = kview k q x) by (intros; unfold kview; by rewrite E).
  split; [split|intros p; unfold shapes; by rewrite E]; try done.
  - intros p. rewrite E. destruct (tasks k !! p) as [[]|]; done.
  - intros p t. rewrite E. apply T.
  - intros q t t'. rewrite E. intros H1 H2. by simplify_eq.
  - by left.
Qed.

(** A change of one address space *)
Lemma settled_mm k p t m :
  tasks_ok k → tasks k !! p = Some t → map shape (mmap m) = map shape (mmap (mm t)) → def_flags m = def_flags (mm t) →
  start_ab_brk m = start_ab_brk (mm t) → ab_brk m = ab_brk (mm t) → (pgd_ok (mm t) → pgd_ok m) →
  settled k (set_tasks (<[p := set_mm m t]> (tasks k)) k).
Proof.
  intros T Ht Hs Hd H1 H2 Hg. assert (Hv := shape_view _ _ Hs). split; [split; simpl|].
  - by apply same_tasks_insert.
  - apply map_Forall_insert_2; [|done]. destruct (T _ _ Ht) as [W D G]. split; simpl; [by eapply shape_seg|by rewrite Hd|auto].
  - intros q t1 t2 Hq. destruct (decide (p = q)) as [<-|]; [rewrite lookup_insert_eq|rewrite lookup_insert_ne by done]; intros Hq2;
      simplify_eq; by simpl.
  - intros q x. left. unfold kview. simpl. destruct (decide (p = q)) as [<-|]; [|by rewrite lookup_insert_ne].
    rewrite lookup_insert_eq, Ht. simpl. apply Hv.
  - done.
  - intros q. unfold shapes. simpl. destruct (decide (p = q)) as [<-|]; [|by rewrite lookup_insert_ne].
    rewrite lookup_insert_eq, Ht. simpl. by rewrite Hs.
Qed.
Lemma upd_mm_inv p f k u k' :
  upd_mm_of p f k = Ret (u, k') →
  ∃ t, tasks k !! p = Some t ∧ k' = set_tasks (<[p := set_mm (f (mm t)) t]> (tasks k)) k.
Proof. unfold upd_mm_of, upd_task. destruct (tasks k !! p) as [t|]; [|done]. intros [= _ <-]. eauto. Qed.
Lemma get_mm_inv p k m k' : get_mm p k = Ret (m, k') → k' = k ∧ ∃ t, tasks k !! p = Some t ∧ m = mm t.
Proof. unfold get_mm, get_task, mbind, st_bind. destruct (tasks k !! p) as [t|]; [|done]. intros [= <- <-]. eauto. Qed.

Section Steps.
Context (P : kernel → Prop) `{!Stable settled P}.

Lemma keep_get_task p : preserves (from settled P) (get_task p).
Proof using Type*. intros k t k' E. unfold get_task in E. destruct (tasks k !! p); [|done]. injection E as _ <-. reflexivity. Qed.
Lemma keep_get_mm p : preserves (from settled P) (get_mm p).
Proof using Type*. intros k t k' [-> _]%get_mm_inv. reflexivity. Qed.
Lemma keep_get_pte p a : preserves (from settled P) (get_pte p a).
Proof using Type*. unfold get_pte. apply preserves_bind; [apply _|apply keep_get_mm|]. intros m. apply preserves_ret, _. Qed.
Lemma keep_take : preserves (from settled P) k_take.
Proof using Type*.
  intros k b k' E T _. apply settled_tasks; [done|..]; unfold k_take in E; destruct (k_res k) eqn:Er; injection E as _ <-; try done.
Qed.
Lemma keep_upd_phys f : preserves (from settled P) (upd_phys f).
Proof using Type*. intros k u k' [= _ <-] T _. by apply settled_tasks. Qed.
Lemma keep_alloc pg : preserves (from settled P) (alloc_page pg).
Proof using Type*.
  unfold alloc_page. apply preserves_bind; [apply _|apply keep_take|]. intros b. destruct (negb b); [apply preserves_ret, _|].
  apply preserves_bind; [apply _|apply preserves_gets, _|]. intros x. apply preserves_bind; [apply _|apply keep_upd_phys|].
  intros u. apply preserves_ret, _.
Qed.
Lemma keep_area_at p a : preserves (from settled P) (area_at p a).
Proof using Type*.
  unfold area_at. apply preserves_bind; [apply _|apply keep_get_mm|]. intros m. case_match; [apply preserves_ret, _|by intros ???].
Qed.
Lemma keep_import p s a : preserves (from settled P) (upd_area p s (import_anon a)).
Proof using Type*.
  intros k u k' (t & Ht & ->)%upd_mm_inv T _. apply settled_mm; try done; simpl; [apply shape_import|].
  apply pgd_ok_mono; [done|]. intros x _. apply shape_view, shape_import.
Qed.
Lemma keep_usage p f g : preserves (from settled P) (upd_mm_of p (λ m, set_usage (f m) (g m) m)).
Proof using Type*. intros k u k' (t & Ht & ->)%upd_mm_inv T _. by apply settled_mm. Qed.
End Steps.
#[export] Hint Resolve keep_get_task keep_get_mm keep_get_pte keep_take keep_upd_phys keep_alloc keep_area_at keep_import
  keep_usage : frame.
#[export] Hint Extern 5 (preserves (from faulted _) _) => apply from_settle : frame.

Lemma keep_prepare P `{!Stable settled P} p v : preserves (from settled P) (anon_vma_prepare p v).
Proof. unfold anon_vma_prepare. keeps. Qed.
Lemma keep_acct P `{!Stable settled P} c p v size grow : preserves (from settled P) (acct_stack_growth c p v size grow).
Proof. unfold acct_stack_growth. keeps. Qed.
#[export] Hint Resolve keep_prepare keep_acct : frame.

(** * Growing stacks *)

Lemma page_mask a : 0 ≤ a < 2 ^ 32 → Z.land a (not32 (PAGESIZE - 1)) = a / PAGESIZE * PAGESIZE.
Proof. intros Ha. change PAGESIZE with (2 ^ 12). rewrite (land_not32_pow2 a 12) by lia. lia. Qed.
Lemma page_of_mul a : page_of a * PAGESIZE = a / PAGESIZE * PAGESIZE.
Proof. unfold page_of, PAGE_SHIFT. rewrite Z.shiftr_div_pow2 by lia. done. Qed.

Lemma find_view l lo hi a v : seg lo l hi → find_vma l a = Some v → vm_start v ≤ a → view_at l a = Some (view (vm_flags v)).
Proof.
  revert lo. induction l as [|u l IH]; intros lo; simpl; [done|]. intros (_ & _ & Hs).
  destruct (a <? vm_end u); [|by eapply IH]. intros [= ->] Hv. by rewrite (proj2 (Z.leb_le _ _)).
Qed.
Lemma find_view_some l a v y : find_vma l a = Some v → view_at l a = Some y → y = view (vm_flags v).
Proof.
  induction l as [|u l IH]; simpl; [done|]. destruct (a <? vm_end u); [|done]. intros [= ->].
  destruct (vm_start v <=? a); [|done]. congruence.
Qed.
Lemma find_bounds l lo hi a v : seg lo l hi → find_vma l a = Some v → v ∈ l ∧ a < vm_end v ≤ hi ∧ area_ok v.
Proof.
  revert lo. induction l as [|u l IH]; intros lo; simpl; [done|]. intros (_ & Hu & Hs).
  destruct (Z.ltb_spec a (vm_end u)).
  - intros [= ->]. apply seg_le in Hs. split; [by left|]. split; [lia|done].
  - intros Hf. destruct (IH _ Hs Hf) as (? & ? & ?). split; [by right|done].
Qed.
Lemma find_shape l l' a v :
  map shape l' = map shape l → find_vma l a = Some v → ∃ v', find_vma l' a = Some v' ∧ shape v' = shape v.
Proof.
  revert l'. induction l as [|u l IH]; intros [|u' l']; simpl; try done. intros [= H1 H2 H3 Hl]. rewrite H2.
  destruct (a <? vm_end u); [|by apply IH]. intros [= ->]. exists u'. unfold shape. split; [done|congruence].
Qed.

(** The area behind [a] gets the pages in front of it, from that of [a] on. *)
Lemma grow_list g l lo hi a v :
  seg lo l hi → (PAGESIZE | lo) → lo ≤ a → find_vma l a = Some v → a < vm_start v →
  let l' := map (λ u, if vm_start u =? vm_start v then set_range (a / PAGESIZE * PAGESIZE) (vm_end u) (g u) u else u) l in
  seg lo l' hi ∧ ∀ x, view_at l' x = view_at l x ∨
    x < vm_start v ∧ view_at l (vm_start v) = Some (view (vm_flags v)) ∧
    (∀ z, x ≤ z < vm_start v → view_at l z = None) ∧ view_at l' x = Some (view (vm_flags v)).
Proof.
  intros Hs Hd Hlo Hf Hv. cbn zeta. revert lo Hs Hd Hlo Hf. induction l as [|u l IH]; intros lo Hs Hd Hlo Hf; simpl in *; [done|].
  destruct Hs as (H1 & Hu & Hs). assert (Hu' := Hu). destruct Hu' as (Hue & Hd1 & Hd2 & Hfl).
  pose proof (Z.div_mod a PAGESIZE ltac:(done)). pose proof (Z.mod_pos_bound a PAGESIZE ltac:(done)).
  destruct (Z.ltb_spec a (vm_end u)) as [Ha|Ha].
  - injection Hf as <-. rewrite Z.eqb_refl.
    assert (E : map (λ w, if vm_start w =? vm_start u then set_range (a / PAGESIZE * PAGESIZE) (vm_end w) (g w) w else w) l = l).
    { apply seg_bounds in Hs. clear -Hs Hue. induction Hs as [|w l Hw _ IH]; simpl; [done|]. rewrite IH.
      by rewrite (proj2 (Z.eqb_neq _ _)) by lia. }
    rewrite E. simpl. split.
    + split; [|split; [|done]].
      * destruct Hd as [z ->]. assert (z ≤ a / PAGESIZE); [|unfold PAGESIZE in *; lia]. apply Z.div_le_lower_bound; unfold PAGESIZE in *; lia.
      * split; simpl; [unfold PAGESIZE in *; lia|]. split; [by exists (a / PAGESIZE)|done].
    + intros x. destruct (Z.ltb_spec x (vm_end u)); [|by left]. destruct (Z.leb_spec (vm_start u) x).
      * left. rewrite (proj2 (Z.leb_le _ _)); [done|]. unfold PAGESIZE in *; lia.
      * destruct (_ <=? x); [right|by left]. split; [done|]. rewrite Z.leb_refl, (proj2 (Z.ltb_lt _ _)) by lia.
        split; [done|]. split; [|done]. intros z Hz. by rewrite (proj2 (Z.ltb_lt z _)), (proj2 (Z.leb_gt _ z)) by lia.
  - rewrite (proj2 (Z.eqb_neq (vm_start u) _)) by lia. destruct (IH (vm_end u) Hs Hd2 Ha Hf) as [I1 I2]. split; [done|].
    intros x. simpl. destruct (Z.ltb_spec x (vm_end u)) as [|Hx]; [by left|].
    destruct (I2 x) as [|(J1 & J2 & J3 & J4)]; [by left|]. right. split; [done|].
    rewrite (proj2 (Z.ltb_ge (vm_start v) _)) by lia. split; [done|]. split; [|done].
    intros z Hz. rewrite (proj2 (Z.ltb_ge z _)) by lia. by apply J3.
Qed.

Section Grow.
Variable c : kconf.

Lemma grow_faulted k p t v a g :
  tasks_ok k → tasks k !! p = Some t → 0 ≤ a → find_vma (mmap (mm t)) a = Some v → a < vm_start v →
  flag (vm_flags v) VM_GROWSDOWN = true →
  faulted k (set_tasks (<[p := set_mm (set_mmap (map (λ u, if vm_start u =? vm_start v then
    set_range (a / PAGESIZE * PAGESIZE) (vm_end u) (g u) u else u) (mmap (mm t))) (mm t)) t]> (tasks k)) k).
Proof using Type.
  intros T Ht Ha Hf Hv Hg. destruct (T _ _ Ht) as [W D G].
  destruct (grow_list g _ _ _ _ _ W (Z.divide_0_r _) Ha Hf Hv) as [W' V]. set (l' := map _ _) in *.
  assert (Hns : ∃ w, view (vm_flags v) = (false, w)).
  { unfold view. destruct (flag (vm_flags v) VM_AB_CONTROL) eqn:Eab; [|by eexists]. exfalso.
    destruct (find_bounds _ _ _ _ _ W Hf) as (_ & _ & _ & _ & _ & _ & Hok).
    change VM_AB_CONTROL with (2 ^ 29) in Eab. change VM_GROWSDOWN with (2 ^ 8) in Hg. rewrite flag_bit in Eab, Hg by lia.
    destruct (Hok Eab) as (_ & _ & _ & _ & _ & H8). congruence. }
  destruct Hns as [w Hw]. split; simpl.
  - by apply same_tasks_insert.
  - apply map_Forall_insert_2; [|done]. split; simpl; [done|done|]. eapply pgd_ok_mono; [..|exact G]; [done|]. simpl.
    intros x Hx. destruct (V x) as [->|(? & _ & Hn & _)]; [done|]. rewrite Hn in Hx by lia. done.
  - intros q t1 t2 Hq. destruct (decide (p = q)) as [<-|]; [rewrite lookup_insert_eq|rewrite lookup_insert_ne by done]; intros Hq2;
      [injection Hq2 as <-|]; by simplify_eq.
  - intros q x. unfold kview. simpl. destruct (decide (p = q)) as [<-|]; [|left; by rewrite lookup_insert_ne].
    rewrite lookup_insert_eq, Ht. simpl. destruct (V x) as [->|(V1 & V2 & V3 & V4)]; [by left|]. right. rewrite Hw in V2, V4.
    exists (vm_start v), w. done.
  - done.
Qed.

Lemma expand_stack_spec k p t v a r k' :
  tasks_ok k → tasks k !! p = Some t → 0 ≤ a → find_vma (mmap (mm t)) a = Some v → a < vm_start v →
  flag (vm_flags v) VM_GROWSDOWN = true → expand_stack c p v a k = Ret (r, k') →
  faulted k k' ∧ (r = 0 → ∃ y, kview k' p a = Some y).
Proof using Type.
  intros T Ht Ha Hf Hv Hg E. destruct (T _ _ Ht) as [W _ _]. destruct (find_bounds _ _ _ _ _ W Hf) as (_ & Hb & Hok).
  assert (Hw : 0 ≤ a < 2 ^ 32) by (unfold TASK_SIZE in Hb; lia). unfold expand_stack in E. rewrite page_mask in E by done.
  bstep E as r1 k1 E1. apply (keep_prepare (λ _, True)) in E1. specialize (E1 T I).
  destruct (Z.eqb_spec r1 0) as [_|]; cbn [negb] in E; [|injection E as <- <-; split; [apply E1|done]].
  destruct (Z.eqb_spec (security_file_mmap c (a / PAGESIZE * PAGESIZE)) 0); cbn [negb] in E;
    [|injection E as <- <-; split; [apply E1|done]].
  pose proof (Z.div_mod a PAGESIZE ltac:(done)). pose proof (Z.mod_pos_bound a PAGESIZE ltac:(done)).
  rewrite (proj2 (Z.ltb_lt _ _)) in E by (unfold PAGESIZE in *; lia).
  bstep E as r2 k2 E2. apply (keep_acct (λ _, True)) in E2. specialize (E2 (fl_ok _ _ (se_fault _ _ E1)) I).
  assert (S2 : settled k k2) by (by eapply settled_trans).
  destruct (Z.eqb_spec r2 0); cbn [negb] in E; [|injection E as <- <-; split; [apply S2|done]].
  bstep E as u k3 E3. injection E as <- <-. apply upd_mm_inv in E3 as (t2 & Ht2 & ->).
  pose proof (se_shape _ _ S2 p) as Hs. unfold shapes in Hs. rewrite Ht, Ht2 in Hs. injection Hs as Hs.
  destruct (find_shape _ _ _ _ Hs Hf) as (v2 & Hf2 & Hsv). injection Hsv as Hv1 Hv2 Hv3. rewrite <-Hv1, <-Hv3 in *.
  set (g := λ v0 : vm_area_struct, u32 (vm_pgoff v0 - Z.shiftr (vm_start v2 - a / PAGESIZE * PAGESIZE) PAGE_SHIFT)).
  assert (F : faulted k2 (set_tasks (<[p := set_mm (set_mmap (map (λ u, if vm_start u =? vm_start v2 then
    set_range (a / PAGESIZE * PAGESIZE) (vm_end u) (g u) u else u) (mmap (mm t2))) (mm t2)) t2]> (tasks k2)) k2)).
  { apply (grow_faulted k2 p t2 v2 a g); try done. apply S2. }
  split; [eapply faulted_trans; [apply S2|exact F]|]. intros _. unfold kview. simpl. rewrite lookup_insert_eq. simpl.
  destruct (T _ _ Ht) as [_ _ _]. pose proof (to_wf _ (fl_ok _ _ (se_fault _ _ S2) _ _ Ht2)) as W2. clear -Hf2 W2 Hv Ha.
  unfold wf_mmap in W2. revert W2. generalize 0 at 1. induction (mmap (mm t2)) as [|w l IH]; intros lo; simpl in *; [done|].
  intros (_ & (Hw & _) & Hs). destruct (Z.ltb_spec a (vm_end w)).
  - injection Hf2 as ->. rewrite Z.eqb_refl. simpl. rewrite (proj2 (Z.ltb_lt _ _)), (proj2 (Z.leb_le _ _)); [by eexists| |lia].
    rewrite Z.mul_comm. by apply Z.mul_div_le.
  - rewrite (proj2 (Z.eqb_neq _ _)) by lia. rewrite (proj2 (Z.ltb_ge _ _)) by lia. by eapply IH.
Qed.
End Grow.

(** * Entries *)

Lemma flag_write f : flag f VM_WRITE = true → Z.testbit (Z.land f 7) 1 = true.
Proof.
  change VM_WRITE with (2 ^ 1). rewrite flag_bit by lia. intros H. by rewrite Z.land_spec, H.
Qed.
Lemma maybe_mkwrite_ok v e : entry_ok (Z.land (vm_flags v) 7) e → entry_ok (Z.land (vm_flags v) 7) (maybe_mkwrite e v).
Proof.
  unfold maybe_mkwrite. destruct (flag _ _) eqn:Ew; [|done]. apply set_flags_ok. do 3 right. split; [done|by apply flag_write].
Qed.
Lemma mkdirty_ok w e : entry_ok w e → entry_ok w (pte_mkdirty e).
Proof. apply set_flags_ok. by left. Qed.
#[export] Hint Resolve page_prot_ok maybe_mkwrite_ok mkdirty_ok : frame.
Lemma mkwrite_ok v e :
  entry_ok (Z.land (vm_flags v) 7) e →
  entry_ok (Z.land (vm_flags v) 7) (if flag (vm_flags v) VM_WRITE then pte_mkwrite (pte_mkdirty e) else e).
Proof.
  intros He. destruct (flag (vm_flags v) VM_WRITE) eqn:Ew; [|done]. apply set_flags_ok; [|by apply mkdirty_ok].
  do 3 right. split; [done|by apply flag_write].
Qed.

Abbreviation at_area p a v := (λ k : kernel, kview k p a = Some (view (vm_flags v))).

Lemma kview_page k p a : tasks_ok k → kview k p (page_of a * PAGESIZE) = kview k p a.
Proof.
  intros T. rewrite page_of_mul. unfold kview. destruct (tasks k !! p) as [t|] eqn:Ht; [|done].
  symmetry. apply view_page, (T _ _ Ht).
Qed.
Lemma keep_set_pte p a v e :
  entry_ok (Z.land (vm_flags v) 7) e → preserves (from settled (at_area p a v)) (set_pte_at p a e).
Proof.
  intros He k u k' (t & Ht & ->)%upd_mm_inv T Hv. apply settled_mm; try done. simpl. intros G i x. simpl.
  destruct (decide (page_of a = i)) as [<-|]; [|rewrite lookup_insert_ne by done; apply G]. rewrite lookup_insert_eq. intros [= <-].
  assert (Hv' := kview_page k p a T). rewrite Hv in Hv'. unfold kview in Hv'. rewrite Ht in Hv'. unfold view in Hv'.
  eexists _, _. split; [exact Hv'|done].
Qed.
#[export] Hint Resolve keep_set_pte : frame.

(** The entry of a page grants what its area permits. *)
Lemma keep_bind_pte {A} p a v (f : option pte_t → km A) :
  (∀ e, (∀ x, e = Some x → entry_ok (Z.land (vm_flags v) 7) x) → preserves (from faulted (at_area p a v)) (f e)) →
  preserves (from faulted (at_area p a v)) (get_pte p a ≫= f).
Proof.
  intros Hf k r k' E T Hv. bstep E as e k1 E1. unfold get_pte in E1. bstep E1 as m k2 E2.
  apply get_mm_inv in E2 as (-> & t & Ht & ->). injection E1 as <- <-. eapply Hf; [|exact E|done|done].
  intros x Hx. destruct (to_pgd _ (T _ _ Ht) _ _ Hx) as (b & w & Hy & He).
  assert (Hv' := kview_page k p a T). rewrite Hv in Hv'. unfold kview in Hv'. rewrite Ht, Hy in Hv'. unfold view in Hv'.
  change 7 with VM_ACCESS. injection Hv' as _ Hw. by rewrite <-Hw.
Qed.

(** * The handlers *)

Section Handlers.
Context (c : kconf) (ops : vm_operations).

Lemma keep_shmem P `{!Stable settled P} file size pgoff : preserves (from settled P) (shmem_fault file size pgoff).
Proof using Type. unfold shmem_fault, shmem_getpage, shmem_getpage_round. keeps. Qed.
Hint Resolve keep_shmem : frame.
Lemma keep_call_fault P `{!Stable settled P} v pgoff : preserves (from settled P) (call_fault ops v pgoff).
Proof using Type. unfold call_fault. keeps. Qed.
Lemma keep_call_mkwrite P `{!Stable settled P} v pgoff : preserves (from settled P) (call_page_mkwrite c ops v pgoff).
Proof using Type. unfold call_page_mkwrite. keeps. Qed.
Hint Resolve keep_call_fault keep_call_mkwrite : frame.

Lemma keep_anonymous p v a write : preserves (from settled (at_area p a v)) (do_anonymous_page c p v a write).
Proof using Type.
  unfold do_anonymous_page. destruct write; cbn [negb].
  - keeps. apply keep_set_pte, mkwrite_ok, page_prot_ok.
  - keeps. apply keep_set_pte, set_flags_ok; [tauto|apply page_prot_ok].
Qed.
Lemma keep_wp_reuse p v a e :
  entry_ok (Z.land (vm_flags v) 7) e → preserves (from settled (at_area p a v)) (wp_reuse p v a e).
Proof using Type.
  intros He. unfold wp_reuse. keeps. apply keep_set_pte, maybe_mkwrite_ok, mkdirty_ok, set_flags_ok; [tauto|done].
Qed.
Lemma keep_wp_copy p v a e : preserves (from settled (at_area p a v)) (wp_copy c p v a e).
Proof using Type. unfold wp_copy. keeps. Qed.
Hint Resolve keep_wp_reuse keep_wp_copy : frame.
Lemma keep_wp p v a e :
  entry_ok (Z.land (vm_flags v) 7) e → preserves (from settled (at_area p a v)) (do_wp_page c ops p v a e).
Proof using Type. intros He. unfold do_wp_page. keeps. Qed.
Lemma keep_linear p v a write : preserves (from settled (at_area p a v)) (do_linear_fault c ops p v a write).
Proof using Type.
  unfold do_linear_fault, __do_fault, page_for_write. destruct write; keeps.
Qed.
Hint Resolve keep_anonymous keep_wp keep_linear : frame.

Lemma keep_handle get_page p v a write :
  preserves (from faulted (at_area p a v)) get_page →
  preserves (from faulted (at_area p a v)) (handle_mm_fault c ops get_page p v a write).
Proof using Type.
  intros Hg. unfold handle_mm_fault, handle_pte_fault. apply preserves_bind; [apply _|keeps|]. intros ok.
  destruct (negb ok); [keeps|]. destruct (flag _ _); [keeps|]. apply keep_bind_pte. intros [e|] He.
  - destruct write; keeps.
  - destruct (is_abt_vma v); [|keeps]. unfold do_abt_anon_page. keeps. apply from_settle, keep_set_pte, mkwrite_ok, page_prot_ok.
Qed.

(** * The page of the arbiter *)

Lemma keep_gup_round get_page p a y w :
  preserves (from faulted (λ k, kview k p a = Some y)) get_page →
  preserves (from faulted (λ k, kview k p a = Some y)) (gup_round c ops get_page p a w).
Proof using Type.
  intros Hg. unfold gup_round, follow_page. apply preserves_bind; [apply _|keeps|]. intros [r|]; [keeps|].
  intros k r k' E T Hv. bstep E as v k1 E1. unfold area_at in E1. bstep E1 as m k2 E2. apply get_mm_inv in E2 as (-> & t & Ht & ->).
  destruct (find_vma _ a) as [u|] eqn:Hf; [|done]. injection E1 as -> <-.
  assert (Hy : y = view (vm_flags v)) by (unfold kview in Hv; rewrite Ht in Hv; by eapply find_view_some).
  rewrite Hy in *. bstep E as ret k1 E1.
  assert (F : faulted k k1) by (eapply (keep_handle get_page); [exact Hg|exact E1|done|done]).
  destruct (flag ret VM_FAULT_ERROR); [destruct (flag ret VM_FAULT_OOM)|]; by injection E as _ <-.
Qed.

Lemma find_extend_spec k p a r k' :
  tasks_ok k → 0 ≤ a < 2 ^ 32 → find_extend_vma c p a k = Ret (r, k') →
  faulted k k' ∧ (is_Some r → ∃ y, kview k' p a = Some y).
Proof using Type.
  intros T Ha E. unfold find_extend_vma in E. rewrite page_mask in E by done.
  assert (Hpg : ∀ k1, tasks_ok k1 → kview k1 p (a / PAGESIZE * PAGESIZE) = kview k1 p a).
  { intros k1 T1. rewrite <-page_of_mul. by apply kview_page. }
  bstep E as m k1 E1. apply get_mm_inv in E1 as (-> & t & Ht & ->). destruct (find_vma _ _) as [v|] eqn:Hf.
  2:{ injection E as <- <-. split; [by apply faulted_refl|by intros [? ?]]. }
  destruct (Z.leb_spec (vm_start v) (a / PAGESIZE * PAGESIZE)) as [Hv|Hv].
  { injection E as <- <-. split; [by apply faulted_refl|]. intros _. rewrite <-Hpg by done. unfold kview. rewrite Ht.
    eexists. eapply find_view; [apply (to_wf _ (T _ _ Ht))|done|done]. }
  destruct (flag _ _) eqn:Eg; cbn [negb] in E; [|injection E as <- <-; split; [by apply faulted_refl|by intros [? ?]]].
  bstep E as r1 k1 E1.
  destruct (expand_stack_spec c k p t v (a / PAGESIZE * PAGESIZE) r1 k1) as [F Hy]; try done.
  { apply Z.mul_nonneg_nonneg; [|done]. apply Z.div_pos; [lia|done]. }
  destruct (Z.eqb_spec r1 0) as [->|]; cbn [negb] in E; [|injection E as <- <-; split; [done|by intros [? ?]]].
  bstep E as v' k2 E2. injection E as <- <-. apply (keep_area_at (λ _, True)) in E2. specialize (E2 (fl_ok _ _ F) I).
  assert (F2 : faulted k k2) by (eapply faulted_trans; [exact F|apply E2]). split; [done|]. intros _.
  destruct (Hy eq_refl) as [y Hy1]. exists y. rewrite <-Hpg by apply F2. eapply faulted_keep; [apply E2|done].
Qed.

Lemma keep_gup P `{!Stable faulted P} get_page p a write :
  preserves (from faulted (λ _, True)) get_page → 0 ≤ a < 2 ^ 32 →
  preserves (from faulted P) (get_user_pages c ops get_page p a write).
Proof using Type.
  intros Hg Ha k r k' E T _. unfold get_user_pages in E. bstep E as v k1 E1.
  destruct (find_extend_spec k p a v k1 T Ha E1) as [F Hy]. destruct v as [v|]; [|by injection E as _ <-].
  destruct (Hy ltac:(by eexists)) as [y Hv]. destruct (_ || _); [by injection E as _ <-|].
  destruct (flag _ _); [by injection E as _ <-|]. eapply faulted_trans; [exact F|].
  assert (Hp : preserves (from faulted (λ k, kview k p a = Some y))
    (ok ← k_take; if negb ok then mret (inl (- ERESTARTSYS)) else loopM (gup_round c ops get_page p a) write)).
  { apply preserves_bind; [apply _|keeps|]. intros ok. destruct (negb ok); [keeps|]. apply preserves_loopM; [apply _|].
    intros w. apply keep_gup_round. by apply (from_weaken (λ _, True)). }
  apply (Hp _ _ _ E); [apply F|done].
Qed.
Lemma keep_abmap P `{!Stable faulted P} cur a : 0 ≤ a < 2 ^ 32 → preserves (from faulted P) (abmap_get_page c ops cur a).
Proof using Type.
  intros Ha. unfold abmap_get_page, ab_assert. apply preserves_bind; [apply _|intros k t k' E T HP|].
  { unfold get_task in E. destruct (tasks k !! cur); [|done]. injection E as _ <-. by apply faulted_refl. }
  intros t. keeps. apply keep_gup; [apply _|by intros ???|done].
Qed.

Lemma keep_good_area cur code a v :
  0 ≤ a < 2 ^ 32 → preserves (from faulted (at_area cur a v)) (good_area c ops cur code a v).
Proof using Type.
  intros Ha. unfold good_area, mm_fault_error. destruct (access_error _ _ _); [keeps|].
  apply preserves_bind; [apply _|apply keep_handle; apply keep_abmap; [apply _|done]|]. intros f. keeps.
Qed.

Lemma do_page_fault_spec k cur code a sp r k' :
  tasks_ok k → 0 ≤ a → do_page_fault c ops cur code a sp k = Ret (r, k') → faulted k k'.
Proof using Type.
  intros T H0 E. unfold do_page_fault in E. destruct (Z.leb_spec TASK_SIZE a); [injection E as _ <-; by apply faulted_refl|].
  assert (Ha : 0 ≤ a < 2 ^ 32) by (unfold TASK_SIZE in *; lia).
  bstep E as m k1 E1. apply get_mm_inv in E1 as (-> & t & Ht & ->). destruct (find_vma _ _) as [v|] eqn:Hf.
  2:{ injection E as _ <-. by apply faulted_refl. }
  assert (Hgood : vm_start v ≤ a → kview k cur a = Some (view (vm_flags v))).
  { intros Hv. unfold kview. rewrite Ht. eapply find_view; [apply (to_wf _ (T _ _ Ht))|done|done]. }
  destruct (is_abt_vma v && (vm_start v <=? a)) eqn:Eab.
  { apply andb_true_iff in Eab as [_ Hv%Z.leb_le]. unfold handle_abt_vmfault in E. bstep E as t' k1 E1. unfold get_task in E1.
    rewrite Ht in E1. injection E1 as <- <-. bstep E as u k1 E1. unfold ab_assert in E1. destruct (is_special t); [|done].
    injection E1 as _ <-. apply (keep_good_area cur code a v Ha _ _ _ E T); auto. }
  destruct (Z.leb_spec (vm_start v) a) as [Hv|Hv]; [apply (keep_good_area cur code a v Ha _ _ _ E T); auto|].
  destruct (flag _ _) eqn:Eg; cbn [negb] in E; [|injection E as _ <-; by apply faulted_refl].
  destruct (_ <? sp); [injection E as _ <-; by apply faulted_refl|]. bstep E as r1 k1 E1.
  destruct (expand_stack_spec c k cur t v a r1 k1) as [F Hy]; try done.
  destruct (Z.eqb_spec r1 0) as [->|]; cbn [negb] in E; [|by injection E as _ <-].
  destruct (Hy eq_refl) as [y Hy1]. bstep E as v' k2 E2. unfold area_at in E2. bstep E2 as m k3 E3.
  apply get_mm_inv in E3 as (-> & t1 & Ht1 & ->). destruct (find_vma (mmap (mm t1)) a) as [v1|] eqn:Hf1; [|done].
  injection E2 as <- <-. eapply faulted_trans; [exact F|]. eapply keep_good_area; [done|exact E|apply F|].
  rewrite Hy1. f_equal. unfold kview in Hy1. rewrite Ht1 in Hy1. by eapply find_view_some.
Qed.

(** * Accesses of programs *)

(** The access bits [w] of an area permit the access. *)
Definition permits (w : Z) (write : bool) : Prop := w ≠ 0 ∧ (write = true → Z.testbit w 1 = true).
#[export] Instance permits_dec w write : Decision (permits w write).
Proof. unfold permits. apply _. Defined.

Lemma get_pte_inv p a k e k' :
  get_pte p a k = Ret (e, k') → k' = k ∧ ∃ t, tasks k !! p = Some t ∧ e = pgd (mm t) !! page_of a.
Proof using Type. intros E. unfold get_pte in E. bstep E as m k1 E1. apply get_mm_inv in E1 as (-> & t & Ht & ->). injection E as <- <-. eauto. Qed.
Lemma allowed_permits k p t a write :
  tasks_ok k → tasks k !! p = Some t → allowed (pgd (mm t) !! page_of a) write = true →
  ∃ b w, kview k p a = Some (b, w) ∧ permits w write.
Proof using Type.
  intros T Ht Hal. destruct (pgd (mm t) !! page_of a) as [e|] eqn:He; [|done]. simpl in Hal.
  destruct (to_pgd _ (T _ _ Ht) _ _ He) as (b & w & Hv & _ & Hok). exists b, w. split; [|by apply Hok].
  rewrite <-kview_page by done. unfold kview. by rewrite Ht.
Qed.

Lemma keep_access_round cur a sp write : 0 ≤ a → preserves (from faulted (λ _, True)) (access_round c ops cur a sp write).
Proof using Type.
  intros Ha. unfold access_round. apply preserves_bind; [apply _|keeps|]. intros e. destruct (allowed e write); [keeps|].
  apply preserves_bind; [apply _| |intros r; keeps]. intros k r k' E T _. by eapply do_page_fault_spec.
Qed.
Lemma access_spec k cur a sp write r k' :
  tasks_ok k → 0 ≤ a → access c ops cur a sp write k = Ret (r, k') →
  faulted k k' ∧ ∀ pfn, r = inr pfn → ∃ t e b w, tasks k' !! cur = Some t ∧ pgd (mm t) !! page_of a = Some e ∧ pte_pfn e = pfn ∧
    kview k' cur a = Some (b, w) ∧ permits w write.
Proof using Type.
  intros T Ha E.
  refine (loopM_post (λ _, access_round c ops cur a sp write) (λ _ k', faulted k k') (λ r k', faulted k k' ∧ ∀ pfn, r = inr pfn → _)
    tt k r k' E (faulted_refl _ T) _).
  intros u k1 F. destruct (access_round c ops cur a sp write k1) as [[x k2]|] eqn:E1; [|done].
  assert (F2 : faulted k k2).
  { eapply faulted_trans; [exact F|]. eapply keep_access_round; [exact Ha|exact E1|apply F|done]. }
  unfold access_round in E1. bstep E1 as e k3 E3. apply get_pte_inv in E3 as (-> & t & Ht & ->).
  destruct (allowed _ _) eqn:Hal.
  - injection E1 as <- <-. split; [done|]. intros pfn [= Hpfn].
    destruct (allowed_permits _ _ _ _ _ (fl_ok _ _ F) Ht Hal) as (b & w & Hv & Hp).
    destruct (pgd (mm t) !! page_of a) as [e|] eqn:He; [|done]. simpl in Hpfn. by exists t, e, b, w.
  - bstep E1 as r1 k3 E3. destruct r1; injection E1 as <- <-; [done|by split..].
Qed.

Lemma load_faulted k cur a sp r k' : tasks_ok k → 0 ≤ a → load c ops cur a sp k = Ret (r, k') → faulted k k'.
Proof using Type.
  intros T Ha E. unfold load in E. bstep E as x k1 E1. apply access_spec in E1 as [F _]; [|done|done].
  by destruct x; injection E as _ <-.
Qed.
Lemma store_faulted k cur a byte sp r k' : tasks_ok k → 0 ≤ a → store c ops cur a byte sp k = Ret (r, k') → faulted k k'.
Proof using Type.
  intros T Ha E. unfold store in E. bstep E as x k1 E1. apply access_spec in E1 as [F _]; [|done|done].
  destruct x; injection E as _ <-; [done|]. eapply faulted_trans; [exact F|]. by apply settled_tasks; [apply F|..].
Qed.

(** What an access without permission ends in *)
Lemma denied_spec k cur t a sp b w write :
  tasks_ok k → tasks k !! cur = Some t → 0 ≤ a < TASK_SIZE → kview k cur a = Some (b, w) → (b = true → is_special t = true) →
  ¬ permits w write → access c ops cur a sp write k = Ret (inl (Sigsegv SEGV_ACCERR), k).
Proof using Type.
  intros T Ht Ha Hv Hs Hp. assert (Hk : get_pte cur a k = Ret (pgd (mm t) !! page_of a, k)).
  { unfold get_pte, get_mm, get_task, mbind, st_bind. by rewrite Ht. }
  destruct (allowed (pgd (mm t) !! page_of a) write) eqn:Hal.
  { destruct (allowed_permits _ _ _ _ _ T Ht Hal) as (b' & w' & Hv' & ?). rewrite Hv in Hv'. by injection Hv' as <- <-. }
  set (e := pgd (mm t) !! page_of a) in *. unfold kview in Hv. rewrite Ht in Hv.
  assert (Hf : ∃ v, find_vma (mmap (mm t)) a = Some v ∧ vm_start v ≤ a ∧ view (vm_flags v) = (b, w)).
  { clear -Hv. induction (mmap (mm t)) as [|u l IH]; simpl in *; [done|]. destruct (a <? vm_end u); [|by apply IH].
    destruct (Z.leb_spec (vm_start u) a); [|done]. exists u. split; [done|]. split; [done|congruence]. }
  destruct Hf as (v & Hf & Hs1 & Hvw). unfold view in Hvw. injection Hvw as Hb Hw.
  assert (Hfault : do_page_fault c ops cur (fault_code e write) a sp k = Ret (Sigsegv SEGV_ACCERR, k)).
  { unfold do_page_fault. rewrite (proj2 (Z.leb_gt _ _)) by lia.
    rewrite (bind_ret (get_mm cur) _ k (mm t) k) by (unfold get_mm, get_task, mbind, st_bind; by rewrite Ht). rewrite Hf.
    assert (Hg : good_area c ops cur (fault_code e write) a v k = Ret (Sigsegv SEGV_ACCERR, k)).
    { unfold good_area. assert (Hae : access_error (fault_code e write) (flag (fault_code e write) PF_WRITE) v = true); [|by rewrite Hae].
      assert (flag (fault_code e write) PF_WRITE = write) as ->.
      { unfold fault_code. destruct write, e as [e|]; [destruct (pte_is e _)|..|destruct (pte_is e _)|]; done. }
      unfold access_error. destruct write.
      - destruct (flag (vm_flags v) VM_WRITE) eqn:Ew; [|done]. exfalso. apply Hp. apply flag_write in Ew. change 7 with VM_ACCESS in Ew.
        rewrite Hw in Ew. split; [|done]. intros ->. by rewrite Z.bits_0 in Ew.
      - destruct (flag _ PF_PROT); [done|]. apply negb_true_iff. change (Z.lor VM_READ (Z.lor VM_EXEC VM_WRITE)) with VM_ACCESS.
        unfold flag. rewrite Hw. destruct (Z.eqb_spec w 0) as [->|Hne]; [done|]. exfalso. apply Hp. by split. }
    destruct (is_abt_vma v) eqn:Eab; rewrite (proj2 (Z.leb_le _ _)) by done; cbn [andb]; [|done].
    unfold handle_abt_vmfault. rewrite (bind_ret (get_task cur) _ k t k) by (unfold get_task; by rewrite Ht).
    unfold is_abt_vma in Eab. rewrite Eab in Hb. rewrite Hs by done. done. }
  unfold access. apply loopM_one. unfold access_round. rewrite (bind_ret _ _ _ _ _ Hk), Hal. by rewrite (bind_ret _ _ _ _ _ Hfault).
Qed.
End Handlers.

(** Files whose operations always fail, for examples *)
Definition ops0 : vm_operations := VmOps (λ _ _ x, (VM_FAULT_SIGBUS, 0, x)) (λ _ _ x, (0, false, x)).
