(* ===== verification/Channel.v ===== *)
(** The channel is shared memory: the first access of a child to a page of the
    arbiter's areas maps the frame that the arbiter has at that address, so
    what one child writes the others and the arbiter read. *)

From S2P Require Import Prelude Frame Chunk Os Pte Vma VmaSpec Kernel Regions Group KernelSpec KernelLaws Fault FaultSpec.

(** * Entries that grant access *)

Lemma mkwrite_allows e : mmu_allows e false = true → mmu_allows (pte_mkwrite e) true = true.
Proof.
  rewrite !mmu_allows_bits. cbn [pte_flags pte_mkwrite pte_set_flags]. rewrite !Z.lor_spec.
  change (Z.testbit _PAGE_RW 0) with false. change (Z.testbit _PAGE_RW 1) with true. change (Z.testbit _PAGE_RW 2) with false.
  rewrite !orb_false_r, !orb_true_r. done.
Qed.
Lemma mmu_write_read e : mmu_allows e true = true → mmu_allows e false = true.
Proof. rewrite !mmu_allows_bits, !andb_true_iff. by intros [? _]. Qed.
Lemma mmu_write e : mmu_allows e true = true → pte_write e = true.
Proof. unfold mmu_allows. rewrite !andb_true_iff. by intros [_ ?]. Qed.
Lemma mkdirty_allows e w : mmu_allows (pte_mkdirty e) w = mmu_allows e w.
Proof. rewrite !mmu_allows_bits. cbn [pte_flags pte_mkdirty pte_set_flags]. rewrite !Z.lor_spec.
  change (Z.testbit _PAGE_DIRTY 0) with false. change (Z.testbit _PAGE_DIRTY 1) with false. change (Z.testbit _PAGE_DIRTY 2) with false.
  by rewrite !orb_false_r.
Qed.

(** Any access to an area makes its pages readable, and none are special. *)
Lemma get_page_prot f pfn :
  (Z.land f 7 ≠ 0 → mmu_allows (mk_pte pfn (vm_get_page_prot f)) false = true) ∧
  Z.testbit (vm_get_page_prot f) 9 = false.
Proof.
  unfold vm_get_page_prot. assert (Z.land f 7 = Z.land (Z.land f 0xf) 7) as -> by (by rewrite <-Z.land_assoc).
  assert (Hx : 0 ≤ Z.land f 0xf < 16) by (change 0xf with (Z.ones 4); rewrite Z.land_ones by lia; by apply Z.mod_pos_bound).
  generalize dependent (Z.land f 0xf). intros x Hx.
  assert (x = 0 ∨ x = 1 ∨ x = 2 ∨ x = 3 ∨ x = 4 ∨ x = 5 ∨ x = 6 ∨ x = 7 ∨ x = 8 ∨ x = 9 ∨ x = 10 ∨ x = 11 ∨ x = 12 ∨ x = 13 ∨
    x = 14 ∨ x = 15) as Hc by lia.
  destruct_or! Hc; subst x; (split; [|done]); by vm_compute.
Qed.

Section Channel.
Context (c : kconf) (ops : vm_operations).

Lemma page_prot_allows v pfn :
  (Z.land (vm_flags v) 7 ≠ 0 → mmu_allows (mk_pte pfn (vm_page_prot c v)) false = true) ∧
  Z.testbit (vm_page_prot c v) 9 = false.
Proof using Type.
  unfold vm_page_prot. destruct (vma_wants_writenotify c v); [|apply get_page_prot].
  destruct (get_page_prot (Z.land (vm_flags v) (not32 VM_SHARED)) pfn) as [H1 H2]. split; [|done]. intros Hf. apply H1.
  by rewrite <-Z.land_assoc.
Qed.
Lemma abt_entry_allows v pfn write :
  permits (Z.land (vm_flags v) 7) write →
  mmu_allows (if flag (vm_flags v) VM_WRITE then pte_mkwrite (pte_mkdirty (mk_pte pfn (vm_page_prot c v)))
              else mk_pte pfn (vm_page_prot c v)) write = true.
Proof using Type.
  intros [Hw Hwr]. destruct (page_prot_allows v pfn) as [Ha _]. specialize (Ha Hw).
  destruct (flag (vm_flags v) VM_WRITE) eqn:Ef.
  - assert (Hm : mmu_allows (pte_mkwrite (pte_mkdirty (mk_pte pfn (vm_page_prot c v)))) true = true).
    { apply mkwrite_allows. by rewrite mkdirty_allows. }
    destruct write; [done|by apply mmu_write_read].
  - destruct write; [|done]. specialize (Hwr eq_refl). rewrite Z.land_spec in Hwr. apply andb_true_iff in Hwr as [Hwr _].
    change VM_WRITE with (2 ^ 1) in Ef. rewrite flag_bit in Ef by lia. congruence.
Qed.

(** * The arbiter's side *)

(** The arbiter [cur] has mapped the address [a] the way it maps the channel:
    a page of a shared memory object, writable, and if it is in the page table
    then as an ordinary writable page. *)
Record backed (v : vm_area_struct) (a : Z) (x : phys) : Prop := {
  bk_start : vm_start v ≤ a;
  bk_shared : shared_write v = true;
  bk_plain : is_abt_vma v = false ∧ flag (vm_flags v) (Z.lor VM_IO VM_PFNMAP) = false ∧ flag (vm_flags v) VM_HUGETLB = false;
  bk_file : vm_file v ≠ 0 ∧ page_mkwrite c (vm_file v) = false;
  bk_size : ∃ size, i_size x !! vm_file v = Some size ∧ Z.shiftl (linear_page_index v a) PAGE_SHIFT < size;
  bk_index : linear_page_index v a < SHMEM_MAX_INDEX;
}.
Definition shared_entry (e : pte_t) : Prop := mmu_allows e true = true ∧ pte_special e = false.
Record arbiter_page (k : kernel) (cur a : Z) (ta : task_struct) : Prop := {
  ap_task : tasks k !! cur = Some ta;
  ap_area : ∃ v, find_vma (mmap (mm ta)) a = Some v ∧ backed v a (k_phys k);
  ap_entry e : pgd (mm ta) !! page_of a = Some e → shared_entry e;
}.

Lemma shared_write_flag v : shared_write v = true → flag (vm_flags v) VM_WRITE = true ∧ flag (vm_flags v) VM_SHARED = true.
Proof using Type.
  unfold shared_write. intros H%Z.eqb_eq. change VM_WRITE with (2 ^ 1). change VM_SHARED with (2 ^ 3). rewrite !flag_bit by lia.
  assert (H1 : Z.testbit (Z.land (vm_flags v) (Z.lor VM_WRITE VM_SHARED)) 1 = true) by (by rewrite H).
  assert (H3 : Z.testbit (Z.land (vm_flags v) (Z.lor VM_WRITE VM_SHARED)) 3 = true) by (by rewrite H).
  rewrite Z.land_spec, andb_true_iff in H1, H3. tauto.
Qed.

Lemma take_free k : k_res k = [] → k_take k = Ret (true, k).
Proof using Type. unfold k_take. by intros ->. Qed.
Lemma get_pte_task k p t a : tasks k !! p = Some t → get_pte p a k = Ret (pgd (mm t) !! page_of a, k).
Proof using Type. intros Ht. unfold get_pte, get_mm, get_task, mbind, st_bind. by rewrite Ht. Qed.
Lemma get_mm_task k p t : tasks k !! p = Some t → get_mm p k = Ret (mm t, k).
Proof using Type. intros Ht. unfold get_mm, get_task, mbind, st_bind. by rewrite Ht. Qed.
Lemma set_pte_task k p t a e :
  tasks k !! p = Some t →
  set_pte_at p a e k = Ret (tt, set_tasks (<[p := set_mm (set_pgd (<[page_of a := e]> (pgd (mm t))) (mm t)) t]> (tasks k)) k).
Proof using Type. intros Ht. unfold set_pte_at, upd_mm_of, upd_task. by rewrite Ht. Qed.
Lemma area_at_task k p t a v : tasks k !! p = Some t → find_vma (mmap (mm t)) a = Some v → area_at p a k = Ret (v, k).
Proof using Type. intros Ht Hf. unfold area_at. rewrite (bind_ret _ _ _ _ _ (get_mm_task _ _ _ Ht)), Hf. done. Qed.

(** A page of a shared memory object is there or is made. *)
Lemma shmem_fault_spec k v a :
  k_res k = [] → backed v a (k_phys k) →
  ∃ pfn ph, call_fault ops v (linear_page_index v a) k = Ret ((VM_FAULT_LOCKED, pfn), set_phys ph k) ∧
    i_size ph = i_size (k_phys k).
Proof using Type.
  intros Hr [_ _ _ _ (size & Hs & Hlt) Hi]. unfold call_fault. rewrite (bind_ret (gets k_phys) _ k (k_phys k) k) by done. rewrite Hs.
  unfold shmem_fault. rewrite (proj2 (Z.leb_gt _ _)) by done.
  assert (∃ pfn ph, shmem_getpage (vm_file v) (linear_page_index v a) k = Ret (inr pfn, set_phys ph k) ∧ i_size ph = i_size (k_phys k))
    as (pfn & ph & E & Hsz).
  { unfold shmem_getpage. rewrite (proj2 (Z.leb_gt _ _)) by done.
    destruct (page_cache (k_phys k) !! (vm_file v, linear_page_index v a)) as [pfn|] eqn:Hc.
    - exists pfn, (k_phys k). split; [|done]. apply loopM_one. unfold shmem_getpage_round.
      rewrite (bind_ret (gets k_phys) _ k (k_phys k) k) by done. rewrite Hc. by destruct k.
    - exists (next_pfn (k_phys k)), (add_cache (vm_file v) (linear_page_index v a) (next_pfn (k_phys k)) (add_frame (Page false ∅) (k_phys k))).
      split; [|done]. apply loopM_one. unfold shmem_getpage_round.
      rewrite (bind_ret (gets k_phys) _ k (k_phys k) k) by done. rewrite Hc.
      do 3 (rewrite (bind_ret _ _ _ _ _ (take_free k Hr)); cbn [negb]). set (k1 := set_phys (add_frame (Page false ∅) (k_phys k)) k).
      assert (E1 : alloc_page (Page false ∅) k = Ret (Some (next_pfn (k_phys k)), k1)).
      { unfold alloc_page. by rewrite (bind_ret _ _ _ _ _ (take_free k Hr)). }
      rewrite (bind_ret _ _ _ _ _ E1). do 2 (rewrite (bind_ret _ _ _ _ _ (take_free k1 Hr)); cbn [negb]). done. }
  exists pfn, ph. split; [|done]. by rewrite (bind_ret _ _ _ _ _ E).
Qed.

Lemma arbiter_fault k cur a ta v :
  k_res k = [] → tasks k !! cur = Some ta → backed v a (k_phys k) → pgd (mm ta) !! page_of a = None →
  ∃ e ph, handle_mm_fault c ops (fail KernelOops) cur v a true k =
      Ret (VM_FAULT_LOCKED, Kern (<[cur := set_mm (set_pgd (<[page_of a := e]> (pgd (mm ta))) (mm ta)) ta]> (tasks k))
        (ab_category_count k) (k_res k) ph) ∧
    shared_entry e ∧ i_size ph = i_size (k_phys k).
Proof using Type.
  intros Hr Ht B He. pose proof B as [_ Hsh (Hna & _ & Hnh) [Hfile Hmk] _ _]. destruct (shared_write_flag v Hsh) as [Hw Hs].
  unfold handle_mm_fault. rewrite (bind_ret _ _ _ _ _ (take_free k Hr)). cbn [negb]. rewrite Hnh.
  unfold handle_pte_fault. rewrite (bind_ret _ _ _ _ _ (get_pte_task k cur ta a Ht)), He, Hna, (proj2 (Z.eqb_neq _ _) Hfile). cbn [negb].
  unfold do_linear_fault, __do_fault. destruct (shmem_fault_spec k v a Hr B) as (pfn & ph & E & Hsz).
  rewrite (bind_ret _ _ _ _ _ E). change (flag VM_FAULT_LOCKED (Z.lor VM_FAULT_ERROR VM_FAULT_NOPAGE)) with false. cbn iota.
  set (k1 := set_phys ph k).
  assert (E1 : page_for_write c ops cur v (linear_page_index v a) pfn k1 = Ret (inr pfn, k1)).
  { unfold page_for_write. rewrite Hs. cbn [negb]. unfold call_page_mkwrite. by rewrite Hmk. }
  rewrite (bind_ret _ _ _ _ _ E1). rewrite (bind_ret _ _ _ _ _ (set_pte_task k1 cur ta a _ Ht)).
  eexists _, ph. split; [done|]. split; [|done]. unfold maybe_mkwrite. rewrite Hw. split.
  - apply mkwrite_allows. rewrite mkdirty_allows. apply page_prot_allows. intros H0. apply flag_write in Hw. by rewrite H0 in Hw.
  - unfold pte_special. change _PAGE_SPECIAL with (2 ^ 9) at 1. rewrite pte_is_bit by lia.
    cbn [pte_flags pte_mkwrite pte_mkdirty mk_pte pte_set_flags]. rewrite !Z.lor_spec, (proj2 (page_prot_allows v pfn)). done.
Qed.

(** What the request for the arbiter's page leaves *)
Record got_page (k : kernel) (cur a : Z) (ta : task_struct) (pfn : Z) (k' : kernel) : Prop := {
  gp_tasks : ∃ g, tasks k' = <[cur := set_mm (set_pgd g (mm ta)) ta]> (tasks k);
  gp_page : arbiter_page k' cur a (default ta (tasks k' !! cur)) ∧
            ∃ e, pgd (mm (default ta (tasks k' !! cur))) !! page_of a = Some e ∧ pte_pfn e = pfn;
  gp_res : k_res k' = [];
  gp_old : is_Some (pgd (mm ta) !! page_of a) → k' = k;
}.

Lemma follow_shared k cur a t e :
  tasks k !! cur = Some t → pgd (mm t) !! page_of a = Some e → shared_entry e →
  follow_page cur a true k = Ret (Some (inr (pte_pfn e)), k).
Proof using Type.
  intros Ht He [Hw%mmu_write Hs]. unfold follow_page. rewrite (bind_ret _ _ _ _ _ (get_pte_task _ _ _ a Ht)), He.
  unfold vm_normal_page. by rewrite Hw, Hs.
Qed.

Lemma gup_spec k cur a ta :
  tasks_ok k → k_res k = [] → 0 ≤ a < TASK_SIZE → arbiter_page k cur a ta →
  ∃ pfn k', get_user_pages c ops (fail KernelOops) cur a true k = Ret (inr pfn, k') ∧ got_page k cur a ta pfn k'.
Proof using Type.
  intros T Hr Ha A. pose proof A as [Ht (v & Hf & B) He]. pose proof B as [Hst Hsh (Hna & Hio & Hnh) _ _ _].
  destruct (shared_write_flag v Hsh) as [Hw _].
  assert (Hx : find_extend_vma c cur a k = Ret (Some v, k)).
  { unfold find_extend_vma. rewrite page_mask by (unfold TASK_SIZE in *; lia). rewrite (bind_ret _ _ _ _ _ (get_mm_task _ _ _ Ht)).
    pose proof (to_wf _ (T _ _ Ht)) as W. destruct (find_bounds _ _ _ _ _ W Hf) as (_ & Hb & _ & Hd1 & Hd2 & _).
    assert (Hpg : find_vma (mmap (mm ta)) (a / PAGESIZE * PAGESIZE) = Some v ∧ vm_start v ≤ a / PAGESIZE * PAGESIZE).
    { clear -Hf Hst W Hd1. split.
      - unfold wf_mmap in W. revert W. generalize 0 at 1. induction (mmap (mm ta)) as [|u l IH]; intros lo; simpl in *; [done|].
        intros (_ & (_ & _ & [j Hj] & _) & Hs). pose proof (Z.div_mod a PAGESIZE ltac:(done)).
        pose proof (Z.mod_pos_bound a PAGESIZE ltac:(done)). destruct (Z.ltb_spec a (vm_end u)).
        + by rewrite (proj2 (Z.ltb_lt _ _)) by (unfold PAGESIZE in *; lia).
        + rewrite (proj2 (Z.ltb_ge _ _)) by (unfold PAGESIZE in *; lia). by eapply IH.
      - destruct Hd1 as [j Hj]. rewrite Hj in *. apply Z.mul_le_mono_nonneg_r; [done|]. apply Z.div_le_lower_bound; unfold PAGESIZE in *; lia. }
    destruct Hpg as [-> Hl]. by rewrite (proj2 (Z.leb_le _ _)). }
  unfold get_user_pages. rewrite (bind_ret _ _ _ _ _ Hx), Hio, Hw, Hnh. cbn [orb negb].
  rewrite (bind_ret _ _ _ _ _ (take_free k Hr)). cbn [negb]. destruct (pgd (mm ta) !! page_of a) as [e|] eqn:Ee.
  - exists (pte_pfn e), k. split.
    { apply loopM_one. unfold gup_round. by rewrite (bind_ret _ _ _ _ _ (follow_shared _ _ _ _ _ Ht Ee (He _ eq_refl))). }
    split; [exists (pgd (mm ta))| |done|done].
    + rewrite insert_id; [done|]. rewrite Ht. by destruct ta as [[]].
    + rewrite Ht. simpl. split; [split; [done|eauto|]|eauto]. by rewrite Ee.
  - destruct (arbiter_fault k cur a ta v Hr Ht B Ee) as (e & ph & E & Hsh1 & Hsz). set (k1 := Kern _ _ _ ph) in E.
    set (ta1 := set_mm (set_pgd (<[page_of a := e]> (pgd (mm ta))) (mm ta)) ta) in *.
    assert (Ht1 : tasks k1 !! cur = Some ta1) by (unfold k1; simpl; by rewrite lookup_insert_eq).
    assert (He1 : pgd (mm ta1) !! page_of a = Some e) by (unfold ta1; simpl; by rewrite lookup_insert_eq).
    exists (pte_pfn e), k1. split.
    { apply (loopM_two _ _ _ true k1).
      - unfold gup_round, follow_page. rewrite (bind_ret _ _ k None k).
        2:{ rewrite (bind_ret _ _ _ _ _ (get_pte_task _ _ _ a Ht)). by rewrite Ee. }
        rewrite (bind_ret _ _ _ _ _ (area_at_task _ _ _ _ _ Ht Hf)), (bind_ret _ _ _ _ _ E). done.
      - unfold gup_round. by rewrite (bind_ret _ _ _ _ _ (follow_shared _ _ _ _ _ Ht1 He1 Hsh1)). }
    split; [by eexists| |done|rewrite Ee; by intros [? ?]].
    rewrite Ht1. simpl. split; [split; [done| |]|eauto].
    + exists v. split; [done|]. destruct B as [B1 B2 B3 B4 B5 B6]. split; try done. simpl. by rewrite Hsz.
    + intros e' He'. rewrite He1 in He'. by injection He' as <-.
Qed.

(** * The child's side *)

Lemma prepare_spec k p t v :
  k_res k = [] → tasks k !! p = Some t →
  ∃ l x, anon_vma_prepare p v k = Ret (0, Kern (<[p := set_mm (set_mmap l (mm t)) t]> (tasks k)) (ab_category_count k) (k_res k) x) ∧
    map shape l = map shape (mmap (mm t)) ∧ mem_map x = mem_map (k_phys k) ∧ i_size x = i_size (k_phys k).
Proof using Type.
  intros Hr Ht. unfold anon_vma_prepare. destruct (negb (anon_vma v =? 0)).
  { exists (mmap (mm t)), (k_phys k). split; [|done]. rewrite insert_id; [by destruct k|]. rewrite Ht. by destruct t as [[]]. }
  rewrite (bind_ret _ _ _ _ _ (get_mm_task _ _ _ Ht)). destruct (negb (find_mergeable_anon_vma (mm t) v =? 0)).
  - eexists _, (k_phys k). split; [unfold mbind, st_bind, upd_area, upd_mm_of, upd_task; rewrite Ht; done|]. split; [apply shape_import|done].
  - rewrite (bind_ret _ _ _ _ _ (take_free k Hr)). cbn [negb]. eexists _, (add_anon (k_phys k)).
    split; [unfold mbind, st_bind, upd_area, upd_mm_of, upd_task, gets, upd_phys, modify; simpl; rewrite Ht; done|]. split; [apply shape_import|done].
Qed.

(** The page table of [t] is up to date for the page of [a]: it has no entry
    yet, or one that grants the access to the frame the arbiter has there. *)
Definition fresh_entry (k : kernel) (cur : Z) (t : task_struct) (a : Z) (write : bool) : Prop :=
  match pgd (mm t) !! page_of a with
  | None => True
  | Some e => mmu_allows e write = true ∧
      ∃ ta ea, tasks k !! cur = Some ta ∧ pgd (mm ta) !! page_of a = Some ea ∧ pte_pfn ea = pte_pfn e
  end.

(** The child [p] of [cur] may access the page of [a]. *)
Record may_touch (k : kernel) (cur : Z) (l : list Z) (p a : Z) (write : bool) : Prop := {
  mt_ok : tasks_ok k;
  mt_res : k_res k = [];
  mt_group : group k cur l;
  mt_child : p ∈ l;
  mt_addr : 0 ≤ a < TASK_SIZE;
  mt_task : ∃ t, tasks k !! p = Some t ∧ is_special t = true ∧ fresh_entry k cur t a write;
  mt_view : ∃ w, kview k p a = Some (true, w) ∧ permits w write;
  mt_arbiter : ∃ ta, arbiter_page k cur a ta;
}.

(** The child and the arbiter have the same frame. *)
Record touched (k : kernel) (cur p a : Z) (write : bool) (pfn : Z) (k' : kernel) : Prop := {
  tc_fault : faulted k k';
  tc_child : ∃ t' e, tasks k' !! p = Some t' ∧ pgd (mm t') !! page_of a = Some e ∧ pte_pfn e = pfn ∧ mmu_allows e write = true;
  tc_arbiter : ∃ ta' e, arbiter_page k' cur a ta' ∧ pgd (mm ta') !! page_of a = Some e ∧ pte_pfn e = pfn;
  tc_other q : q ≠ p → q ≠ cur → tasks k' !! q = tasks k !! q;
  tc_same ta e : tasks k !! cur = Some ta → pgd (mm ta) !! page_of a = Some e →
    pfn = pte_pfn e ∧ mem_map (k_phys k') = mem_map (k_phys k);
}.

(** The area of an address with a view *)
Lemma view_area l a y : view_at l a = Some y → ∃ v, find_vma l a = Some v ∧ vm_start v ≤ a ∧ view (vm_flags v) = y.
Proof using Type.
  induction l as [|u l IH]; simpl; [done|]. destruct (a <? vm_end u); [|done].
  destruct (Z.leb_spec (vm_start u) a); [|done]. intros [= <-]. by exists u.
Qed.

(** [do_abt_anon_page] with the arbiter's page *)
Lemma abt_page_spec k cur l p a t v write :
  tasks_ok k → k_res k = [] → group k cur l → p ∈ l → 0 ≤ a < TASK_SIZE → tasks k !! p = Some t → is_special t = true →
  permits (Z.land (vm_flags v) 7) write → (∃ ta, arbiter_page k cur a ta) →
  ∃ pfn k', do_abt_anon_page c (abmap_get_page c ops p a) p v a k = Ret (0, k') ∧
    (∃ t' e, tasks k' !! p = Some t' ∧ pgd (mm t') !! page_of a = Some e ∧ pte_pfn e = pfn ∧ mmu_allows e write = true) ∧
    (∃ ta' e, arbiter_page k' cur a ta' ∧ pgd (mm ta') !! page_of a = Some e ∧ pte_pfn e = pfn) ∧
    (∀ q, q ≠ p → q ≠ cur → tasks k' !! q = tasks k !! q) ∧
    (∀ ta e, tasks k !! cur = Some ta → pgd (mm ta) !! page_of a = Some e →
       pfn = pte_pfn e ∧ mem_map (k_phys k') = mem_map (k_phys k)).
Proof using Type.
  intros T Hr G Hp Ha Ht Hs Hw (ta & A). assert (Hne : cur ≠ p) by (intros <-; by apply (group_not_cur _ _ _ G)).
  destruct (prepare_spec k p t v Hr Ht) as (l1 & x & E1 & Hsh & Hm1 & Hi1). unfold do_abt_anon_page.
  assert (S1 := keep_prepare (λ _, True) p v _ _ _ E1 T I). set (k1 := Kern _ _ _ x) in E1, S1.
  rewrite (bind_ret _ _ _ _ _ E1). cbn [Z.eqb negb]. set (t1 := set_mm (set_mmap l1 (mm t)) t) in *.
  assert (Ht1 : tasks k1 !! p = Some t1) by (unfold k1; simpl; by rewrite lookup_insert_eq).
  assert (Ho1 : ∀ q, q ≠ p → tasks k1 !! q = tasks k !! q) by (intros q Hq; unfold k1; simpl; by rewrite lookup_insert_ne).
  assert (G1 : group k1 cur l) by (by eapply group_same; [apply S1|]). assert (T1 := fl_ok _ _ (se_fault _ _ S1)).
  assert (A1 : arbiter_page k1 cur a ta).
  { destruct A as [At (u & Hu & B) Ae]. split; [by rewrite Ho1| |done]. exists u. split; [done|].
    destruct B as [B1 B2 B3 B4 B5 B6]. split; try done. unfold k1. simpl. by rewrite Hi1. }
  destruct (gup_spec k1 cur a ta T1 Hr Ha A1) as (pfn & k2 & E2 & [(g & Hg) (A2 & e2 & He2 & Hpfn) Hr2 Hold]).
  assert (Ea : abmap_get_page c ops p a k1 = Ret (Some pfn, k2)).
  { unfold abmap_get_page. rewrite (bind_ret (get_task p) _ k1 t1 k1) by (unfold get_task; by rewrite Ht1).
    assert (is_special t1 = true) as -> by done. rewrite (bind_ret (ab_assert true) _ k1 tt k1) by done.
    rewrite (bind_ret (gets tasks) _ k1 (tasks k1) k1) by done. rewrite (find_my_arbiter_child _ _ _ _ G1 Hp).
    rewrite (bind_ret (lift (Ret (Some cur))) _ k1 (Some cur) k1) by done. by rewrite (bind_ret _ _ _ _ _ E2). }
  rewrite (bind_ret _ _ _ _ _ Ea), (bind_ret _ _ _ _ _ (take_free k2 Hr2)). cbn [negb].
  assert (Ht2 : tasks k2 !! p = Some t1) by (by rewrite Hg, lookup_insert_ne).
  rewrite (bind_ret _ _ _ _ _ (set_pte_task k2 p t1 a _ Ht2)). eexists pfn, _. split; [done|]. simpl. split_and!.
  - eexists _, _. rewrite lookup_insert_eq. split; [done|]. simpl. rewrite lookup_insert_eq. split; [done|].
    split; [by destruct (flag _ _)|by apply abt_entry_allows].
  - exists (default ta (tasks k2 !! cur)), e2. split; [|done]. destruct A2 as [At (u & Hu & B) Ae].
    split; simpl; [by rewrite lookup_insert_ne|by exists u|done].
  - intros q H1 H2. rewrite lookup_insert_ne, Hg, lookup_insert_ne by done. by apply Ho1.
  - intros ta0 e Hta He. rewrite <-(Ho1 cur Hne) in Hta. destruct A1 as [At _ _]. assert (ta0 = ta) as -> by congruence.
    rewrite (Hold ltac:(by eexists)) in *. rewrite At in He2. simpl in He2. split; [congruence|done].
Qed.

Lemma access_mapped k p t a sp write e :
  tasks k !! p = Some t → pgd (mm t) !! page_of a = Some e → mmu_allows e write = true →
  access c ops p a sp write k = Ret (inr (pte_pfn e), k).
Proof using Type.
  intros Ht He Hal. unfold access. apply loopM_one. unfold access_round.
  rewrite (bind_ret _ _ _ _ _ (get_pte_task _ _ _ a Ht)), He. cbn [allowed]. by rewrite Hal.
Qed.

Lemma touch_spec k cur l p a sp write :
  may_touch k cur l p a write → ∃ pfn k', access c ops p a sp write k = Ret (inr pfn, k') ∧ touched k cur p a write pfn k'.
Proof using Type.
  intros [T Hr G Hp Ha (t & Ht & Hs & He) (w & Hv & Hw) A]. unfold fresh_entry in He.
  destruct (pgd (mm t) !! page_of a) as [e0|] eqn:He0.
  { destruct He as (Hal & ta & ea & Hta & Hea & Hpfn). exists (pte_pfn e0), k. split; [by eapply access_mapped|].
    destruct A as (ta' & A). pose proof A as [At _ _]. assert (ta' = ta) as -> by congruence. split.
    - by apply faulted_refl.
    - by exists t, e0.
    - by exists ta, ea.
    - done.
    - intros ta' e Hta' He'. assert (ta' = ta) as -> by congruence. split; [congruence|done]. }
  clear He. rename He0 into He. unfold kview in Hv. rewrite Ht in Hv.
  destruct (view_area _ _ _ Hv) as (v & Hf & Hst & Hvw). unfold view in Hvw. injection Hvw as Hab Hfl.
  rewrite <-Hfl in Hw. change VM_ACCESS with 7 in Hw.
  destruct (abt_page_spec k cur l p a t v write T Hr G Hp Ha Ht Hs Hw A) as (pfn & k' & E & Hc & Harb & Ho & Hsame).
  assert (Hh : flag (vm_flags v) VM_HUGETLB = false).
  { destruct (find_bounds _ _ _ _ _ (to_wf _ (T _ _ Ht)) Hf) as (_ & _ & _ & _ & _ & _ & Hok).
    change VM_AB_CONTROL with (2 ^ 29) in Hab. rewrite flag_bit in Hab by lia. change VM_HUGETLB with (2 ^ 22). rewrite flag_bit by lia.
    by destruct (Hok Hab) as (_ & _ & _ & _ & H22 & _). }
  assert (Eh : handle_mm_fault c ops (abmap_get_page c ops p a) p v a write k = Ret (0, k')).
  { unfold handle_mm_fault. rewrite (bind_ret _ _ _ _ _ (take_free k Hr)). cbn [negb]. rewrite Hh.
    unfold handle_pte_fault. rewrite (bind_ret _ _ _ _ _ (get_pte_task _ _ _ a Ht)), He. unfold is_abt_vma. by rewrite Hab. }
  assert (Ef : do_page_fault c ops p (fault_code None write) a sp k = Ret (Handled, k')).
  { unfold do_page_fault. rewrite (proj2 (Z.leb_gt _ _)) by lia. rewrite (bind_ret _ _ _ _ _ (get_mm_task _ _ _ Ht)), Hf.
    unfold is_abt_vma. rewrite Hab, (proj2 (Z.leb_le _ _)) by done. cbn [andb]. unfold handle_abt_vmfault.
    rewrite (bind_ret (get_task p) _ k t k) by (unfold get_task; by rewrite Ht). rewrite Hs.
    rewrite (bind_ret (ab_assert true) _ k tt k) by done. unfold good_area.
    assert (flag (fault_code None write) PF_WRITE = write) as -> by (by destruct write).
    assert (access_error (fault_code None write) write v = false) as ->.
    { unfold access_error. destruct Hw as [Hw0 Hw1]. destruct write.
      - specialize (Hw1 eq_refl). rewrite Z.land_spec in Hw1. apply andb_true_iff in Hw1 as [Hw1 _].
        change VM_WRITE with (2 ^ 1). by rewrite flag_bit, Hw1 by lia.
      - change (flag (fault_code None false) PF_PROT) with false. apply negb_false_iff. unfold flag. apply negb_true_iff, Z.eqb_neq.
        exact Hw0. }
    by rewrite (bind_ret _ _ _ _ _ Eh). }
  exists pfn, k'. destruct Hc as (t' & e & Ht' & He' & Hpfn & Hal). split.
  - unfold access. apply (loopM_two _ _ _ tt k').
    + unfold access_round. rewrite (bind_ret _ _ _ _ _ (get_pte_task _ _ _ a Ht)), He. cbn [allowed].
      by rewrite (bind_ret _ _ _ _ _ Ef).
    + unfold access_round. rewrite (bind_ret _ _ _ _ _ (get_pte_task _ _ _ a Ht')), He'. cbn [allowed]. rewrite Hal. simpl. by rewrite Hpfn.
  - split; [by eapply do_page_fault_spec; [..|exact Ef]; [|lia]|by exists t', e|done|done|done].
Qed.

(** * Two children *)

(** A byte in a frame *)
Definition byte_at (x : phys) (pfn a : Z) : Z := default 0 (content (get_frame x pfn) !! offset_in_page a).
Definition put_byte (pfn a byte : Z) (k : kernel) : kernel :=
  let pg := get_frame (k_phys k) pfn in
  set_phys (set_mem_map (<[pfn := Page (PageAnon pg) (<[offset_in_page a := byte]> (content pg))]> (mem_map (k_phys k))) (k_phys k)) k.

Lemma put_byte_at pfn a byte k : byte_at (k_phys (put_byte pfn a byte k)) pfn a = byte.
Proof using Type. unfold byte_at, get_frame. simpl. rewrite lookup_insert_eq. simpl. by rewrite lookup_insert_eq. Qed.
Lemma byte_at_mem x x' pfn a : mem_map x' = mem_map x → byte_at x' pfn a = byte_at x pfn a.
Proof using Type. unfold byte_at, get_frame. by intros ->. Qed.
Lemma store_spec k p a byte sp pfn k' :
  access c ops p a sp true k = Ret (inr pfn, k') → store c ops p a byte sp k = Ret (None, put_byte pfn a byte k').
Proof using Type. intros E. unfold store. by rewrite (bind_ret _ _ _ _ _ E). Qed.
Lemma load_spec k p a sp pfn k' :
  access c ops p a sp false k = Ret (inr pfn, k') → load c ops p a sp k = Ret (inr (byte_at (k_phys k') pfn a), k').
Proof using Type. intros E. unfold load. by rewrite (bind_ret _ _ _ _ _ E). Qed.
(** The second child may still access the page after the first one. *)
Lemma may_touch_next k cur l p q a write write' pfn k' byte :
  may_touch k cur l q a write' → p ≠ q → touched k cur p a write pfn k' →
  may_touch (put_byte pfn a byte k') cur l q a write'.
Proof using Type.
  intros [T Hr G Hq Ha (t & Ht & Hs & He) (w & Hv & Hw) _] Hne [F _ (ta & e & A & He' & Hpfn) Ho Hsame].
  assert (Hqc : q ≠ cur) by (intros ->; by apply (group_not_cur _ _ _ G)). split; try done.
  - apply F.
  - by apply (fl_res _ _ F).
  - eapply group_same; [apply F|done].
  - exists t. simpl. rewrite Ho by done. split; [done|]. split; [done|]. unfold fresh_entry in *.
    destruct (pgd (mm t) !! page_of a) as [eq|]; [|done]. destruct He as (Hal & ta0 & ea & Hta & Hea & Hp). split; [done|].
    destruct (Hsame ta0 ea Hta Hea) as [Hs1 _]. exists ta, e. split; [apply A|]. split; [done|]. congruence.
  - exists w. split; [|done]. by apply (faulted_keep _ _ _ _ _ F).
  - exists ta. destruct A as [At (v & Hf & B) Ae]. split; [done| |done]. exists v. split; [done|]. by destruct B.
Qed.

Lemma share_spec k cur l p q a byte sp sq sc :
  may_touch k cur l p a true → may_touch k cur l q a false → p ≠ q →
  ∃ k1 k2 k3, store c ops p a byte sp k = Ret (None, k1) ∧ load c ops q a sq k1 = Ret (inr byte, k2) ∧
    load c ops cur a sc k2 = Ret (inr byte, k3).
Proof using Type.
  intros Mp Mq Hne. destruct (touch_spec k cur l p a sp true Mp) as (pfn & k1 & E1 & C1).
  pose proof (may_touch_next _ _ _ _ _ _ _ _ _ _ byte Mq Hne C1) as Mq1. set (k1' := put_byte pfn a byte k1) in *.
  destruct (touch_spec k1' cur l q a sq false Mq1) as (pfn2 & k2 & E2 & C2).
  destruct C1 as [_ _ (ta & e & [At _ _] & He & Hpfn) _ _]. assert (At' : tasks k1' !! cur = Some ta) by done.
  destruct (tc_same _ _ _ _ _ _ _ C2 ta e At' He) as [Hp2 Hmem]. rewrite Hpfn in Hp2. subst pfn2.
  assert (Hb : byte_at (k_phys k2) pfn a = byte) by (rewrite (byte_at_mem _ _ _ _ Hmem); apply put_byte_at).
  destruct (tc_arbiter _ _ _ _ _ _ _ C2) as (ta2 & e2 & [At2 _ Ae2] & He2 & Hpfn2).
  exists k1', k2, k2. split; [by apply store_spec|]. split.
  - rewrite (load_spec _ _ _ _ _ _ E2). by rewrite Hb.
  - assert (E3 : access c ops cur a sc false k2 = Ret (inr (pte_pfn e2), k2)).
    { apply (access_mapped _ _ ta2); [done|done|]. apply mmu_write_read. by apply Ae2. }
    rewrite (load_spec _ _ _ _ _ _ E3), Hpfn2. by rewrite Hb.
Qed.
End Channel.

(** * Claims *)

(** C16: Whatever a program accesses, and whatever traps come of it, every
    mapped page of every task keeps its owner and its access; a free page stays
    free, or it becomes a page of the system with the access of the next mapped
    page above it, which is one of the system's too (a stack that grows); no
    page of the arbiter appears.  The breaks and the groups stay, and every page
    table still grants no more than the areas do.  When the access gets through,
    it goes to the frame of an entry of the page table, and the area of the
    address permits it. *)
Theorem access_confined c ops k cur a sp write r k' :
  tasks_ok k → 0 ≤ a → access c ops cur a sp write k = Ret (r, k') →
  faulted k k' ∧ ∀ pfn, r = inr pfn → ∃ t e b w, tasks k' !! cur = Some t ∧ pgd (mm t) !! page_of a = Some e ∧ pte_pfn e = pfn ∧
    kview k' cur a = Some (b, w) ∧ permits w write.
Proof. apply access_spec. Qed.

(** C19: An access that the area of the page does not permit is a violation: the
    program gets SIGSEGV with the code for a bad access and nothing changes, on
    the first try or after the page was in use.  For areas of the arbiter the
    program has to be a member of a group. *)
Theorem violation_signalled c ops k cur t a sp b w write :
  tasks_ok k → tasks k !! cur = Some t → 0 ≤ a < TASK_SIZE → kview k cur a = Some (b, w) → (b = true → is_special t = true) →
  ¬ permits w write → access c ops cur a sp write k = Ret (inl (Sigsegv SEGV_ACCERR), k).
Proof. apply denied_spec. Qed.


(** C17: The channel is shared: a byte that one child stores in a page is what
    another child and the arbiter load from that address, when memory is at
    hand, the areas of the two permit the accesses, the arbiter has mapped the
    page as it maps the channel, and in the page table of each of the two the
    page has no entry yet or one that grants the access to the arbiter's frame.
    (An entry that was made read-only before the arbiter allowed writing is
    excluded: it is copied by the first store.) *)
Theorem channel_shared c ops k cur l p q a byte sp sq sc :
  may_touch c k cur l p a true → may_touch c k cur l q a false → p ≠ q →
  ∃ k1 k2 k3, store c ops p a byte sp k = Ret (None, k1) ∧ load c ops q a sq k1 = Ret (inr byte, k2) ∧
    load c ops cur a sc k2 = Ret (inr byte, k3).
Proof. apply share_spec. Qed.

(** The arbiter of [k0] with the channel mapped as [malloc_init_state] of
    [ablib_free.c] does. *)
Definition chan_flags : Z :=
  Z.lor VM_READ (Z.lor VM_WRITE (Z.lor VM_SHARED (Z.lor VM_MAYREAD (Z.lor VM_MAYWRITE (Z.lor VM_MAYEXEC VM_MAYSHARE))))).
Definition chan_area : vm_area_struct := VmArea CHANNEL_ADDR (CHANNEL_ADDR + CHANNEL_SIZE) chan_flags 0 7 0 false.
Definition mm_chan : mm_struct := set_mmap (mmap mm_arbiter ++ [chan_area]) mm_arbiter.
Definition k_chan : kernel :=
  Kern (<[1 := Task mm_chan 101 100 (convert_to_identity 1 1) 0 0 0]> (tasks k0)) 1 [] (Phys ∅ 1 ∅ {[7 := CHANNEL_SIZE]} 1).
Definition chan_page : Z := 0x80001010.

Lemma k_chan_ok : tasks_ok k_chan.
Proof. apply tasks_okb_spec. by vm_compute. Qed.
Lemma k_chan_touch p write : p = 101 ∨ p = 100 → may_touch conf0 k_chan 1 [101; 100] p chan_page write.
Proof.
  intros Hp. split.
  - apply k_chan_ok.
  - done.
  - apply groupb_spec. by vm_compute.
  - set_solver.
  - by vm_compute.
  - destruct Hp as [-> | ->]; (eexists; split; [by vm_compute|]); (split; by vm_compute).
  - exists 3. split; [destruct Hp as [-> | ->]; by vm_compute|]. split; [done|]. by intros ->.
  - eexists. split; [by vm_compute| |by intros e He; vm_compute in He].
    exists chan_area. split; [by vm_compute|]. split; [by vm_compute|by vm_compute|by vm_compute|by vm_compute| |by vm_compute].
    exists CHANNEL_SIZE. split; by vm_compute.
Qed.

Lemma access_confined_witness :
  ∃ pfn k', access conf0 ops0 100 chan_page 0xbf000000 true k_chan = Ret (inr pfn, k') ∧ faulted k_chan k' ∧
    kview k' 100 chan_page = Some (true, 3).
Proof.
  destruct (touch_spec conf0 ops0 k_chan 1 [101; 100] 100 chan_page 0xbf000000 true (k_chan_touch 100 true ltac:(by right)))
    as (pfn & k' & E & _). exists pfn, k'. split; [exact E|].
  destruct (access_confined conf0 ops0 k_chan 100 chan_page 0xbf000000 true (inr pfn) k' k_chan_ok ltac:(by vm_compute) E) as [F _].
  split; [exact F|]. apply (faulted_keep _ _ _ _ _ F). by vm_compute.
Defined.

(** The arbiter lets task 101 only read the first pages. *)
Definition k_closed : kernel :=
  match sys_absys_mprotect conf0 1 101 CHANNEL_ADDR 0x5000 PROT_READ k_chan with Ret (_, k) => k | Fault _ => k_chan end.
Lemma violation_signalled_witness :
  access conf0 ops0 101 chan_page 0xbf000000 true k_closed = Ret (inl (Sigsegv SEGV_ACCERR), k_closed) ∧
  kview k_closed 101 chan_page = Some (true, PROT_READ).
Proof.
  split; [|by vm_compute].
  assert (Ht : ∃ t, tasks k_closed !! 101 = Some t ∧ is_special t = true) by (eexists; split; by vm_compute).
  destruct Ht as (t & Ht & Hs).
  refine (violation_signalled conf0 ops0 k_closed 101 t chan_page 0xbf000000 true PROT_READ true _ Ht _ _ (λ _, Hs) _).
  - apply tasks_okb_spec. by vm_compute.
  - by vm_compute.
  - by vm_compute.
  - intros [_ H]. by specialize (H eq_refl).
Defined.


Lemma channel_shared_witness :
  ∃ k1 k2 k3, store conf0 ops0 100 chan_page 42 0xbf000000 k_chan = Ret (None, k1) ∧
    load conf0 ops0 101 chan_page 0xbf000000 k1 = Ret (inr 42, k2) ∧ load conf0 ops0 1 chan_page 0xbf000000 k2 = Ret (inr 42, k3).
Proof.
  exact (channel_shared conf0 ops0 k_chan 1 [101; 100] 100 101 chan_page 42 0xbf000000 0xbf000000 0xbf000000
    (k_chan_touch 100 true ltac:(by right)) (k_chan_touch 101 false ltac:(by left)) ltac:(done)).
Defined.
