(* ===== verification/Mremap.v ===== *)
(** The calls of plain Linux with which a thread rearranges its own address
    space: [munmap] and [mremap], of [mm/mmap.c] and [mm/mremap.c].  The project
    does not guard them.

    Pages of page tables are among the resources that may be refused; whether
    one must be allocated is not kept, so a grant stands for a table that is
    there as well.  Merging of identical pages and memory policies are left
    out. *)

From S2P Require Import Prelude Chunk Os Pte Vma VmaSpec Kernel Mprotect FreeArea FreeAreaSpec Regions Group KernelSpec Unmap Map Fault FaultSpec Channel.

Definition MREMAP_MAYMOVE : Z := 1.
Definition MREMAP_FIXED : Z := 2.
Definition PMD_SIZE : Z := 2 ^ 22.
Definition PMD_MASK : Z := not32 (PMD_SIZE - 1).
Definition LATENCY_LIMIT : Z := 64 * PAGESIZE.

(** * Page tables *)

(** The loop of [move_ptes] *)
Fixpoint move_ptes (n : nat) (old new : Z) (g : pgd_t) : pgd_t :=
  match n with
  | O => g
  | S n' =>
      move_ptes n' (old + 1) (new + 1)
        (match g !! old with Some e => <[new := e]> (delete old g) | None => g end)
  end.
Definition page_no (a : Z) : Z := Z.shiftr a PAGE_SHIFT.

(** One round of [move_page_tables]; [alloc] is whether the new tables have to
    be allocated. *)
Definition move_round (alloc : bool) (old_end : Z) (x : Z * Z) : mmm (Z * Z + Z) :=
  let '(old_addr, new_addr) := x in
  if old_end <=? old_addr then mret (inr old_addr) else
  let next := Z.land (u32 (old_addr + PMD_SIZE)) PMD_MASK in
  let next := if old_end <? u32 (next - 1) then old_end else next in
  let extent := u32 (next - old_addr) in
  ok ← (if alloc then take_resource else mret true);
  if negb ok then mret (inr old_addr) else
  let next := Z.land (u32 (new_addr + PMD_SIZE)) PMD_MASK in
  let extent := if u32 (next - new_addr) <? extent then u32 (next - new_addr) else extent in
  let extent := if LATENCY_LIMIT <? extent then LATENCY_LIMIT else extent in
  upd_mm (λ m, set_pgd (move_ptes (Z.to_nat (page_no extent)) (page_no old_addr) (page_no new_addr) (pgd m)) m);;
  mret (inl (old_addr + extent, new_addr + extent)).
Definition move_page_tables (alloc : bool) (old_addr new_addr len : Z) : mmm Z :=
  let old_end := old_addr + len in
  old_addr ← loopM (move_round alloc old_end) (old_addr, new_addr);
  mret (len + old_addr - old_end).

Section Mremap.
Variable c : kconf.

(** [copy_vma]: whether there is an area for the range now *)
Definition copy_vma (vma : vm_area_struct) (addr len pgoff : Z) : mmm bool :=
  let pgoff := if (vm_file vma =? 0) && (anon_vma vma =? 0) then Z.shiftr addr PAGE_SHIFT else pgoff in
  m ← gets m_mm;
  let '(prev, rest) := find_vma_prev [] (mmap m) addr in
  new_vma ← lift (vma_merge prev rest addr (addr + len) (vm_flags vma) (anon_vma vma) (vm_file vma) pgoff);
  match new_vma with
  | Some x => upd_mm (set_mmap (position_list x));; mret true
  | None =>
      ok ← take_resource;
      if negb ok then mret false else
      upd_mm (set_mmap (rev_append prev (set_range addr (addr + len) pgoff vma :: rest)));;
      mret true
  end.

(** An area is changed by a pointer to it. *)
Definition upd_flags (start : Z) (f : Z → Z) : mmm unit :=
  upd_mm (λ m, set_mmap (map (λ v, if vm_start v =? start then set_vm_flags (f (vm_flags v)) v else v) (mmap m)) m).
Definition area_of (addr : Z) : mmm vm_area_struct :=
  m ← gets m_mm;
  match find_vma (mmap m) addr with Some v => mret v | None => fail KernelOops end.

(** The second half of [move_vma]: the area [vma] at [old_addr] goes, or the new
    one if its tables could not be filled.  After an unmapping that leaves one
    or two parts of [vma], the pointer is to the lower one if there is one. *)
Definition move_end (vm_flags0 old_addr old_len new_len ret : Z) : mmm Z :=
  vma ← area_of old_addr;
  let excess := if flag vm_flags0 VM_ACCOUNT then vm_end vma - vm_start vma - old_len else 0 in
  let lower := vm_start vma <? old_addr in
  let split := lower && (old_addr + old_len <? vm_end vma) in
  (if flag vm_flags0 VM_ACCOUNT then upd_flags (vm_start vma) (λ f, Z.land f (not32 VM_ACCOUNT)) else mret tt);;
  upd_mm (λ m, set_usage (total_vm m + Z.shiftr new_len PAGE_SHIFT) (locked_vm m) m);;
  r ← do_munmap c old_addr old_len;
  (if (r <? 0) || (excess =? 0) then mret tt else
   upd_flags (if lower then vm_start vma else old_addr + old_len) (λ f, Z.lor f VM_ACCOUNT);;
   if split then upd_flags (old_addr + old_len) (λ f, Z.lor f VM_ACCOUNT) else mret tt);;
  (if flag vm_flags0 VM_LOCKED
   then upd_mm (λ m, set_usage (total_vm m) (locked_vm m + Z.shiftr new_len PAGE_SHIFT) m) else mret tt);;
  mret ret.
Definition move_vma (vma : vm_area_struct) (old_addr old_len new_len new_addr : Z) : mmm Z :=
  m ← gets m_mm;
  if sysctl_max_map_count c - 3 <=? map_count m then mret (u32 (- ENOMEM)) else
  let new_pgoff := u32 (vm_pgoff vma + Z.shiftr (old_addr - vm_start vma) PAGE_SHIFT) in
  ok ← copy_vma vma new_addr new_len new_pgoff;
  if negb ok then mret (u32 (- ENOMEM)) else
  moved_len ← move_page_tables true old_addr new_addr old_len;
  if moved_len <? old_len then
    move_page_tables false new_addr old_addr moved_len;;
    move_end (vm_flags vma) new_addr new_len new_len (u32 (- ENOMEM))
  else move_end (vm_flags vma) old_addr old_len new_len new_addr.

(** * [do_mremap] *)

(** The first part: a fixed target is cleared and a shrinking area cut.  The
    result, or the length that is left to grow or relocate. *)
Definition mremap_fixed (addr old_len new_len flags new_addr : Z) : mmm Z :=
  if negb (flag flags MREMAP_FIXED) then mret 0 else
  if negb (page_aligned new_addr) || negb (flag flags MREMAP_MAYMOVE) || (TASK_SIZE <? new_len) ||
     (TASK_SIZE - new_len <? new_addr) || (new_addr <=? addr) && (addr <? new_addr + new_len) ||
     (addr <=? new_addr) && (new_addr <? u32 (addr + old_len))
  then mret (- EINVAL) else
  let ret := security_file_mmap c new_addr in
  if negb (ret =? 0) then mret ret else do_munmap c new_addr new_len.
Definition mremap_shrink (addr old_len new_len flags new_addr : Z) : mmm (Z + Z) :=
  if old_len <? new_len then mret (inr old_len) else
  ret ← do_munmap c (u32 (addr + new_len)) (old_len - new_len);
  if negb (ret =? 0) && negb (old_len =? new_len) then mret (inl (u32 ret)) else
  if negb (flag flags MREMAP_FIXED) || (new_addr =? addr) then mret (inl addr) else mret (inr new_len).

(** The last part: the area grows in place or is moved. *)
Definition mremap_expand (vma : vm_area_struct) (addr old_len new_len : Z) : mmm Z :=
  let pages := Z.shiftr (new_len - old_len) PAGE_SHIFT in
  m ← gets m_mm;
  match find_vma_prev [] (mmap m) addr with
  | (prev, v :: rest) =>
      '(v', rest') ← lift (vma_adjust v rest (vm_start v) (addr + new_len) (vm_pgoff v));
      upd_mm (set_mmap (position_list (prev, v', rest')));;
      upd_mm (λ m, set_usage (total_vm m + pages) (if flag (vm_flags vma) VM_LOCKED then locked_vm m + pages else locked_vm m) m);;
      mret addr
  | (_, []) => fail KernelOops
  end.
Definition max_addr (l : list vm_area_struct) (addr : Z) : Z :=
  match find_vma_prev [] l addr with
  | (_, _ :: next :: _) => vm_start next
  | _ => TASK_SIZE
  end.
Definition mremap_move (vma : vm_area_struct) (addr old_len new_len flags new_addr : Z) : mmm Z :=
  if negb (flag flags MREMAP_MAYMOVE) then mret (u32 (- ENOMEM)) else
  if flag flags MREMAP_FIXED then move_vma vma addr old_len new_len new_addr else
  m ← gets m_mm;
  let map_flags := if flag (vm_flags vma) VM_MAYSHARE then MAP_SHARED else 0 in
  let new_addr := get_unmapped_area c m 0 new_len map_flags in
  if negb (page_aligned new_addr) then mret new_addr else
  let ret := security_file_mmap c new_addr in
  if negb (ret =? 0) then mret (u32 ret) else move_vma vma addr old_len new_len new_addr.
Definition mremap_grow (addr old_len new_len flags new_addr : Z) : mmm Z :=
  m ← gets m_mm;
  match find_vma (mmap m) addr with
  | None => mret (u32 (- EFAULT))
  | Some vma =>
      if addr <? vm_start vma then mret (u32 (- EFAULT)) else
      if flag (vm_flags vma) VM_HUGETLB then mret (u32 (- EINVAL)) else
      if vm_end vma - addr <? old_len then mret (u32 (- EFAULT)) else
      if flag (vm_flags vma) (Z.lor VM_DONTEXPAND VM_PFNMAP) && (old_len <? new_len) then mret (u32 (- EFAULT)) else
      let pages := Z.shiftr (new_len - old_len) PAGE_SHIFT in
      let locked := flag (vm_flags vma) VM_LOCKED in
      if locked && (rlim_memlock c <? locked_vm m + pages) && negb (cap_ipc_lock c) then mret (u32 (- EAGAIN)) else
      if negb (may_expand_vm c m pages) then mret (u32 (- ENOMEM)) else
      ok ← (if flag (vm_flags vma) VM_ACCOUNT then take_resource else mret true);
      if negb ok then mret (u32 (- (if locked then EAGAIN else EFAULT))) else
      if (old_len =? vm_end vma - addr) && negb (flag flags MREMAP_FIXED && negb (addr =? new_addr)) &&
         (negb (old_len =? new_len) || negb (flag flags MREMAP_MAYMOVE)) && (new_len <=? max_addr (mmap m) addr - addr)
      then mremap_expand vma addr old_len new_len
      else mremap_move vma addr old_len new_len flags new_addr
  end.

Definition do_mremap (addr old_len new_len flags new_addr : Z) : mmm Z :=
  if negb (Z.land flags (not32 (Z.lor MREMAP_FIXED MREMAP_MAYMOVE)) =? 0) then mret (u32 (- EINVAL)) else
  if negb (page_aligned addr) then mret (u32 (- EINVAL)) else
  let old_len := PAGE_ALIGN old_len in
  let new_len := PAGE_ALIGN new_len in
  if new_len =? 0 then mret (u32 (- EINVAL)) else
  ret ← mremap_fixed addr old_len new_len flags new_addr;
  if negb (ret =? 0) then mret (u32 ret) else
  r ← mremap_shrink addr old_len new_len flags new_addr;
  match r with
  | inl ret => mret ret
  | inr old_len => mremap_grow addr old_len new_len flags new_addr
  end.

(** * The system calls *)

Definition sys_munmap (cur addr len : Z) : km Z := on_mm cur (do_munmap c addr len).
Definition sys_mremap (cur addr old_len new_len flags new_addr : Z) : km Z :=
  on_mm cur (do_mremap addr old_len new_len flags new_addr).
End Mremap.

(** * Page tables *)

(** Only the page table changes, and stays in order. *)
Definition moved (s s1 : mst) : Prop :=
  m_mm s1 = set_pgd (pgd (m_mm s1)) (m_mm s) ∧ (pgd_ok (m_mm s) → pgd_ok (m_mm s1)).
#[export] Instance moved_preorder : PreOrder moved.
Proof.
  split; [intros s; split; [by destruct (m_mm s)|done]|]. intros s1 s2 s3 [E1 P1] [E2 P2]. split; [by rewrite E2, E1|auto].
Qed.
Lemma moved_brk s s1 : moved s s1 → same_brk s s1.
Proof. intros [E P]. split; [by rewrite E..|done]. Qed.
Lemma moved_mmap s s1 : moved s s1 → mmap (m_mm s1) = mmap (m_mm s).
Proof. intros [E _]. by rewrite E. Qed.

(** Entries may move between pages of one owner and access. *)
Lemma move_ptes_ok n old new m :
  (∀ j, 0 ≤ j < Z.of_nat n → view_at (mmap m) ((new + j) * PAGESIZE) = view_at (mmap m) ((old + j) * PAGESIZE)) →
  pgd_ok m → pgd_ok (set_pgd (move_ptes n old new (pgd m)) m).
Proof.
  revert old new m. induction n as [|n IH]; intros old new m Hv P; [by destruct m|]. cbn [move_ptes].
  set (g := match pgd m !! old with Some e => _ | None => _ end).
  apply (IH (old + 1) (new + 1) (set_pgd g m)).
  - intros j Hj. specialize (Hv (j + 1)). simpl. replace (new + 1 + j) with (new + (j + 1)) by lia.
    replace (old + 1 + j) with (old + (j + 1)) by lia. apply Hv. lia.
  - intros i e. simpl. unfold g. destruct (pgd m !! old) as [e0|] eqn:E0; [|apply P].
    rewrite lookup_insert_Some, lookup_delete_Some. intros [[<- <-]|(_ & _ & Hi)]; [|by apply P].
    specialize (Hv 0 ltac:(lia)). rewrite !Z.add_0_r in Hv. rewrite Hv. by apply P.
Qed.

Lemma page_no_mul a : (PAGESIZE | a) → page_no a * PAGESIZE = a.
Proof. intros H. unfold page_no. rewrite <-(page_shift a H) at 2. by rewrite Z.shiftl_mul_pow2. Qed.
Lemma page_no_le a b : a ≤ b → page_no a ≤ page_no b.
Proof. intros H. unfold page_no, PAGE_SHIFT. rewrite !Z.shiftr_div_pow2 by lia. apply Z.div_le_mono; lia. Qed.

(** The next boundary of a page of tables *)
Lemma next_pmd a : 0 ≤ a ≤ TASK_SIZE → (PAGESIZE | a) →
  a < Z.land (u32 (a + PMD_SIZE)) PMD_MASK ≤ a + PMD_SIZE ∧ (PAGESIZE | Z.land (u32 (a + PMD_SIZE)) PMD_MASK).
Proof.
  intros Ha Hd. unfold TASK_SIZE in Ha. rewrite u32_small by (unfold PMD_SIZE; lia). unfold PMD_MASK, PMD_SIZE.
  rewrite (land_not32_pow2 _ 22) by lia. pose proof (Z.div_mod (a + 2 ^ 22) (2 ^ 22) ltac:(lia)) as H1.
  pose proof (Z.mod_pos_bound (a + 2 ^ 22) (2 ^ 22) ltac:(lia)) as H2. split; [lia|].
  apply Z.divide_mul_l. by exists (2 ^ 10).
Qed.

(** How far a round gets *)
Lemma extent_spec old new old_end :
  0 ≤ old < old_end → old_end ≤ TASK_SIZE → 0 ≤ new ≤ TASK_SIZE → (PAGESIZE | old) → (PAGESIZE | new) → (PAGESIZE | old_end) →
  let next := Z.land (u32 (old + PMD_SIZE)) PMD_MASK in
  let next := if old_end <? u32 (next - 1) then old_end else next in
  let extent := u32 (next - old) in
  let next := Z.land (u32 (new + PMD_SIZE)) PMD_MASK in
  let extent := if u32 (next - new) <? extent then u32 (next - new) else extent in
  let extent := if LATENCY_LIMIT <? extent then LATENCY_LIMIT else extent in
  0 < extent ≤ old_end - old ∧ (PAGESIZE | extent).
Proof.
  intros Ho He Hn Do Dn De. destruct (next_pmd old ltac:(lia) Do) as [N1 N2]. destruct (next_pmd new ltac:(lia) Dn) as [N3 N4].
  set (n1 := Z.land (u32 (old + PMD_SIZE)) PMD_MASK) in *. set (n2 := Z.land (u32 (new + PMD_SIZE)) PMD_MASK) in *.
  assert (Hp : PMD_SIZE = 2 ^ 22) by done. unfold TASK_SIZE in *.
  cbv zeta. rewrite (u32_small (n1 - 1)), (u32_small (n2 - new)) by lia.
  set (n := if old_end <? n1 - 1 then old_end else n1).
  assert (Hnx : old < n ≤ old_end ∧ (PAGESIZE | n)).
  { unfold n. destruct (Z.ltb_spec old_end (n1 - 1)) as [|H]; [split; [lia|done]|]. split; [|done].
    destruct N2 as [i Hi], De as [j Hj]. rewrite Hi, Hj in *. unfold PAGESIZE in *. lia. }
  rewrite (u32_small (n - old)) by lia. destruct Hnx as [Hnx Dx].
  set (x := if n2 - new <? n - old then n2 - new else n - old).
  assert (Hx : 0 < x ≤ n - old ∧ (PAGESIZE | x)).
  { unfold x. destruct (Z.ltb_spec (n2 - new) (n - old)); (split; [lia|by apply Z.divide_sub_r]). }
  destruct Hx as [Hx Dxx]. destruct (Z.ltb_spec LATENCY_LIMIT x); [|split; [lia|done]].
  unfold LATENCY_LIMIT, PAGESIZE in *. split; [lia|]. by exists 64.
Qed.

(** A range of whole pages that lies in user space *)
Definition pages (a len : Z) : Prop := (PAGESIZE | a) ∧ (PAGESIZE | len) ∧ 0 ≤ a ∧ 0 ≤ len ∧ a + len ≤ TASK_SIZE.
(** The two ranges have the same owner and access, page by page. *)
Definition alike_ranges (l : list vm_area_struct) (a b len : Z) : Prop :=
  ∀ j, 0 ≤ j < len → view_at l (b + j) = view_at l (a + j).

Lemma alike_sub l a b len x : 0 ≤ x → alike_ranges l a b len → alike_ranges l (a + x) (b + x) (len - x).
Proof. intros Hx A j Hj. rewrite <-!Z.add_assoc. apply A. lia. Qed.
Lemma take_maybe (b : bool) s :
  ∃ ok s0, (if b then take_resource else mret true) s = Ret (ok, s0) ∧ m_mm s0 = m_mm s ∧ (b = false → ok = true).
Proof. destruct b; [|by eexists _, _]. unfold take_resource. destruct (m_res s); eexists _, _; by split. Qed.

Lemma move_round_spec alloc old_end old new s :
  pages old (old_end - old) → pages new (old_end - old) → alike_ranges (mmap (m_mm s)) old new (old_end - old) →
  ∃ r s1, move_round alloc old_end (old, new) s = Ret (r, s1) ∧ moved s s1 ∧
    match r with
    | inl (old', new') => ∃ x, 0 < x ∧ old' = old + x ∧ new' = new + x ∧ old' ≤ old_end ∧ (PAGESIZE | x)
    | inr a => a = old ∧ (alloc = false → a = old_end)
    end.
Proof.
  intros (Do & Dl & Ho & Hl & He) (Dn & _ & Hn & _ & Hne) A. unfold move_round.
  destruct (Z.leb_spec old_end old) as [H|H].
  { exists (inr old), s. split; [done|]. split; [done|]. split; [done|]. lia. }
  assert (De : (PAGESIZE | old_end)) by (replace old_end with (old + (old_end - old)) by lia; by apply Z.divide_add_r).
  pose proof (extent_spec old new old_end ltac:(lia) ltac:(lia) ltac:(lia) Do Dn De) as Hx. cbv zeta in Hx.
  destruct (take_maybe alloc s) as (ok & s0 & E0 & M0 & K0). rewrite (bind_ret _ _ _ _ _ E0).
  assert (Hs0 : moved s s0) by (split; rewrite M0; [by destruct (m_mm s)|done]).
  destruct ok; cbn [negb]; [|exists (inr old), s0; split; [done|]; split; [done|]; split; [done|]; intros Ha; by apply K0 in Ha].
  match type of Hx with 0 < ?z ≤ _ ∧ _ => set (x := z) in * end. destruct Hx as [Hx Dx].
  eexists (inl (old + x, new + x)), _. split; [reflexivity|]. split; [|exists x; split_and!; done || lia].
  etrans; [exact Hs0|]. split; [by destruct (m_mm s0)|]. apply move_ptes_ok. intros j Hj. rewrite M0.
  rewrite !Z.mul_add_distr_r, !page_no_mul by done. apply A. split; [unfold PAGESIZE; lia|].
  assert (page_no x * PAGESIZE = x) by (by apply page_no_mul).
  assert (j + 1 ≤ page_no x) by (pose proof (page_no_le 0 x ltac:(lia)); change (page_no 0) with 0 in *; lia). unfold PAGESIZE in *. lia.
Qed.

Lemma move_rounds alloc n old_end old new s :
  pages old (old_end - old) → pages new (old_end - old) → alike_ranges (mmap (m_mm s)) old new (old_end - old) →
  old_end - old < Z.of_nat n →
  ∃ r s1, iters (loop_body (move_round alloc old_end)) n ((old, new), s) = Ret (inr (r, s1)) ∧ moved s s1 ∧
    old ≤ r ≤ old_end ∧ (PAGESIZE | r) ∧ (alloc = false → r = old_end).
Proof.
  revert old new s. induction n as [|n IH]; intros old new s Po Pn A Hn; [destruct Po as (_ & _ & _ & ? & _); lia|].
  destruct (move_round_spec alloc old_end old new s Po Pn A) as (r & s1 & E & M & Hr).
  cbn [iters]. rewrite (loop_body_ret _ _ _ _ _ E). destruct Po as (Do & Dl & Ho & Hl & He), Pn as (Dn & _ & Hnn & _ & Hne).
  destruct r as [[old' new']|a].
  - destruct Hr as (x & Hx & -> & -> & Hle & Dx).
    assert (El : old_end - (old + x) = old_end - old - x) by lia.
    destruct (IH (old + x) (new + x) s1) as (r & s2 & E2 & M2 & Hr2 & H2).
    + unfold pages. rewrite El. split_and!; try lia; [by apply Z.divide_add_r|by apply Z.divide_sub_r].
    + unfold pages. rewrite El. split_and!; try lia; [by apply Z.divide_add_r|by apply Z.divide_sub_r].
    + rewrite (moved_mmap _ _ M), El. apply alike_sub; [lia|done].
    + lia.
    + exists r, s2. split; [done|]. split; [by etrans|]. split; [lia|done].
  - destruct Hr as [-> Ha]. exists old, s1. split; [done|]. split; [done|]. split; [lia|]. split; done.
Qed.

Lemma move_page_tables_spec alloc old new len s :
  pages old len → pages new len → alike_ranges (mmap (m_mm s)) old new len →
  ∃ r s1, move_page_tables alloc old new len s = Ret (r, s1) ∧ moved s s1 ∧ 0 ≤ r ≤ len ∧ (PAGESIZE | r) ∧
    (alloc = false → r = len).
Proof.
  intros Po Pn A. unfold move_page_tables. pose proof Po as (Do & _ & Ho & Hl & He). assert (El : old + len - old = len) by lia.
  destruct (move_rounds alloc (Z.to_nat (len + 1)) (old + len) old new s) as (r & s1 & E & M & Hr & Dr & Ha);
    rewrite ?El; try done; [lia|].
  assert (E' : loopM (move_round alloc (old + len)) (old, new) s = Ret (r, s1)).
  { rewrite loopM_unfold. eapply while_iters; [|exact E]. unfold TASK_SIZE in He. lia. }
  rewrite (bind_ret _ _ _ _ _ E'). eexists _, s1. split; [reflexivity|]. split; [done|].
  replace (len + r - (old + len)) with (r - old) by lia. split; [lia|]. split; [by apply Z.divide_sub_r|].
  intros H. rewrite (Ha H). lia.
Qed.

(** * Areas *)

Section Areas.
Variable c : kconf.

(** What the parts of [mremap] keep: the order of the areas, the page table's
    invariant, and the view outside a range *)
Record rearranged (a len : Z) (s s1 : mst) : Prop := {
  ra_brk : same_brk s s1;
  ra_wf : wf_mmap (mmap (m_mm s1));
  ra_out x : ¬ a ≤ x < a + len → view_at (mmap (m_mm s1)) x = view_at (mmap (m_mm s)) x;
}.
Lemma rearranged_trans a len s1 s2 s3 : rearranged a len s1 s2 → rearranged a len s2 s3 → rearranged a len s1 s3.
Proof. intros [B1 W1 O1] [B2 W2 O2]. split; [by etrans|done|]. intros x Hx. by rewrite O2, O1. Qed.
Lemma rearranged_views a len s s1 :
  same_brk s s1 → wf_mmap (mmap (m_mm s1)) → (∀ x, view_at (mmap (m_mm s1)) x = view_at (mmap (m_mm s)) x) → rearranged a len s s1.
Proof. by split. Qed.

Lemma free_gap s a len :
  wf_mmap (mmap (m_mm s)) → pages a len → 0 < len → (∀ x, a ≤ x < a + len → view_at (mmap (m_mm s)) x = None) →
  ∃ rp rest, find_vma_prev [] (mmap (m_mm s)) a = (rp, rest) ∧ mmap (m_mm s) = rev_append rp rest ∧ gap rp rest a (a + len).
Proof.
  intros W (Da & Dl & Ha & _ & Ht) Hl Hf. destruct (find_vma_prev [] (mmap (m_mm s)) a) as [rp rest] eqn:E. exists rp, rest.
  split; [done|]. apply gap_found; try done; [by apply Z.divide_add_r|lia|].
  pose proof (free_range _ _ _ _ _ W E Hf) as H. destruct rest; [done|]. apply H. lia.
Qed.

Lemma copy_vma_spec vma a len pgoff s :
  wf_mmap (mmap (m_mm s)) → pages a len → 0 < len → (∀ x, a ≤ x < a + len → view_at (mmap (m_mm s)) x = None) →
  area_ok vma →
  ∃ ok s1, copy_vma vma a len pgoff s = Ret (ok, s1) ∧ rearranged a len s s1 ∧
    ∀ x, a ≤ x < a + len → view_at (mmap (m_mm s1)) x = if ok then Some (view (vm_flags vma)) else None.
Proof.
  intros W Pa Hl Hf (_ & _ & _ & Ov). destruct (free_gap s a len W Pa Hl Hf) as (rp & rest & E & El & G).
  unfold copy_vma. rewrite (bind_ret (gets m_mm) _ s (m_mm s) s), E by done.
  set (pg := if _ && _ then _ else pgoff).
  pose proof (vma_merge_new rp rest a (a + len) (vm_flags vma) (anon_vma vma) (vm_file vma) pg G) as Hm.
  assert (Hdone : ∀ l s0, m_mm s0 = m_mm s → maps_new rp rest a (a + len) (vm_flags vma) l →
    ∃ ok s1, (upd_mm (set_mmap l);; mret true) s0 = Ret (ok, s1) ∧ rearranged a len s s1 ∧
    ∀ x, a ≤ x < a + len → view_at (mmap (m_mm s1)) x = if ok : bool then Some (view (vm_flags vma)) else None).
  { intros l s0 E0 [Hw Hc]. eexists true, _. split; [reflexivity|]. cbn [m_mm set_m_mm]. rewrite E0.
    split; [|intros x Hx; simpl; by rewrite Hc, decide_True]. split; simpl; [|done|intros x Hx; by rewrite Hc, decide_False, El].
    split; simpl; rewrite ?E0; try done. apply pgd_ok_mono; [done|]. intros x Hx. simpl. rewrite Hc, decide_False, El; [done|].
    intros Hin. by apply Hx, Hf. }
  unfold lift. unfold mbind at 1, st_bind at 1. destruct (vma_merge _ _ _ _ _ _ _ _) as [[y|]|]; [by apply Hdone| |done].
  destruct (take_maybe true s) as (ok & s0 & E0 & M0 & _). rewrite (bind_ret _ _ _ _ _ E0). destruct ok; cbn [negb].
  - apply Hdone; [done|]. destruct G as ((m & Hp & Hm') & Hlt & Da & De & Hr).
    apply (at_position rp m); [done|lia|seg_solve|]. intros x. simpl. destruct rest as [|v r]; simpl in *; cmps.
    destruct Hr as (? & (? & _) & _). lia.
  - exists false, s0. split; [done|]. split; [|intros x Hx; rewrite M0; by apply Hf].
    apply rearranged_views; rewrite ?M0; [by apply same_mm_brk|done|done].
Qed.

(** Changing the bit of the commit accounting *)
Lemma upd_flags_spec start f s :
  wf_mmap (mmap (m_mm s)) → (∀ z, view (f z) = view z ∧ (flags_ok z → flags_ok (f z))) →
  ∃ s1, upd_flags start f s = Ret (tt, s1) ∧ remapped s s1 ∧ wf_mmap (mmap (m_mm s1)) ∧
    ∀ x, view_at (mmap (m_mm s1)) x = view_at (mmap (m_mm s)) x.
Proof.
  intros W Hf. unfold upd_flags, upd_mm, modify. eexists. split; [reflexivity|].
  set (g := λ v, if vm_start v =? start then set_vm_flags (f (vm_flags v)) v else v).
  assert (Hg : ∀ v, vm_start (g v) = vm_start v ∧ vm_end (g v) = vm_end v ∧ view (vm_flags (g v)) = view (vm_flags v) ∧
    (area_ok v → area_ok (g v))).
  { intros v. unfold g. destruct (_ =? _); [|done]. split_and!; [done..|apply Hf|]. unfold area_ok. simpl.
    intros (? & ? & ? & ?). split_and!; try done. by apply Hf. }
  assert (Hl : ∀ lo l hi, seg lo l hi → seg lo (map g l) hi ∧ ∀ x, view_at (map g l) x = view_at l x).
  { intros lo l hi. revert lo. induction l as [|v l IH]; intros lo; simpl; [done|]. destruct (Hg v) as (-> & -> & -> & Hok).
    intros (H1 & H2 & H3). destruct (IH _ H3) as [H4 H5]. split; [by auto|]. intros x. by rewrite H5. }
  destruct (Hl _ _ _ W) as [W1 V1]. cbn [m_mm set_m_mm]. split; [|done]. by apply remapped_view.
Qed.
Lemma conceal_ok z : view (Z.land z (not32 VM_ACCOUNT)) = view z ∧ (flags_ok z → flags_ok (Z.land z (not32 VM_ACCOUNT))).
Proof. split; [by apply (without_view z 20)|by apply (without_ok z 20)]. Qed.
Lemma restore_ok z : view (Z.lor z VM_ACCOUNT) = view z ∧ (flags_ok z → flags_ok (Z.lor z VM_ACCOUNT)).
Proof. split; [apply account_view|apply account_ok]. Qed.
Lemma upd_flags_maybe (b : bool) start f s :
  wf_mmap (mmap (m_mm s)) → (∀ z, view (f z) = view z ∧ (flags_ok z → flags_ok (f z))) →
  ∃ s1, (if b then upd_flags start f else mret tt) s = Ret (tt, s1) ∧ remapped s s1 ∧ wf_mmap (mmap (m_mm s1)) ∧
    ∀ x, view_at (mmap (m_mm s1)) x = view_at (mmap (m_mm s)) x.
Proof. intros W Hf. destruct b; [by apply upd_flags_spec|]. by exists s. Qed.

(** The pages in the range are left alone or removed. *)
Definition dropped (a len : Z) (s s1 : mst) : Prop :=
  rearranged a len s s1 ∧
  ∀ x, a ≤ x < a + len → view_at (mmap (m_mm s1)) x = None ∨ view_at (mmap (m_mm s1)) x = view_at (mmap (m_mm s)) x.
Lemma dropped_views a len s s1 s2 :
  dropped a len s s1 → same_brk s1 s2 → wf_mmap (mmap (m_mm s2)) →
  (∀ x, view_at (mmap (m_mm s2)) x = view_at (mmap (m_mm s1)) x) → dropped a len s s2.
Proof.
  intros [[B W O] D] B2 W2 V. split; [split; [by etrans|done|intros x Hx; by rewrite V, O]|]. intros x Hx. rewrite V. by apply D.
Qed.
Lemma same_dropped a len s s1 s2 :
  same_brk s s1 → (∀ x, view_at (mmap (m_mm s1)) x = view_at (mmap (m_mm s)) x) → dropped a len s1 s2 → dropped a len s s2.
Proof.
  intros B1 V1 [[B W O] D]. split; [split; [by etrans|done|intros x Hx; by rewrite O, V1]|]. intros x Hx. rewrite <-V1. by apply D.
Qed.

Lemma page_align_pages a len : pages a len → PAGE_ALIGN len = len.
Proof.
  intros (_ & Dl & Ha & Hl & Ht). apply page_align_aligned; [unfold TASK_SIZE, PAGESIZE in *; lia|by apply aligned_divide].
Qed.
Lemma munmap_dropped a len s :
  wf_mmap (mmap (m_mm s)) → pages a len → ∃ r s1, do_munmap c a len s = Ret (r, s1) ∧ -4095 ≤ r ≤ 0 ∧ dropped a len s s1.
Proof.
  intros W Pa. pose proof Pa as (_ & _ & Ha & Hl & _). destruct (do_munmap_spec c s a len W Ha Hl) as (r & s1 & E & U).
  exists r, s1. split; [done|]. split; [apply U|]. destruct (decide (r = 0)) as [Hr|Hr].
  - destruct (um_ok _ _ _ _ _ U Hr) as (_ & _ & _ & Hc). rewrite (page_align_pages a len Pa) in Hc.
    split; [split; [apply U|apply U|]|]; intros x Hx; rewrite Hc; [by rewrite decide_False|left; by rewrite decide_True].
  - pose proof (um_fail _ _ _ _ _ U Hr) as V. split; [apply rearranged_views; [apply U|apply U|done]|]. intros x _. right. apply V.
Qed.

Lemma usage_brk s t lk : same_brk s (set_m_mm (set_usage t lk (m_mm s)) s).
Proof. by split. Qed.

Lemma move_end_spec f0 a len new_len ret s :
  wf_mmap (mmap (m_mm s)) → pages a len → view_at (mmap (m_mm s)) a ≠ None →
  ∃ s1, move_end c f0 a len new_len ret s = Ret (ret, s1) ∧ dropped a len s s1.
Proof.
  intros W Pa Hv. destruct (view_at (mmap (m_mm s)) a) as [y|] eqn:Ev; [|done].
  destruct (view_area _ _ _ Ev) as (v & Hf & _ & _). unfold move_end.
  rewrite (bind_ret (area_of a) _ s v s) by (unfold area_of, mbind, st_bind, gets; by rewrite Hf).
  destruct (upd_flags_maybe (flag f0 VM_ACCOUNT) (vm_start v) _ s W conceal_ok) as (s1 & E1 & R1 & W1 & V1).
  rewrite (bind_ret _ _ _ _ _ E1).
  set (s2 := set_m_mm (set_usage (total_vm (m_mm s1) + Z.shiftr new_len PAGE_SHIFT) (locked_vm (m_mm s1)) (m_mm s1)) s1).
  rewrite (bind_ret (upd_mm _) _ s1 tt s2) by done. assert (B2 : same_brk s s2) by (etrans; [by apply remapped_same_brk|apply usage_brk]).
  destruct (munmap_dropped a len s2 W1 Pa) as (r & s3 & E3 & _ & D3). rewrite (bind_ret _ _ _ _ _ E3).
  apply (same_dropped _ _ s) in D3; [|done|done]. pose proof (ra_wf _ _ _ _ (proj1 D3)) as W3.
  assert (∃ s4, (if (r <? 0) || ((if flag f0 VM_ACCOUNT then vm_end v - vm_start v - len else 0) =? 0) then mret tt else
     upd_flags (if vm_start v <? a then vm_start v else a + len) (λ f, Z.lor f VM_ACCOUNT);;
     if (vm_start v <? a) && (a + len <? vm_end v) then upd_flags (a + len) (λ f, Z.lor f VM_ACCOUNT) else mret tt) s3 = Ret (tt, s4)
     ∧ dropped a len s s4) as (s4 & E4 & D4).
  { destruct (_ || _); [by exists s3|].
    destruct (upd_flags_spec (if vm_start v <? a then vm_start v else a + len) _ s3 W3 restore_ok) as (s5 & E5 & R5 & W5 & V5).
    rewrite (bind_ret _ _ _ _ _ E5).
    destruct (upd_flags_maybe ((vm_start v <? a) && (a + len <? vm_end v)) (a + len) _ s5 W5 restore_ok) as (s6 & E6 & R6 & W6 & V6).
    exists s6. split; [done|]. apply (dropped_views _ _ _ s3); [done| |done|intros x; by rewrite V6].
    etrans; by apply remapped_same_brk. }
  rewrite (bind_ret _ _ _ _ _ E4). destruct (flag f0 VM_LOCKED).
  - eexists. split; [reflexivity|]. apply (dropped_views _ _ _ s4); [done|apply usage_brk|apply D4|done].
  - by exists s4.
Qed.

(** Moving the first [len] bytes from [a] on to the free range at [b] *)
Record moves (vma : vm_area_struct) (a len b new_len r : Z) (s s1 : mst) : Prop := {
  mo_brk : same_brk s s1;
  mo_wf : wf_mmap (mmap (m_mm s1));
  mo_ret : r = b ∨ r = u32 (- ENOMEM);
  mo_out x : ¬ a ≤ x < a + len → ¬ b ≤ x < b + new_len → view_at (mmap (m_mm s1)) x = view_at (mmap (m_mm s)) x;
  mo_new x : r = b → b ≤ x < b + new_len → view_at (mmap (m_mm s1)) x = Some (view (vm_flags vma));
}.

Lemma move_vma_spec vma a len b new_len s :
  wf_mmap (mmap (m_mm s)) → area_ok vma → pages a len → pages b new_len → 0 < new_len → len ≤ new_len →
  (∀ x, b ≤ x < b + new_len → view_at (mmap (m_mm s)) x = None) →
  (∀ x, a ≤ x < a + Z.max 1 len → view_at (mmap (m_mm s)) x = Some (view (vm_flags vma))) →
  ∃ r s1, move_vma c vma a len new_len b s = Ret (r, s1) ∧ moves vma a len b new_len r s s1.
Proof.
  intros W Ok Pa Pb Hn Hle Hfree Hold. unfold move_vma. rewrite (bind_ret (gets m_mm) _ s (m_mm s) s) by done.
  pose proof Pb as (Db & _). pose proof (enomem_unaligned b Db) as Hne. pose proof Pa as (Da & Dl & Ha & Hl & Hta).
  destruct (_ <=? _).
  { eexists _, s. split; [reflexivity|]. split; [done|done|by right|done|done]. }
  destruct (copy_vma_spec vma b new_len (u32 (vm_pgoff vma + Z.shiftr (a - vm_start vma) PAGE_SHIFT)) s W Pb Hn Hfree Ok)
    as (ok & s1 & E1 & [B1 W1 O1] & N1).
  rewrite (bind_ret _ _ _ _ _ E1). destruct ok; cbn [negb].
  2:{ eexists _, s1. split; [reflexivity|]. split; [done|done|by right|intros x _; apply O1|done]. }
  assert (Hdis : ∀ x, a ≤ x < a + Z.max 1 len → ¬ b ≤ x < b + new_len).
  { intros x Hx Hb. specialize (Hold x Hx). by rewrite Hfree in Hold. }
  assert (Hold1 : ∀ x, a ≤ x < a + Z.max 1 len → view_at (mmap (m_mm s1)) x = Some (view (vm_flags vma))).
  { intros x Hx. rewrite O1 by auto. auto. }
  assert (Pbl : pages b len) by (destruct Pb as (? & ? & ? & ? & ?); split_and!; try done; lia).
  destruct (move_page_tables_spec true a b len s1 Pa Pbl) as (ml & s2 & E2 & M2 & Hml & Dml & _).
  { intros j Hj. rewrite N1, Hold1 by lia. done. }
  rewrite (bind_ret _ _ _ _ _ E2). pose proof (moved_mmap _ _ M2) as L2.
  destruct (Z.ltb_spec ml len) as [Hlt|Hge].
  - destruct (move_page_tables_spec false b a ml s2) as (x3 & s3 & E3 & M3 & _).
    { destruct Pb as (? & ? & ? & ? & ?). split_and!; try done; lia. }
    { split_and!; try done; lia. }
    { intros j Hj. rewrite L2, Hold1, N1 by lia. done. }
    rewrite (bind_ret _ _ _ _ _ E3). pose proof (moved_mmap _ _ M3) as L3. rewrite L2 in L3.
    destruct (move_end_spec (vm_flags vma) b new_len new_len (u32 (- ENOMEM)) s3) as (s4 & E4 & [[B4 W4 O4] D4]);
      [by rewrite L3|done|rewrite L3, N1 by lia; done|].
    exists (u32 (- ENOMEM)), s4. split; [done|]. split; [|done|by right| |done].
    + etrans; [exact B1|]. etrans; [apply moved_brk, M2|]. etrans; [apply moved_brk, M3|done].
    + intros x _ Hx. rewrite O4, L3, O1 by done. done.
  - assert (ml = len) as -> by lia.
    destruct (move_end_spec (vm_flags vma) a len new_len b s2) as (s4 & E4 & [[B4 W4 O4] D4]);
      [by rewrite L2|done|rewrite L2, Hold1 by lia; done|].
    exists b, s4. split; [done|]. split; [|done|by left| |].
    + etrans; [exact B1|]. etrans; [apply moved_brk, M2|done].
    + intros x Hx1 Hx2. rewrite O4, L2, O1 by done. done.
    + intros x _ Hx. rewrite O4, L2; [by rewrite N1|]. intros Hin. apply (Hdis x); [lia|done].
Qed.

(** Growing in place *)
Lemma mremap_expand_spec vma a len new_len s :
  wf_mmap (mmap (m_mm s)) → find_vma (mmap (m_mm s)) a = Some vma → vm_start vma ≤ a → len = vm_end vma - a →
  pages a new_len → len ≤ new_len → new_len ≤ max_addr (mmap (m_mm s)) a - a →
  ∃ s1, mremap_expand vma a len new_len s = Ret (a, s1) ∧ same_brk s s1 ∧ wf_mmap (mmap (m_mm s1)) ∧
    changed (view_at (mmap (m_mm s1))) (view_at (mmap (m_mm s))) a (a + new_len) (Some (view (vm_flags vma))).
Proof.
  intros W Hf Hs -> (Da & Dn & Ha & Hn & Ht) Hle Hmax. unfold mremap_expand.
  rewrite (bind_ret (gets m_mm) _ s (m_mm s) s) by done. rewrite find_vma_position in Hf. unfold max_addr in Hmax.
  destruct (find_vma_prev [] (mmap (m_mm s)) a) as [rp rest] eqn:E. destruct rest as [|v rest]; [done|]. injection Hf as ->.
  destruct (find_vma_prev_wf _ _ _ _ W E) as (El & _ & Hv). pose proof W as W'. rewrite El in W'.
  destruct (wf_position _ _ _ W') as (m & Hp & Hm & (V1 & V2 & V3 & V4) & Hr).
  assert (De : (PAGESIZE | a + new_len)) by (by apply Z.divide_add_r).
  assert (Hr' : seg (a + new_len) rest TASK_SIZE).
  { destruct rest as [|n r]; simpl in *; [lia|]. destruct Hr as (? & ? & ?). split_and!; try done. lia. }
  unfold lift. unfold mbind at 1, st_bind at 1. rewrite (vma_adjust_free _ _ _ _ _ TASK_SIZE) by (done || lia).
  eexists. split; [reflexivity|]. cbn [m_mm set_m_mm set_usage set_mmap mmap position_list].
  assert (H : wf_mmap (rev_append rp (set_range (vm_start vma) (a + new_len) (vm_pgoff vma) vma :: rest)) ∧
    changed (view_at (rev_append rp (set_range (vm_start vma) (a + new_len) (vm_pgoff vma) vma :: rest)))
      (view_at (rev_append rp (vma :: rest))) a (a + new_len) (Some (view (vm_flags vma)))).
  { apply (at_position rp m); [done|lia|seg_solve|]. intros x. destruct rest as [|n r]; simpl in *; cmps.
    all: destruct Hr' as (? & (? & _) & _); lia. }
  destruct H as [Hw Hc]. rewrite <-El in Hc. split; [|done]. split; try done. apply pgd_ok_mono; [done|].
  intros x Hx. simpl. rewrite Hc. case_decide as Hin; [|done]. destruct (Z.lt_ge_cases x (vm_end vma)) as [Hlt|Hge].
  - rewrite El. by rewrite (view_in_area _ _ _ _ m) by (done || lia).
  - exfalso. apply Hx. rewrite El, rev_append_rev, view_skip by (eapply Forall_impl; [by apply (rev_front _ _ Hp)|]; simpl; lia).
    simpl. destruct rest as [|n r]; simpl in *; cmps. destruct Hr' as (? & (? & _) & _). lia.
Qed.
End Areas.

(** * [do_mremap] *)

Section DoMremap.
Context (c : kconf) (Hsec : ∀ a, -4095 ≤ security_file_mmap c a ≤ 0).

Lemma error_page e : -4095 ≤ e < 0 → page_aligned (u32 e) = true → False.
Proof using Type. intros He Ha%aligned_divide. by apply (error_unaligned e (u32 e) He Ha). Qed.
Lemma area_view l a v x : wf_mmap l → find_vma l a = Some v → vm_start v ≤ x < vm_end v → view_at l x = Some (view (vm_flags v)).
Proof using Type.
  intros W Hf Hx. rewrite find_vma_position in Hf. destruct (find_vma_prev [] l a) as [rp rest] eqn:E.
  destruct rest as [|u rest]; [done|]. injection Hf as ->. destruct (find_vma_prev_wf _ _ _ _ W E) as (El & _ & _).
  subst l. destruct (wf_position _ _ _ W) as (m & Hp & Hm & _). by apply (view_in_area _ _ _ _ m).
Qed.
Lemma max_addr_le l a : wf_mmap l → max_addr l a ≤ TASK_SIZE.
Proof using Type.
  intros W. unfold max_addr. destruct (find_vma_prev [] l a) as [rp [|v [|n rest]]] eqn:E; try done.
  destruct (find_vma_prev_wf _ _ _ _ W E) as (_ & (m & _ & _ & _ & _ & _ & (Hn & _) & Hs) & _).
  apply seg_le in Hs. lia.
Qed.

(** Where the area goes if it is moved; without a fixed address the kernel looks
    for a free range. *)
Definition mremap_target (m : mm_struct) (new_len flags new_addr : Z) : Z :=
  if flag flags MREMAP_FIXED then new_addr else get_unmapped_area c m 0 new_len 0.
Definition target_free (s : mst) (new_len flags new_addr : Z) : Prop :=
  let t := mremap_target (m_mm s) new_len flags new_addr in
  page_aligned t = true → pages t new_len ∧ ∀ x, t ≤ x < t + new_len → view_at (mmap (m_mm s)) x = None.

Lemma search_target_free s new_len flags new_addr :
  wf_mmap (mmap (m_mm s)) → cache_ok (k_cache c) → 0 < new_len → (PAGESIZE | new_len) → flag flags MREMAP_FIXED = false →
  target_free s new_len flags new_addr.
Proof using Type.
  intros W C Hn Dn Hfl. unfold target_free, mremap_target. rewrite Hfl. intros Hal.
  destruct (unmapped_area_free c (m_mm s) new_len C W Hn Dn Hal) as (H1 & H2 & H3). split; [split_and!; try done; lia|done].
Qed.

(** The first [len] bytes from [a] on now are the first of [new_len] bytes from
    [r] on. *)
Record grows (a len new_len t r : Z) (s s1 : mst) : Prop := {
  gr_brk : same_brk s s1;
  gr_wf : wf_mmap (mmap (m_mm s1));
  gr_out x : ¬ a ≤ x < a + new_len → ¬ t ≤ x < t + new_len → view_at (mmap (m_mm s1)) x = view_at (mmap (m_mm s)) x;
  gr_new : page_aligned r = true → (r = a ∨ r = t) ∧ a + len ≤ TASK_SIZE ∧
    ∃ w, (∀ x, a ≤ x < a + Z.max 1 len → view_at (mmap (m_mm s)) x = Some w) ∧
      ∀ x, r ≤ x < r + new_len → view_at (mmap (m_mm s1)) x = Some w;
}.
Lemma grows_error a len new_len t e s s1 :
  -4095 ≤ e < 0 → same_brk s s1 → mmap (m_mm s1) = mmap (m_mm s) → wf_mmap (mmap (m_mm s)) → grows a len new_len t (u32 e) s s1.
Proof using Type. intros He B E W. split; rewrite ?E; try done. by intros Ha%error_page. Qed.

Lemma mremap_move_spec vma a len new_len flags new_addr s :
  wf_mmap (mmap (m_mm s)) → find_vma (mmap (m_mm s)) a = Some vma → vm_start vma ≤ a → a + len ≤ vm_end vma →
  pages a len → (PAGESIZE | new_len) → 0 < new_len → len ≤ new_len → target_free s new_len flags new_addr →
  (flag flags MREMAP_FIXED = true → page_aligned new_addr = true) →
  ∃ r s1, mremap_move c vma a len new_len flags new_addr s = Ret (r, s1) ∧
    grows a len new_len (mremap_target (m_mm s) new_len flags new_addr) r s s1.
Proof using Hsec.
  intros W Hf Hs He Pa Dn Hn Hle Hfree Hfix. unfold mremap_move.
  destruct (find_bounds _ _ _ _ _ W Hf) as (_ & Hav & Ok).
  assert (Hold : ∀ x, a ≤ x < a + Z.max 1 len → view_at (mmap (m_mm s)) x = Some (view (vm_flags vma))).
  { intros x Hx. apply (area_view _ a); [done|done|lia]. }
  destruct (flag flags MREMAP_MAYMOVE); cbn [negb].
  2:{ eexists _, s. split; [reflexivity|]. by apply (grows_error a len new_len _ (- ENOMEM)). }
  set (t := mremap_target (m_mm s) new_len flags new_addr) in *.
  assert (Hmove : page_aligned t = true →
    ∃ r s1, move_vma c vma a len new_len t s = Ret (r, s1) ∧ grows a len new_len t r s s1).
  { intros Ht. destruct (Hfree Ht) as [Pt Ft].
    destruct (move_vma_spec c vma a len t new_len s W Ok Pa Pt Hn Hle Ft Hold) as (r & s1 & E & [B W1 R O N]).
    exists r, s1. split; [done|]. split; [done|done|intros x Hx Hxt; apply O; [lia|done]|].
    intros Ha. destruct R as [->| ->]; [|by apply (error_page (- ENOMEM)) in Ha]. split; [by right|]. split; [lia|].
    exists (view (vm_flags vma)). split; [done|]. intros x Hx. by apply N. }
  unfold t, mremap_target in Hmove |- *. destruct (flag flags MREMAP_FIXED) eqn:Efx; [by apply Hmove, Hfix|].
  rewrite (bind_ret (gets m_mm) _ s (m_mm s) s) by done.
  replace (get_unmapped_area c (m_mm s) 0 new_len (if flag (vm_flags vma) VM_MAYSHARE then MAP_SHARED else 0))
    with (get_unmapped_area c (m_mm s) 0 new_len 0) by (unfold get_unmapped_area; rewrite (get_area_flags _ _ _ _ (if flag (vm_flags vma) VM_MAYSHARE then MAP_SHARED else 0) 0); [done|by destruct (flag (vm_flags vma) VM_MAYSHARE)]).
  destruct (page_aligned (get_unmapped_area c (m_mm s) 0 new_len 0)) eqn:Eal; cbn [negb].
  2:{ eexists _, s. split; [reflexivity|]. split; try done. by rewrite Eal. }
  destruct (Z.eqb_spec (security_file_mmap c (get_unmapped_area c (m_mm s) 0 new_len 0)) 0) as [|Hne]; cbn [negb]; [by apply Hmove|].
  eexists _, s. split; [reflexivity|]. apply grows_error; [|done..]. specialize (Hsec (get_unmapped_area c (m_mm s) 0 new_len 0)). lia.
Qed.

Lemma mremap_grow_spec a len new_len flags new_addr s :
  wf_mmap (mmap (m_mm s)) → (PAGESIZE | a) → 0 ≤ a → (PAGESIZE | len) → 0 ≤ len → (PAGESIZE | new_len) → 0 < new_len → len ≤ new_len →
  target_free s new_len flags new_addr → (flag flags MREMAP_FIXED = true → page_aligned new_addr = true) →
  ∃ r s1, mremap_grow c a len new_len flags new_addr s = Ret (r, s1) ∧
    grows a len new_len (mremap_target (m_mm s) new_len flags new_addr) r s s1.
Proof using Hsec.
  intros W Da Ha Dl Hl Dn Hn Hle Hfree Hfix. unfold mremap_grow. rewrite (bind_ret (gets m_mm) _ s (m_mm s) s) by done.
  assert (Herr : ∀ e, -4095 ≤ e < 0 → ∃ r s1, mret (M := st mst) (u32 e) s = Ret (r, s1) ∧
    grows a len new_len (mremap_target (m_mm s) new_len flags new_addr) r s s1).
  { intros e He. eexists _, s. split; [reflexivity|]. by apply grows_error. }
  destruct (find_vma (mmap (m_mm s)) a) as [vma|] eqn:Hf; [|by apply Herr].
  destruct (Z.ltb_spec a (vm_start vma)); [by apply Herr|]. destruct (flag (vm_flags vma) VM_HUGETLB); [by apply Herr|].
  destruct (Z.ltb_spec (vm_end vma - a) len); [by apply Herr|].
  destruct (_ && (len <? new_len)); [by apply Herr|]. destruct (_ && negb (cap_ipc_lock c)); [by apply Herr|].
  destruct (negb (may_expand_vm _ _ _)); [by apply Herr|].
  destruct (take_maybe (flag (vm_flags vma) VM_ACCOUNT) s) as (ok & s0 & E0 & M0 & _). rewrite (bind_ret _ _ _ _ _ E0).
  assert (B0 : same_brk s s0) by (by apply same_mm_brk).
  destruct ok; cbn [negb].
  2:{ eexists _, s0. split; [reflexivity|]. apply grows_error; [by destruct (flag (vm_flags vma) VM_LOCKED)|done|by rewrite M0|done]. }
  destruct (find_bounds _ _ _ _ _ W Hf) as (_ & Hav & Ok).
  assert (Hres : ∀ r s1, grows a len new_len (mremap_target (m_mm s0) new_len flags new_addr) r s0 s1 →
    grows a len new_len (mremap_target (m_mm s) new_len flags new_addr) r s s1).
  { rewrite M0. intros r s1 [B W1 O N]. rewrite M0 in O, N. split; [by etrans|done|done|done]. }
  destruct (_ && (new_len <=? _)) eqn:Ex.
  - rewrite !andb_true_iff in Ex. destruct Ex as [[[E1%Z.eqb_eq _] _] E2%Z.leb_le]. pose proof (max_addr_le (mmap (m_mm s)) a W).
    destruct (mremap_expand_spec vma a len new_len s0) as (s1 & E & B & W1 & Hc); rewrite ?M0; try done; try lia.
    { split_and!; try done; lia. }
    exists a, s1. split; [done|]. split; [by etrans|done| |].
    + intros x Hx _. by rewrite Hc, decide_False, M0.
    + intros _. split; [by left|]. split; [lia|]. exists (view (vm_flags vma)). split; [intros x Hx; apply (area_view _ a); done || lia|].
      intros x Hx. by rewrite Hc, decide_True.
  - destruct (mremap_move_spec vma a len new_len flags new_addr s0) as (r & s1 & E & G); rewrite ?M0; try done; try lia.
    { split_and!; try done; lia. }
    { unfold target_free in *. by rewrite M0. }
    exists r, s1. split; [done|]. auto.
Qed.

(** The first part *)
Definition apart (a len b new_len : Z) : Prop := ¬ b ≤ a < b + new_len ∧ ¬ a ≤ b < u32 (a + len).
Lemma mremap_fixed_spec a old new flags na s :
  wf_mmap (mmap (m_mm s)) → 0 ≤ na → (PAGESIZE | new) → 0 < new →
  ∃ r s1, mremap_fixed c a old new flags na s = Ret (r, s1) ∧ -4095 ≤ r ≤ 0 ∧ rearranged na new s s1 ∧
    if flag flags MREMAP_FIXED
    then r = 0 → pages na new ∧ apart a old na new ∧ ∀ x, na ≤ x < na + new → view_at (mmap (m_mm s1)) x = None
    else r = 0 ∧ s1 = s.
Proof using Hsec.
  intros W Hna Dn Hn. unfold mremap_fixed. destruct (flag flags MREMAP_FIXED); cbn [negb].
  2:{ exists 0, s. split; [done|]. split; [done|]. by split; [apply rearranged_views|]. }
  assert (Herr : ∀ e, -4095 ≤ e < 0 → ∃ r s1, mret (M := st mst) e s = Ret (r, s1) ∧ -4095 ≤ r ≤ 0 ∧ rearranged na new s s1 ∧
    (r = 0 → pages na new ∧ apart a old na new ∧ ∀ x, na ≤ x < na + new → view_at (mmap (m_mm s1)) x = None)).
  { intros e He. exists e, s. split; [done|]. split; [lia|]. split; [by apply rearranged_views|]. lia. }
  destruct (_ || _) eqn:Eb; [by apply Herr|]. rewrite !orb_false_iff, !andb_false_iff in Eb.
  destruct Eb as [[[[[E1%negb_false_iff _] E3%Z.ltb_ge] E4%Z.ltb_ge] E5] E6]. apply aligned_divide in E1.
  assert (Pn : pages na new) by (split_and!; try done; lia).
  destruct (Z.eqb_spec (security_file_mmap c na) 0) as [|Hne]; cbn [negb]; [|apply Herr; specialize (Hsec na); lia].
  destruct (do_munmap_spec c s na new W Hna ltac:(lia)) as (r & s1 & E & U). exists r, s1. split; [done|]. split; [apply U|].
  destruct (munmap_dropped c na new s W Pn) as (r' & s1' & E' & _ & [D _]). rewrite E in E'. injection E' as <- <-.
  split; [done|]. intros Hr. split; [done|]. split.
  - split; [destruct E5 as [E5%Z.leb_gt|E5%Z.ltb_ge]; lia|destruct E6 as [E6%Z.leb_gt|E6%Z.ltb_ge]; lia].
  - destruct (um_ok _ _ _ _ _ U Hr) as (_ & _ & _ & Hc). rewrite (page_align_pages na new Pn) in Hc.
    intros x Hx. by rewrite Hc, decide_True.
Qed.

(** Cutting what is behind the new length *)
Lemma mremap_shrink_spec a old new flags na s :
  wf_mmap (mmap (m_mm s)) → (PAGESIZE | a) → 0 ≤ a < 2 ^ 32 → (PAGESIZE | old) → 0 ≤ old < 2 ^ 32 → (PAGESIZE | new) → 0 < new < 2 ^ 32 →
  ∃ r s1, mremap_shrink c a old new flags na s = Ret (r, s1) ∧ dropped (u32 (a + new)) (Z.max 0 (old - new)) s s1 ∧
    (old < new → s1 = s) ∧
    match r with
    | inl z => new ≤ old ∧ (z = a ∧ (flag flags MREMAP_FIXED = false ∨ na = a) ∨ ∃ e, -4095 ≤ e < 0 ∧ z = u32 e)
    | inr len => len = old ∧ old < new ∨
        len = new ∧ new ≤ old ∧ flag flags MREMAP_FIXED = true ∧ (new < old → u32 (a + new) + (old - new) ≤ TASK_SIZE)
    end.
Proof using Type.
  intros W Da Ha Do Ho Dn Hn. unfold mremap_shrink. destruct (Z.ltb_spec old new) as [Hlt|Hge].
  { exists (inr old), s. split; [done|]. split; [|split; [done|by left]]. split; [by apply rearranged_views|by right]. }
  assert (Dc : (PAGESIZE | u32 (a + new))) by (apply u32_divide; by apply Z.divide_add_r).
  assert (Hc : 0 ≤ u32 (a + new)) by (by apply Z.mod_pos_bound).
  destruct (do_munmap_spec c s (u32 (a + new)) (old - new) W Hc ltac:(lia)) as (r & s1 & E & U). rewrite (bind_ret _ _ _ _ _ E).
  assert (Hal : r = 0 → PAGE_ALIGN (old - new) = old - new).
  { intros Hr. destruct (um_ok _ _ _ _ _ U Hr) as (_ & Hl & Ht & _). apply page_align_aligned; [unfold TASK_SIZE, PAGESIZE in *; lia|].
    apply aligned_divide. by apply Z.divide_sub_r. }
  assert (R : dropped (u32 (a + new)) (Z.max 0 (old - new)) s s1).
  { rewrite Z.max_r by lia. destruct (decide (r = 0)) as [Hr|Hr].
    - destruct (um_ok _ _ _ _ _ U Hr) as (_ & _ & _ & Hch). rewrite Hal in Hch by done.
      split; [split; [apply U|apply U|]|]; intros x Hx; rewrite Hch; [by rewrite decide_False|left; by rewrite decide_True].
    - pose proof (um_fail _ _ _ _ _ U Hr) as V. split; [apply rearranged_views; [apply U|apply U|done]|]. intros x _. right. apply V. }
  destruct (Z.eqb_spec r 0) as [Hr|Hr], (Z.eqb_spec old new) as [Heq|Hne]; cbn [negb andb].
  all: try match goal with |- context [if negb ?b || ?b' then _ else _] => destruct (negb b || b') eqn:Ef end.
  all: eexists _, s1; (split; [reflexivity|]); (split; [exact R|]); (split; [lia|]).
  all: try (apply orb_true_iff in Ef as [Ef%negb_true_iff|Ef%Z.eqb_eq]; split; [lia|by auto|lia|by auto]).
  all: try (right; apply orb_false_iff in Ef as [Ef%negb_false_iff _]; split; [done|]; split; [lia|]; split; [done|]; lia).
  - right. apply orb_false_iff in Ef as [Ef%negb_false_iff _]. split; [done|]. split; [lia|]. split; [done|].
    destruct (um_ok _ _ _ _ _ U Hr) as (_ & _ & Ht & _). rewrite Hal in Ht by done. lia.
  - split; [lia|]. right. exists r. split; [pose proof (um_ret _ _ _ _ _ U); lia|done].
Qed.

(** The whole: [old] and [new] are the lengths in whole pages, [t] is the target
    of a move. *)
Record resized (a old new t r : Z) (s s1 : mst) : Prop := {
  rs_brk : same_brk s s1;
  rs_wf : wf_mmap (mmap (m_mm s1));
  rs_out x : ¬ a ≤ x < a + new → ¬ t ≤ x < t + new → ¬ u32 (a + new) ≤ x < u32 (a + new) + (old - new) →
    view_at (mmap (m_mm s1)) x = view_at (mmap (m_mm s)) x;
  rs_in : page_aligned r = true → (r = a ∨ r = t) ∧
    ∀ i, 0 ≤ i < new → view_at (mmap (m_mm s1)) (r + i) = view_at (mmap (m_mm s)) (a + if i <? old then i else 0);
}.
Lemma resized_error a old new t e s s1 :
  -4095 ≤ e < 0 → same_brk s s1 → wf_mmap (mmap (m_mm s1)) →
  (∀ x, ¬ a ≤ x < a + new → ¬ t ≤ x < t + new → ¬ u32 (a + new) ≤ x < u32 (a + new) + (old - new) →
     view_at (mmap (m_mm s1)) x = view_at (mmap (m_mm s)) x) → resized a old new t (u32 e) s s1.
Proof using Type. intros He B W O. split; [done|done|done|]. by intros H%error_page. Qed.

(** A range in user space is not cut with the pages behind it. *)
Lemma cut_apart a old new i :
  0 ≤ a < 2 ^ 32 → 0 ≤ new ≤ old → old < 2 ^ 32 → 0 ≤ i < new → ¬ u32 (a + new) ≤ a + i < u32 (a + new) + (old - new).
Proof using Type.
  intros Ha Hn Ho Hi. unfold u32. destruct (Z.lt_ge_cases (a + new) (2 ^ 32)).
  - rewrite Z.mod_small by lia. lia.
  - rewrite <-(Z.mod_unique_pos (a + new) (2 ^ 32) 1 (a + new - 2 ^ 32)) by lia. lia.
Qed.

(** The state in which the area grows or moves has the source as it was. *)
Lemma source_kept a old new len na flags s s1 s2 i :
  0 ≤ a < 2 ^ 32 → 0 ≤ old < 2 ^ 32 → 0 < new < 2 ^ 32 → a + len ≤ TASK_SIZE → 0 ≤ i < Z.max 1 len →
  (if flag flags MREMAP_FIXED then apart a old na new else s1 = s) → rearranged na new s s1 →
  rearranged (u32 (a + new)) (Z.max 0 (old - new)) s1 s2 →
  len = old ∧ old < new ∨ len = new ∧ new ≤ old ∧ flag flags MREMAP_FIXED = true ∧ (new < old → u32 (a + new) + (old - new) ≤ TASK_SIZE) →
  view_at (mmap (m_mm s2)) (a + i) = view_at (mmap (m_mm s)) (a + i).
Proof using Type.
  intros Ha Ho Hn Ht Hi Hap R1 R2 Hl. rewrite (ra_out _ _ _ _ R2).
  - destruct (flag flags MREMAP_FIXED); [|by rewrite Hap]. apply (ra_out _ _ _ _ R1). intros Hin. destruct Hap as [A1 A2].
    assert (a + old ≤ TASK_SIZE) as Hao.
    { destruct Hl as [[-> _]|(-> & Hle & _ & Hc)]; [done|]. destruct (decide (new = old)) as [->|]; [done|].
      unfold TASK_SIZE in *. rewrite u32_small in Hc by lia. lia. }
    unfold TASK_SIZE in *. rewrite u32_small in A2 by lia. assert (len ≤ old) by lia. lia.
  - destruct Hl as [[-> Hlt]|(-> & Hle & _)]; [rewrite Z.max_l by lia; lia|]. rewrite Z.max_r by lia. apply cut_apart; lia.
Qed.

Lemma do_mremap_spec a old_len new_len flags na s :
  let old := PAGE_ALIGN old_len in let new := PAGE_ALIGN new_len in
  wf_mmap (mmap (m_mm s)) → 0 ≤ a < 2 ^ 32 → 0 ≤ na →
  cache_ok (k_cache c) →
  ∃ r s1, do_mremap c a old_len new_len flags na s = Ret (r, s1) ∧
    resized a old new (mremap_target (m_mm s) new flags na) r s s1.
Proof using Hsec.
  intros old new W Ha Hna Hcache. unfold do_mremap. fold old new. set (t := mremap_target (m_mm s) new flags na).
  assert (Herr : ∀ e, -4095 ≤ e < 0 → ∃ r s1, mret (M := st mst) (u32 e) s = Ret (r, s1) ∧ resized a old new t r s s1).
  { intros e He. eexists _, s. split; [reflexivity|]. by apply resized_error. }
  destruct (negb (_ =? 0)); [by apply Herr|]. destruct (page_aligned a) eqn:Da; cbn [negb]; [|by apply Herr]. apply aligned_divide in Da.
  assert (Hw : ∀ z, 0 ≤ PAGE_ALIGN z < 2 ^ 32).
  { intros z. unfold PAGE_ALIGN. destruct (word_land (u32 (z + PAGESIZE - 1)) (not32 (PAGESIZE - 1))); [by apply Z.mod_pos_bound|apply not32_nonneg|done]. }
  pose proof (Hw old_len) as Ho. pose proof (Hw new_len) as Hn. fold old in Ho. fold new in Hn.
  pose proof (page_align_divide old_len : (PAGESIZE | old)) as Do. pose proof (page_align_divide new_len : (PAGESIZE | new)) as Dn.
  destruct (Z.eqb_spec new 0) as [|Hn0]; [by apply Herr|].
  destruct (mremap_fixed_spec a old new flags na s W Hna Dn ltac:(lia)) as (r1 & s1 & E1 & Hr1 & R1 & F1).
  rewrite (bind_ret _ _ _ _ _ E1).
  assert (O1 : ∀ x, ¬ t ≤ x < t + new → view_at (mmap (m_mm s1)) x = view_at (mmap (m_mm s)) x).
  { intros x Hx. unfold t, mremap_target in Hx. destruct (flag flags MREMAP_FIXED); [by apply R1|]. by destruct F1 as [_ ->]. }
  destruct (Z.eqb_spec r1 0) as [->|Hr1n]; cbn [negb].
  2:{ eexists _, s1. split; [reflexivity|]. apply resized_error; [lia|apply R1|apply R1|auto]. }
  destruct (mremap_shrink_spec a old new flags na s1 (ra_wf _ _ _ _ R1) Da Ha Do Ho Dn ltac:(lia)) as (r2 & s2 & E2 & [R2 D2] & S2 & H2).
  rewrite (bind_ret _ _ _ _ _ E2). assert (B2 : same_brk s s2) by (etrans; [apply R1|apply R2]).
  assert (O2 : ∀ x, ¬ t ≤ x < t + new → ¬ u32 (a + new) ≤ x < u32 (a + new) + (old - new) →
    view_at (mmap (m_mm s2)) x = view_at (mmap (m_mm s)) x).
  { intros x Hx Hc. rewrite (ra_out _ _ _ _ R2) by lia. auto. }
  assert (Hsrc : if flag flags MREMAP_FIXED then apart a old na new else s1 = s).
  { destruct (flag flags MREMAP_FIXED); [by apply F1|apply F1]. }
  destruct r2 as [z|len].
  { eexists _, s2. split; [reflexivity|]. destruct H2 as [Hle [[-> Hfx]|(e & He & ->)]].
    2:{ apply resized_error; [done|done|apply R2|]. intros x _ Ht Hc. auto. }
    split; [done|apply R2|intros x _ Ht Hc; auto|]. intros _. split; [by left|]. intros i Hi.
    rewrite (proj2 (Z.ltb_lt i old)), (ra_out _ _ _ _ R2) by (lia || rewrite Z.max_r by lia; by apply cut_apart; lia).
    destruct (flag flags MREMAP_FIXED); [|by destruct F1 as [_ ->]]. destruct Hfx as [| ->]; [done|]. destruct Hsrc. lia. }
  assert (Hlen : 0 ≤ len ≤ new ∧ (PAGESIZE | len)) by (destruct H2 as [[-> ?]|(-> & ? & _)]; (split; [lia|done])).
  assert (Ht2 : mremap_target (m_mm s2) new flags na = t ∧ target_free s2 new flags na).
  { unfold t, target_free, mremap_target. destruct (flag flags MREMAP_FIXED) eqn:Efx; simpl in *.
    - split; [done|]. intros _. destruct F1 as (Pn & Hap & Ff); [done|]. split; [done|]. intros x Hx.
      destruct (decide (u32 (a + new) ≤ x < u32 (a + new) + Z.max 0 (old - new))) as [Hc|Hc];
        [destruct (D2 x Hc) as [|E]; [done|rewrite E; by apply Ff]|rewrite (ra_out _ _ _ _ R2 x Hc); by apply Ff].
    - destruct H2 as [[_ Hlt]|(_ & _ & ? & _)]; [|done]. rewrite (S2 Hlt). destruct F1 as [_ ->]. split; [done|].
      pose proof (search_target_free s new flags na W Hcache ltac:(lia) Dn Efx) as Hf. unfold target_free, mremap_target in Hf. by rewrite Efx in Hf. }
  destruct Ht2 as [Et Hfree2], Hlen as [Hlen Dlen].
  destruct (mremap_grow_spec a len new flags na s2) as (r & s3 & E3 & [B3 W3 O3 N3]); try done; try lia;
    [apply R2|by intros Efx; apply aligned_divide; rewrite Efx in F1; apply F1|].
  rewrite Et in O3, N3. exists r, s3. split; [done|]. split; [by etrans|done| |].
  - intros x Hx Ht Hc. rewrite O3 by done. auto.
  - intros Hr. destruct (N3 Hr) as (Hra & Hat & w & Hold & Hnew). split; [done|]. intros i Hi. rewrite Hnew by lia.
    assert (Hs : 0 ≤ (if i <? old then i else 0) < Z.max 1 len).
    { destruct (Z.ltb_spec i old); [|lia]. destruct H2 as [[-> ?]|(-> & ? & _)]; lia. }
    rewrite <-(source_kept a old new len na flags s s1 s2) by (done || lia). symmetry. apply Hold. lia.
Qed.
End DoMremap.

(** * The calls of a thread *)

(** [munmap] removes exactly the range from the caller, whoever the pages belong
    to, or fails and changes no page. *)
Lemma munmap_spec c k cur t a len :
  tasks_ok k → tasks k !! cur = Some t → 0 ≤ a → 0 ≤ len →
  ∃ r k', sys_munmap c cur a len k = Ret (r, k') ∧ remaps cur k k' ∧ k_phys k' = k_phys k ∧
    (r = 0 → changed (kview k' cur) (kview k cur) a (a + PAGE_ALIGN len) None) ∧
    (r ≠ 0 → ∀ x, kview k' cur x = kview k cur x).
Proof.
  intros T Ht Ha Hl. destruct (do_munmap_spec c (Mst (mm t) (k_res k)) a len (to_wf _ (T _ _ Ht)) Ha Hl) as (r & s1 & E & U).
  destruct (on_mm_remaps cur _ k t r s1 Ht T E (um_brk _ _ _ _ _ U) (um_wf _ _ _ _ _ U)) as (k' & E' & R & _ & V).
  exists r, k'. split; [exact E'|]. split; [done|].
  assert (Hv : ∀ x, kview k cur x = view_at (mmap (mm t)) x) by (intros x; unfold kview; by rewrite Ht).
  split; [|split; [intros Hr x|intros Hr x]].
  - unfold on_mm in E'. rewrite Ht, E in E'. by injection E' as <-.
  - rewrite V, Hv. destruct (um_ok _ _ _ _ _ U Hr) as (_ & _ & _ & Hc). apply Hc.
  - rewrite V, Hv. by apply (um_fail _ _ _ _ _ U).
Qed.

(** C21: [mremap], with any arguments, returns, changes no task but the caller,
    keeps its areas in order and its page table within the access of its areas,
    and changes no page outside the range it is given, the range behind a
    smaller new length, and the target of a move.  If it succeeds, the area is
    at its old address or at the target; each page of the new range has the
    owner and the access of the page it comes from, and pages beyond the old
    length have those of the first page.  Nothing in this depends on whether
    the pages are the arbiter's. *)
Theorem mremap_exact c k cur t a old_len new_len flags na :
  let old := PAGE_ALIGN old_len in let new := PAGE_ALIGN new_len in
  let target := mremap_target c (mm t) new flags na in
  (∀ b, -4095 ≤ security_file_mmap c b ≤ 0) → cache_ok (k_cache c) → tasks_ok k → tasks k !! cur = Some t →
  0 ≤ a < 2 ^ 32 → 0 ≤ na →
  ∃ r k', sys_mremap c cur a old_len new_len flags na k = Ret (r, k') ∧ remaps cur k k' ∧
    (∀ x, ¬ a ≤ x < a + new → ¬ target ≤ x < target + new → ¬ u32 (a + new) ≤ x < u32 (a + new) + (old - new) →
       kview k' cur x = kview k cur x) ∧
    (page_aligned r = true → (r = a ∨ r = target) ∧
       ∀ i, 0 ≤ i < new → kview k' cur (r + i) = kview k cur (a + if i <? old then i else 0)).
Proof.
  intros old new target Hsec C T Ht Ha Hna.
  destruct (do_mremap_spec c Hsec a old_len new_len flags na (Mst (mm t) (k_res k)) (to_wf _ (T _ _ Ht)) Ha Hna C)
    as (r & s1 & E & [B W O N]).
  destruct (on_mm_remaps cur _ k t r s1 Ht T E B W) as (k' & E' & R & _ & V). exists r, k'. split; [exact E'|]. split; [done|].
  assert (Hv : ∀ x, kview k cur x = view_at (mmap (mm t)) x) by (intros x; unfold kview; by rewrite Ht).
  split; [intros x H1 H2 H3; rewrite V, Hv; by apply O|]. intros Hr. destruct (N Hr) as [Hra Hi]. split; [done|].
  intros i Hin. rewrite V, Hv. by apply Hi.
Qed.

(** The client 100 moves the first page of its part of the heap and has it
    grow. *)
Lemma conf0_cache : cache_ok (k_cache conf0).
Proof. split_and!; try done; by exists 0x40000. Qed.
Lemma mremap_exact_witness :
  ∃ k', sys_mremap conf0 100 AB_HEAP_START 0x1000 0x2000 MREMAP_MAYMOVE 0 k0 = Ret (0x40000000, k') ∧
    kview k' 100 0x40001000 = Some (true, 3) ∧ kview k' 100 0x8048000 = Some (false, 3).
Proof.
  assert (Hsec : ∀ b, -4095 ≤ security_file_mmap conf0 b ≤ 0) by (intros b; simpl; lia).
  destruct (mremap_exact conf0 k0 100 (Task mm_child 1 101 (convert_to_identity 1 0) 0 1 100) AB_HEAP_START 0x1000 0x2000
    MREMAP_MAYMOVE 0 Hsec conf0_cache k0_ok eq_refl ltac:(by vm_compute) ltac:(lia)) as (r & k' & E & _ & O & N).
  assert (r = 0x40000000) as ->.
  { assert (E' : fst <$> (match sys_mremap conf0 100 AB_HEAP_START 0x1000 0x2000 MREMAP_MAYMOVE 0 k0 with
      | Ret x => Some x | Fault _ => None end) = Some 0x40000000) by (by vm_compute). rewrite E in E'. by injection E'. }
  exists k'. split; [exact E|]. split.
  - destruct (N eq_refl) as [_ Hi]. exact (Hi 0x1000 ltac:(by vm_compute)).
  - transitivity (kview k0 100 0x8048000); [|by vm_compute].
    apply (O 0x8048000); vm_compute; intros [H1 H2]; solve [by apply H1|discriminate H2].
Defined.
