(* ===== verification/Mmap.v ===== *)
(** [mmap] of plain Linux, as a thread calls it: [do_mmap_pgoff] and
    [mmap_region] of [mm/mmap.c], [sys_mmap2] of [arch/x86/kernel/sys_i386_32.c].
    The project does not guard it.

    A file is what the call asks of it, [f_mmap] being its operation [mmap];
    the descriptors of the caller and the file behind a shared mapping without
    a file are arguments.  Files that bring a search of their own for a free
    range are left out, and so are the counts of writers. *)

From S2P Require Import Prelude Chunk Os Pte Vma VmaSpec FreeArea Kernel Mprotect FreeAreaSpec Regions Group KernelSpec Unmap Map Fault FaultSpec Channel Mremap.

Definition EBADF : Z := 9.
Definition ENODEV : Z := 19.

Record file := File {
  f_id : Z;
  f_read : bool;         (* FMODE_READ *)
  f_write : bool;        (* FMODE_WRITE *)
  f_append : bool;       (* IS_APPEND(inode) *)
  f_locked : bool;       (* locks_verify_locked(inode) *)
  f_noexec : bool;       (* MNT_NOEXEC *)
  f_deny_write : Z;      (* result of deny_write_access *)
  f_mmap : option (vm_area_struct → Z + vm_area_struct);
}.
Definition set_vm_file (f : Z) (v : vm_area_struct) : vm_area_struct :=
  VmArea (vm_start v) (vm_end v) (vm_flags v) (vm_pgoff v) f (anon_vma v) (vm_close v).


(** The operation of ordinary files ([mm/filemap.c]); [readpage] is whether the
    file system can read pages.  [vm_ops] is a parameter of the fault code. *)
Definition ENOEXEC : Z := 8.
Definition VM_CAN_NONLINEAR : Z := 0x08000000.
Definition generic_file_mmap (readpage : bool) (v : vm_area_struct) : Z + vm_area_struct :=
  if negb readpage then inl (- ENOEXEC)
  else inr (set_vm_flags (Z.lor (vm_flags v) VM_CAN_NONLINEAR) v).

Section Mmap.
Variable c : kconf.
Variable overcommit_never : bool.
Variable hugetlb_error : Z.
Variable shmem_file : Z. (* the file [shmem_zero_setup] makes, or its error *)

(** The area of its own that a range gets *)
Definition new_area (f : option file) (addr len flags pgoff : Z) : mmm (Z + vm_area_struct) :=
  let vma := VmArea addr (addr + len) flags pgoff 0 0 false in
  match f with
  | Some f =>
      if flag flags (Z.lor VM_GROWSDOWN VM_GROWSUP) then mret (inl (- EINVAL)) else
      if flag flags VM_DENYWRITE && negb (f_deny_write f =? 0) then mret (inl (f_deny_write f)) else
      match f_mmap f with
      | Some op => mret (op (set_vm_file (f_id f) vma))
      | None => fail KernelOops
      end
  | None =>
      mret (if flag flags VM_SHARED then
              if shmem_file <? 0 then inl shmem_file else inr (set_vm_file shmem_file vma)
            else inr vma)
  end.

(** [mlock_vma_pages_range]: areas that cannot be locked lose the flag. *)
Definition unlockable (flags : Z) : bool := flag flags (Z.lor VM_SPECIAL VM_HUGETLB).
Definition mlock_area (v : vm_area_struct) : vm_area_struct :=
  if flag (vm_flags v) VM_LOCKED && unlockable (vm_flags v)
  then set_vm_flags (Z.land (vm_flags v) (not32 VM_LOCKED)) v else v.
Definition count_pages (len flags : Z) (m : mm_struct) : mm_struct :=
  let n := Z.shiftr len PAGE_SHIFT in
  set_usage (total_vm m + n) (if flag flags VM_LOCKED && negb (unlockable flags) then locked_vm m + n else locked_vm m) m.

Definition mmap_region (f : option file) (addr len flags vm_flags pgoff : Z) : mmm Z :=
  r ← munmap_back c 2 addr len;
  match r with
  | None => mret (u32 (- ENOMEM))
  | Some (rpre, rest) =>
      m ← gets m_mm;
      if negb (may_expand_vm c m (Z.shiftr len PAGE_SHIFT)) then mret (u32 (- ENOMEM)) else
      let vm_flags := noreserve overcommit_never flags vm_flags in
      ok ← (if accountable_mapping vm_flags then take_resource else mret true);
      if negb ok then mret (u32 (- ENOMEM)) else
      let vm_flags := if accountable_mapping vm_flags then Z.lor vm_flags VM_ACCOUNT else vm_flags in
      x ← lift (vma_merge rpre rest addr (addr + len) vm_flags 0 (match f with Some f => f_id f | None => 0 end) pgoff);
      match x with
      | Some x =>
          upd_mm (λ m, count_pages len vm_flags (set_mmap (position_list x) m));; mret addr
      | None =>
          ok ← take_resource;
          if negb ok then mret (u32 (- ENOMEM)) else
          v ← new_area f addr len vm_flags pgoff;
          match v with
          | inl e => mret (u32 e)
          | inr v =>
              upd_mm (λ m, count_pages len (Vma.vm_flags v) (set_mmap (rev_append rpre (mlock_area v :: rest)) m));;
              mret (vm_start v)
          end
      end
  end.

(** The tests on the file, from [case MAP_PRIVATE] on *)
Definition private_flags (f : file) (vm_flags : Z) : Z + Z :=
  if negb (f_read f) then inl (u32 (- EACCES)) else
  if f_noexec f && flag vm_flags VM_EXEC then inl (u32 (- EPERM)) else
  let vm_flags := if f_noexec f then Z.land vm_flags (not32 VM_MAYEXEC) else vm_flags in
  match f_mmap f with None => inl (u32 (- ENODEV)) | Some _ => inr vm_flags end.

(** The flags and the offset of the mapping, or the error the call returns *)
Definition mmap_flags (m : mm_struct) (f : option file) (addr len prot flags pgoff : Z) : Z + (Z * Z) :=
  let vm_flags := Z.lor (calc_vm_prot_bits prot) (Z.lor (calc_vm_flag_bits flags) (Z.lor (def_flags m)
    (Z.lor VM_MAYREAD (Z.lor VM_MAYWRITE VM_MAYEXEC)))) in
  if flag flags MAP_LOCKED && negb (cap_ipc_lock c || negb (rlim_memlock c =? 0)) then inl (u32 (- EPERM)) else
  if flag vm_flags VM_LOCKED && (rlim_memlock c <? Z.shiftr len PAGE_SHIFT + locked_vm m) && negb (cap_ipc_lock c)
  then inl (u32 (- EAGAIN)) else
  let shared := Z.lor vm_flags (Z.lor VM_SHARED VM_MAYSHARE) in
  match f with
  | Some f =>
      let r :=
        if Z.land flags MAP_TYPE =? MAP_SHARED then
          if flag prot PROT_WRITE && negb (f_write f) then inl (u32 (- EACCES)) else
          if f_append f && f_write f then inl (u32 (- EACCES)) else
          if f_locked f then inl (u32 (- EAGAIN)) else
          private_flags f (if f_write f then shared else Z.land shared (not32 (Z.lor VM_MAYWRITE VM_SHARED)))
        else if Z.land flags MAP_TYPE =? MAP_PRIVATE then private_flags f vm_flags
        else inl (u32 (- EINVAL)) in
      match r with inl e => inl e | inr vm_flags => inr (vm_flags, pgoff) end
  | None =>
      if Z.land flags MAP_TYPE =? MAP_SHARED then inr (shared, 0)
      else if Z.land flags MAP_TYPE =? MAP_PRIVATE then inr (vm_flags, Z.shiftr addr PAGE_SHIFT)
      else inl (u32 (- EINVAL))
  end.

(** Reading may imply execution, unless the file is mounted without it. *)
Definition map_prot (f : option file) (pers prot : Z) : Z :=
  match f with Some f => if f_noexec f then prot else exec_prot pers prot | None => exec_prot pers prot end.

Definition do_mmap_pgoff (f : option file) (pers addr len prot flags pgoff : Z) : mmm Z :=
  m ← gets m_mm;
  let prot := map_prot f pers prot in
  if len =? 0 then mret (u32 (- EINVAL)) else
  let addr := if negb (flag flags MAP_FIXED) then round_hint_to_min c addr else addr in
  let len := PAGE_ALIGN len in
  if (len =? 0) || (TASK_SIZE <? len) then mret (u32 (- ENOMEM)) else
  if u32 (pgoff + Z.shiftr len PAGE_SHIFT) <? pgoff then mret (u32 (- EOVERFLOW)) else
  if sysctl_max_map_count c <? map_count m then mret (u32 (- ENOMEM)) else
  if flag flags MAP_HUGETLB then mret (u32 (match f with Some _ => - EINVAL | None => hugetlb_error end)) else
  let addr := get_unmapped_area c m addr len flags in
  if negb (page_aligned addr) then mret addr else
  match mmap_flags m f addr len prot flags pgoff with
  | inl e => mret e
  | inr (vm_flags, pgoff) =>
      let e := security_file_mmap c addr in
      if negb (e =? 0) then mret (u32 e) else
      mmap_region f addr len flags vm_flags pgoff
  end.

(** [fget] gives the open files of the caller by descriptor. *)
Definition sys_mmap2 (fget : Z → option file) (cur addr len prot flags fd pgoff : Z) : km Z :=
  let flags := Z.land flags (not32 (Z.lor MAP_EXECUTABLE MAP_DENYWRITE)) in
  t ← get_task cur;
  if flag flags MAP_ANONYMOUS then on_mm cur (do_mmap_pgoff None (personality t) addr len prot flags pgoff)
  else match fget fd with
       | None => mret (u32 (- EBADF))
       | Some f => on_mm cur (do_mmap_pgoff (Some f) (personality t) addr len prot flags pgoff)
       end.
End Mmap.

(** * Flags of a new area *)

(** Flags without access that are not the arbiter's *)
Definition bare (f : Z) : Prop := word f ∧ Z.testbit f 29 = false ∧ ∀ i, 0 ≤ i < 3 → Z.testbit f i = false.
Lemma bare_lor f g : bare f → bare g → bare (Z.lor f g).
Proof.
  intros (W1 & H1 & L1) (W2 & H2 & L2). split; [by apply word_lor|]. rewrite Z.lor_spec, H1, H2. split; [done|].
  intros i Hi. by rewrite Z.lor_spec, L1, L2.
Qed.
Lemma bare_land f g : bare f → bare (Z.land f g).
Proof.
  intros (W1 & H1 & L1). split.
  - apply word_bits; [apply Z.land_nonneg; left; apply W1|]. intros i Hi. by rewrite Z.land_spec, word_testbit_high.
  - rewrite Z.land_spec, H1. split; [done|]. intros i Hi. by rewrite Z.land_spec, L1.
Qed.
Definition bareb (f : Z) : bool :=
  (0 <=? f) && (f <? 2 ^ 32) && negb (Z.testbit f 29) && negb (Z.testbit f 0) && negb (Z.testbit f 1) && negb (Z.testbit f 2).
Lemma bareb_spec f : bareb f = true → bare f.
Proof.
  unfold bareb. rewrite !andb_true_iff, !negb_true_iff, Z.leb_le, Z.ltb_lt. intros (((((H0 & H1) & H2) & H3) & H4) & H5).
  split; [done|]. split; [done|]. intros i Hi. assert (i = 0 ∨ i = 1 ∨ i = 2) as [-> | [-> | ->]] by lia; done.
Qed.

(** Access bits [w] and bare flags *)
Definition plain_flags (w f : Z) : Prop := ∃ g, bare g ∧ f = Z.lor w g.
Lemma plain_ok w f : 0 ≤ w < 8 → plain_flags w f → flags_ok f ∧ view f = (false, w).
Proof.
  intros Hw (g & (W & H29 & Hl) & ->).
  assert (H29' : Z.testbit (Z.lor w g) 29 = false).
  { rewrite Z.lor_spec, H29, orb_false_r. destruct (decide (w = 0)) as [->|]; [apply Z.bits_0|]. apply Z.bits_above_log2; [lia|].
    apply Z.log2_lt_pow2; [lia|]. change (2 ^ 29) with 536870912. lia. }
  split.
  - split; [apply word_lor; [unfold word; lia|done]|]. by rewrite H29'.
  - unfold view. f_equal; [change VM_AB_CONTROL with (2 ^ 29); by rewrite flag_bit by lia|].
    transitivity (Z.land w VM_ACCESS); [|change VM_ACCESS with (Z.ones 3); rewrite Z.land_ones, Z.mod_small; lia].
    apply low3_eq. intros i Hi. by rewrite Z.lor_spec, Hl, orb_false_r.
Qed.
Lemma plain_lor w f g : plain_flags w f → bare g → plain_flags w (Z.lor f g).
Proof. intros (h & Hh & ->) Hg. exists (Z.lor h g). split; [by apply bare_lor|]. by rewrite Z.lor_assoc. Qed.
Lemma plain_without w f n : 0 ≤ w < 8 → plain_flags w f → 0 ≤ n < 2 ^ 32 → Z.land n 7 = 0 → plain_flags w (Z.land f (not32 n)).
Proof.
  intros Hw (g & Hg & ->) Hn H7. exists (Z.land g (not32 n)). split; [by apply bare_land|].
  rewrite Z.land_lor_distr_l. f_equal. apply Z.bits_inj'. intros i Hi. rewrite Z.land_spec. destruct (Z.testbit w i) eqn:E; [|done].
  assert (i < 3). { destruct (Z.lt_ge_cases i 3); [done|]. rewrite Z.bits_above_log2 in E; [done|lia|].
    destruct (decide (w = 0)) as [->|]; [by rewrite Z.bits_0 in E|]. apply Z.log2_lt_pow2; [lia|].
    apply Z.lt_le_trans with (2 ^ 3); [lia|]. apply Z.pow_le_mono_r; lia. }
  rewrite testbit_not32 by lia. apply (f_equal (λ z, Z.testbit z i)) in H7. rewrite Z.land_spec, Z.bits_0 in H7.
  change 7 with (Z.ones 3) in H7. rewrite Z.ones_spec_low, andb_true_r in H7 by lia. by rewrite H7.
Qed.

Lemma flag_bits_bare flags : bare (calc_vm_flag_bits flags).
Proof. unfold calc_vm_flag_bits. rewrite Z.land_comm. by apply bare_land, bareb_spec. Qed.
Lemma def_bare d : def_flags_ok d → bare d.
Proof. intros [-> | ->]; by apply bareb_spec. Qed.

Section Spec.
Context (c : kconf) (overcommit_never : bool) (hugetlb_error shmem_file : Z).
Context (Hsec : ∀ x, -4095 ≤ security_file_mmap c x ≤ 0) (Hhuge : -4095 ≤ hugetlb_error < 0) (Hshm : -4095 ≤ shmem_file).

(** What the call relies on in a file: its operation keeps the range, the owner
    and the access of the area. *)
Definition file_ok (f : file) : Prop :=
  -4095 ≤ f_deny_write f ≤ 0 ∧
  ∀ op v, f_mmap f = Some op → flags_ok (vm_flags v) →
    match op v with
    | inl e => -4095 ≤ e < 0
    | inr v' => vm_start v' = vm_start v ∧ vm_end v' = vm_end v ∧ flags_ok (vm_flags v') ∧ view (vm_flags v') = view (vm_flags v)
    end.
Definition file_okO (f : option file) : Prop := match f with Some f => file_ok f | None => True end.

Lemma mmap_flags_spec m f addr len prot flags pgoff : def_flags_ok (def_flags m) →
  match mmap_flags c m f addr len prot flags pgoff with
  | inl e => error e
  | inr (vf, _) => plain_flags (calc_vm_prot_bits prot) vf ∧ match f with Some f => is_Some (f_mmap f) | None => True end
  end.
Proof using Type.
  intros D. unfold mmap_flags. set (g := Z.lor (calc_vm_flag_bits flags) _).
  assert (Hg : bare g).
  { unfold g. apply bare_lor; [apply flag_bits_bare|]. apply bare_lor; [by apply def_bare|]. by apply bareb_spec. }
  pose proof (prot_bits_bound prot) as Hw. set (w := calc_vm_prot_bits prot) in *.
  assert (P : plain_flags w (Z.lor w g)) by (by exists g). destruct (_ && _); [is_error|]. destruct (_ && _ && _); [is_error|].
  assert (Ps : plain_flags w (Z.lor (Z.lor w g) (Z.lor VM_SHARED VM_MAYSHARE))) by (apply plain_lor; [done|by apply bareb_spec]).
  assert (Hpriv : ∀ f vf, plain_flags w vf → match private_flags f vf with
    | inl e => error e | inr vf => plain_flags w vf ∧ is_Some (f_mmap f) end).
  { intros f0 vf Hv. unfold private_flags. destruct (f_read f0); cbn [negb]; [|apply error_code; unfold EACCES; lia].
    destruct (_ && _); [is_error|]. destruct (f_mmap f0); [|apply error_code; unfold ENODEV; lia].
    split; [|done]. destruct (f_noexec f0); [by apply plain_without|done]. }
  destruct f as [f|].
  - match goal with |- context [if Z.land flags MAP_TYPE =? MAP_SHARED then ?a else ?b] => set (r := if Z.land flags MAP_TYPE =? MAP_SHARED then a else b) end.
    assert (Hr : match r with inl e => error e | inr vf => plain_flags w vf ∧ is_Some (f_mmap f) end); [|by destruct r].
    unfold r. destruct (_ =? MAP_SHARED).
    + destruct (_ && negb _); [apply error_code; unfold EACCES; lia|]. destruct (f_append f && _); [apply error_code; unfold EACCES; lia|].
      destruct (f_locked f); [is_error|]. apply Hpriv. destruct (f_write f); [done|by apply plain_without].
    + destruct (_ =? MAP_PRIVATE); [by apply Hpriv|is_error].
  - destruct (_ =? MAP_SHARED); [done|]. destruct (_ =? MAP_PRIVATE); [done|is_error].
Qed.

(** * The address space *)

(** The range gets pages that are not the arbiter's, or the call fails and may
    have removed pages of the range. *)
Record mapped (s : mst) (a len w r : Z) (s1 : mst) : Prop := {
  mp_brk : same_brk s s1;
  mp_wf : wf_mmap (mmap (m_mm s1));
  mp_out x : ¬ a ≤ x < a + len → view_at (mmap (m_mm s1)) x = view_at (mmap (m_mm s)) x;
  mp_ret : r = a ∨ error r;
  mp_in x : a ≤ x < a + len →
    r = a ∧ view_at (mmap (m_mm s1)) x = Some (false, w) ∨
    r ≠ a ∧ (view_at (mmap (m_mm s1)) x = None ∨ view_at (mmap (m_mm s1)) x = view_at (mmap (m_mm s)) x);
}.

Lemma mapped_same s a len w r s1 : (PAGESIZE | a) → wf_mmap (mmap (m_mm s)) → m_mm s1 = m_mm s → error r → mapped s a len w r s1.
Proof using Type.
  intros Da W E He. split; rewrite ?E; try done; [by apply same_mm_brk|by right|]. intros x _. right. split; [|by right].
  destruct He as (e & Hb & ->). by apply error_unaligned.
Qed.

Lemma mlock_area_spec v : flags_ok (vm_flags v) →
  vm_start (mlock_area v) = vm_start v ∧ vm_end (mlock_area v) = vm_end v ∧ flags_ok (vm_flags (mlock_area v)) ∧
  view (vm_flags (mlock_area v)) = view (vm_flags v).
Proof using Type.
  intros Hf. unfold mlock_area. destruct (_ && _); [|done]. simpl. change VM_LOCKED with (2 ^ 13).
  split_and!; try done; [by apply without_ok|by apply without_view].
Qed.

Lemma new_area_spec f a len vf pg s : file_okO f → flags_ok vf → match f with Some f => is_Some (f_mmap f) | None => True end →
  ∃ r, new_area shmem_file f a len vf pg s = Ret (r, s) ∧
    match r with
    | inl e => -4095 ≤ e < 0
    | inr v => vm_start v = a ∧ vm_end v = a + len ∧ flags_ok (vm_flags v) ∧ view (vm_flags v) = view vf
    end.
Proof using Hshm.
  intros Hf Hvf Hop. unfold new_area. destruct f as [f|].
  - destruct (flag vf (Z.lor _ _)); [eexists; split; [done|unfold EINVAL; lia]|]. destruct Hf as [Hd Hf], Hop as [op Hop].
    destruct (flag vf VM_DENYWRITE && _) eqn:Hdw.
    + apply andb_prop in Hdw as [_ Hne%negb_true_iff%Z.eqb_neq]. eexists. split; [done|simpl; lia].
    + rewrite Hop. eexists. split; [done|]. exact (Hf op (set_vm_file (f_id f) (VmArea a (a + len) vf pg 0 0 false)) Hop Hvf).
  - destruct (flag vf VM_SHARED); [|by eexists]. destruct (Z.ltb_spec shmem_file 0); eexists; (split; [done|]); [simpl; lia|done].
Qed.

Lemma take_resource_mm s : ∃ ok s1, take_resource s = Ret (ok, s1) ∧ m_mm s1 = m_mm s.
Proof using Type. unfold take_resource. destruct (m_res s); eauto. Qed.

Lemma region_spec f a len flags vf pg w s :
  file_okO f → match f with Some f => is_Some (f_mmap f) | None => True end → 0 ≤ w < 8 → plain_flags w vf →
  wf_mmap (mmap (m_mm s)) → (PAGESIZE | a) → (PAGESIZE | len) → 0 ≤ a → 0 < len → a + len ≤ TASK_SIZE →
  ∃ r s1, mmap_region c overcommit_never shmem_file f a len flags vf pg s = Ret (r, s1) ∧ mapped s a len w r s1.
Proof using Hshm.
  intros Hf Hop Hw Hp W Da Dl H0 Hl Ht. unfold mmap_region.
  destruct (munmap_back_spec c s a len W Da Dl H0 Hl Ht) as (o & s1 & E & B & W1 & V1 & G). rewrite (bind_ret _ _ _ _ _ E).
  assert (Hin : ∀ x, a ≤ x < a + len → view_at (mmap (m_mm s1)) x = None ∨ view_at (mmap (m_mm s1)) x = view_at (mmap (m_mm s)) x).
  { intros x Hx. destruct o as [[rp rest]|]; [|by right]. left. destruct G as [-> G]. by apply (gap_free rp rest a (a + len)). }
  assert (Hfail : ∀ r s2, error r → m_mm s2 = m_mm s1 → mapped s a len w r s2).
  { intros r s2 He E2. split; rewrite ?E2; try done; [etrans; [done|by apply same_mm_brk]|by right|]. intros x Hx. right. split; [|auto].
    destruct He as (e & Hb & ->). by apply error_unaligned. }
  destruct o as [[rp rest]|]; [|eexists _, s1; split; [done|]; by apply Hfail; [is_error|]]. destruct G as [El G].
  rewrite (bind_ret (gets m_mm) _ s1 (m_mm s1) s1) by done.
  destruct (may_expand_vm _ _ _); cbn [negb]; [|eexists _, s1; split; [done|]; by apply Hfail; [is_error|]].
  set (vf1 := noreserve overcommit_never flags vf). assert (P1 : plain_flags w vf1).
  { unfold vf1, noreserve. destruct (_ && _); [|done]. apply plain_lor; [done|by apply bareb_spec]. }
  assert (∃ ok s2, (if accountable_mapping vf1 then take_resource else mret true) s1 = Ret (ok, s2) ∧ m_mm s2 = m_mm s1) as (ok & s2 & E2 & M2).
  { destruct (accountable_mapping vf1); [apply take_resource_mm|by eexists _, _]. }
  rewrite (bind_ret _ _ _ _ _ E2). destruct ok; cbn [negb]; [|eexists _, s2; split; [done|]; by apply Hfail; [is_error|]].
  set (vf2 := if accountable_mapping vf1 then _ else vf1). assert (P2 : plain_flags w vf2).
  { unfold vf2. destruct (accountable_mapping vf1); [|done]. apply plain_lor; [done|by apply bareb_spec]. }
  destruct (plain_ok w vf2 Hw P2) as [Hok Hview]. clearbody vf1 vf2.
  assert (Hdone : ∀ l s3 n fl, m_mm s3 = m_mm s1 → maps_new rp rest a (a + len) vf2 l →
    mapped s a len w a (set_m_mm (count_pages n fl (set_mmap l (m_mm s3))) s3)).
  { intros l s3 n fl E3 [Hwf Hc]. split; simpl; rewrite ?E3; simpl; try done.
    - etrans; [exact B|]. split; simpl; rewrite ?E3; try done. apply pgd_ok_mono; [done|]. intros x Hx. simpl. rewrite Hc, decide_False, El; [done|].
      intros Hi. apply Hx. rewrite El. by apply (gap_free rp rest a (a + len)).
    - intros x Hx. by rewrite Hc, decide_False, <-El, V1.
    - by left.
    - intros x Hx. left. split; [done|]. by rewrite Hc, decide_True, Hview. }
  unfold mbind at 1, st_bind at 1, lift.
  pose proof (vma_merge_new rp rest a (a + len) vf2 0 (match f with Some f => f_id f | None => 0 end) pg G) as Hm.
  destruct (vma_merge _ _ _ _ _ _ _ _) as [[y|]|]; [| |done].
  { eexists _, _. split; [done|]. by apply (Hdone (position_list y) s2). }
  destruct (take_resource_mm s2) as (ok & s3 & E3 & M3). rewrite (bind_ret _ _ _ _ _ E3).
  destruct ok; cbn [negb]; [|eexists _, s3; split; [done|]; apply Hfail; [is_error|congruence]].
  destruct (new_area_spec f a len vf2 pg s3 Hf Hok Hop) as (v & E4 & Hv). rewrite (bind_ret _ _ _ _ _ E4). destruct v as [e|v].
  { eexists _, s3. split; [done|]. apply Hfail; [by apply error_code|congruence]. }
  destruct Hv as (V2 & V3 & V4 & V5). rewrite V2. eexists _, _. split; [done|]. apply (Hdone _ s3); [congruence|].
  destruct (mlock_area_spec v V4) as (L1 & L2 & L3 & L4). destruct G as ((m & Hpr & Hm') & Hlt & Ha & He & Hr).
  apply (at_position rp m); [done|lia| |].
  - simpl. rewrite L1, L2, V2, V3. split; [lia|]. split; [|done]. split; [lia|]. by rewrite L1, L2, V2, V3.
  - intros x. simpl. rewrite L1, L2, L4, V2, V3, V5. destruct rest as [|u rr]; simpl in *; cmps. destruct Hr as (? & (? & _) & _). lia.
Qed.

(** * The call *)

Context (Hcache : cache_ok (k_cache c)).

Lemma unmapped_area_spec m addr len flags :
  wf_mmap (mmap m) → 0 ≤ addr < 2 ^ 32 → 0 < len ≤ TASK_SIZE → (PAGESIZE | len) →
  let t := get_unmapped_area c m addr len flags in
  page_aligned t = true ∧ pages t len ∧ (if flag flags MAP_FIXED then t = addr else range_free (mmap m) t len) ∨
  page_aligned t = false ∧ error t.
Proof using Hcache.
  intros W Ha Hl Dl. unfold get_unmapped_area.
  assert (Hr : ∃ r c', get_area (mmap m) (k_cache c) addr len flags = (r, c') ∧ 0 ≤ r < 2 ^ 32 ∧
    (IS_ERR_VALUE r = false → if flag flags MAP_FIXED then r = addr else range_free (mmap m) r len)).
  { destruct (flag flags MAP_FIXED) eqn:Hfx.
    - rewrite get_area_fixed by (done || lia). by eexists _, _.
    - pose proof (get_area_spec (mmap m) (k_cache c) addr len flags W Hcache Hl Dl Hfx) as H.
      destruct (get_area _ _ _ _ _) as [r c']. exists r, c'. split; [done|]. destruct H as (_ & _ & _ & [(H1 & H2 & H3)|[-> _]]); [|done].
      split; [unfold TASK_SIZE in *; lia|done]. }
  destruct Hr as (r & c' & -> & Hr & Hx). simpl. destruct (IS_ERR_VALUE r) eqn:He.
  - right. unfold IS_ERR_VALUE in He. apply Z.leb_le in He. change (u32 (- 4095)) with (2 ^ 32 - 4095) in He. split.
    + destruct (page_aligned r) eqn:Hal; [|done]. apply aligned_divide in Hal as [z Hz]. unfold PAGESIZE in Hz. lia.
    + exists (r - 2 ^ 32). split; [lia|]. unfold u32. rewrite <-(Z_mod_plus_full (r - 2 ^ 32) 1 (2 ^ 32)), Z.mod_small; lia.
  - specialize (Hx eq_refl). destruct (Z.ltb_spec (TASK_SIZE - len) r); [right; split; [done|is_error]|].
    destruct (page_aligned r) eqn:Hal; cbn [negb]; [left|right; split; [done|is_error]]. split; [done|]. split; [|done].
    apply aligned_divide in Hal. split_and!; try done; lia.
Qed.

Lemma do_mmap_spec f pers addr len prot flags pgoff s :
  file_okO f → wf_mmap (mmap (m_mm s)) → def_flags_ok (def_flags (m_mm s)) → 0 ≤ addr < 2 ^ 32 →
  let l := PAGE_ALIGN len in let w := calc_vm_prot_bits (map_prot f pers prot) in
  ∃ r s1, do_mmap_pgoff c overcommit_never hugetlb_error shmem_file f pers addr len prot flags pgoff s = Ret (r, s1) ∧
    (error r ∧ m_mm s1 = m_mm s ∨
     ∃ a, pages a l ∧ 0 < l ∧ (if flag flags MAP_FIXED then a = addr else range_free (mmap (m_mm s)) a l) ∧ mapped s a l w r s1).
Proof using Hsec Hhuge Hshm Hcache.
  intros Hf W D Ha l w. unfold do_mmap_pgoff. rewrite (bind_ret (gets m_mm) _ s (m_mm s) s) by done. fold w l.
  assert (Herr : ∀ r, error r → ∃ r' s1, mret (M := st mst) r s = Ret (r', s1) ∧ (error r' ∧ m_mm s1 = m_mm s ∨
    ∃ a, pages a l ∧ 0 < l ∧ (if flag flags MAP_FIXED then a = addr else range_free (mmap (m_mm s)) a l) ∧ mapped s a l w r' s1)).
  { intros r Hr. exists r, s. split; [done|]. by left. }
  destruct (len =? 0); [apply Herr; is_error|]. destruct (Z.eqb_spec l 0) as [|Hl0]; cbn [orb]; [apply Herr; is_error|].
  destruct (Z.ltb_spec TASK_SIZE l) as [|Hlt]; [apply Herr; is_error|]. destruct (u32 _ <? pgoff); [apply Herr; is_error|].
  destruct (_ <? map_count _); [apply Herr; is_error|].
  destruct (flag flags MAP_HUGETLB); [apply Herr, error_code; destruct f; unfold EINVAL; lia|].
  pose proof (page_align_word len) as Hl. pose proof (page_align_divide len) as Dl. fold l in Hl, Dl.
  set (a0 := if negb (flag flags MAP_FIXED) then _ else addr).
  assert (Ha0 : 0 ≤ a0 < 2 ^ 32 ∧ (flag flags MAP_FIXED = true → a0 = addr)).
  { unfold a0. destruct (flag flags MAP_FIXED); cbn [negb]; [done|]. split; [|done]. unfold round_hint_to_min. destruct (_ && _); [apply page_align_word|].
    apply (word_land addr); [done|apply not32_nonneg]. }
  destruct (unmapped_area_spec (m_mm s) a0 l flags W ltac:(apply Ha0) ltac:(lia) Dl) as [(Hal & Pt & Hfr)|[Hal He]]; rewrite Hal; cbn [negb]; [|by apply Herr].
  set (a := get_unmapped_area c (m_mm s) a0 l flags) in *.
  pose proof (mmap_flags_spec (m_mm s) f a l (map_prot f pers prot) flags pgoff D) as Hfl.
  destruct (mmap_flags _ _ _ _ _ _ _ _) as [e|[vf pg]]; [by apply Herr|]. destruct Hfl as [Hp Hop].
  destruct (Z.eqb_spec (security_file_mmap c a) 0) as [|Hne]; cbn [negb]; [|apply Herr, error_code; pose proof (Hsec a); lia].
  pose proof Pt as (P1 & _ & P3 & _ & P5).
  destruct (region_spec f a l flags vf pg w s Hf Hop (prot_bits_bound _) Hp W P1 Dl P3 ltac:(lia) P5) as (r & s1 & E & M).
  exists r, s1. split; [done|]. right. exists a. split_and!; try done; try lia. destruct (flag flags MAP_FIXED) eqn:Hfx; [|done].
  rewrite Hfr. by apply Ha0.
Qed.
End Spec.

Lemma mmap2_fixed flags : flag (Z.land flags (not32 (Z.lor MAP_EXECUTABLE MAP_DENYWRITE))) MAP_FIXED = flag flags MAP_FIXED.
Proof. change MAP_FIXED with (2 ^ 4). rewrite !flag_bit by lia. rewrite Z.land_spec, testbit_not32 by (vm_compute; by split). by rewrite andb_true_r. Qed.

(** What a client reaches by [mmap] *)
Definition confined (cur : Z) (k : kernel) (fixed : bool) (addr len prot r : Z) (k' : kernel) : Prop :=
  remaps cur k k' ∧
  (error r ∨ page_aligned r = true ∧ r + len ≤ TASK_SIZE ∧ (fixed = true → r = addr) ∧
     ∃ w, (w = calc_vm_prot_bits prot ∨ w = calc_vm_prot_bits (Z.lor prot PROT_EXEC)) ∧
       ∀ x, kview k' cur x = if decide (r ≤ x < r + len) then Some (false, w) else kview k cur x) ∧
  (∀ x w, kview k' cur x = Some (true, w) → kview k cur x = Some (true, w)) ∧
  (fixed = false → ∀ x v, kview k cur x = Some v → kview k' cur x = Some v).

Section Call.
Context (c : kconf) (overcommit_never : bool) (hugetlb_error shmem_file : Z).
Context (Hsec : ∀ x, -4095 ≤ security_file_mmap c x ≤ 0) (Hhuge : -4095 ≤ hugetlb_error < 0) (Hshm : -4095 ≤ shmem_file).
Context (Hcache : cache_ok (k_cache c)).

Lemma on_mm_mmap k cur t f addr len prot flags pgoff :
  tasks_ok k → tasks k !! cur = Some t → 0 ≤ addr < 2 ^ 32 → file_okO f →
  ∃ r k', on_mm cur (do_mmap_pgoff c overcommit_never hugetlb_error shmem_file f (personality t) addr len prot flags pgoff) k = Ret (r, k') ∧
    confined cur k (flag flags MAP_FIXED) addr (PAGE_ALIGN len) prot r k'.
Proof using Hsec Hhuge Hshm Hcache.
  intros T Ht Ha Hf. pose proof (T _ _ Ht) as [W D G]. set (s := Mst (mm t) (k_res k)).
  assert (Hv : ∀ x, kview k cur x = view_at (mmap (mm t)) x) by (intros x; unfold kview; by rewrite Ht).
  destruct (do_mmap_spec c overcommit_never hugetlb_error shmem_file Hsec Hhuge Hshm Hcache f (personality t) addr len prot flags pgoff s Hf W D Ha)
    as (r & s1 & E & H). set (l := PAGE_ALIGN len) in *. set (w := calc_vm_prot_bits _) in *.
  assert (B : same_brk s s1 ∧ wf_mmap (mmap (m_mm s1))).
  { destruct H as [[_ E1]|(a & _ & _ & _ & M)]; [|split; apply M]. rewrite E1. split; [by apply same_mm_brk|done]. }
  destruct (on_mm_remaps cur _ k t r s1 Ht T E (proj1 B) (proj2 B)) as (k' & E' & R & _ & V). exists r, k'. split; [exact E'|].
  split; [done|]. destruct H as [[He E1]|(a & Pa & Hl & Hfree & [_ _ O Hr I])].
  - split; [by left|]. split; intros; rewrite ?V, ?Hv in *; by rewrite E1 in *.
  - split_and!.
    + destruct Hr as [->|]; [right|by left]. split_and!; [apply aligned_divide, Pa|apply Pa|by intros Hfx; rewrite Hfx in Hfree|].
      exists w. split; [unfold w, map_prot, exec_prot; destruct f as [f|]; [destruct (f_noexec f)|]; try destruct (_ && _); auto|].
      intros x. rewrite V, Hv. case_decide as Hx; [|by apply O]. by destruct (I x Hx) as [[_ ?]|[? _]].
    + intros x v. rewrite V, Hv. destruct (decide (a ≤ x < a + l)) as [Hx|Hx]; [|by rewrite O]. destruct (I x Hx) as [[_ ->]|[_ [->| ->]]]; done.
    + intros Hfx x v. rewrite Hfx in Hfree. rewrite V, Hv. intros Hx. rewrite O; [done|]. intros Hin. specialize (Hfree x Hin). simpl in Hfree. congruence.
Qed.
End Call.

(** Ordinary files are as the call relies on. *)
Lemma generic_file_ok id rd wr app lck noexec readpage :
  file_ok (File id rd wr app lck noexec 0 (Some (generic_file_mmap readpage))).
Proof.
  split; [simpl; lia|]. intros op v [= <-] [Hw Hf]. unfold generic_file_mmap. destruct readpage; simpl; [|unfold ENOEXEC; lia].
  set (g := Z.lor (vm_flags v) VM_CAN_NONLINEAR).
  assert (Hb : ∀ i, 0 ≤ i → i ≠ 27 → Z.testbit g i = Z.testbit (vm_flags v) i).
  { intros i Hi Hne. unfold g. rewrite Z.lor_spec. change VM_CAN_NONLINEAR with (2 ^ 27).
    by rewrite Z.pow2_bits_false, orb_false_r by lia. }
  do 2 (split; [done|]). split.
  - split; [by apply word_lor|]. rewrite !Hb by lia. done.
  - unfold view. f_equal.
    + change VM_AB_CONTROL with (2 ^ 29). rewrite !flag_bit by lia. by apply Hb.
    + unfold g. change VM_ACCESS with (Z.ones 3). rewrite Z.land_lor_distr_l.
      change (Z.land VM_CAN_NONLINEAR (Z.ones 3)) with 0. apply Z.lor_0_r.
Qed.

(** C22: A client that calls [mmap], with any arguments, anonymously or on a
    file whose operation keeps the range, the owner and the access of the area
    ([file_ok]: ordinary files do, device drivers may not), changes no task but
    itself, and never gets a page of the arbiter.  The call returns an error,
    or an aligned address at which exactly the range now has pages of the
    client's own, with the access it asked for.  Without [MAP_FIXED] no page
    that was mapped changes; with it, the client can only take pages away from
    itself. *)
Theorem client_mmap_confined c overcommit_never hugetlb_error shmem_file fget k cur t addr len prot flags fd pgoff :
  (∀ x, -4095 ≤ security_file_mmap c x ≤ 0) → -4095 ≤ hugetlb_error < 0 → -4095 ≤ shmem_file → cache_ok (k_cache c) →
  (∀ d f, fget d = Some f → file_ok f) → tasks_ok k → tasks k !! cur = Some t → 0 ≤ addr < 2 ^ 32 →
  ∃ r k', sys_mmap2 c overcommit_never hugetlb_error shmem_file fget cur addr len prot flags fd pgoff k = Ret (r, k') ∧
    confined cur k (flag flags MAP_FIXED) addr (PAGE_ALIGN len) prot r k'.
Proof.
  intros Hsec Hhuge Hshm Hcache Hfiles T Ht Ha. unfold sys_mmap2. rewrite <-(mmap2_fixed flags).
  rewrite (bind_ret (get_task cur) _ k t k) by (unfold get_task; by rewrite Ht).
  destruct (flag _ MAP_ANONYMOUS); [by apply on_mm_mmap|]. destruct (fget fd) as [f|] eqn:Ef; [apply on_mm_mmap; try done; by apply (Hfiles fd)|].
  eexists _, k. split; [done|]. split; [by apply remaps_refl|]. split; [left; apply error_code; unfold EBADF; lia|]. by split.
Qed.

(** The client 100 maps two pages of an ordinary file that it may only read. *)
Definition some_files (d : Z) : option file :=
  if d =? 3 then Some (File 9 true false false false false 0 (Some (generic_file_mmap true))) else None.
Lemma client_mmap_confined_witness :
  ∃ k', sys_mmap2 conf0 false (- ENOMEM) 7 some_files 100 0 0x1800 PROT_READ MAP_PRIVATE 3 0 k0 = Ret (0x40000000, k') ∧
    kview k' 100 0x40001fff = Some (false, 1) ∧ kview k' 100 AB_HEAP_START = kview k0 100 AB_HEAP_START.
Proof.
  destruct (client_mmap_confined conf0 false (- ENOMEM) 7 some_files k0 100 (Task mm_child 1 101 (convert_to_identity 1 0) 0 1 100)
    0 0x1800 PROT_READ MAP_PRIVATE 3 0) as (r & k' & E & _ & H & _);
    [intros x; simpl; lia|unfold ENOMEM; lia|lia|exact conf0_cache| |exact k0_ok|reflexivity|lia|].
  { intros d f. unfold some_files. destruct (d =? 3); [|done]. intros [= <-]. apply generic_file_ok. }
  assert (E' : (match sys_mmap2 conf0 false (- ENOMEM) 7 some_files 100 0 0x1800 PROT_READ MAP_PRIVATE 3 0 k0 with
    | Ret (r, k1) => Some (r, kview k1 100 0x40001fff) | Fault _ => None end) = Some (0x40000000, Some (false, 1))) by (by vm_compute).
  rewrite E in E'. injection E' as -> Ev. exists k'. split; [exact E|]. split; [exact Ev|].
  destruct H as [(e & He & Hr)|(_ & _ & _ & w & _ & Hw)].
  - exfalso. revert Hr. unfold u32. rewrite <-(Z_mod_plus_full e 1 (2 ^ 32)), Z.mod_small; lia.
  - rewrite Hw. rewrite decide_False; [reflexivity|]. change (PAGE_ALIGN 0x1800) with 0x2000. unfold AB_HEAP_START. lia.
Defined.
