(* ===== verification/Futex.v ===== *)
(** Futexes of [kernel/futex.c]: keys, waiting and waking, with the key the
    project adds for mutexes in the global data of a group of threads.

    The waiters of all hash buckets are one list, in the order in which a bucket
    keeps them; the hash only splits the list, since waiters are told apart by
    [match_futex].  Reference counts, timeouts and priority inheritance are left
    out, but for the test that a waiter has none. *)

From S2P Require Import Prelude Frame Chunk Os Pte Vma VmaSpec Kernel Regions Group KernelSpec Fork KernelLaws Fault FaultSpec Channel.

Definition FUT_OFF_INODE : Z := 1.
Definition FUT_OFF_MMSHARED : Z := 2.
Definition EWOULDBLOCK : Z := EAGAIN.

(** What the pointer of a key points to: the address space of a task, or the
    inode of a file *)
Inductive key_ptr := MmOf (p : Z) | InodeOf (file : Z).
#[export] Instance key_ptr_eq_dec : EqDecision key_ptr.
Proof. solve_decision. Defined.
Record futex_key := FutexKey { key_word : Z; both_ptr : key_ptr; key_offset : Z }.
Definition match_futex (key1 key2 : futex_key) : bool :=
  (key_word key1 =? key_word key2) && bool_decide (both_ptr key1 = both_ptr key2) && (key_offset key1 =? key_offset key2).

Record futex_q := FutexQ { q_task : Z; q_key : futex_key; q_pi : bool; q_bitset : Z }.

(** [page->mapping->host] and [page->index] of a page that is not anonymous *)
Definition page_mapping (x : phys) (pfn : Z) : option (Z * Z) :=
  fst <$> head (filter (λ kp, kp.2 = pfn) (map_to_list (page_cache x))).

Section Futex.
Variables (c : kconf) (ops : vm_operations).

(** [gup_pte_range] for one page *)
Definition gup_pte (e : option pte_t) (write : bool) : option Z :=
  match e with
  | Some e => if mmu_allows e write && negb (pte_special e) then Some (pte_pfn e) else None
  | None => None
  end.
Definition get_user_pages_fast (cur start : Z) (write : bool) : km (Z + Z) :=
  let start := Z.land start (not32 (PAGESIZE - 1)) in
  e ← get_pte cur start;
  match gup_pte e write with
  | Some pfn => mret (inr pfn)
  | None => get_user_pages c ops (abmap_get_page c ops cur start) cur start write
  end.

(** The loop at [again:]: a page that has left its mapping is looked up once
    more. *)
Definition shared_key_round (cur address offset : Z) (write : bool) : km (unit + (Z + futex_key)) :=
  r ← get_user_pages_fast cur address write;
  match r with
  | inl err => mret (inr (inl err))
  | inr pfn =>
      x ← gets k_phys;
      if PageAnon (get_frame x pfn) then
        t ← get_task cur;
        if is_special t && (start_data (mm t) <=? address) && (address <? start_brk (mm t)) then
          ab_assert (negb (ab_tgleader_mm t =? 0));;
          mret (inr (inr (FutexKey address (MmOf (ab_tgleader_mm t)) (Z.lor offset FUT_OFF_MMSHARED))))
        else mret (inr (inr (FutexKey address (MmOf cur) (Z.lor offset FUT_OFF_MMSHARED))))
      else
        match page_mapping x pfn with
        | None => mret (inl tt)
        | Some (file, index) => mret (inr (inr (FutexKey index (InodeOf file) (Z.lor offset FUT_OFF_INODE))))
        end
  end.
Definition get_futex_key (cur uaddr : Z) (fshared write : bool) : km (Z + futex_key) :=
  let offset := uaddr `mod` PAGESIZE in
  if negb (uaddr `mod` 4 =? 0) then mret (inl (- EINVAL)) else
  let address := uaddr - offset in
  if negb fshared then
    if negb (uaddr + 4 <=? TASK_SIZE) then mret (inl (- EFAULT)) else mret (inr (FutexKey address (MmOf cur) offset))
  else loopM (λ _, shared_key_round cur address offset write) tt.

(** The four bytes of a word in a frame *)
Definition word_at (x : phys) (pfn uaddr : Z) : Z :=
  byte_at x pfn uaddr + 2 ^ 8 * byte_at x pfn (uaddr + 1) + 2 ^ 16 * byte_at x pfn (uaddr + 2) + 2 ^ 24 * byte_at x pfn (uaddr + 3).
(** [futex_wait_setup]: the value is read without faults, and after a fault
    everything is tried again. *)
Definition wait_round (cur uaddr val : Z) (fshared : bool) : km (unit + (Z + futex_key)) :=
  key ← get_futex_key cur uaddr fshared false;
  match key with
  | inl ret => mret (inr (inl ret))
  | inr key =>
      e ← get_pte cur uaddr;
      if allowed e false then
        x ← gets k_phys;
        mret (inr (if word_at x (default 0 (pte_pfn <$> e)) uaddr =? val then inr key else inl (- EWOULDBLOCK)))
      else
        r ← access c ops cur uaddr 0 false;
        mret (match r with inl _ => inr (inl (- EFAULT)) | inr _ => inl tt end)
  end.
Definition futex_wait_setup (cur uaddr val : Z) (fshared : bool) : km (Z + futex_key) :=
  loopM (λ _, wait_round cur uaddr val fshared) tt.

(** [futex_wait] up to the point where the task sleeps: the result and the new
    list of waiters.  Tasks of one priority queue up in order. *)
Definition futex_wait (cur uaddr val : Z) (fshared : bool) (bitset : Z) (hb : list futex_q) : km (Z * list futex_q) :=
  if bitset =? 0 then mret (- EINVAL, hb) else
  r ← futex_wait_setup cur uaddr val fshared;
  mret (match r with
        | inl ret => (ret, hb)
        | inr key => (0, hb ++ [FutexQ cur key false bitset])
        end).

(** The loop of [futex_wake] *)
Fixpoint wake_matching (key : futex_key) (nr_wake bitset ret : Z) (hb : list futex_q) : Z * list futex_q :=
  match hb with
  | [] => (ret, [])
  | this :: hb' =>
      if match_futex (q_key this) key then
        if q_pi this then (- EINVAL, hb)
        else if Z.land (q_bitset this) bitset =? 0 then
          let '(r, l) := wake_matching key nr_wake bitset ret hb' in (r, this :: l)
        else if nr_wake <=? ret + 1 then (ret + 1, hb')
        else wake_matching key nr_wake bitset (ret + 1) hb'
      else let '(r, l) := wake_matching key nr_wake bitset ret hb' in (r, this :: l)
  end.
Definition futex_wake (cur uaddr : Z) (fshared : bool) (nr_wake bitset : Z) (hb : list futex_q) : km (Z * list futex_q) :=
  if bitset =? 0 then mret (- EINVAL, hb) else
  r ← get_futex_key cur uaddr fshared false;
  mret (match r with
        | inl ret => (ret, hb)
        | inr key => wake_matching key nr_wake bitset 0 hb
        end).
End Futex.

(** * Keys of words in pages that are there *)

Section Keys.
Context (c : kconf) (ops : vm_operations).

(** The task [r] has the page of [uaddr] in its page table: an anonymous page,
    in the frame [pfn], that it may read. *)
Definition anon_word (k : kernel) (r uaddr pfn : Z) (t : task_struct) : Prop :=
  tasks k !! r = Some t ∧ PageAnon (get_frame (k_phys k) pfn) = true ∧
  ∃ e, pgd (mm t) !! page_of uaddr = Some e ∧ pte_pfn e = pfn ∧ mmu_allows e false = true ∧ pte_special e = false.
(** The key: of the thread group's leader in the global data of a special
    thread, and of the task's own address space elsewhere *)
Definition anon_key (r uaddr : Z) (t : task_struct) : futex_key :=
  let address := uaddr - uaddr `mod` PAGESIZE in
  let global := is_special t && (start_data (mm t) <=? address) && (address <? start_brk (mm t)) in
  FutexKey address (MmOf (if global then ab_tgleader_mm t else r)) (Z.lor (uaddr `mod` PAGESIZE) FUT_OFF_MMSHARED).

Lemma page_base a : a - a `mod` PAGESIZE = a / PAGESIZE * PAGESIZE.
Proof. pose proof (Z.div_mod a PAGESIZE ltac:(done)). lia. Qed.
Lemma page_of_base a : page_of (a / PAGESIZE * PAGESIZE) = page_of a.
Proof. unfold page_of, PAGE_SHIFT. rewrite !Z.shiftr_div_pow2 by lia. change (2 ^ 12) with PAGESIZE. by rewrite Z.div_mul. Qed.

Lemma get_futex_key_anon k r uaddr pfn t :
  0 ≤ uaddr < 2 ^ 32 → uaddr `mod` 4 = 0 → anon_word k r uaddr pfn t → ab_tgleader_mm t ≠ 0 →
  get_futex_key c ops r uaddr true false k = Ret (inr (anon_key r uaddr t), k).
Proof.
  intros Hu Hal (Ht & Hpa & e & He & Hpfn & Hm & Hs) Hl. unfold get_futex_key. rewrite Hal. cbn [negb Z.eqb].
  assert (Hb : 0 ≤ uaddr / PAGESIZE * PAGESIZE < 2 ^ 32) by (rewrite <-page_base; pose proof (Z.mod_pos_bound uaddr PAGESIZE ltac:(done)); 
    pose proof (Z.mod_le uaddr PAGESIZE ltac:(lia) ltac:(done)); lia).
  unfold anon_key. rewrite page_base. apply loopM_one. unfold shared_key_round.
  assert (Ef : get_user_pages_fast c ops r (uaddr / PAGESIZE * PAGESIZE) false k = Ret (inr pfn, k)).
  { unfold get_user_pages_fast. rewrite page_mask, Z.div_mul by done. rewrite (bind_ret _ _ _ _ _ (get_pte_task _ _ _ _ Ht)).
    rewrite page_of_base, He. unfold gup_pte. by rewrite Hm, Hs, Hpfn. }
  rewrite (bind_ret _ _ _ _ _ Ef), (bind_ret (gets k_phys) _ k (k_phys k) k), Hpa by done.
  rewrite (bind_ret (get_task r) _ k t k) by (unfold get_task; by rewrite Ht).
  destruct (is_special t && _ && _); [|done]. apply Z.eqb_neq in Hl. by rewrite Hl.
Qed.

Lemma futex_wait_anon k r uaddr pfn t val bitset hb :
  0 ≤ uaddr < 2 ^ 32 → uaddr `mod` 4 = 0 → anon_word k r uaddr pfn t → ab_tgleader_mm t ≠ 0 → bitset ≠ 0 →
  futex_wait c ops r uaddr val true bitset hb k =
    Ret (if word_at (k_phys k) pfn uaddr =? val then (0, hb ++ [FutexQ r (anon_key r uaddr t) false bitset])
         else (- EWOULDBLOCK, hb), k).
Proof.
  intros Hu Hal Hw Hl Hb. pose proof (get_futex_key_anon _ _ _ _ _ Hu Hal Hw Hl) as Ek.
  destruct Hw as (Ht & Hpa & e & He & Hpfn & Hm & Hs). unfold futex_wait. apply Z.eqb_neq in Hb. rewrite Hb.
  assert (E : futex_wait_setup c ops r uaddr val true k =
    Ret (if word_at (k_phys k) pfn uaddr =? val then inr (anon_key r uaddr t) else inl (- EWOULDBLOCK), k)).
  { unfold futex_wait_setup. apply loopM_one. unfold wait_round. rewrite (bind_ret _ _ _ _ _ Ek).
    rewrite (bind_ret _ _ _ _ _ (get_pte_task _ _ _ _ Ht)), He. cbn [allowed]. rewrite Hm.
    rewrite (bind_ret (gets k_phys) _ k (k_phys k) k) by done. simpl. by rewrite Hpfn. }
  rewrite (bind_ret _ _ _ _ _ E). by destruct (_ =? val).
Qed.

Lemma match_futex_refl key : match_futex key key = true.
Proof. unfold match_futex. rewrite !Z.eqb_refl. by rewrite bool_decide_true. Qed.
(** The waiters before the first one of a key stay. *)
Lemma wake_first key r bitset hb :
  (∀ w, w ∈ hb → match_futex (q_key w) key = false) → bitset ≠ 0 →
  wake_matching key 1 bitset 0 (hb ++ [FutexQ r key false bitset]) = (1, hb).
Proof.
  intros Hno Hb. induction hb as [|w hb IH]; simpl.
  - rewrite match_futex_refl, Z.land_diag. apply Z.eqb_neq in Hb. by rewrite Hb.
  - rewrite (Hno w) by (by left). rewrite IH; [done|]. intros w' Hw. apply Hno. by right.
Qed.
Lemma futex_wake_anon k r s uaddr pfn t key bitset hb :
  0 ≤ uaddr < 2 ^ 32 → uaddr `mod` 4 = 0 → anon_word k r uaddr pfn t → ab_tgleader_mm t ≠ 0 → bitset ≠ 0 →
  anon_key r uaddr t = key → (∀ w, w ∈ hb → match_futex (q_key w) key = false) →
  futex_wake c ops r uaddr true 1 bitset (hb ++ [FutexQ s key false bitset]) k = Ret ((1, hb), k).
Proof.
  intros Hu Hal Hw Hl Hb <- Hno. unfold futex_wake. rewrite (proj2 (Z.eqb_neq _ _) Hb).
  rewrite (bind_ret _ _ _ _ _ (get_futex_key_anon _ _ _ _ _ Hu Hal Hw Hl)). by rewrite wake_first.
Qed.
End Keys.

(** * A mutex in the global data of a thread and of the threads it creates *)

(** The word [uaddr] of the global data of the special thread [p], in a page it
    has written to and can read *)
Record global_word (k : kernel) (p uaddr pfn : Z) (t : task_struct) : Prop := {
  gw_word : anon_word k p uaddr pfn t;
  gw_special : is_special t = true ∧ 0 ≤ ab_identity t < 2 ^ 31;
  gw_leader : ab_tgleader_mm t ≠ 0;
  gw_addr : 0 ≤ uaddr < 2 ^ 32 ∧ uaddr `mod` 4 = 0;
  gw_data : start_data (mm t) ≤ uaddr - uaddr `mod` PAGESIZE < start_brk (mm t);
  gw_area : ∃ v, v ∈ mmap (mm t) ∧ in_range (vm_start v) (vm_end v) (page_of uaddr) ∧ flag (vm_flags v) VM_DONTCOPY = false ∧
    anon_vma v ≠ 0;
}.

(** A thread that enters the group keeps the identity of the thread that
    created it. *)
Lemma same_identity t :
  is_special t = true → 0 ≤ ab_identity t < 2 ^ 31 → convert_to_identity (get_category t) 0 = ab_identity t.
Proof.
  unfold is_special, is_arbiter, get_role, get_category, convert_to_identity, AB_ROLE_MASK, AB_CATEGORY_SHIFT.
  intros [Hr _]%andb_true_iff Hi. apply negb_true_iff, negb_false_iff, Z.eqb_eq in Hr.
  change 1 with (Z.ones 1) in Hr at 1. rewrite Z.land_ones in Hr by lia. change (2 ^ 1) with 2 in Hr.
  rewrite Z.lor_0_r, Z.shiftl_mul_pow2, Z.shiftr_div_pow2 by lia. change (2 ^ 1) with 2.
  replace (ab_identity t / 2 * 2) with (ab_identity t) by (pose proof (Z.div_mod (ab_identity t) 2); lia).
  unfold s32. rewrite u32_small by lia. destruct (Z.ltb_spec (ab_identity t) (2 ^ 31)); [done|lia].
Qed.
Lemma special_identity t t' : ab_identity t' = ab_identity t → is_special t' = is_special t.
Proof. unfold is_special, is_arbiter, is_common, get_role, get_category. by intros ->. Qed.
Lemma special_not_arbiter t : is_special t = true → is_arbiter t = false.
Proof. unfold is_special. by destruct (is_arbiter t). Qed.
Lemma anon_key_global r uaddr t :
  is_special t = true → start_data (mm t) ≤ uaddr - uaddr `mod` PAGESIZE < start_brk (mm t) →
  anon_key r uaddr t =
    FutexKey (uaddr - uaddr `mod` PAGESIZE) (MmOf (ab_tgleader_mm t)) (Z.lor (uaddr `mod` PAGESIZE) FUT_OFF_MMSHARED).
Proof.
  intros Hs [H1 H2]. unfold anon_key. apply Z.leb_le in H1. apply Z.ltb_lt in H2. by rewrite Hs, H1, H2.
Qed.

(** Parent and new thread have the word in the same frame and under one key. *)
Lemma spawned_word k cur l p q t uaddr pfn k2 :
  spawned k cur l p q k2 → global_word k p uaddr pfn t →
  ∃ tp tq, anon_word k2 p uaddr pfn tp ∧ anon_word k2 q uaddr pfn tq ∧ ab_tgleader_mm tp ≠ 0 ∧ ab_tgleader_mm tq ≠ 0 ∧
    anon_key p uaddr tp = anon_key p uaddr t ∧ anon_key q uaddr tq = anon_key p uaddr t.
Proof.
  intros S [(Ht & Hpa & e & He & Hpfn & Hm & Hsp) [Hs Hi] Hl _ Hd (v & Hv & Hr & Hc & Ha)].
  destruct (sp_data _ _ _ _ _ _ S t Ht Hs) as (tp & tq & Hp & Hq & [D1 D2 D3]).
  destruct (sp_parent _ _ _ _ _ _ S t Ht) as (tp' & g & Hp' & (Km & Ki & Kl) & _). assert (tp' = tp) as -> by congruence.
  destruct (sp_new _ _ _ _ _ _ S t Ht) as (tq' & Hq' & Ei & El). assert (tq' = tq) as -> by congruence.
  rewrite (special_not_arbiter t Hs) in El. rewrite (same_identity t Hs Hi) in Ei. simpl in Km, Ki, Kl.
  destruct (D3 (page_of uaddr) e v He) as (Hg & e' & He' & [A1 A2 A3]); [by rewrite page_of_mul, <-page_base|done..|].
  exists tp, tq. unfold anon_word. rewrite (sp_phys _ _ _ _ _ _ S). split_and!; try done; [eauto 6| |congruence..| |].
  - exists e'. split; [done|]. rewrite A1, A2, A3. done.
  - rewrite !anon_key_global; [by rewrite Kl|done..|by rewrite (special_identity _ _ Ki)|by rewrite Km].
  - rewrite !anon_key_global; [by rewrite El|done..|by rewrite (special_identity _ _ Ei)|by rewrite D1, D2].
Qed.


(** The thread 100 of [k0], whose system area is its global data, takes a mutex
    there: it writes 1 to the first byte. *)
Definition mutex : Z := 0x8048010.
Definition mm_data : mm_struct := Mm (mmap mm_child) 12 0 0 AB_HEAP_START AB_HEAP_START 0x8048000 0x804a000 ∅.
Definition k_data : kernel :=
  match store conf0 ops0 100 mutex 1 0xbf000000
          (set_tasks (<[100 := Task mm_data 1 101 (convert_to_identity 1 0) 0 1 100]> (tasks k0)) k0) with
  | Ret (_, k) => k
  | Fault _ => k0
  end.

