(* ===== verification/System.v ===== *)
(** The whole system: the arbiter of [Policy] on the kernel of [Kernel].

    The laws that the policy is proved from hold of the kernel's own code
    ([KernelLaws]), so the policy is a statement about the access bits of the
    memory areas of the tasks and about the entries of their page tables.
    Besides the steps of the arbiter, tasks load and store anywhere, with the
    page faults that causes, and clients create threads, change the protection
    of their own pages and try the calls of the arbiter. *)

From S2P Require Import Prelude LinkedList Label Memory Client Chunk Heap Os Pte Malloc Protection Requests Protocol Arbiter Scenario Policy Vma VmaSpec Kernel Resources Mprotect Regions Group KernelSpec Fork Unmap KernelLaws Fault FaultSpec Channel.

(** * Changes of the kernel that the arbiter does not see *)

Section Unseen.
Context {K : Type} `{HK : AbOsLaws K}.

Record same_os (k k' : K) : Prop := {
  so_member q : os_member k' q ↔ os_member k q;
  so_brk : os_brk k' = os_brk k;
  so_prot q g : os_prot k' q g = os_prot k q g;
}.
Lemma safe_same_os abt h k k' us avs : same_os k k' → safe abt (AbSt h k) us avs → safe abt (AbSt h k') us avs.
Proof.
  intros [Hm Hb Hp] S. split; simpl; rewrite ?Hb; try solve [apply S].
  - destruct (sf_clients _ _ _ _ S) as [C1 C2 C3]. split; [done|done|]. intros c d Hc. apply Hm. by apply (C3 c d).
  - destruct (sf_perm _ _ _ _ S) as [ow Ho]. exists ow. intros c d u x L g. rewrite Hp. by apply Ho.
  - intros q u x g Hq. rewrite Hp. apply (sf_mapped _ _ _ _ S). by apply Hm.
Qed.
End Unseen.

Section System.
Context (c : kconf) (ops : vm_operations) (overcommit_never : bool) (hugetlb_error pgoff cur : Z).
Context (Hcount : MAX_AREAS < sysctl_max_map_count c).
Context (Hprot : ∀ v a b, security_file_mprotect c v a b = 0).
Context (Hmmap : ∀ a, -4095 ≤ security_file_mmap c a ≤ 0).

#[local] Instance os : AbOs kernel := kernel_os c overcommit_never hugetlb_error pgoff cur.
#[local] Instance laws : AbOsLaws kernel := kernel_laws c overcommit_never hugetlb_error pgoff cur Hcount Hprot Hmmap.

(** The calls that a client may issue: [mprotect] on its own address space,
    and those of the arbiter. *)
Inductive client_call (p : Z) : km Z → Prop :=
| call_mprotect start len prot : 0 ≤ start → client_call p (sys_mprotect c p start len prot)
| call_absys_mprotect q a len prot : client_call p (sys_absys_mprotect c p q a len prot)
| call_absys_brk q a : client_call p (sys_absys_brk c p q a)
| call_absys_munmap q a len : client_call p (sys_absys_munmap c p q a len)
| call_absys_mmap q a len prot flags off :
    client_call p (sys_absys_mmap c overcommit_never hugetlb_error p q a len prot flags off).

Inductive full_step : abt_request * world kernel → abt_request * world kernel → Prop :=
| full_serve ev e req w req' w' :
    server_step ev e req w = Ret (req', w') → req_ok req' →
    (∀ op, opcode_of (opcode (decode (A := rpc_header) (rdata req'))) = Some op → in_scope w req' op) →
    full_step (req, w) (req', w')
| full_write m req w : full_step (req, w) (req, set_mem m w)
| full_create p q k1 k2 req w :
    kmember cur (ab_os (w_ab w)) p → tasks (ab_os (w_ab w)) !! q = None →
    do_fork p q (ab_os (w_ab w)) = Ret (q, k1) →
    sys_absys_thread_control q AB_SET_ME_SPECIAL k1 = Ret (0, k2) →
    full_step (req, w) (req, set_os k2 w)
| full_call p m r k1 req w :
    kmember cur (ab_os (w_ab w)) p → client_call p m → m (ab_os (w_ab w)) = Ret (r, k1) →
    full_step (req, w) (req, set_os k1 w)
| full_load p a sp r k1 req w :
    k_res (ab_os (w_ab w)) = [] → tasks_ok (ab_os (w_ab w)) → 0 ≤ a →
    load c ops p a sp (ab_os (w_ab w)) = Ret (r, k1) → full_step (req, w) (req, set_os k1 w)
| full_store p a byte sp r k1 req w :
    k_res (ab_os (w_ab w)) = [] → tasks_ok (ab_os (w_ab w)) → 0 ≤ a →
    store c ops p a byte sp (ab_os (w_ab w)) = Ret (r, k1) → full_step (req, w) (req, set_os k1 w).

Lemma same_os_refl (k : kernel) : same_os k k.
Proof using Type. by split. Qed.

Lemma client_call_same p m k r k1 : kmember cur k p → client_call p m → m k = Ret (r, k1) → same_os k k1.
Proof using Type.
  intros M Hc E. pose proof M as (Hres & T & l & G & Hp). destruct (group_task _ _ _ _ G Hp) as [t Ht].
  pose proof (gr_children _ _ _ G p t Hp Ht) as Ha.
  assert (Href : ∀ q, controls p q k = Ret (false, k)) by (intros q; by eapply controls_common).
  destruct Hc as [start len prot Hs|q a len prot|q a|q a len|q a len prot flags off].
  2-4: unfold sys_absys_mprotect, sys_absys_brk, sys_absys_munmap in E; rewrite (bind_ret _ _ _ _ _ (Href q)) in E;
    injection E as _ <-; apply same_os_refl.
  2:{ unfold sys_absys_mmap in E. destruct (negb _); [injection E as _ <-; apply same_os_refl|].
      rewrite (bind_ret _ _ _ _ _ (Href q)) in E. injection E as _ <-. apply same_os_refl. }
  pose proof (kquiet_mprotect _ _ _ _ _ _ _ _ E Hres) as Hres1.
  destruct (client_mprotect_spec c k p start len prot T ltac:(by eexists) Hs) as (r' & k' & E' & R & V).
  rewrite E in E'. injection E' as <- <-.
  assert (Hne : cur ≠ p) by (intros <-; by apply (group_not_cur _ _ _ G)). split; simpl.
  - eapply members_same; [apply R|apply R|done|done].
  - unfold kbrk. by rewrite (rm_other _ _ _ R).
  - intros q g. unfold kprot. destruct (decide (q = p)) as [->|]; [|by rewrite (remaps_view _ _ _ _ _ R)].
    destruct (V (g * PAGESIZE)) as [->|(w & w' & -> & ->)]; done.
Qed.

(** Page faults *)
Lemma faulted_same k k1 : k_res k = [] → tasks_ok k → faulted k k1 → same_os k k1.
Proof using Type.
  intros Hr T F. split; simpl.
  - intros q. split; intros (_ & _ & l & G & Hq).
    + split; [done|]. split; [done|]. exists l. split; [|done]. eapply group_same; [symmetry; apply F|done].
    + split; [by apply F|]. split; [apply F|]. exists l. split; [|done]. eapply group_same; [apply F|done].
  - unfold kbrk. pose proof (fl_tasks _ _ F cur) as Hs. destruct (tasks k !! cur) as [t|] eqn:Ht, (tasks k1 !! cur) as [t1|] eqn:Ht1; try done.
    by apply (fl_brk _ _ F cur t t1).
  - intros q g. unfold kprot. destruct (fl_view _ _ F q (g * PAGESIZE)) as [->|(y & w & Hy & _ & Hn & ->)]; [done|].
    by rewrite Hn by lia.
Qed.

(** Creating a thread and entering it is the clone step of [Policy]. *)
Lemma spawn_cloned k p q k1 k2 :
  kmember cur k p → tasks k !! q = None → do_fork p q k = Ret (q, k1) →
  sys_absys_thread_control q AB_SET_ME_SPECIAL k1 = Ret (0, k2) → cloned k p q k2.
Proof using Type.
  intros M Hq E1 E2. pose proof M as (Hres & T & l & G & Hp). destruct (group_task _ _ _ _ G Hp) as [t Ht].
  destruct (spawn_spec k cur l p q t G ltac:(by right) T Ht Hq) as (r & k1' & E1' & _ & [(_ & Hn)|(_ & k2' & E2' & S)]);
    rewrite E1 in E1'; injection E1' as <- <-.
  { apply special_task in E2 as [x Hx]. destruct Hn as (g & _ & Hn). rewrite Hn in Hx. simpl in Hx.
    rewrite lookup_insert_ne in Hx by congruence. congruence. }
  rewrite E2 in E2'. injection E2' as <-. pose proof (λ r t, spawned_areas _ _ _ _ _ _ r t S) as Ho.
  pose proof (sp_res _ _ _ _ _ _ S Hres) as Hres2. destruct S as [(l' & Hl & G') T' _ _ _ _ Hno _ _ Hv].
  assert (Hmem : ∀ r, kmember cur k2 r ↔ r ∈ q :: l).
  { intros r. split.
    - intros (_ & _ & l2 & G2 & Hr). rewrite (group_det _ _ _ _ G2 G') in Hr. by rewrite <-Hl.
    - intros Hr. split; [done|]. split; [done|]. exists l'. split; [done|]. by rewrite Hl. }
  assert (Hmem0 : ∀ r, kmember cur k r ↔ r ∈ l).
  { intros r. split; [|intros Hr; split; [done|]; split; [done|]; by exists l].
    intros (_ & _ & l2 & G2 & Hr). by rewrite (group_det _ _ _ _ G2 G) in Hr. }
  destruct (gr_arbiter _ _ _ G) as (ta & Hta & _). split; simpl.
  - done.
  - rewrite Hmem0. intros Hin. destruct (group_task _ _ _ _ G Hin). congruence.
  - intros r. rewrite Hmem, Hmem0, elem_of_cons. tauto.
  - unfold kbrk. destruct (Ho cur ta Hta) as (t' & -> & _ & Hm). by rewrite Hta, Hm.
  - intros r g Hne. unfold kprot. rewrite (kview_keep k k2 r); [done| |by apply Hno]. intros tr Htr.
    destruct (Ho r tr Htr) as (t' & ? & ? & _). by exists t'.
  - intros g. unfold kprot. destruct (Hv (g * PAGESIZE)) as [->|(-> & w & ->)]; done.
Qed.

Lemma same_winv w k : same_os (ab_os (w_ab w)) k → winv w → winv (set_os k w).
Proof using Type.
  intros Hs (us & avs & S). exists us, avs. cbn in S |- *. destruct (w_ab w) as [h k0]. by eapply safe_same_os.
Qed.
Lemma full_step_winv a b : full_step a b → winv a.2 → winv b.2.
Proof using Type.
  intros [ev e req w req' w' E Hr Hs|m req w|p q k1 k2 req w M Hq E1 E2|p m r k1 req w M Hc E|p x sp r k1 req w R T Ha E|
    p x byte sp r k1 req w R T Ha E].
  - apply (system_step_winv (req, w) (req', w')). by econstructor.
  - apply (system_step_winv (req, w) (req, set_mem m w)). constructor.
  - apply (system_step_winv (req, w) (req, set_os k2 w)). apply (clone p q). by eapply spawn_cloned.
  - by eapply same_winv, client_call_same.
  - by eapply same_winv, faulted_same, load_faulted.
  - by eapply same_winv, faulted_same, store_faulted.
Qed.
Lemma full_run_winv a b : rtc full_step a b → winv a.2 → winv b.2.
Proof using Type. induction 1 as [|x y z Hs _ IH]; [done|]. eauto using full_step_winv. Qed.

(** * Start *)

(** The arbiter and its first child before they have declared themselves *)
Record start_ok (k : kernel) (p : Z) (t tp : task_struct) : Prop := {
  st_res : k_res k = [];
  st_tasks : tasks_ok k;
  st_arbiter : tasks k !! cur = Some t ∧ ab_next t = cur;
  st_child : tasks k !! p = Some tp ∧ parent tp = cur ∧ p ≠ cur;
}.

Lemma start_member k p t tp k1 k2 :
  start_ok k p t tp → sys_absys_thread_control cur AB_SET_ME_ARBITER k = Ret (0, k1) →
  sys_absys_thread_control p AB_SET_ME_SPECIAL k1 = Ret (0, k2) → kmember cur k2 p ∧ kbrk cur k2 = AB_HEAP_START.
Proof using Type.
  clear Hcount Hprot Hmmap. intros [Hres T [Ht Hn] (Hp & Hpar & Hne)] E1 E2.
  destruct (thread_control_arbiter k cur t Ht Hn T) as (k1' & E1' & G & T1 & Hres1 & (t1 & Ht1 & Hm1) & Ho).
  rewrite E1 in E1'. injection E1' as <-. rewrite <-(Ho p Hne) in Hp.
  destruct (thread_control_special p k1 tp t1) as (k2' & E2' & J & N1 & N2 & N3 & _); rewrite ?Hpar; try done.
  { destruct G as [[_ [(t0 & Ht0 & Hx) _]] _ _]. assert (t0 = t1) as -> by congruence. rewrite Hx. by eexists. }
  rewrite E2 in E2'. injection E2' as <-. rewrite Hpar in *.
  destruct (spawn_group k1 cur [] cur p tp k2 G) as (l' & Hl & G'); try done; [by left|set_solver|].
  assert (T2 : tasks_ok k2).
  { intros r tr Hr. destruct (decide (r = p)) as [->|Hrp].
    - destruct (jo_self _ _ _ _ J) as (t' & Ht' & Hm & _). assert (t' = tr) as -> by congruence.
      destruct (T1 _ _ Hp). by split; rewrite Hm.
    - destruct (tasks k1 !! r) as [t0|] eqn:Hr0; [|by rewrite (jo_none _ _ _ _ J) in Hr].
      destruct (jo_other _ _ _ _ J r t0 Hrp Hr0) as (t' & Ht' & Hm & _). assert (t' = tr) as -> by congruence.
      destruct (T1 _ _ Hr0). by split; rewrite Hm. }
  split.
  - split; [rewrite (jo_res _ _ _ _ J); congruence|]. split; [done|]. exists l'. split; [done|]. rewrite Hl. by left.
  - destruct (jo_other _ _ _ _ J cur t1) as (t' & Ht' & Hm & _); [done|done|]. unfold kbrk. rewrite Ht', Hm, Hm1. done.
Qed.

(** On every page of every unit, in the address space of every client: the
    page is in an area of the arbiter whose access bits grant at most what the
    labels justify, and the processor lets the client through for no more. *)
Definition policy_holds (w : world kernel) : Prop :=
  ∃ ow : Z → Z, ∀ cl d u x L g,
    is_client (w_abt w) cl d → unit_in (ab_heap (w_ab w)) u → h_ustates (ab_heap (w_ab w)) !! u = Some x →
    unit_label (ab_heap (w_ab w)) x L → in_pages (addr x) (length_ x) g →
    (∃ acc, kview (ab_os (w_ab w)) (pid d) (g * PAGESIZE) = Some (true, acc) ∧ access_ok (ow u) d L (effective acc)) ∧
    (∀ t e write, tasks (ab_os (w_ab w)) !! pid d = Some t → pgd (mm t) !! g = Some e → mmu_allows e write = true →
       access_ok (ow u) d L (if write then Z.lor PROT_READ PROT_WRITE else PROT_READ)).

Lemma permits_access o d L w write :
  0 ≤ w < 8 → permits w write → access_ok o d L (effective w) →
  access_ok o d L (if write then Z.lor PROT_READ PROT_WRITE else PROT_READ).
Proof using Type.
  intros Hw [H0 Hb] [[P1 P2]|Ho]; [left|by right]. unfold perm_ok in *.
  assert (w = 1 ∨ w = 2 ∨ w = 3 ∨ w = 4 ∨ w = 5 ∨ w = 6 ∨ w = 7) as Hc by lia.
  destruct write.
  - specialize (Hb eq_refl). destruct P1 as [F1 F2]; [destruct_or! Hc; subst w; by vm_compute in Hb|]. done.
  - split; [by intros []|]. intros _. destruct_or! Hc; subst w;
      solve [apply P2; by vm_compute|apply P1; by vm_compute].
Qed.

Lemma winv_policy w : winv w → policy_holds w.
Proof using Type.
  intros (us & avs & S). destruct (sf_perm _ _ _ _ S) as [ow Hp]. exists ow.
  intros cl d u x L g Hc (ps & R & Hu) Hx HL Hg.
  destruct (ho_ulist _ _ _ _ (sf_heap _ _ _ _ S)) as (qs & R' & Hus). rewrite (ll_rep_det _ _ _ R R'), Hus in Hu.
  destruct (Hp cl d u x L g) as (b & Hb & Ha); [done..|]. simpl in Hb. unfold kprot in Hb.
  destruct (kview _ _ _) as [[[] acc]|] eqn:Hv; [|done..]. injection Hb as <-. split; [by exists acc|].
  intros t e write Ht He Hal. destruct (sf_clients _ _ _ _ S) as [_ _ C3]. destruct (C3 cl d Hc) as (_ & T & _).
  destruct (to_pgd _ (T _ _ Ht) _ _ He) as (b & w' & Hv' & _ & Hok). unfold kview in Hv. rewrite Ht, Hv' in Hv. injection Hv as -> ->.
  apply (permits_access _ _ _ acc); [|by apply Hok|done]. clear -Hv'. induction (mmap (mm t)) as [|v l IH]; simpl in *; [done|].
  destruct (_ <? _); [|by apply IH]. destruct (_ <=? _); [|done]. injection Hv' as _ <-. change VM_ACCESS with (Z.ones 3).
  rewrite Z.land_ones by lia. by apply Z.mod_pos_bound.
Qed.

(** C1: The label policy, on the address spaces the kernel keeps, with one
    exempt thread per unit.  Take a run from the moment the arbiter and its
    first child have declared themselves to the kernel, whose steps are: a
    datagram is served; memory of the channel changes in any way; a member of
    the group creates a thread, which enters the group; a client calls
    [mprotect] on its own address space or one of the calls of the arbiter; a
    task loads or stores at any address, with the page faults that follow.
    Then every page of every unit lies in an area of the arbiter in every
    client, and neither the access bits of the area nor the entry of the page
    table let the client read what may not flow to its label or write what may
    not flow both ways; at most one thread per unit is exempt from this, and
    only if it may write to the label of the unit.  (It is the thread whose
    request added the unit, see [Protection.alloc_unit_access].)

    Not among the steps are the client's own [mmap], [munmap] and [mremap]
    ([KernelDefects] shows what [mremap] does to the policy); requests of more
    than [MAX_SMALL] bytes (the ones above it that fit a unit leave it
    unprotected, see [Defects]); forks that do not name a new thread of the
    group; and failing resources of the kernel.  A served datagram is one whose
    handling returns: the theorem says nothing about a run once the allocator
    follows a link that a client has corrupted to memory outside the channel,
    the fault [Wild] of the model. *)
Theorem system_policy k p t tp k1 k2 junk w0 req w :
  start_ok k p t tp → 0 ≤ p < 2 ^ 32 → 0 ≤ label junk < 2 ^ 64 → 0 ≤ ownership junk < 2 ^ 64 →
  sys_absys_thread_control cur AB_SET_ME_ARBITER k = Ret (0, k1) →
  sys_absys_thread_control p AB_SET_ME_SPECIAL k1 = Ret (0, k2) →
  init_first_child junk p (init_arbiter_thread k2) = Ret (tt, w0) →
  rtc full_step (zero_request, w0) (req, w) → policy_holds w.
Proof using Type.
  intros S Hp Hl Ho E1 E2 E R. apply winv_policy. apply (full_run_winv _ _ R). simpl.
  destruct (start_member _ _ _ _ _ _ S E1 E2) as [M B].
  eapply (boot_winv k2 p junk); [|exact E]. split; simpl; rewrite ?B; done.
Qed.
End System.

(** * A run *)

(** Task 1 will be the arbiter and has mapped the channel, 100 is its first
    child. *)
Definition mm_plain : mm_struct := Mm [VmArea 0x8048000 0x804a000 sys_flags 0 0 0 false] 2 0 0 0 0 0x8049000 0x804a000 ∅.
Definition task_arbiter : task_struct := Task (set_mmap (mmap mm_plain ++ [chan_area]) mm_plain) 1 1 0 0 0 0.
Definition task_main : task_struct := Task mm_plain 100 100 0 0 1 0.
Definition k_start : kernel := Kern (<[1 := task_arbiter]> (<[100 := task_main]> ∅)) 0 [] (k_phys k_chan).

#[local] Instance run_os : AbOs kernel := os conf0 false (- ENOMEM) 0 1.
Abbreviation kserver := (abt_request * world kernel)%type.

Definition or_else {A} (d : A) (o : outcome A) : A := match o with Ret a => a | Fault _ => d end.
Definition k_arbiter : kernel := (or_else (0, k_start) (sys_absys_thread_control 1 AB_SET_ME_ARBITER k_start)).2.
Definition k_child : kernel := (or_else (0, k_start) (sys_absys_thread_control 100 AB_SET_ME_SPECIAL k_arbiter)).2.
Definition y_boot : kserver :=
  (zero_request, (or_else (tt, init_arbiter_thread k_child) (init_first_child blank MAIN (init_arbiter_thread k_child))).2).
Definition ksend (p : Z) (pkt : list Z) (x : kserver) : outcome kserver :=
  server_step (RecvPkt pkt (from_addr p)) env0 x.1 x.2.
Definition kstate (x : kserver) : kernel := ab_os (w_ab x.2).

(** The main thread creates a category and a thread 101, registers it without
    label and ownership, allocates memory labelled with the category and stores
    a byte in it; 101 then tries to load the byte and to open the memory. *)
Definition y1 : kserver := or_else y_boot (ksend MAIN (pkt_create_cat CAT_S) y_boot).
Definition k_fork : kernel := (or_else (0, k_start) (do_fork MAIN 101 (kstate y1))).2.
Definition k_join : kernel := (or_else (0, k_start) (sys_absys_thread_control 101 AB_SET_ME_SPECIAL k_fork)).2.
Definition y2 : kserver := (y1.1, set_os k_join y1.2).
Definition y3 : kserver := or_else y2 (ksend MAIN (pkt_fork 0 0 101) y2).
Definition y4 : kserver := or_else y3 (ksend MAIN (pkt_malloc 100 1) y3).
Definition secret : Z := AB_HEAP_START + 8.
Definition k_store : kernel := (or_else (None, k_start) (store conf0 ops0 100 secret 42 0 (kstate y4))).2.
Definition y5 : kserver := (y4.1, set_os k_store y4.2).
Definition k_load : kernel := (or_else (inr 0, k_start) (load conf0 ops0 101 secret 0 (kstate y5))).2.
Definition y6 : kserver := (y5.1, set_os k_load y5.2).
Definition k_try : kernel := (or_else (0, k_start) (sys_mprotect conf0 101 AB_HEAP_START UNIT_SIZE 7 (kstate y6))).2.
Definition y7 : kserver := (y6.1, set_os k_try y6.2).

Example run_views :
  kview k_try 100 AB_HEAP_START = Some (true, 3) ∧ kview k_try 101 AB_HEAP_START = Some (true, 0) ∧
  kview k_try 101 0x80009000 = Some (true, 0) ∧
  match load conf0 ops0 100 secret 0 k_try with Ret (r, _) => r | Fault _ => inr 0 end = inr 42 ∧
  match load conf0 ops0 101 secret 0 k_try with Ret (r, _) => r | Fault _ => inr 0 end = inl (Sigsegv SEGV_ACCERR).
Proof. by vm_compute. Qed.

Lemma run_start : start_ok 1 k_start 100 task_arbiter task_main.
Proof. split; [done|apply tasks_okb_spec; by vm_compute|by split|by split]. Qed.

(** Membership of concrete kernels *)
Lemma member_check k l q :
  bool_decide (k_res k = []) && tasks_okb k && groupb k 1 l && bool_decide (q ∈ l) = true → kmember 1 k q.
Proof.
  rewrite !andb_true_iff. intros [[[H1%bool_decide_eq_true_1 H2] H3] H4%bool_decide_eq_true_1].
  split; [done|]. split; [by apply tasks_okb_spec|]. exists l. split; [by apply groupb_spec|done].
Qed.

Section Run.
Context (Hcount : MAX_AREAS < sysctl_max_map_count conf0).
Context (Hprot : ∀ v a b, security_file_mprotect conf0 v a b = 0).
Context (Hmmap : ∀ a, -4095 ≤ security_file_mmap conf0 a ≤ 0).
Abbreviation run_step := (full_step conf0 ops0 false (- ENOMEM) 0 1 Hcount Hprot Hmmap).

Lemma ksend_step p pkt (x : kserver) :
  let y := or_else x (ksend p pkt x) in
  match ksend p pkt x with Ret z => bytes_ok (rdata z.1) | Fault _ => false end = true →
  (∀ op, opcode_of (opcode (decode (A := rpc_header) (rdata y.1))) = Some op →
     in_scope (HK := laws conf0 false (- ENOMEM) 0 1 Hcount Hprot Hmmap) x.2 y.1 op) →
  run_step x y.
Proof.
  intros y. unfold y. clear y. destruct (ksend p pkt x) as [y|] eqn:E; [|done]. cbn [or_else]. intros Hb Hs.
  destruct x as [r0 w0], y as [r1 w1].
  refine (full_serve _ _ _ _ _ _ _ _ _ (RecvPkt pkt (from_addr p)) env0 r0 w0 r1 w1 E _ Hs).
  apply Forall_forall. intros z Hz. unfold bytes_ok in Hb. rewrite forallb_forall in Hb.
  specialize (Hb z (proj1 (list_elem_of_In _ _) Hz)).
  apply andb_true_iff in Hb as [?%Z.leb_le ?%Z.ltb_lt]. split; lia.
Qed.

Lemma full_run : rtc run_step y_boot y7.
Proof.
  eapply rtc_l with y1.
  { apply (ksend_step MAIN (pkt_create_cat CAT_S) y_boot); [by vm_compute|].
    intros op Hop. vm_compute in Hop. by injection Hop as <-. }
  eapply rtc_l with y2.
  { unfold y2. rewrite (surjective_pairing y1) at 1. apply (full_create _ _ _ _ _ _ _ _ _ 100 101 k_fork).
    - apply (member_check _ [100]). by vm_compute.
    - by vm_compute.
    - by vm_compute.
    - by vm_compute. }
  eapply rtc_l with y3.
  { apply (ksend_step MAIN (pkt_fork 0 0 101) y2); [by vm_compute|].
    intros op Hop. vm_compute in Hop. injection Hop as <-. split; [apply (member_check _ [100; 101]); by vm_compute|].
    intros cl d [_ Hd]. revert cl d Hd. change (map_Forall (λ _ d, pid d ≠ 101) (descs (w_abt y2.2))).
    by apply (bool_decide_eq_true_1 _); vm_compute. }
  eapply rtc_l with y4.
  { apply (ksend_step MAIN (pkt_malloc 100 1) y3); [by vm_compute|].
    intros op Hop. vm_compute in Hop. injection Hop as <-. by vm_compute. }
  eapply rtc_l with y5.
  { unfold y5. rewrite (surjective_pairing y4) at 1. apply (full_store _ _ _ _ _ _ _ _ _ 100 secret 42 0 None k_store); [by vm_compute| |by vm_compute..].
    apply tasks_okb_spec. by vm_compute. }
  eapply rtc_l with y6.
  { unfold y6. rewrite (surjective_pairing y5) at 1.
    apply (full_load _ _ _ _ _ _ _ _ _ 101 secret 0 (inl (Sigsegv SEGV_ACCERR)) k_load); [by vm_compute| |by vm_compute..].
    apply tasks_okb_spec. by vm_compute. }
  eapply rtc_l with y7; [|done].
  unfold y7. rewrite (surjective_pairing y6) at 1.
  apply (full_call _ _ _ _ _ _ _ _ _ 101 (sys_mprotect conf0 101 AB_HEAP_START UNIT_SIZE 7) (- EACCES) k_try).
  - apply (member_check _ [100; 101]). by vm_compute.
  - by constructor.
  - by vm_compute.
Qed.
End Run.

Lemma system_policy_witness : policy_holds y7.2 ∧ kview (kstate y7) 101 AB_HEAP_START = Some (true, PROT_NONE).
Proof.
  assert (Hcount : MAX_AREAS < sysctl_max_map_count conf0) by (by vm_compute).
  assert (Hprot : ∀ v a b, security_file_mprotect conf0 v a b = 0) by done.
  assert (Hmmap : ∀ a, -4095 ≤ security_file_mmap conf0 a ≤ 0) by (intros a; simpl; lia).
  split; [|by vm_compute].
  refine (system_policy conf0 ops0 false (- ENOMEM) 0 1 Hcount Hprot Hmmap k_start 100 task_arbiter task_main k_arbiter k_child
    blank y_boot.2 y7.1 y7.2 run_start _ _ _ _ _ _ _); [by vm_compute..|].
  rewrite <-surjective_pairing. exact (full_run Hcount Hprot Hmmap).
Defined.
