(* ===== verification/KernelDefects.v ===== *)
(** What the calls of the kernel do not keep: behaviours that the comments of
    [ab_os_interface.h] and of the page fault code exclude, for all kernels
    ([thread_control_unguarded], [page_stops_arbiter]) and on concrete ones. *)

From S2P Require Import Prelude LinkedList Client Chunk Heap Os Malloc Protection Pte Vma VmaSpec Kernel Mprotect Regions Group KernelSpec Fork KernelLaws Fault FaultSpec Channel Mremap Mmap Futex Policy Protocol Arbiter Scenario System.

Definition after (o : outcome (Z * kernel)) : kernel := match o with Ret (_, k) => k | Fault _ => k0 end.
Definition ret_of (o : outcome (Z * kernel)) : option Z := match o with Ret (r, _) => Some r | Fault _ => None end.

(** * The role of arbiter *)

(** C36: [absys_thread_control] does not ask who calls.  Any child of a group can
    declare itself an arbiter and so becomes the arbiter of its arbiter: the
    test at the entry of every call of the arbiter then passes for it and the
    old arbiter as the target, so that it may map, unmap and protect pages of
    the old arbiter. *)
Theorem thread_control_unguarded k cur l p :
  group k cur l → p ∈ l →
  ∃ k', sys_absys_thread_control p AB_SET_ME_ARBITER k = Ret (0, k') ∧ controls p cur k' = Ret (true, k').
Proof.
  intros G Hp. pose proof G as [[Hnd Hc] _ Hno]. destruct (group_task _ _ _ _ G Hp) as [t Ht].
  pose proof (group_not_cur _ _ _ G) as Hcur. assert (Hne : p ≠ cur) by (by intros ->).
  set (n := s32 (ab_category_count k + 1)).
  set (t' := set_ab_identity (convert_to_identity n AB_SET_ME_ARBITER) (set_mm (set_ab_brks AB_HEAP_START AB_HEAP_START (mm t)) t)).
  set (k' := Kern (<[p := t']> (tasks k)) n (k_res k) (k_phys k)).
  assert (Ha : is_arbiter t' = true).
  { unfold is_arbiter, get_role, t'. cbn [ab_identity set_ab_identity]. by rewrite identity_role. }
  assert (Hc' : chain (tasks k') (cur :: l) cur).
  { revert Hc. generalize (cur :: l) as ps. intros ps. induction ps as [|r ps IH]; simpl; [done|].
    intros [(tr & Htr & Hx) Hps]. split; [|auto]. destruct (decide (p = r)) as [<-|].
    - rewrite lookup_insert_eq. exists t'. split; [done|]. assert (tr = t) as -> by congruence. exact Hx.
    - rewrite lookup_insert_ne by done. eauto. }
  exists k'. split.
  - unfold sys_absys_thread_control. change (AB_SET_ME_ARBITER =? AB_SET_ME_ARBITER) with true.
    change (AB_SET_ME_ARBITER =? AB_SET_ME_SPECIAL) with false. cbn iota.
    unfold mbind, st_bind, gets, modify, upd_task. cbn [tasks set_tasks]. rewrite Ht. unfold mret, st_ret.
    cbn [tasks set_tasks]. rewrite lookup_insert_eq. cbn [tasks set_tasks ab_category_count k_res k_phys]. by rewrite insert_insert_eq.
  - assert (Ht' : tasks k' !! p = Some t') by apply lookup_insert_eq.
    assert (El : find_my_arbiter (tasks k') cur = Ret (Some p)).
    2:{ unfold controls, mbind, st_bind, get_task, gets, lift. rewrite Ht', Ha. cbn [negb]. rewrite El.
        unfold mret, st_ret. by rewrite bool_decide_eq_true_2. }
    apply list_elem_of_split in Hp as (l1 & l2 & ->). destruct Hc' as [(ta & Hta & Hx) Hc'].
    unfold find_my_arbiter. rewrite Hta, Hx.
    replace (match l1 ++ p :: l2 with [] => cur | p' :: _ => p' end) with (match l1 with [] => p | p' :: _ => p' end) by (by destruct l1).
    apply (find_arbiter_chain _ l1 p t' l2); [exact Hc'|done| |by apply lookup_insert_eq|done|].
    + assert (Hsz : (length (cur :: l1 ++ p :: l2) ≤ size (tasks k'))%nat).
      { apply ring_size; [done|]. intros r Hr. eapply (chain_lookup _ (cur :: l1 ++ p :: l2) cur); [|done]. split; [by exists ta|done]. }
      simpl in Hsz. rewrite length_app in Hsz. simpl in Hsz. cbn [tasks k'] in Hsz |- *. lia.
    + intros r tr Hr Htr. assert (Hrp : p ≠ r).
      { intros ->. apply NoDup_cons in Hnd as [_ Hnd]. apply NoDup_app in Hnd as (_ & Hnd & _). apply (Hnd r Hr). by left. }
      cbn [tasks k'] in Htr. rewrite lookup_insert_ne in Htr by done. apply (Hno r tr); [set_solver|done].
Qed.

Lemma thread_control_unguarded_witness :
  ∃ k', sys_absys_thread_control 101 AB_SET_ME_ARBITER k0 = Ret (0, k') ∧ controls 101 1 k' = Ret (true, k').
Proof. exact (thread_control_unguarded k0 1 [101; 100] 101 k0_group ltac:(by left)). Defined.

(** The client 101 declares itself an arbiter. *)
Definition k_promoted : kernel := after (sys_absys_thread_control 101 AB_SET_ME_ARBITER k0).
Definition k_usurped : kernel := after (sys_absys_munmap conf0 101 1 0x8048000 0x2000 k_promoted).
(** The client 100, a member already, enters the group again. *)
Definition k_reentered : kernel := after (sys_absys_thread_control 100 AB_SET_ME_SPECIAL k0).

(** On the kernel [k0]: a client that declares itself an arbiter can unmap the
    memory of task 1.  A client that enters the group a second time takes the
    children out of the arbiter's ring: the arbiter is refused every further
    call on them, so protections are no longer changed, and its next walk over
    the group would not end. *)
Example group_open_to_clients :
  is_arbiter (default (Task mm_child 0 0 1 0 0 0) (tasks k0 !! 101)) = false ∧
  kview k0 1 0x8048000 = Some (false, 3) ∧ kview k_usurped 1 0x8048000 = None ∧
  sys_absys_mprotect conf0 1 101 AB_HEAP_START PAGESIZE PROT_NONE k_reentered = Ret (- EPERM, k_reentered) ∧
  sys_absys_mprotect conf0 1 100 AB_HEAP_START PAGESIZE PROT_NONE k_reentered = Ret (- EPERM, k_reentered) ∧
  list_for_each_entry (tasks k_reentered) 1 = Fault Hang.
Proof. by vm_compute. Qed.

(** One page is unmapped for the child 100. *)
Definition k_unmapped : kernel := after (sys_absys_munmap conf0 1 100 AB_HEAP_START PAGESIZE k0).

(** The child 101 has a page of its own in a range that is mapped for 100. *)
Definition mm_own : mm_struct :=
  Mm (mmap mm_child ++ [VmArea 0xa0000000 0xa0001000 sys_flags 0 0 0 false]) 13 0 0 AB_HEAP_START AB_HEAP_START 0 0 ∅.
Definition k_own : kernel := after ('(_, k) ← upd_task 101 (set_mm mm_own) k0; Ret (0, k)).

(** Memory runs out for the second child while the break grows. *)
Definition k_short : kernel := Kern (tasks k0) (ab_category_count k0) [true; false] (k_phys k0).
Definition brk_short : outcome (Z * kernel) := sys_absys_brk conf0 1 100 (heap_end + 10 * PAGESIZE) k_short.

(** The calls that change ranges interfere with the other children more
    than they should.  Unmapping one page for a child removes the whole break
    area from its siblings.  Mapping a range in which a sibling has a page of
    its own at the front is a bug of the kernel.  When memory runs out half way,
    [absys_brk] reports the old break but leaves the range mapped in the
    children it reached, and every later request to grow fails, with memory at
    hand. *)
Example region_calls_interfere :
  kview k0 101 0x80009000 = Some (true, 3) ∧ kview k_unmapped 100 0x80009000 = Some (true, 3) ∧
  kview k_unmapped 101 0x80009000 = None ∧
  sys_absys_mmap conf0 false (- ENOMEM) 1 100 0xa0000000 0x2000 3 (Z.lor MAP_PRIVATE (Z.lor MAP_ANONYMOUS MAP_FIXED)) 0 k_own
    = Fault KernelOops ∧
  ret_of brk_short = Some heap_end ∧ kview (after brk_short) 101 heap_end = Some (true, 3) ∧
  kview (after brk_short) 100 heap_end = None ∧ k_res (after brk_short) = [] ∧
  ret_of (sys_absys_brk conf0 1 100 (heap_end + 10 * PAGESIZE) (after brk_short)) = Some heap_end.
Proof. by vm_compute. Qed.

(** * Page faults *)

(** The child 100 may read a page and does; then the arbiter lets it write. *)
Definition sp0 : Z := 0xbf000000.
Definition k_reader : kernel := after (sys_absys_mprotect conf0 1 100 CHANNEL_ADDR 0x5000 PROT_READ k_chan).
Definition k_seen : kernel := after ('(_, k) ← load conf0 ops0 100 chan_page sp0 k_reader; Ret (0, k)).
Definition k_writer : kernel := after (sys_absys_mprotect conf0 1 100 CHANNEL_ADDR 0x5000 (Z.lor PROT_READ PROT_WRITE) k_seen).
Definition k_lost : kernel := after ('(_, k) ← store conf0 ops0 100 chan_page 42 sp0 k_writer; Ret (0, k)).
Definition loaded (p : Z) (k : kernel) : option (fault_result + Z) :=
  match load conf0 ops0 p chan_page sp0 k with Ret (r, _) => Some r | Fault _ => None end.
Definition stored (p : Z) (k : kernel) : option (option fault_result) :=
  match store conf0 ops0 p chan_page 42 sp0 k with Ret (r, _) => Some r | Fault _ => None end.

(** A page of the heap that a child has read before the arbiter lets it
    write is no longer shared.  The change of protection leaves its entry
    read-only, the first store makes a private copy, and neither the other
    children nor the arbiter see what is stored, contrary to the comment in
    [do_wp_page].  A child that had not read the page would store into the
    shared one. *)
Example protection_change_unshares :
  kview k_writer 100 chan_page = Some (true, 3) ∧ stored 100 k_writer = Some None ∧
  loaded 100 k_lost = Some (inr 42) ∧ loaded 101 k_lost = Some (inr 0) ∧ loaded 1 k_lost = Some (inr 0) ∧
  loaded 101 (after ('(_, k) ← store conf0 ops0 100 chan_page 42 sp0 k_chan; Ret (0, k))) = Some (inr 42).
Proof. by vm_compute. Qed.

(** A copy of the client 100 that has not entered the group *)
Definition k_outsider : kernel := after (do_fork 100 102 k_chan).

(** Faults on areas of the arbiter can stop more than the program.  A process
    that a client has created, and that has not called [absys_thread_control],
    keeps the areas of the arbiter; its first access there fails an assertion
    of the kernel.  An access to a page that the arbiter has not mapped is
    reported as a lack of memory, which starts the out-of-memory killer. *)
Example faults_stop_others :
  kview k_outsider 102 chan_page = Some (true, 3) ∧ load conf0 ops0 102 chan_page sp0 k_outsider = Fault KernelOops ∧
  kview k0 1 chan_page = None ∧ kview k0 100 chan_page = Some (true, 3) ∧ loaded 100 k0 = Some (inl OutOfMemory).
Proof. by vm_compute. Qed.

(** * Calls of plain Linux *)

(** The client 101 stores a byte that 100 may not read. *)
Definition k_secret : kernel := after ('(_, k) ← store conf0 ops0 101 chan_page 42 sp0 k_chan; Ret (0, k)).
Definition k_denied : kernel := after (sys_absys_mprotect conf0 1 100 0x80001000 PAGESIZE PROT_NONE k_secret).
(** It puts a copy of a page it may use in place of the forbidden one. *)
Definition grab : outcome (Z * kernel) :=
  sys_mremap conf0 100 CHANNEL_ADDR 0 PAGESIZE (Z.lor MREMAP_FIXED MREMAP_MAYMOVE) 0x80001000 k_denied.

(** [mremap] is not guarded as [mprotect] is, and undoes what the arbiter
    has set.  A client that is denied a page of the channel gets a signal when
    it reads it; after one call of [mremap], from any page of the arbiter it may
    access to the address of the denied one, it has that access there, and the
    page fault code hands it the arbiter's frame with the byte of the other
    client. *)
Example mremap_grants_access :
  kview k_denied 100 chan_page = Some (true, 0) ∧ loaded 100 k_denied = Some (inl (Sigsegv SEGV_ACCERR)) ∧
  ret_of grab = Some 0x80001000 ∧ kview (after grab) 100 chan_page = Some (true, 3) ∧
  loaded 100 (after grab) = Some (inr 42) ∧ stored 100 (after grab) = Some None.
Proof. by vm_compute. Qed.

(** The arbiter asserts that the kernel has moved the break *)
Lemma refused_unit `{AbOs K} abt p nb av L (s : abst K) B :
  h_ab_curbrk (ab_heap s) = B → 0 ≤ B + UNIT_SIZE < 2 ^ 32 → 0 < B →
  absys_brk (ab_os s) p (B + UNIT_SIZE) = Ret (B, ab_os s) →
  alloc_unit abt p nb av L s = Fault AssertFail.
Proof.
  intros Hcb Hu H0 E. unfold alloc_unit, __ablib_sbrk, __ablib_brk, mbind, st_bind, lh, gets, sys. simpl. rewrite Hcb.
  rewrite (proj2 (Z.eqb_neq B 0)) by lia. simpl. rewrite Hcb. rewrite (u32_small (B + UNIT_SIZE)) by lia.
  assert (U0 : 0 < UNIT_SIZE) by done. rewrite ?(proj2 (Z.ltb_ge (B + UNIT_SIZE) B)) by lia. simpl. rewrite E. simpl.
  rewrite ?(proj2 (Z.ltb_lt B (B + UNIT_SIZE))) by lia. done.
Qed.

(** A page in the way of the break *)
Section Blocked.
Context (c : kconf) (overcommit_never : bool) (hugetlb_error pgoff cur : Z).
#[local] Instance blocked_os : AbOs kernel := os c overcommit_never hugetlb_error pgoff cur.

Lemma brk_blocked k l p q t brk x :
  group k cur l → p ∈ l → q ∈ l → tasks_ok k → tasks k !! cur = Some t →
  start_ab_brk (mm t) ≤ brk → PAGE_ALIGN (ab_brk (mm t)) ≠ PAGE_ALIGN brk → PAGE_ALIGN brk + PAGESIZE < 2 ^ 32 →
  PAGE_ALIGN (ab_brk (mm t)) ≤ x < PAGE_ALIGN brk + PAGESIZE → is_Some (kview k q x) →
  sys_absys_brk c cur p brk k = Ret (ab_brk (mm t), k).
Proof using Type.
  intros G Hp Hq T Ht Hst Hne Hb Hx [y Hy]. destruct (controls_task _ _ _ _ G Hp) as (Ec & _).
  unfold sys_absys_brk. rewrite (bind_ret _ _ _ _ _ Ec). cbn [negb].
  rewrite (bind_ret (get_task cur) _ k t k) by (unfold get_task; by rewrite Ht).
  rewrite (proj2 (Z.ltb_ge _ _)), (proj2 (Z.eqb_neq _ _)) by done.
  rewrite (bind_ret (gets tasks) _ k (tasks k) k) by done.
  rewrite (bind_ret (lift (list_for_each_entry (tasks k) cur)) _ k l k)
    by (rewrite (list_for_each_ring _ _ _ (gr_ring _ _ _ G)); done).
  pose proof (page_align_word brk). rewrite (u32_small (PAGE_ALIGN brk + PAGESIZE)) by (unfold PAGESIZE in *; lia).
  destruct (brk_check_spec k cur (PAGE_ALIGN (ab_brk (mm t))) (PAGE_ALIGN brk + PAGESIZE) l T) as (b & Eb & Hfree);
    [intros r; by apply (group_task k cur l)|by apply (group_not_cur _ _ _ G)|].
  rewrite (bind_ret _ _ _ _ _ Eb). destruct b; [|done]. by rewrite (Hfree eq_refl q x Hq Hx) in Hy.
Qed.

(** C35: One page of any owner in the address space of one child, in the range of
    the next unit or on the page behind it, stops the arbiter once it has a
    unit (its break is known): the call of [absys_brk] that [alloc_unit] makes
    for the next unit, for whichever child of the group, returns the old break,
    and the assertion of [alloc_unit] that it does not fails. *)
Theorem page_stops_arbiter abt p q nb av L (s : abst kernel) l t x :
  group (ab_os s) cur l → p ∈ l → q ∈ l → tasks_ok (ab_os s) → tasks (ab_os s) !! cur = Some t →
  let B := ab_brk (mm t) in
  page_aligned B = true → start_ab_brk (mm t) ≤ B → AB_HEAP_START ≤ B ≤ TASK_SIZE → h_ab_curbrk (ab_heap s) = B →
  B ≤ x < B + UNIT_SIZE + PAGESIZE → is_Some (kview (ab_os s) q x) →
  alloc_unit abt p nb av L s = Fault AssertFail.
Proof using Type.
  intros G Hp Hq T Ht B Hal Hst Hr Hcb Hx Hv. unfold AB_HEAP_START, TASK_SIZE in Hr.
  assert (Hn : page_aligned (B + UNIT_SIZE) = true) by (by apply unit_aligned).
  assert (A1 : PAGE_ALIGN B = B) by (apply page_align_aligned; [unfold PAGESIZE; lia|done]).
  assert (A2 : PAGE_ALIGN (B + UNIT_SIZE) = B + UNIT_SIZE)
    by (apply page_align_aligned; [unfold UNIT_SIZE, PAGE_PER_UNIT, PAGESIZE; lia|done]).
  assert (Hu : 0 ≤ B + UNIT_SIZE < 2 ^ 32 - 2 * PAGESIZE) by (unfold UNIT_SIZE, PAGE_PER_UNIT, PAGESIZE; lia).
  assert (E : absys_brk (ab_os s) p (B + UNIT_SIZE) = Ret (B, ab_os s)).
  { change (syscall (sys_absys_brk c cur p (B + UNIT_SIZE)) (ab_os s) = Ret (B, ab_os s)). unfold syscall.
    rewrite (brk_blocked (ab_os s) l p q t (B + UNIT_SIZE) x); rewrite ?A2; try fold B; rewrite ?A1; try done;
      try (unfold UNIT_SIZE, PAGE_PER_UNIT, PAGESIZE in *; lia).
    change (Ret (syscall_ret B, ab_os s) = Ret (B, ab_os s)). by rewrite brk_ret by (unfold PAGESIZE; lia). }
  apply (refused_unit abt p nb av L s B); [done|unfold PAGESIZE in *; lia|lia|exact E].
Qed.
End Blocked.

(** Nothing prevents a client from mapping such a page: in the run of [System],
    where one unit has been allocated, the client 101 maps a page of its own
    into the range of the second unit. *)
Definition squat_next : outcome (Z * kernel) :=
  sys_mmap2 conf0 false (- ENOMEM) 7 (λ _, None) 101 (AB_HEAP_START + 15 * PAGESIZE) PAGESIZE 3
    (Z.lor MAP_PRIVATE (Z.lor MAP_ANONYMOUS MAP_FIXED)) 0 0 (kstate y4).
#[local] Instance squat_os : AbOs kernel := os conf0 false (- ENOMEM) 0 1.

Lemma page_stops_arbiter_witness :
  ret_of squat_next = Some (AB_HEAP_START + 15 * PAGESIZE) ∧
  alloc_unit (w_abt y4.2) 100 112 0 [1] (AbSt (ab_heap (w_ab y4.2)) (after squat_next)) = Fault AssertFail.
Proof.
  assert (Ht : match tasks (after squat_next) !! 1 with
               | Some t => (start_ab_brk (mm t) =? AB_HEAP_START) && (ab_brk (mm t) =? AB_HEAP_START + UNIT_SIZE)
               | None => false end = true) by (by vm_compute).
  assert (Hv : bool_decide (is_Some (kview (after squat_next) 101 (AB_HEAP_START + 15 * PAGESIZE))) = true) by (by vm_compute).
  assert (G : group (after squat_next) 1 [100; 101]) by (apply groupb_spec; by vm_compute).
  assert (T : tasks_ok (after squat_next)) by (apply tasks_okb_spec; by vm_compute).
  assert (Hb : h_ab_curbrk (ab_heap (w_ab y4.2)) = AB_HEAP_START + UNIT_SIZE) by (by vm_compute).
  assert (Hr : ret_of squat_next = Some (AB_HEAP_START + 15 * PAGESIZE)) by (by vm_compute).
  split; [exact Hr|]. revert Ht Hv G T Hb. generalize (after squat_next) (ab_heap (w_ab y4.2)) (w_abt y4.2).
  intros k h abt Ht Hv G T Hb. destruct (tasks k !! 1) as [t|] eqn:Et; [|done].
  apply andb_prop in Ht as [H1%Z.eqb_eq H2%Z.eqb_eq].
  pose proof (page_stops_arbiter conf0 false (- ENOMEM) 0 1 abt 100 101 112 0 [1] (AbSt h k) [100; 101] t
    (AB_HEAP_START + 15 * PAGESIZE) G ltac:(by left) ltac:(right; by left) T Et) as W.
  cbn [ab_heap ab_os] in W. rewrite H1, H2 in W.
  unfold AB_HEAP_START, UNIT_SIZE, PAGE_PER_UNIT, PAGESIZE, TASK_SIZE in W.
  apply W; [reflexivity|lia|lia|exact Hb|lia|].
  by apply bool_decide_eq_true_1 in Hv.
Defined.

(** The client 101 maps a page of its own where the channel will grow. *)
Definition squat : outcome (Z * kernel) :=
  sys_mmap2 conf0 false (- ENOMEM) 7 (λ _, None) 101 (AB_HEAP_START + 5 * PAGESIZE) PAGESIZE 3
    (Z.lor MAP_PRIVATE (Z.lor MAP_ANONYMOUS MAP_FIXED)) 0 0 (kstate y3).
Definition y_squat : kserver := (y3.1, set_os (after squat) y3.2).
Definition fault_of {A} (o : outcome A) : option fault := match o with Ret _ => None | Fault f => Some f end.

(** The request that the page stops is served without it. *)
Example mapping_stops_arbiter :
  ret_of squat = Some (AB_HEAP_START + 5 * PAGESIZE) ∧
  fault_of (ksend MAIN (pkt_malloc 100 1) y3) = None ∧
  fault_of (ksend MAIN (pkt_malloc 100 1) y_squat) = Some AssertFail.
Proof. by vm_compute. Qed.

(** * Futexes *)

(** The second page of the global data of [k_data] has not been written to. *)
Definition untouched : Z := 0x8049010.
Definition k_zero : kernel :=
  match shared_key_round conf0 ops0 100 0x8049000 0x10 false k_data with Ret (_, k) => k | Fault _ => k0 end.

(** The key of a word in global data that nobody has written to yet is never
    found: the page that [get_futex_key] brings in to read is the page of
    zeroes, which belongs to no mapping, and the loop that waits for a mapping
    does not end. *)
Lemma untouched_futex_hangs : get_futex_key conf0 ops0 100 untouched true false k_data = Fault Hang.
Proof.
  apply (loopM_stuck _ (λ _ k, k = k_data ∨ k = k_zero)); [by left|].
  assert (E1 : shared_key_round conf0 ops0 100 0x8049000 0x10 false k_data = Ret (inl tt, k_zero)) by (by vm_compute).
  assert (E2 : shared_key_round conf0 ops0 100 0x8049000 0x10 false k_zero = Ret (inl tt, k_zero)) by (by vm_compute).
  intros _ k [-> | ->]; exists tt, k_zero; (split; [|by right]); [exact E1|exact E2].
Qed.
